(** * todo.ai: the tool-calling chat function and its stream consumer

    A shallow embedding of
      - [supabase/functions/todo-chat/index.ts]: the tool catalog,
        [executeTool] and the request handler passed to [serve];
      - [src/pages/Chat.tsx]: [send], with the part of it that reads
        the event stream and builds the assistant message, and the
        submit of the input box;
      - [src/components/TodoPanel.tsx]: the label of a due date and
        the two lists of the panel.

    Conventions.  A JavaScript string is modelled by the bytes of its
    UTF-8 encoding ([string] of the Standard Library), so [TextEncoder]
    is the identity and a streaming [TextDecoder] gives the bytes back,
    but for those of a character that the chunk cuts and for a byte
    order mark at the start of the stream.
    [undefined] is [None] in an [option json].  External services (the
    task table, the completion gateway) are explicit state or explicit
    oracles, and what the code sends them is kept in a trace. *)

From Stdlib Require Import String Ascii List Bool Arith NArith ZArith Lia DecimalString.
From Stdlib Require Import Permutation.
Import ListNotations.
Local Open Scope list_scope.
Local Open Scope string_scope.
Set Warnings "-register-all".

(** ** Strings as JavaScript uses them *)

Module Str.

Definition code (c : ascii) : N := N_of_ascii c.

(** The double quote, the backslash and the line feed. *)
Definition dq : ascii := "034"%char.
Definition bs : ascii := "092"%char.
Definition lf : ascii := "010"%char.
Definition cr : ascii := "013"%char.

Definition DQ : string := String dq EmptyString.
Definition LF : string := String lf EmptyString.

Fixpoint rev (s : string) : string :=
  match s with
  | EmptyString => EmptyString
  | String c r => rev r ++ String c EmptyString
  end.

Definition startsWith (s p : string) : bool := String.prefix p s.
Definition endsWith (s p : string) : bool := String.prefix (rev p) (rev s).

(** [s.slice(n)] for [0 <= n]. *)
Fixpoint slice_from (n : nat) (s : string) : string :=
  match n, s with
  | O, _ => s
  | S k, String _ r => slice_from k r
  | S _, EmptyString => EmptyString
  end.

(** [s.slice(0, -1)]. *)
Definition drop_last (s : string) : string :=
  match rev s with
  | EmptyString => EmptyString
  | String _ r => rev r
  end.

(** [s.indexOf(LF)] together with the two slices taken around it:
    [None] is index -1, [Some (line, rest)] is
    [(s.slice(0, i), s.slice(i + 1))]. *)
Fixpoint cut_line (s : string) : option (string * string) :=
  match s with
  | EmptyString => None
  | String c r =>
      if Ascii.eqb c lf then Some (EmptyString, r)
      else match cut_line r with
           | Some (l, r') => Some (String c l, r')
           | None => None
           end
  end.

(** [s.split(LF)]. *)
Fixpoint split_lines (s : string) : list string :=
  match s with
  | EmptyString => [EmptyString]
  | String c r =>
      if Ascii.eqb c lf then EmptyString :: split_lines r
      else match split_lines r with
           | l :: ls => String c l :: ls
           | [] => [String c EmptyString]
           end
  end.

Definition bytes (l : list N) : string :=
  string_of_list_ascii (map ascii_of_N l).

(** White space of [String.prototype.trim]: TAB, LF, VT, FF, CR, SP,
    U+00A0, U+1680, U+2000..U+200A, U+2028, U+2029, U+202F, U+205F,
    U+3000 and U+FEFF, each as its UTF-8 bytes. *)
Definition white_space : list string :=
  map bytes
    [ [9]; [10]; [11]; [12]; [13]; [32]; [194; 160]; [225; 154; 128];
      [226; 128; 128]; [226; 128; 129]; [226; 128; 130]; [226; 128; 131];
      [226; 128; 132]; [226; 128; 133]; [226; 128; 134]; [226; 128; 135];
      [226; 128; 136]; [226; 128; 137]; [226; 128; 138]; [226; 128; 168];
      [226; 128; 169]; [226; 128; 175]; [226; 129; 159]; [227; 128; 128];
      [239; 187; 191] ]%N.

Fixpoint strip_prefix (p s : string) : option string :=
  match p, s with
  | EmptyString, _ => Some s
  | String a p', String b s' =>
      if Ascii.eqb a b then strip_prefix p' s' else None
  | String _ _, EmptyString => None
  end.

Fixpoint strip_one (pats : list string) (s : string) : option string :=
  match pats with
  | [] => None
  | p :: ps =>
      match strip_prefix p s with
      | Some r => Some r
      | None => strip_one ps s
      end
  end.

Fixpoint strip_many (fuel : nat) (pats : list string) (s : string) : string :=
  match fuel with
  | O => s
  | S f =>
      match strip_one pats s with
      | Some r => strip_many f pats r
      | None => s
      end
  end.

Definition trimStart (s : string) : string :=
  strip_many (String.length s) white_space s.

Definition trimEnd (s : string) : string :=
  rev (strip_many (String.length s) (map rev white_space) (rev s)).

Definition trim (s : string) : string := trimEnd (trimStart s).

Definition is_empty (s : string) : bool :=
  match s with EmptyString => true | _ => false end.

(** [s.slice(0, n)]. *)
Fixpoint take (n : nat) (s : string) : string :=
  match n, s with
  | O, _ => EmptyString
  | S k, String c r => String c (take k r)
  | S _, EmptyString => EmptyString
  end.

(** A byte [10xxxxxx], which continues a character. *)
Definition is_continuation (c : ascii) : bool :=
  ((128 <=? code c) && (code c <=? 191))%N.

(** The number of bytes that have to follow the first byte of a
    character: one after [110xxxxx], two after [1110xxxx], three after
    [11110xxx]. *)
Definition lead_needs (c : ascii) : nat :=
  let n := code c in
  if ((192 <=? n) && (n <=? 223))%N then 1
  else if ((224 <=? n) && (n <=? 239))%N then 2
  else if ((240 <=? n) && (n <=? 247))%N then 3
  else 0.

(** How many bytes at the end of a text, given last byte first,
    begin a character that the text does not end. *)
Definition cut_length (reversed : string) : nat :=
  match reversed with
  | String c1 r1 =>
      if Nat.ltb 0 (lead_needs c1) then 1
      else if is_continuation c1 then
        match r1 with
        | String c2 r2 =>
            if Nat.ltb 1 (lead_needs c2) then 2
            else if is_continuation c2 then
              match r2 with
              | String c3 _ => if Nat.ltb 2 (lead_needs c3) then 3 else 0
              | EmptyString => 0
              end
            else 0
        | EmptyString => 0
        end
      else 0
  | EmptyString => 0
  end.

(** What a streaming decoder makes of well-formed UTF-8.  [bytes]
    are the bytes the call before kept, followed by those of the chunk;
    the result is the text decoded and the bytes kept for the next call,
    those of a character cut by the end of the chunk.  Bytes that are
    not well-formed UTF-8, which a decoder replaces by U+FFFD, are
    passed through. *)
Definition decode_stream (bytes : string) : string * string :=
  let r := rev bytes in
  let n := cut_length r in
  (rev (slice_from n r), rev (take n r)).

(** Well-formed UTF-8 as the decoder reads it, from a state in which
    [need] more bytes of a character are to come, the next of them
    between [lo] and [hi]; the text may end inside a character. *)
Fixpoint well_formed_from (need : nat) (lo hi : N) (s : string) : bool :=
  match s with
  | EmptyString => true
  | String c r =>
      let n := code c in
      match need with
      | O =>
          if (n <=? 127)%N then well_formed_from 0 128 191 r
          else if ((194 <=? n) && (n <=? 223))%N then well_formed_from 1 128 191 r
          else if (n =? 224)%N then well_formed_from 2 160 191 r
          else if (n =? 237)%N then well_formed_from 2 128 159 r
          else if ((225 <=? n) && (n <=? 239))%N then well_formed_from 2 128 191 r
          else if (n =? 240)%N then well_formed_from 3 144 191 r
          else if (n =? 244)%N then well_formed_from 3 128 143 r
          else if ((241 <=? n) && (n <=? 243))%N then well_formed_from 3 128 191 r
          else false
      | S k =>
          if ((lo <=? n) && (n <=? hi))%N then well_formed_from k 128 191 r else false
      end
  end.

Definition well_formed (s : string) : bool := well_formed_from 0 128 191 s.

(** The byte order mark, U+FEFF. *)
Definition BOM : string := bytes [239; 187; 191]%N.

(** A [TextDecoder]: the bytes it keeps for the next call, and whether
    it has decoded a character of the stream yet. *)
Record decoder : Type := mkDecoder {
  kept : string;
  started : bool
}.

(** [new TextDecoder()]. *)
Definition new_decoder : decoder := mkDecoder EmptyString false.

(** [s] without the byte order mark it begins with, if any. *)
Definition unmarked (s : string) : string :=
  match strip_prefix BOM s with
  | Some r => r
  | None => s
  end.

(** [decoder.decode(value, { stream: true })]: the text and the
    decoder after the call.  The first character of the stream is left
    out when it is the byte order mark. *)
Definition decode (d : decoder) (value : string) : string * decoder :=
  let (text, rest) := decode_stream (kept d ++ value) in
  if (started d || is_empty text)%bool then (text, mkDecoder rest (started d))
  else (unmarked text, mkDecoder rest true).

(** Decimal rendering of a natural number, as [`${i + 1}`]. *)
Definition of_nat (n : nat) : string :=
  NilEmpty.string_of_uint (Nat.to_uint n).

End Str.


(** ** Numbers: the double a JSON number denotes, and how it prints *)

Module Num.

Local Open Scope Z_scope.

(** A double: a zero, the finite value [m * 2 ^ k] with [0 < m], or
    an infinity; [neg] is the sign. *)
Inductive double : Type :=
| Zero (neg : bool)
| Finite (neg : bool) (m k : Z)
| Infinite (neg : bool).

Definition digit (c : ascii) : option Z :=
  let n := Z.of_N (N_of_ascii c) in
  if (48 <=? n) && (n <=? 57) then Some (n - 48) else None.

(** The digits of a lexeme up to its exponent, the dot set aside:
    their value, how many of them follow the dot, and what is left of
    the lexeme. *)
Fixpoint mantissa (s : string) (acc : Z) (after_dot : bool) (frac : Z) : Z * Z * string :=
  match s with
  | EmptyString => (acc, frac, s)
  | String c r =>
      match digit c with
      | Some v => mantissa r (10 * acc + v) after_dot (if after_dot then frac + 1 else frac)
      | None =>
          if Ascii.eqb c "."%char then mantissa r acc true frac
          else (acc, frac, s)
      end
  end.

Fixpoint digits_value (s : string) (acc : Z) : Z :=
  match s with
  | String c r =>
      match digit c with
      | Some v => digits_value r (10 * acc + v)
      | None => acc
      end
  | EmptyString => acc
  end.

(** The exponent part: [e] or [E], an optional sign, digits. *)
Definition exponent (s : string) : Z :=
  match s with
  | String _ (String sg r as r0) =>
      if Ascii.eqb sg "-"%char then - digits_value r 0
      else if Ascii.eqb sg "+"%char then digits_value r 0
      else digits_value r0 0
  | _ => 0
  end.

(** A lexeme of the JSON grammar as [(neg, d, e)]: the number
    [d * 10 ^ e], negated when [neg]. *)
Definition decimal (lexeme : string) : bool * Z * Z :=
  let (neg, s) :=
    match lexeme with
    | String c r => if Ascii.eqb c "-"%char then (true, r) else (false, lexeme)
    | EmptyString => (false, lexeme)
    end in
  let '(d, frac, rest) := mantissa s 0 false 0 in
  (neg, d, exponent rest - frac).

(** The number of decimal digits of [0 < n]. *)
Definition ndigits (n : Z) : Z :=
  Z.of_nat (String.length (NilZero.string_of_uint (N.to_uint (Z.to_N n)))).

(** [2 ^ k <= p / q], for [0 < p] and [0 < q]. *)
Definition at_least_pow2 (p q k : Z) : bool :=
  if 0 <=? k then q * 2 ^ k <=? p else q <=? p * 2 ^ (- k).

(** [p / q] rounded to an integer, a tie to the even one. *)
Definition round_even (p q : Z) : Z :=
  let n := p / q in
  let r := 2 * (p mod q) in
  if q <? r then n + 1
  else if q =? r then (if Z.even n then n else n + 1)
  else n.

(** The double nearest to [p / q], for [0 < p] and [0 < q], a tie
    going to the even significand: 53 bits, exponents from -1074,
    infinity from [2 ^ 1024] on. *)
Definition nearest (neg : bool) (p q : Z) : double :=
  let l := Z.log2 p - Z.log2 q in
  let e := if at_least_pow2 p q l then l else l - 1 in
  let k := Z.max (e - 52) (-1074) in
  let m := if 0 <=? k then round_even p (q * 2 ^ k) else round_even (p * 2 ^ (- k)) q in
  let '(m, k) := if m =? 2 ^ 53 then (2 ^ 52, k + 1) else (m, k) in
  if m =? 0 then Zero neg
  else if 1024 <=? Z.log2 m + k then Infinite neg
  else Finite neg m k.

(** The double a JSON number denotes.  A number of more than 309
    digits before the point is infinite and one that begins more than
    324 places after it is zero, whatever its digits. *)
Definition of_lexeme (lexeme : string) : double :=
  let '(neg, d, e) := decimal lexeme in
  if d =? 0 then Zero neg
  else
    let mag := ndigits d + e in
    if 310 <? mag then Infinite neg
    else if mag <? -330 then Zero neg
    else if 0 <=? e then nearest neg (d * 10 ^ e) 1
    else nearest neg d (10 ^ (- e)).

Definition is_zero (x : double) : bool :=
  match x with Zero _ => true | _ => false end.

(** *** Number::toString *)

Definition same (x y : double) : bool :=
  match x, y with
  | Finite _ m k, Finite _ m' k' => (m =? m') && (k =? k')
  | _, _ => false
  end.

(** [s * 10 ^ j] as a fraction. *)
Definition scaled (s j : Z) : Z * Z :=
  if 0 <=? j then (s * 10 ^ j, 1) else (s, 10 ^ (- j)).

(** The decimal exponent [n] of [p / q]: [10 ^ (n - 1) <= p / q < 10 ^ n]. *)
Fixpoint below_one (fuel : nat) (p q t : Z) : Z :=
  match fuel with
  | O => - t
  | S f => if q <=? p * 10 ^ (t + 1) then - t else below_one f p q (t + 1)
  end.

Definition decimal_exponent (p q : Z) : Z :=
  if q <=? p then ndigits (p / q) else below_one 400 p q 0.

(** The candidates with [kd] digits for [x = p / q]: the multiples of
    [10 ^ (n - kd)] just below and just above, kept when they denote
    [x]; the nearer one first, the even one on a tie. *)
Definition candidate (x : double) (p q n kd : Z) : option (Z * Z) :=
  let j := n - kd in
  (* lo = floor (x / 10 ^ j) *)
  let lo := if 0 <=? j then p / (q * 10 ^ j) else (p * 10 ^ (- j)) / q in
  let hi := lo + 1 in
  let denotes s := let (a, b) := scaled s j in same (nearest false a b) x in
  (* distance of s * 10 ^ j to p / q, times q * 10 ^ max (-j) 0 *)
  let dist s :=
    if 0 <=? j then Z.abs (s * 10 ^ j * q - p) else Z.abs (s * q - p * 10 ^ (- j)) in
  let pick s := if s =? 10 ^ kd then (10 ^ (kd - 1), n + 1) else (s, n) in
  match denotes lo && (0 <? lo), denotes hi with
  | true, true =>
      if dist lo <? dist hi then Some (pick lo)
      else if dist hi <? dist lo then Some (pick hi)
      else Some (pick (if Z.even lo then lo else hi))
  | true, false => Some (pick lo)
  | false, true => Some (pick hi)
  | false, false => None
  end.

Fixpoint shortest (fuel : nat) (x : double) (p q n kd : Z) : Z * Z * Z :=
  match fuel with
  | O => (0, n, kd)
  | S f =>
      match candidate x p q n kd with
      | Some (s, n') => (s, n', kd)
      | None => shortest f x p q n (kd + 1)
      end
  end.

Definition of_Z (z : Z) : string :=
  NilZero.string_of_uint (N.to_uint (Z.to_N z)).

Fixpoint zeros (n : nat) : string :=
  match n with
  | O => EmptyString
  | S k => String "0" (zeros k)
  end.

Fixpoint take (n : nat) (s : string) : string :=
  match n, s with
  | S k, String c r => String c (take k r)
  | _, _ => EmptyString
  end.

Fixpoint drop (n : nat) (s : string) : string :=
  match n, s with
  | S k, String _ r => drop k r
  | _, _ => s
  end.

(** The text of a finite double that is not zero, from its digits
    [s] (there are [k] of them) and its exponent [n]. *)
Definition layout (s k n : Z) : string :=
  let ds := of_Z s in
  if (k <=? n) && (n <=? 21) then ds ++ zeros (Z.to_nat (n - k))
  else if (0 <? n) && (n <=? 21) then
    take (Z.to_nat n) ds ++ "." ++ drop (Z.to_nat n) ds
  else if (-6 <? n) && (n <=? 0) then "0." ++ zeros (Z.to_nat (- n)) ++ ds
  else
    let e := n - 1 in
    let sign := if e <? 0 then "-" else "+" in
    (if k =? 1 then ds else take 1 ds ++ "." ++ drop 1 ds)
    ++ "e" ++ sign ++ of_Z (Z.abs e).

(** Number::toString: the shortest digits that denote the double. *)
Definition to_string (x : double) : string :=
  match x with
  | Zero _ => "0"
  | Infinite neg => if neg then "-Infinity" else "Infinity"
  | Finite neg m k =>
      let (p, q) := if 0 <=? k then (m * 2 ^ k, 1) else (m, 2 ^ (- k)) in
      let n := decimal_exponent p q in
      let '(s, n', kd) := shortest 17 (Finite false m k) p q n 1 in
      (if neg then "-" else EmptyString) ++ layout s kd n'
  end.

(** [JSON.stringify] of a number: an infinity is written [null]. *)
Definition json_text (lexeme : string) : string :=
  match of_lexeme lexeme with
  | Infinite _ => "null"
  | x => to_string x
  end.

End Num.


(** ** JSON values, [JSON.stringify] and [JSON.parse] *)

Module Json.

(** A number keeps the text it was written with; the double it
    denotes is [Num.of_lexeme] of that text. *)
Inductive json : Type :=
| JNull
| JBool (b : bool)
| JNum (lexeme : string)
| JStr (s : string)
| JArr (items : list json)
| JObj (members : list (string * json)).

Definition hex_digit (n : N) : ascii :=
  ascii_of_N (if (n <? 10)%N then 48 + n else 87 + n)%N.

(** QuoteJSONString, one code unit at a time: the two-character
    escapes, [\u00xx] for the other control characters, and every other
    byte as it is. *)
Definition quote_char (c : ascii) : string :=
  let n := Str.code c in
  if (n =? 34)%N then String Str.bs Str.DQ
  else if (n =? 92)%N then String Str.bs (String Str.bs EmptyString)
  else if (n =? 8)%N then String Str.bs "b"
  else if (n =? 12)%N then String Str.bs "f"
  else if (n =? 10)%N then String Str.bs "n"
  else if (n =? 13)%N then String Str.bs "r"
  else if (n =? 9)%N then String Str.bs "t"
  else if (n <? 32)%N then
    String Str.bs ("u00" ++ String (hex_digit (n / 16)) (String (hex_digit (n mod 16)) EmptyString))
  else String c EmptyString.

Fixpoint quote_chars (s : string) : string :=
  match s with
  | EmptyString => EmptyString
  | String c r => quote_char c ++ quote_chars r
  end.

Definition quote (s : string) : string := Str.DQ ++ quote_chars s ++ Str.DQ.

Fixpoint join_comma (l : list string) : string :=
  match l with
  | [] => EmptyString
  | [x] => x
  | x :: r => x ++ "," ++ join_comma r
  end.

(** [JSON.stringify(v)] with no indentation. *)
Fixpoint stringify (v : json) : string :=
  match v with
  | JNull => "null"
  | JBool true => "true"
  | JBool false => "false"
  | JNum l => Num.json_text l
  | JStr s => quote s
  | JArr items => "[" ++ join_comma (map stringify items) ++ "]"
  | JObj members =>
      "{" ++ join_comma (map (fun kv => quote (fst kv) ++ ":" ++ stringify (snd kv)) members) ++ "}"
  end.

(** *** Parsing *)

Definition hex_value (c : ascii) : option N :=
  let n := Str.code c in
  if ((48 <=? n) && (n <=? 57))%N then Some (n - 48)%N
  else if ((97 <=? n) && (n <=? 102))%N then Some (n - 87)%N
  else if ((65 <=? n) && (n <=? 70))%N then Some (n - 55)%N
  else None.

Definition hex4 (a b c d : ascii) : option N :=
  match hex_value a, hex_value b, hex_value c, hex_value d with
  | Some x, Some y, Some z, Some w => Some (4096 * x + 256 * y + 16 * z + w)%N
  | _, _, _, _ => None
  end.

(** The UTF-8 bytes of a code point (a lone surrogate gets the
    three-byte form of its value). *)
Definition utf8 (cp : N) : string :=
  if (cp <? 128)%N then Str.bytes [cp]
  else if (cp <? 2048)%N then Str.bytes [192 + cp / 64; 128 + cp mod 64]%N
  else if (cp <? 65536)%N then
    Str.bytes [224 + cp / 4096; 128 + (cp / 64) mod 64; 128 + cp mod 64]%N
  else
    Str.bytes [240 + cp / 262144; 128 + (cp / 4096) mod 64;
               128 + (cp / 64) mod 64; 128 + cp mod 64]%N.

Definition is_high (cu : N) : bool := ((55296 <=? cu) && (cu <=? 56319))%N.
Definition is_low (cu : N) : bool := ((56320 <=? cu) && (cu <=? 57343))%N.
Definition combine (hi lo : N) : N := (65536 + (hi - 55296) * 1024 + (lo - 56320))%N.

Definition flush (hi : option N) : string :=
  match hi with Some h => utf8 h | None => EmptyString end.

Definition unescape (e : ascii) : option ascii :=
  let n := Str.code e in
  if (n =? 34)%N then Some Str.dq
  else if (n =? 92)%N then Some Str.bs
  else if (n =? 47)%N then Some "/"%char
  else if (n =? 98)%N then Some "008"%char
  else if (n =? 102)%N then Some "012"%char
  else if (n =? 110)%N then Some Str.lf
  else if (n =? 114)%N then Some Str.cr
  else if (n =? 116)%N then Some "009"%char
  else None.

Definition prepend (p : string) (r : option (string * string)) : option (string * string) :=
  match r with
  | Some (s, rest) => Some (p ++ s, rest)
  | None => None
  end.

(** The characters of a string literal after its opening quote, up to
    the closing one; [hi] is a high surrogate read from a [\u] escape
    and waiting for its low half. *)
Fixpoint parse_chars (hi : option N) (s : string) : option (string * string) :=
  match s with
  | EmptyString => None
  | String c r =>
      if Ascii.eqb c Str.dq then Some (flush hi, r)
      else if Ascii.eqb c Str.bs then
        match r with
        | EmptyString => None
        | String e r1 =>
            if Ascii.eqb e "u"%char then
              match r1 with
              | String h1 (String h2 (String h3 (String h4 r2))) =>
                  match hex4 h1 h2 h3 h4 with
                  | None => None
                  | Some cu =>
                      match hi with
                      | Some h =>
                          if is_low cu then prepend (utf8 (combine h cu)) (parse_chars None r2)
                          else if is_high cu then prepend (utf8 h) (parse_chars (Some cu) r2)
                          else prepend (utf8 h ++ utf8 cu) (parse_chars None r2)
                      | None =>
                          if is_high cu then parse_chars (Some cu) r2
                          else prepend (utf8 cu) (parse_chars None r2)
                      end
                  end
              | _ => None
              end
            else
              match unescape e with
              | Some b => prepend (flush hi ++ String b EmptyString) (parse_chars None r1)
              | None => None
              end
        end
      else if (Str.code c <? 32)%N then None
      else prepend (flush hi ++ String c EmptyString) (parse_chars None r)
  end.

Definition is_json_ws (c : ascii) : bool :=
  let n := Str.code c in ((n =? 32) || (n =? 9) || (n =? 10) || (n =? 13))%N.

Fixpoint skip_ws (s : string) : string :=
  match s with
  | String c r => if is_json_ws c then skip_ws r else s
  | EmptyString => s
  end.

Definition is_digit (c : ascii) : bool :=
  let n := Str.code c in ((48 <=? n) && (n <=? 57))%N.

Fixpoint take_digits (s : string) : string * string :=
  match s with
  | String c r =>
      if is_digit c then let (d, r') := take_digits r in (String c d, r')
      else (EmptyString, s)
  | EmptyString => (EmptyString, s)
  end.

(** The JSON number grammar: an optional minus sign; a zero, or a
    non-zero digit and more digits; an optional fraction (a dot and one
    digit or more); an optional exponent (e or E, an optional sign, one
    digit or more). *)
Definition parse_number (s : string) : option (string * string) :=
  let (sign, s1) :=
    match s with
    | String c r => if Ascii.eqb c "-"%char then ("-", r) else (EmptyString, s)
    | EmptyString => (EmptyString, s)
    end in
  let int_part :=
    match s1 with
    | String c r =>
        if Ascii.eqb c "0"%char then Some ("0", r)
        else if is_digit c then Some (take_digits s1)
        else None
    | EmptyString => None
    end in
  match int_part with
  | None => None
  | Some (i, s2) =>
      let frac :=
        match s2 with
        | String c r =>
            if Ascii.eqb c "."%char then
              let (d, r') := take_digits r in
              if Str.is_empty d then None else Some ("." ++ d, r')
            else Some (EmptyString, s2)
        | EmptyString => Some (EmptyString, s2)
        end in
      match frac with
      | None => None
      | Some (f, s3) =>
          let exp :=
            match s3 with
            | String c r =>
                if (Ascii.eqb c "e"%char || Ascii.eqb c "E"%char)%bool then
                  let (sg, r0) :=
                    match r with
                    | String c' r' =>
                        if (Ascii.eqb c' "+"%char || Ascii.eqb c' "-"%char)%bool
                        then (String c' EmptyString, r') else (EmptyString, r)
                    | EmptyString => (EmptyString, r)
                    end in
                  let (d, r') := take_digits r0 in
                  if Str.is_empty d then None
                  else Some (String c EmptyString ++ sg ++ d, r')
                else Some (EmptyString, s3)
            | EmptyString => Some (EmptyString, s3)
            end in
          match exp with
          | None => None
          | Some (e, s4) => Some (sign ++ i ++ f ++ e, s4)
          end
      end
  end.

(** The later of two members with one key wins, as in an object built
    by assignment. *)
Fixpoint lookup (k : string) (members : list (string * json)) : option json :=
  match members with
  | [] => None
  | (k', v) :: r =>
      match lookup k r with
      | Some w => Some w
      | None => if String.eqb k k' then Some v else None
      end
  end.

Fixpoint parse_value (fuel : nat) (s : string) {struct fuel} : option (json * string) :=
  match fuel with
  | O => None
  | S fuel' =>
      match skip_ws s with
      | EmptyString => None
      | String c rest as s0 =>
          if Ascii.eqb c Str.dq then
            match parse_chars None rest with
            | Some (str, r) => Some (JStr str, r)
            | None => None
            end
          else if Ascii.eqb c "["%char then
            match skip_ws rest with
            | String c' r =>
                if Ascii.eqb c' "]"%char then Some (JArr [], r)
                else parse_elements fuel' [] rest
            | EmptyString => None
            end
          else if Ascii.eqb c "{"%char then
            match skip_ws rest with
            | String c' r =>
                if Ascii.eqb c' "}"%char then Some (JObj [], r)
                else parse_members fuel' [] rest
            | EmptyString => None
            end
          else if Str.startsWith s0 "true" then Some (JBool true, Str.slice_from 4 s0)
          else if Str.startsWith s0 "false" then Some (JBool false, Str.slice_from 5 s0)
          else if Str.startsWith s0 "null" then Some (JNull, Str.slice_from 4 s0)
          else
            match parse_number s0 with
            | Some (l, r) => Some (JNum l, r)
            | None => None
            end
      end
  end
with parse_elements (fuel : nat) (acc : list json) (s : string) {struct fuel}
  : option (json * string) :=
  match fuel with
  | O => None
  | S fuel' =>
      match parse_value fuel' s with
      | None => None
      | Some (v, r) =>
          match skip_ws r with
          | String c r' =>
              if Ascii.eqb c ","%char then parse_elements fuel' (v :: acc) r'
              else if Ascii.eqb c "]"%char then Some (JArr (List.rev (v :: acc)), r')
              else None
          | EmptyString => None
          end
      end
  end
with parse_members (fuel : nat) (acc : list (string * json)) (s : string) {struct fuel}
  : option (json * string) :=
  match fuel with
  | O => None
  | S fuel' =>
      match skip_ws s with
      | String c r0 =>
          if Ascii.eqb c Str.dq then
            match parse_chars None r0 with
            | None => None
            | Some (k, r1) =>
                match skip_ws r1 with
                | String c1 r2 =>
                    if Ascii.eqb c1 ":"%char then
                      match parse_value fuel' r2 with
                      | None => None
                      | Some (v, r3) =>
                          match skip_ws r3 with
                          | String c2 r4 =>
                              if Ascii.eqb c2 ","%char then parse_members fuel' ((k, v) :: acc) r4
                              else if Ascii.eqb c2 "}"%char
                              then Some (JObj (List.rev ((k, v) :: acc)), r4)
                              else None
                          | EmptyString => None
                          end
                      end
                    else None
                | EmptyString => None
                end
            end
          else None
      | EmptyString => None
      end
  end.

(** [JSON.parse(text)]: [None] stands for the SyntaxError it throws.
    Every recursive call of the parser has read at least one character
    for each unit of fuel it spends, so twice the length of the text is
    never used up. *)
Definition parse (text : string) : option json :=
  match parse_value (2 * String.length text + 2) text with
  | Some (v, r) => if Str.is_empty (skip_ws r) then Some v else None
  | None => None
  end.

End Json.

Import Json.


(** ** JavaScript values read from JSON *)

Module Js.

Import Json.

(** ToBoolean: [undefined], [null], [false], zero and the empty string
    are falsy; a number is zero when the double it denotes is. *)
Definition truthy (v : option json) : bool :=
  match v with
  | None => false
  | Some JNull => false
  | Some (JBool b) => b
  | Some (JNum l) => negb (Num.is_zero (Num.of_lexeme l))
  | Some (JStr s) => negb (Str.is_empty s)
  | Some (JArr _) => true
  | Some (JObj _) => true
  end.

Fixpoint join_with (sep : string) (l : list string) : string :=
  match l with
  | [] => EmptyString
  | [x] => x
  | x :: r => x ++ sep ++ join_with sep r
  end.

(** [l.map((x, i) => f(x, i))], counting from [i]. *)
Fixpoint mapi {A B : Type} (f : A -> nat -> B) (i : nat) (l : list A) : list B :=
  match l with
  | [] => []
  | x :: r => f x i :: mapi f (S i) r
  end.

(** Whether ToString, as a template literal or [+=] on a string
    applies it, gives a text.  It throws a TypeError when neither
    [toString] nor [valueOf] gives a primitive: for a value read from
    JSON, that is an object with a member [toString] (which is no
    function, and [valueOf] gives the object back or is no function
    either).  An array is joined, so it throws when one of its items
    does. *)
Fixpoint prints (v : json) : bool :=
  match v with
  | JArr items => forallb prints items
  | JObj members =>
      match Json.lookup "toString" members with
      | Some _ => false
      | None => true
      end
  | _ => true
  end.

Definition printable (v : option json) : bool :=
  match v with
  | None => true
  | Some w => prints w
  end.

(** The text ToString gives, for a value that [prints]. *)
Fixpoint text_of (v : json) : string :=
  match v with
  | JNull => "null"
  | JBool true => "true"
  | JBool false => "false"
  | JNum l => Num.to_string (Num.of_lexeme l)
  | JStr s => s
  | JArr items =>
      join_with ","
        (map (fun x => match x with JNull => EmptyString | _ => text_of x end) items)
  | JObj _ => "[object Object]"
  end.

Definition to_string (v : option json) : string :=
  match v with
  | None => "undefined"
  | Some w => text_of w
  end.

(** [v.k] on a value that is neither [null] nor [undefined], for the
    property names the code reads ([title], [choices], [delta], ...):
    only an object can have one. *)
Definition member (v : json) (k : string) : option json :=
  match v with
  | JObj members => Json.lookup k members
  | _ => None
  end.

(** [v?.k]. *)
Definition opt_member (v : option json) (k : string) : option json :=
  match v with
  | None => None
  | Some JNull => None
  | Some w => member w k
  end.

(** [v?.[0]]: the first item of an array, the member [0] of an
    object, the first character of a string. *)
Definition opt_index0 (v : option json) : option json :=
  match v with
  | Some (JArr (x :: _)) => Some x
  | Some (JObj members) => Json.lookup "0" members
  | Some (JStr (String c _)) => Some (JStr (String c EmptyString))
  | _ => None
  end.

End Js.

(** ** The stream the function writes (index.ts, lines 300-319) *)

Module Sse.

Import Json.

(** [assistantMessage.content || "Done!"]; a [content] of [null] is
    [None]. *)
Definition finalContent (content : option string) : string :=
  match content with
  | Some c => if Str.is_empty c then "Done!" else c
  | None => "Done!"
  end.

(** [{ choices: [{ delta: { content: finalContent } }] }]. *)
Definition delta_event (finalContent : string) : json :=
  JObj [("choices", JArr [JObj [("delta", JObj [("content", JStr finalContent)])]])].

(** The two chunks [start(controller)] enqueues. *)
Definition chunks (finalContent : string) : list string :=
  [ "data: " ++ Json.stringify (delta_event finalContent) ++ Str.LF ++ Str.LF;
    "data: [DONE]" ++ Str.LF ++ Str.LF ].

(** The bytes of the response body. *)
Definition body (finalContent : string) : string :=
  String.concat EmptyString (chunks finalContent).

End Sse.

(** ** The stream reader of [send] (Chat.tsx, lines 100-200) *)

Module Chat.

Import Json.

Inductive Role : Type := user | assistant.

Record Msg : Type := mkMsg { role : Role; content : string }.

Definition is_assistant (m : Msg) : bool :=
  match role m with assistant => true | user => false end.

(** The variables of [send] and the component state it updates. *)
Record reader : Type := mkReader {
  textBuffer : string;
  assistantSoFar : string;
  messages : list Msg;
  todoRefresh : nat
}.

Definition set_buffer (b : string) (st : reader) : reader :=
  mkReader b (assistantSoFar st) (messages st) (todoRefresh st).

Definition bump_refresh (st : reader) : reader :=
  mkReader (textBuffer st) (assistantSoFar st) (messages st) (S (todoRefresh st)).

(** The updater given to [setMessages]. *)
Definition upsert_messages (soFar : string) (prev : list Msg) : list Msg :=
  match nth_error prev (List.length prev - 1) with
  | Some last =>
      if is_assistant last then
        Js.mapi (fun m i =>
                if Nat.eqb i (List.length prev - 1) then mkMsg (role m) soFar else m)
             0 prev
      else (prev ++ [mkMsg assistant soFar])%list
  | None => (prev ++ [mkMsg assistant soFar])%list
  end.

Definition upsertAssistant (chunk : string) (st : reader) : reader :=
  let soFar := assistantSoFar st ++ chunk in
  mkReader (textBuffer st) soFar (upsert_messages soFar (messages st)) (todoRefresh st).

Definition strip_cr (line : string) : string :=
  if Str.endsWith line (String Str.cr EmptyString) then Str.drop_last line else line.

(** [parsed.choices?.[0]?.delta]; [None] on the outside is the
    TypeError of reading [choices] of [null]. *)
Definition delta_of (parsed : json) : option (option json) :=
  match parsed with
  | JNull => None
  | _ => Some (Js.opt_member (Js.opt_index0 (Js.member parsed "choices")) "delta")
  end.

Inductive step : Type :=
| Continue (st : reader)
| Break (st : reader).

(** One turn of the inner [while], after the line was cut off the
    buffer.  The [catch] puts the line back when [JSON.parse] throws,
    when [choices] is read of [null] and when [assistantSoFar += chunk]
    throws on a content that has no text. *)
Definition on_line (line : string) (st : reader) : step :=
  let line := strip_cr line in
  if (Str.startsWith line ":" || Str.is_empty (Str.trim line))%bool then Continue st
  else if negb (Str.startsWith line "data: ") then Continue st
  else
    let jsonStr := Str.trim (Str.slice_from 6 line) in
    if String.eqb jsonStr "[DONE]" then Break st
    else
      let pushed_back := set_buffer (line ++ Str.LF ++ textBuffer st) st in
      match Json.parse jsonStr with
      | None => Break pushed_back
      | Some parsed =>
          match delta_of parsed with
          | None => Break pushed_back
          | Some delta =>
              let content := Js.opt_member delta "content" in
              if (Js.truthy content && negb (Js.printable content))%bool
              then Break pushed_back
              else
                let st1 := if Js.truthy content
                           then upsertAssistant (Js.to_string content) st else st in
                let toolCalls := Js.opt_member delta "tool_calls" in
                Continue (if Js.truthy toolCalls then bump_refresh st1 else st1)
          end
      end.

(** The inner [while ((newlineIndex = textBuffer.indexOf(LF)) !== -1)];
    [None] only when the fuel runs out. *)
Fixpoint drain (fuel : nat) (st : reader) : option reader :=
  match fuel with
  | O => None
  | S f =>
      match Str.cut_line (textBuffer st) with
      | None => Some st
      | Some (line, rest) =>
          match on_line line (set_buffer rest st) with
          | Continue st' => drain f st'
          | Break st' => Some st'
          end
      end
  end.

(** One turn of the outer loop: a chunk was read and decoded. *)
Definition on_chunk (text : string) (st : reader) : option reader :=
  let st' := set_buffer (textBuffer st ++ text) st in
  drain (S (String.length (textBuffer st'))) st'.

(** The outer [while (true)]: [values] are the chunks [reader.read()]
    gives before it is done. *)
Fixpoint read_all (decoder : Str.decoder) (values : list string) (st : reader)
  : option reader :=
  match values with
  | [] => Some st
  | value :: later =>
      let (text, decoder') := Str.decode decoder value in
      match on_chunk text st with
      | Some st' => read_all decoder' later st'
      | None => None
      end
  end.

(** The body of the final [for (let raw of textBuffer.split(LF))]. *)
Definition flush_line (st : reader) (raw : string) : reader :=
  if Str.is_empty raw then st
  else
    let raw := strip_cr raw in
    if (Str.startsWith raw ":" || Str.is_empty (Str.trim raw))%bool then st
    else if negb (Str.startsWith raw "data: ") then st
    else
      let jsonStr := Str.trim (Str.slice_from 6 raw) in
      if String.eqb jsonStr "[DONE]" then st
      else
        match Json.parse jsonStr with
        | None => st
        | Some parsed =>
            match delta_of parsed with
            | None => st
            | Some delta =>
                let content := Js.opt_member delta "content" in
                if (Js.truthy content && Js.printable content)%bool
                then upsertAssistant (Js.to_string content) st else st
            end
        end.

Definition flush (st : reader) : reader :=
  if Str.is_empty (Str.trim (textBuffer st)) then st
  else fold_left flush_line (Str.split_lines (textBuffer st)) st.

(** What [send] leaves behind once the stream is read: the state, and
    the row it inserts into [chat_messages] when [assistantSoFar] is not
    empty. *)
Record outcome : Type := mkOutcome {
  final : reader;
  saved : option Msg
}.

Definition finish (st : reader) : outcome :=
  let st := flush st in
  if Str.is_empty (assistantSoFar st) then mkOutcome st None
  else mkOutcome (bump_refresh st) (Some (mkMsg assistant (assistantSoFar st))).

(** [send], from [resp.body.getReader()] on: [prev] is the list of
    messages on the screen, which ends with the user's message. *)
Definition read_stream (prev : list Msg) (values : list string) : option outcome :=
  match read_all Str.new_decoder values (mkReader EmptyString EmptyString prev 0) with
  | Some st => Some (finish st)
  | None => None
  end.

End Chat.


(** ** The task table behind [createClient] (the two migrations) *)

Module Db.

Import Json.

(** A row of [public.todos]. *)
Record todo : Type := mkTodo {
  id : nat;
  user_id : string;
  title : string;
  completed : bool;
  due_at : option string;
  created_at : nat;
  updated_at : nat
}.

(** The filters the code chains on a query; [eq] sends its value as
    text. *)
Inductive clause : Type :=
| EqUserId (value : string)
| EqCompleted (value : string)
| EqId (value : nat)
| ILikeTitle (pattern : string).

Inductive patch : Type :=
| SetCompleted (value : bool)
| SetTitle (value : option json).

(** What is sent to the table: [insert], [select("*")] with its
    filters, [order("created_at", { ascending: false })] or none and
    [limit] or none, [update], [delete]. *)
Inductive request : Type :=
| Insert (user : string) (title due : option json)
| Select (filters : list clause) (newest_first : bool) (limit : option nat)
| Update (change : patch) (filters : list clause)
| Delete (filters : list clause).

(** [{ data, error }]. *)
Record reply : Type := mkReply {
  data : option (list todo);
  error : option string
}.

(** A request and the reply it got. *)
Record exchange : Type := mkExchange {
  asked : request;
  answered : reply
}.

(** The table: the rows in the order a select without [order]
    returns them (an insert adds at the end), the next value of the
    [id] default, the clock behind [now()], the failures the service is
    going to report (one entry for each request to come, [Some message]
    for a request that fails) and the requests received so far, with
    their replies. *)
Record db : Type := mkDb {
  rows : list todo;
  next_id : nat;
  clock : nat;
  faults : list (option string);
  received : list exchange
}.

Definition lower (c : ascii) : ascii :=
  let n := Str.code c in
  if ((65 <=? n) && (n <=? 90))%N then ascii_of_N (n + 32) else c.

Definition same_letter (a b : ascii) : bool := Ascii.eqb (lower a) (lower b).

(** [s ILIKE p]: a percent sign (or a star, its alias in the query
    string) is any run of characters, an underscore any one character,
    a backslash takes the next character as it is, letters match in
    either case.  The database folds case by its locale and matches
    characters; here the letters are those of ASCII and a character is
    a byte, which is the same for titles and patterns of ASCII. *)
Fixpoint ilike (p s : string) {struct p} : bool :=
  match p with
  | EmptyString => Str.is_empty s
  | String c p' =>
      if (Ascii.eqb c "%"%char || Ascii.eqb c "*"%char)%bool then
        (fix any (s : string) : bool :=
           (ilike p' s ||
            match s with
            | String _ s' => any s'
            | EmptyString => false
            end)%bool) s
      else if Ascii.eqb c "_"%char then
        match s with
        | String _ s' => ilike p' s'
        | EmptyString => false
        end
      else if Ascii.eqb c Str.bs then
        match p', s with
        | String e p'', String d s' => (same_letter e d && ilike p'' s')%bool
        | _, _ => false
        end
      else
        match s with
        | String d s' => (same_letter c d && ilike p' s')%bool
        | EmptyString => false
        end
  end.

Fixpoint lower_string (s : string) : string :=
  match s with
  | EmptyString => EmptyString
  | String c r => String (lower c) (lower_string r)
  end.

(** The texts PostgreSQL reads as a boolean. *)
Definition pg_bool (text : string) : option bool :=
  let t := lower_string text in
  if existsb (String.eqb t) ["true"; "tru"; "tr"; "t"; "yes"; "ye"; "y"; "on"; "1"]
  then Some true
  else if existsb (String.eqb t) ["false"; "fals"; "fal"; "fa"; "f"; "no"; "n"; "off"; "of"; "0"]
  then Some false
  else None.

Definition matches (f : clause) (r : todo) : bool :=
  match f with
  | EqUserId u => String.eqb (user_id r) u
  | EqCompleted text =>
      match pg_bool text with
      | Some b => Bool.eqb (completed r) b
      | None => false
      end
  | EqId i => Nat.eqb (id r) i
  | ILikeTitle p => ilike p (title r)
  end.

Definition matches_all (fs : list clause) (r : todo) : bool :=
  forallb (fun f => matches f r) fs.

(** A clause the table refuses: a [completed] that is no boolean. *)
Definition malformed (f : clause) : bool :=
  match f with
  | EqCompleted text => match pg_bool text with Some _ => false | None => true end
  | _ => false
  end.

Fixpoint insert_newest (r : todo) (l : list todo) : list todo :=
  match l with
  | [] => [r]
  | x :: l' =>
      if Nat.ltb (created_at x) (created_at r) then r :: l
      else x :: insert_newest r l'
  end.

(** [ORDER BY created_at DESC].  The database leaves the order of
    rows of one instant open; here the later one in the table comes
    first. *)
Definition newest_first (l : list todo) : list todo :=
  fold_right insert_newest [] l.

Definition take_limit (limit : option nat) (l : list todo) : list todo :=
  match limit with
  | Some n => firstn n l
  | None => l
  end.

(** The text a JSON value becomes in a [text] column. *)
Definition column_text (v : json) : string :=
  match v with
  | JStr s => s
  | _ => Json.stringify v
  end.

Definition not_null_title : string :=
  "null value in column title of relation todos violates not-null constraint".

Definition bad_boolean : string := "invalid input syntax for type boolean".

Definition apply_patch (now : nat) (change : patch) (r : todo) : todo :=
  match change with
  | SetCompleted b =>
      mkTodo (id r) (user_id r) (title r) b (due_at r) (created_at r) now
  | SetTitle (Some v) =>
      mkTodo (id r) (user_id r) (column_text v) (completed r) (due_at r) (created_at r) now
  | SetTitle None => r
  end.

Definition failed (message : string) : reply := mkReply None (Some message).

(** What the table does with a request it accepts: the reply and the
    new rows.  [title] is [NOT NULL]; [updated_at] is set by the
    trigger on every update.  Any text is taken for [user_id] and
    [due_at]: a value the column type refuses is one of the failures of
    [faults]. *)
Definition perform (q : request) (d : db) : reply * list todo :=
  match q with
  | Insert user title due =>
      match title with
      | None | Some JNull => (failed not_null_title, rows d)
      | Some v =>
          let due_text :=
            match due with
            | None | Some JNull => None
            | Some w => Some (column_text w)
            end in
          (mkReply None None,
           (rows d ++ [mkTodo (next_id d) user (column_text v) false due_text
                              (clock d) (clock d)])%list)
      end
  | Select fs ordered limit =>
      if existsb malformed fs then (failed bad_boolean, rows d)
      else
        let found := List.filter (matches_all fs) (rows d) in
        let sorted := if ordered then newest_first found else found in
        (mkReply (Some (take_limit limit sorted)) None, rows d)
  | Update change fs =>
      if existsb malformed fs then (failed bad_boolean, rows d)
      else
        match change with
        | SetTitle (Some JNull) => (failed not_null_title, rows d)
        | _ =>
            (mkReply None None,
             map (fun r => if matches_all fs r then apply_patch (clock d) change r else r)
                 (rows d))
        end
  | Delete fs =>
      if existsb malformed fs then (failed bad_boolean, rows d)
      else (mkReply None None, List.filter (fun r => negb (matches_all fs r)) (rows d))
  end.

Definition is_insert (q : request) : bool :=
  match q with Insert _ _ _ => true | _ => false end.

(** One awaited query: the clock moves and either the service
    reports its next failure and changes nothing, or the request is
    performed; the exchange is recorded. *)
Definition send (q : request) (d : db) : reply * db :=
  match faults d with
  | Some message :: later =>
      (failed message,
       mkDb (rows d) (next_id d) (S (clock d)) later
            (received d ++ [mkExchange q (failed message)])%list)
  | other =>
      let (r, rows') := perform q d in
      let used := match error r with None => is_insert q | Some _ => false end in
      (r, mkDb rows' (if used then S (next_id d) else next_id d) (S (clock d))
               (tl other) (received d ++ [mkExchange q r])%list)
  end.

End Db.

(** ** The tool catalog and [executeTool] (index.ts, lines 14-181) *)

Module Tools.

Import Json.

Record property : Type := mkProperty {
  prop_name : string;
  prop_type : string;
  prop_description : string
}.

(** An entry of [tools]: [function.name], [function.description],
    [parameters.properties] and [parameters.required] ([[]] where the
    source has none). *)
Record tool : Type := mkTool {
  name : string;
  description : string;
  properties : list property;
  required : list string
}.

Definition tools : list tool :=
  [ mkTool "add_todo"
      "Add a new task/todo for the user. Can optionally set a due date."
      [ mkProperty "title" "string" "The title of the task";
        mkProperty "due_at" "string"
          "Optional ISO 8601 due date/time. e.g. '2026-02-15T09:00:00Z'. Parse natural language dates relative to today." ]
      ["title"];
    mkTool "list_todos"
      "List all tasks/todos for the user. Can filter by completion status."
      [ mkProperty "completed" "boolean" "Filter by completed status. Omit to list all." ]
      [];
    mkTool "toggle_todo"
      "Toggle the completion status of a task by its title (partial match)"
      [ mkProperty "title" "string" "Title or partial title of the task to toggle" ]
      ["title"];
    mkTool "delete_todo"
      "Delete a task by its title (partial match). Can also delete all completed tasks."
      [ mkProperty "title" "string"
          "Title or partial title. Use '__completed__' to delete all completed tasks." ]
      ["title"];
    mkTool "update_todo"
      "Update the title of an existing task"
      [ mkProperty "old_title" "string" "Current title or partial match";
        mkProperty "new_title" "string" "New title for the task" ]
      ["old_title"; "new_title"] ].

(** A value, or the exception thrown instead: the SyntaxError of
    [JSON.parse], the TypeError of reading a property of [null] or
    [undefined], the TypeError of a value that cannot be converted to a
    primitive, and the error, with its message, of a [fetch] that is
    rejected or of a body that cannot be read. *)
Inductive exn : Type :=
| SyntaxError (text : string)
| TypeError (reading : string)
| NoPrimitive
| FetchFailed (message : string).

Inductive completion (A : Type) : Type :=
| Returned (a : A)
| Thrown (e : exn).

Arguments Returned {A} a.
Arguments Thrown {A} e.

(** Code that awaits queries on the table and may throw. *)
Definition io (A : Type) : Type := Db.db -> completion A * Db.db.

Definition ret {A : Type} (a : A) : io A := fun d => (Returned a, d).

Definition throw {A : Type} (e : exn) : io A := fun d => (Thrown e, d).

Definition bind {A B : Type} (m : io A) (k : A -> io B) : io B :=
  fun d =>
    match m d with
    | (Returned a, d') => k a d'
    | (Thrown e, d') => (Thrown e, d')
    end.

Definition await (q : Db.request) : io Db.reply :=
  fun d => let (r, d') := Db.send q d in (Returned r, d').

Notation "x <- m ;; k" := (bind m (fun x => k))
  (at level 61, m at next level, right associativity).

(** [args.k]: reading a property of [null] throws. *)
Definition arg (args : json) (k : string) : io (option json) :=
  match args with
  | JNull => throw (TypeError k)
  | _ => ret (Js.member args k)
  end.

(** [`${v}`]: the text of [v], or the TypeError of a value that has
    none. *)
Definition text (v : option json) : io string :=
  if Js.printable v then ret (Js.to_string v) else throw NoPrimitive.

Definition quoted (s : string) : string := Str.DQ ++ s ++ Str.DQ.

Definition is_undefined (v : option json) : bool :=
  match v with None => true | Some _ => false end.

(** [args.title === "__completed__"]. *)
Definition is_completed_sentinel (v : option json) : bool :=
  match v with
  | Some (JStr s) => String.eqb s "__completed__"
  | _ => false
  end.

Section WithLocale.

(** [new Date(text).toLocaleDateString()], which depends on the
    locale of the process. *)
Variable toLocaleDateString : string -> string.

Definition list_line (t : Db.todo) (i : nat) : string :=
  let due :=
    match Db.due_at t with
    | Some d => if Str.is_empty d then EmptyString
                else " [due: " ++ toLocaleDateString d ++ "]"
    | None => EmptyString
    end in
  Str.of_nat (i + 1) ++ ". [" ++ (if Db.completed t then "✓" else " ") ++ "] "
  ++ Db.title t ++ due.

(** The lookup of [toggle_todo], [delete_todo] and [update_todo]:
    [select("*").eq("user_id", userId).ilike("title", `%${title}%`).limit(1)],
    of which only [data] is read.  The pattern is written before the
    request is sent: a title that has no text throws. *)
Definition lookup (userId : string) (title : option json) : Db.request :=
  Db.Select [Db.EqUserId userId; Db.ILikeTitle ("%" ++ Js.to_string title ++ "%")]
            false (Some 1).

Definition find_one (userId : string) (title : option json) : io (option (list Db.todo)) :=
  _ <- text title ;;
  r <- await (lookup userId title) ;;
  ret (Db.data r).

Definition executeTool (name : string) (args : json) (userId : string) : io string :=
  if String.eqb name "add_todo" then
    title <- arg args "title" ;;
    due_at <- arg args "due_at" ;;
    r <- await (Db.Insert userId title (if Js.truthy due_at then due_at else None)) ;;
    match Db.error r with
    | Some message => ret ("Error: " ++ message)
    | None =>
        dueStr <- (if Js.truthy due_at
                   then due <- text due_at ;; ret (" (due: " ++ due ++ ")")
                   else ret EmptyString) ;;
        shown <- text title ;;
        ret ("Added task: " ++ quoted shown ++ dueStr)
    end
  else if String.eqb name "list_todos" then
    completed <- arg args "completed" ;;
    filter <- (if is_undefined completed then ret []
               else value <- text completed ;; ret [Db.EqCompleted value]) ;;
    r <- await (Db.Select (Db.EqUserId userId :: filter) true None) ;;
    match Db.error r with
    | Some message => ret ("Error: " ++ message)
    | None =>
        match Db.data r with
        | None | Some [] => ret "No tasks found."
        | Some data => ret (Js.join_with Str.LF (Js.mapi list_line 0 data))
        end
    end
  else if String.eqb name "toggle_todo" then
    title <- arg args "title" ;;
    matches <- find_one userId title ;;
    match matches with
    | None | Some [] => ret ("No task found matching " ++ quoted (Js.to_string title))
    | Some (todo :: _) =>
        r <- await (Db.Update (Db.SetCompleted (negb (Db.completed todo)))
                              [Db.EqId (Db.id todo)]) ;;
        match Db.error r with
        | Some message => ret ("Error: " ++ message)
        | None =>
            ret ((if Db.completed todo then "Uncompleted" else "Completed")
                 ++ ": " ++ quoted (Db.title todo))
        end
    end
  else if String.eqb name "delete_todo" then
    title <- arg args "title" ;;
    if is_completed_sentinel title then
      r <- await (Db.Delete [Db.EqUserId userId; Db.EqCompleted "true"]) ;;
      match Db.error r with
      | Some message => ret ("Error: " ++ message)
      | None => ret "Deleted all completed tasks."
      end
    else
      matches <- find_one userId title ;;
      match matches with
      | None | Some [] => ret ("No task found matching " ++ quoted (Js.to_string title))
      | Some (todo :: _) =>
          r <- await (Db.Delete [Db.EqId (Db.id todo)]) ;;
          match Db.error r with
          | Some message => ret ("Error: " ++ message)
          | None => ret ("Deleted: " ++ quoted (Db.title todo))
          end
      end
  else if String.eqb name "update_todo" then
    old_title <- arg args "old_title" ;;
    matches <- find_one userId old_title ;;
    match matches with
    | None | Some [] => ret ("No task found matching " ++ quoted (Js.to_string old_title))
    | Some (todo :: _) =>
        new_title <- arg args "new_title" ;;
        r <- await (Db.Update (Db.SetTitle new_title) [Db.EqId (Db.id todo)]) ;;
        match Db.error r with
        | Some message => ret ("Error: " ++ message)
        | None =>
            shown <- text new_title ;;
            ret ("Updated " ++ quoted (Db.title todo) ++ " → " ++ quoted shown)
        end
    end
  else ret ("Unknown tool: " ++ name).

End WithLocale.

End Tools.

(** ** The request handler (index.ts, lines 183-330) *)

Module Edge.

Import Json.
Import Tools.

(** [{ id, function: { name, arguments } }]; [arguments] is JSON
    text. *)
Record tool_call : Type := mkCall {
  call_id : string;
  fn_name : string;
  fn_arguments : string
}.

(** [result.choices[0].message]: [content] is a string or [null],
    [tool_calls] an array or absent. *)
Record assistant_message : Type := mkAssistant {
  content : option string;
  tool_calls : option (list tool_call)
}.

Inductive message : Type :=
| System (text : string)
| FromClient (role text : option json)
| Assistant (m : assistant_message)
| ToolResult (tool_call_id text : string).

(** The body of a response of the gateway: a completion, or
    anything else, which cannot be read as one. *)
Inductive upstream_body : Type :=
| Completion (m : assistant_message)
| Other (text : string).

(** What a completion request comes to: a response, with its status
    and the body as [await response.text()] or [await response.json()]
    gives it when the handler reads it; or [Rejected], when one of the
    awaits throws: [await fetch(...)] for a request that got no
    response, or the read of the body of a response whose body the
    handler reads (one with a status other than 429 and 402 for the
    first request, any one after it).  The handler has posted the
    request and done nothing else when either is thrown. *)
Inductive upstream : Type :=
| mkUpstream (up_status : nat) (up_body : upstream_body)
| Rejected (message : string).

Definition up_status (r : upstream) : nat :=
  match r with
  | mkUpstream status _ => status
  | Rejected _ => 0
  end.

Definition up_body (r : upstream) : upstream_body :=
  match r with
  | mkUpstream _ body => body
  | Rejected message => Other message
  end.

(** [response.ok].  A request that was [Rejected] is not counted as
    a status of failure: the handler throws, it does not take the
    branch of [!response.ok] to its end. *)
Definition ok (r : upstream) : bool :=
  match r with
  | mkUpstream status _ => (Nat.leb 200 status && Nat.leb status 299)%bool
  | Rejected _ => true
  end.

(** The exception thrown by [await fetch(...)] or by the read of the
    body, if any. *)
Definition rejection (r : upstream) : option exn :=
  match r with
  | mkUpstream _ _ => None
  | Rejected message => Some (FetchFailed message)
  end.

Inductive logged : Type :=
| Upstream (status : nat) (body : upstream_body)
| Exception (e : exn).

(** What the handler does besides answering: the completion requests
    it posts, with their [messages] and [tools], and what it writes to
    the console. *)
Inductive event : Type :=
| Fetch (messages : list message) (catalog : list tool)
| ConsoleLog (fnName : string) (fnArgs : json)
| ConsoleError (label : string) (what : logged).

Record world : Type := mkWorld {
  db : Db.db;
  trace : list event
}.

Inductive error_text : Type :=
| Literal (text : string)
| MessageOf (e : exn).

Inductive body : Type :=
| Empty
| ErrorJson (error : error_text)
| EventStream (chunks : list string).

Record response : Type := mkResponse {
  status : nat;
  content_type : option string;
  payload : body
}.

Record request : Type := mkRequest {
  method : string;
  text : string
}.

Definition act (A : Type) : Type := world -> completion A * world.

Definition unit_ {A : Type} (a : A) : act A := fun w => (Returned a, w).

Definition raise {A : Type} (e : exn) : act A := fun w => (Thrown e, w).

Definition then_ {A B : Type} (m : act A) (k : A -> act B) : act B :=
  fun w =>
    match m w with
    | (Returned a, w') => k a w'
    | (Thrown e, w') => (Thrown e, w')
    end.

Definition on_db {A : Type} (m : Tools.io A) : act A :=
  fun w => let (r, d) := m (db w) in (r, mkWorld d (trace w)).

Definition emit (e : event) : act unit :=
  fun w => (Returned tt, mkWorld (db w) (trace w ++ [e])%list).

Notation "x <~ m ;; k" := (then_ m (fun x => k))
  (at level 61, m at next level, right associativity).
Notation "m ;;; k" := (then_ m (fun _ => k))
  (at level 61, right associativity).

Definition MAX_ITERATIONS : nat := 5.

Definition json_error (code : nat) (message : error_text) : response :=
  mkResponse code (Some "application/json") (ErrorJson message).

(** The variables of the tool-call loop. *)
Record loop_state : Type := mkLoop {
  assistantMessage : assistant_message;
  conversationMessages : list message;
  iterations : nat
}.

Section Handler.

Variable toLocaleDateString : string -> string.

(** [new Date().toISOString()] when the request is handled. *)
Variable now : string.

(** The answer of the gateway to the [n]-th completion request of
    this run, given the messages it is sent. *)
Variable gateway : nat -> list message -> upstream.

Definition systemPrompt : string :=
  "You are a friendly and concise AI task manager called todo.ai. You help users manage their tasks through conversation."
  ++ Str.LF ++ "Current date/time: " ++ now ++ "." ++ Str.LF ++ Str.LF
  ++ "When users ask to add, list, complete, delete, or update tasks, use the available tools."
  ++ Str.LF
  ++ "When a user mentions a deadline or due date, parse it into ISO 8601 and pass it as due_at."
  ++ Str.LF
  ++ "When listing tasks, format them nicely and mention due dates. Be brief and helpful."
  ++ Str.LF ++ "If a user's request is ambiguous, ask for clarification."
  ++ Str.LF ++ "Always confirm actions you've taken.".

(** [messages.map((m) => ({ role: m.role, content: m.content }))]. *)
Fixpoint client_messages (items : list json) : act (list message) :=
  match items with
  | [] => unit_ []
  | JNull :: _ => raise (TypeError "role")
  | m :: r =>
      rest <~ client_messages r ;;
      unit_ (FromClient (Js.member m "role") (Js.member m "content") :: rest)
  end.

(** Whether the tool writes [userId] into a query, with
    [eq("user_id", userId)], before it converts anything else:
    [add_todo] sends it as it is, [delete_todo] reads [args.title]
    first, a name outside the catalog does not use it. *)
Definition writes_user_first (name : string) (args : json) : bool :=
  (String.eqb name "list_todos" || String.eqb name "toggle_todo"
   || String.eqb name "update_todo"
   || (String.eqb name "delete_todo"
       && match args with JNull => false | _ => true end))%bool.

(** [await executeTool(fnName, fnArgs, userId)] with the [userId] of
    the body, which need not be a string: [eq] writes it into the query
    as a template literal does, and throws when it has no text. *)
Definition call_tool (userId : option json) (name : string) (args : json) : act string :=
  if (writes_user_first name args && negb (Js.printable userId))%bool
  then raise NoPrimitive
  else on_db (executeTool toLocaleDateString name args (Js.to_string userId)).

(** [for (const toolCall of assistantMessage.tool_calls)]. *)
Fixpoint run_calls (userId : option json) (calls : list tool_call) (conv : list message)
  : act (list message) :=
  match calls with
  | [] => unit_ conv
  | toolCall :: later =>
      match Json.parse (fn_arguments toolCall) with
      | None => raise (SyntaxError (fn_arguments toolCall))
      | Some fnArgs =>
          emit (ConsoleLog (fn_name toolCall) fnArgs) ;;;
          toolResult <~ call_tool userId (fn_name toolCall) fnArgs ;;
          run_calls userId later (conv ++ [ToolResult (call_id toolCall) toolResult])%list
      end
  end.

(** [while (assistantMessage.tool_calls && iterations < MAX_ITERATIONS)];
    [None] only when the fuel runs out. *)
Fixpoint tool_loop (fuel : nat) (userId : option json) (st : loop_state)
  : act (option loop_state) :=
  match tool_calls (assistantMessage st) with
  | None => unit_ (Some st)
  | Some calls =>
      if Nat.ltb (iterations st) MAX_ITERATIONS then
        match fuel with
        | O => unit_ None
        | S fuel' =>
            let iterations' := S (iterations st) in
            conv <~ run_calls userId calls
                     (conversationMessages st ++ [Assistant (assistantMessage st)])%list ;;
            emit (Fetch conv tools) ;;;
            let response := gateway iterations' conv in
            match rejection response with
            | Some e => raise e
            | None =>
                if negb (ok response) then
                  emit (ConsoleError "AI gateway error on tool follow-up:"
                          (Upstream (up_status response) (up_body response))) ;;;
                  unit_ (Some (mkLoop (assistantMessage st) conv iterations'))
                else
                  match up_body response with
                  | Completion m => tool_loop fuel' userId (mkLoop m conv iterations')
                  | Other _ => raise (TypeError "choices")
                  end
            end
        end
      else unit_ (Some st)
  end.

Definition stream_response (st : loop_state) : response :=
  mkResponse 200 (Some "text/event-stream")
    (EventStream (Sse.chunks (Sse.finalContent (content (assistantMessage st))))).

(** The body of the [try]; [None] only when the loop runs out of
    fuel. *)
Definition attempt (req : request) : act (option response) :=
  match Json.parse (text req) with
  | None => raise (SyntaxError (text req))
  | Some JNull => raise (TypeError "messages")
  | Some parsed =>
      let messages := Js.member parsed "messages" in
      let userId := Js.member parsed "userId" in
      if negb (Js.truthy userId) then
        unit_ (Some (json_error 400 (Literal "userId is required")))
      else
        match messages with
        | Some (JArr items) =>
            history <~ client_messages items ;;
            let allMessages := System systemPrompt :: history in
            emit (Fetch allMessages tools) ;;;
            let response := gateway 0 allMessages in
            match rejection response with
            | Some e => raise e
            | None =>
                if negb (ok response) then
                  if Nat.eqb (up_status response) 429 then
                    unit_ (Some (json_error 429 (Literal "Rate limited")))
                  else if Nat.eqb (up_status response) 402 then
                    unit_ (Some (json_error 402 (Literal "Payment required")))
                  else
                    emit (ConsoleError "AI gateway error:"
                            (Upstream (up_status response) (up_body response))) ;;;
                    unit_ (Some (json_error 500 (Literal "AI gateway error")))
                else
                  match up_body response with
                  | Other _ => raise (TypeError "choices")
                  | Completion m =>
                      settled <~ tool_loop (S MAX_ITERATIONS) userId
                                   (mkLoop m allMessages 0) ;;
                      match settled with
                      | Some st => unit_ (Some (stream_response st))
                      | None => unit_ None
                      end
                  end
            end
        | _ => raise (TypeError "map")
        end
  end.

(** The function given to [serve]. *)
Definition handler (req : request) (w : world) : option response * world :=
  if String.eqb (method req) "OPTIONS" then (Some (mkResponse 200 None Empty), w)
  else
    match attempt req w with
    | (Returned r, w') => (r, w')
    | (Thrown e, w') =>
        (Some (json_error 500 (MessageOf e)),
         mkWorld (db w') (trace w' ++ [ConsoleError "todo-chat error:" (Exception e)])%list)
    end.

End Handler.

End Edge.

(** ** The page: [send] and the input box (Chat.tsx) *)

Module Client.

Import Json.

Definition role_text (r : Chat.Role) : string :=
  match r with
  | Chat.user => "user"
  | Chat.assistant => "assistant"
  end.

(** A message as [JSON.stringify] sees it: [{ role, content }]. *)
Definition msg_json (m : Chat.Msg) : json :=
  JObj [("role", JStr (role_text (Chat.role m))); ("content", JStr (Chat.content m))].

(** [JSON.stringify({ messages: [...messages, userMsg], userId: user.id,
    conversationId })]. *)
Definition request_body (messages : list Chat.Msg) (userId conversationId : string) : string :=
  Json.stringify
    (JObj [("messages", JArr (map msg_json messages));
           ("userId", JStr userId);
           ("conversationId", JStr conversationId)]).

(** A row [send] asks [chat_messages] to insert; the answer to the
    insert is not read. *)
Record chat_row : Type := mkRow {
  row_user : string;
  row_conversation : string;
  row_role : Chat.Role;
  row_content : string
}.

(** A destructive toast. *)
Record toast : Type := mkToast {
  toast_title : string;
  toast_description : string
}.

(** What [await fetch(...)] gives: a rejection with the message of
    its error, or a response, its status and the chunks its body is
    going to be read in ([None] for a response with no body). *)
Inductive fetched : Type :=
| Rejected (message : string)
| Responded (status : nat) (body : option (list string)).

(** [resp.ok]. *)
Definition ok (status : nat) : bool := (Nat.leb 200 status && Nat.leb status 299)%bool.

(** The state of the component [send] works on, and what it has done
    outside it: the rows it asked to insert, the texts it gave to
    [playNotification], what it wrote with [console.error]. *)
Record page : Type := mkPage {
  messages : list Chat.Msg;
  isLoading : bool;
  todoRefresh : nat;
  toasts : list toast;
  rows : list chat_row;
  spoken : list string;
  logged : list string
}.

Definition notify (title description : string) (p : page) : page :=
  mkPage (messages p) false (todoRefresh p)
         (toasts p ++ [mkToast title description])%list
         (rows p) (spoken p) (logged p).

(** The [catch] and the [finally]: [e.message || "Something went
    wrong"]. *)
Definition failure (message : string) (p : page) : page :=
  mkPage (messages p) false (todoRefresh p)
         (toasts p ++ [mkToast "Error"
                         (if Str.is_empty message then "Something went wrong"
                          else message)])%list
         (rows p) (spoken p) (logged p ++ [message])%list.

(** The end of the [try] once the stream is read, and the [finally]. *)
Definition settle (userId conversationId : string) (o : Chat.outcome) (p : page) : page :=
  mkPage (Chat.messages (Chat.final o)) false
         (todoRefresh p + Chat.todoRefresh (Chat.final o))
         (toasts p)
         (match Chat.saved o with
          | Some m => rows p ++ [mkRow userId conversationId (Chat.role m) (Chat.content m)]
          | None => rows p
          end)%list
         (match Chat.saved o with
          | Some m => spoken p ++ [Chat.content m]
          | None => spoken p
          end)%list
         (logged p).

(** [send(input)]: [user] is the id of the signed-in user, if any,
    [fetch] the answer of the network to the body posted; [None] only
    when the reader runs out of fuel. *)
Definition send (user : option string) (conversationId : string)
  (fetch : string -> fetched) (input : string) (p : page) : option page :=
  match user with
  | None => Some p
  | Some userId =>
      let userMsg := Chat.mkMsg Chat.user input in
      let p1 := mkPage (messages p ++ [userMsg])%list true (todoRefresh p) (toasts p)
                       (rows p ++ [mkRow userId conversationId Chat.user input])%list
                       (spoken p) (logged p) in
      match fetch (request_body (messages p ++ [userMsg])%list userId conversationId) with
      | Rejected message => Some (failure message p1)
      | Responded status body =>
          if Nat.eqb status 429 then
            Some (notify "Rate limited" "Please try again in a moment." p1)
          else if Nat.eqb status 402 then
            Some (notify "Usage limit" "AI credits exhausted. Please add more." p1)
          else
            match (if ok status then body else None) with
            | None => Some (failure "Failed to start stream" p1)
            | Some values =>
                match Chat.read_stream (messages p1) values with
                | Some o => Some (settle userId conversationId o p1)
                | None => None
                end
            end
      end
  end.

(** The input box ([ChatInput]): its text and the messages it has
    given to [onSend]. *)
Record box : Type := mkBox {
  input : string;
  sent : list string
}.

(** [handleSubmit]. *)
Definition handleSubmit (disabled : bool) (b : box) : box :=
  if (Str.is_empty (Str.trim (input b)) || disabled)%bool then b
  else mkBox EmptyString (sent b ++ [Str.trim (input b)])%list.

(** [handleKeyDown]: [key] is [e.key]. *)
Definition handleKeyDown (key : string) (shiftKey disabled : bool) (b : box) : box :=
  if (String.eqb key "Enter" && negb shiftKey)%bool then handleSubmit disabled b else b.

End Client.

(** ** The task panel (TodoPanel.tsx) *)

Module Panel.

Local Open Scope Z_scope.

(** [Math.ceil(a / b)] for [0 < b], on whole numbers. *)
Definition ceil_div (a b : Z) : Z := - ((- a) / b).

Definition day : Z := 1000 * 60 * 60 * 24.

(** Decimal rendering of a whole number, as a template literal
    gives it. *)
Definition of_Z (z : Z) : string :=
  if z <? 0 then ("-" ++ Str.of_nat (Z.to_nat (- z)))%string else Str.of_nat (Z.to_nat z).

Section WithClock.

(** The time value of [new Date(text)], in milliseconds: [None] for
    an invalid date.  Time values are whole numbers below [2 ^ 53] in
    size.  For two instants less than [2 ^ 26] days apart (some
    180 000 years) their difference is exact in double precision, and
    its quotient by the day, if it is not a whole number, is at least
    [1 / 86400000] away from one, more than half the spacing of the
    doubles of that size: [Math.ceil] of the rounded quotient is the
    integer [ceil_div] gives. *)
Variable time_of : string -> option Z.

(** [d.toLocaleDateString(undefined, { month: "short", day: "numeric" })]
    for a valid date, which depends on the locale. *)
Variable toLocaleDateString : Z -> string.

(** [isOverdue(due_at)] when [new Date()] is [now]. *)
Definition isOverdue (now : Z) (due_at : option string) : bool :=
  match due_at with
  | None => false
  | Some text =>
      if Str.is_empty text then false
      else
        match time_of text with
        | Some t => t <? now
        | None => false
        end
  end.

(** [formatDue(due_at)] when [new Date()] is [now]. *)
Definition formatDue (now : Z) (due_at : string) : string :=
  match time_of due_at with
  | None => "Invalid Date"
  | Some t =>
      let diffMs := t - now in
      let diffDays := ceil_div diffMs day in
      if diffDays =? 0 then "Today"
      else if diffDays =? 1 then "Tomorrow"
      else if diffDays =? -1 then "Yesterday"
      else if diffDays <? -1 then (of_Z (Z.abs diffDays) ++ "d overdue")%string
      else if diffDays <=? 7 then ("In " ++ of_Z diffDays ++ "d")%string
      else toLocaleDateString t
  end.

(** What [TodoItem] shows of a task: whether it is marked overdue,
    and the label of its due date, if it has one. *)
Definition overdue (now : Z) (todo : Db.todo) : bool :=
  (negb (Db.completed todo) && isOverdue now (Db.due_at todo))%bool.

Definition due_label (now : Z) (todo : Db.todo) : option string :=
  match Db.due_at todo with
  | None => None
  | Some text => if Str.is_empty text then None else Some (formatDue now text)
  end.

End WithClock.

(** The two lists of [TodoPanel] and the count of its header. *)
Definition pending (todos : list Db.todo) : list Db.todo :=
  List.filter (fun t => negb (Db.completed t)) todos.

Definition completed (todos : list Db.todo) : list Db.todo :=
  List.filter Db.completed todos.

End Panel.
(** * Facts *)

(** ** Strings *)

Lemma append_nil_r (s : string) : s ++ EmptyString = s.
Proof. induction s as [|c s IH]; simpl; [reflexivity | now rewrite IH]. Qed.

Lemma append_assoc (a b c : string) : (a ++ b) ++ c = a ++ (b ++ c).
Proof. induction a as [|x a IH]; simpl; [reflexivity | now rewrite IH]. Qed.

Lemma length_append (a b : string) :
  String.length (a ++ b) = String.length a + String.length b.
Proof. induction a as [|x a IH]; simpl; [reflexivity | now rewrite IH]. Qed.

Lemma rev_append (a b : string) : Str.rev (a ++ b) = Str.rev b ++ Str.rev a.
Proof.
  induction a as [|x a IH]; simpl.
  - now rewrite append_nil_r.
  - now rewrite IH, append_assoc.
Qed.

Lemma rev_involutive (s : string) : Str.rev (Str.rev s) = s.
Proof.
  induction s as [|c s IH]; simpl; [reflexivity|].
  now rewrite rev_append, IH.
Qed.

Lemma strip_many_stuck (n : nat) (pats : list string) (s : string) :
  Str.strip_one pats s = None -> Str.strip_many n pats s = s.
Proof. intros H. destruct n; simpl; [reflexivity | now rewrite H]. Qed.

(** A string that begins and ends with characters no white space
    begins or ends with is its own [trim]. *)
Lemma trim_fixed (c d : ascii) (x : string) :
  (forall y, Str.strip_one Str.white_space (String c y) = None) ->
  (forall y, Str.strip_one (map Str.rev Str.white_space) (String d y) = None) ->
  Str.trim (String c (x ++ String d EmptyString)) = String c (x ++ String d EmptyString).
Proof.
  intros Hc Hd. unfold Str.trim.
  assert (E : Str.trimStart (String c (x ++ String d EmptyString))
              = String c (x ++ String d EmptyString)).
  { unfold Str.trimStart. apply strip_many_stuck, Hc. }
  rewrite E. unfold Str.trimEnd.
  set (s := String c (x ++ String d EmptyString)).
  assert (R : Str.rev s = String d (Str.rev x ++ String c EmptyString)).
  { unfold s. simpl. now rewrite rev_append. }
  rewrite R, strip_many_stuck by apply Hd.
  rewrite <- R. apply rev_involutive.
Qed.

Fixpoint has_lf (s : string) : bool :=
  match s with
  | EmptyString => false
  | String c r => (Ascii.eqb c Str.lf || has_lf r)%bool
  end.

Lemma has_lf_append (a b : string) : has_lf (a ++ b) = (has_lf a || has_lf b)%bool.
Proof.
  induction a as [|c a IH]; simpl; [reflexivity|].
  now rewrite IH, orb_assoc.
Qed.

Lemma cut_line_none (s : string) : has_lf s = false -> Str.cut_line s = None.
Proof.
  induction s as [|c s IH]; simpl; [reflexivity|].
  intros H. apply orb_false_iff in H as [Hc Hs].
  rewrite Hc, (IH Hs). reflexivity.
Qed.

Lemma cut_line_first (a r : string) :
  has_lf a = false -> Str.cut_line (a ++ String Str.lf r) = Some (a, r).
Proof.
  induction a as [|c a IH]; simpl; intros H.
  - reflexivity.
  - apply orb_false_iff in H as [Hc Ha]. now rewrite Hc, (IH Ha).
Qed.

Lemma cut_line_length (s line rest : string) :
  Str.cut_line s = Some (line, rest) ->
  String.length s = S (String.length line + String.length rest).
Proof.
  revert line rest. induction s as [|c s IH]; simpl; intros line rest H.
  - discriminate.
  - destruct (Ascii.eqb c Str.lf).
    + injection H as <- <-. reflexivity.
    + destruct (Str.cut_line s) as [[l r]|]; [|discriminate].
      injection H as <- <-. simpl. now rewrite (IH l r eq_refl).
Qed.

(** A prefix with a line feed, of a text whose first line has none,
    holds that whole first line. *)
Lemma prefix_past_first_line (l p r t : string) :
  has_lf l = false -> has_lf p = true ->
  p ++ r = l ++ String Str.lf t ->
  exists x, p = l ++ String Str.lf x /\ x ++ r = t.
Proof.
  revert p. induction l as [|a l IH]; simpl; intros p Hl Hp E.
  - destruct p as [|c p]; simpl in *; [discriminate|].
    injection E as -> E. exists p. now split.
  - apply orb_false_iff in Hl as [Ha Hl].
    destruct p as [|c p]; simpl in *; [discriminate|].
    injection E as -> E. rewrite Ha in Hp. simpl in Hp.
    destruct (IH p Hl Hp E) as [x [-> Hx]]. exists x. now split.
Qed.

(** ** JSON: what [stringify] writes, [parse] reads back *)

Ltac each_ascii c :=
  let b0 := fresh in let b1 := fresh in let b2 := fresh in let b3 := fresh in
  let b4 := fresh in let b5 := fresh in let b6 := fresh in let b7 := fresh in
  destruct c as [b0 b1 b2 b3 b4 b5 b6 b7];
  destruct b0, b1, b2, b3, b4, b5, b6, b7.

Lemma quote_char_no_lf (c : ascii) : has_lf (Json.quote_char c) = false.
Proof. each_ascii c; reflexivity. Qed.

Lemma quote_chars_no_lf (s : string) : has_lf (Json.quote_chars s) = false.
Proof.
  induction s as [|c s IH]; simpl; [reflexivity|].
  now rewrite has_lf_append, quote_char_no_lf, IH.
Qed.

Lemma parse_quote_char (c : ascii) (tail : string) :
  Json.parse_chars None (Json.quote_char c ++ tail)
  = Json.prepend (String c EmptyString) (Json.parse_chars None tail).
Proof. each_ascii c; reflexivity. Qed.

Lemma parse_quote_chars (s rest : string) :
  Json.parse_chars None (Json.quote_chars s ++ String Str.dq rest) = Some (s, rest).
Proof.
  induction s as [|c s IH].
  - reflexivity.
  - simpl Json.quote_chars. rewrite append_assoc, parse_quote_char, IH. reflexivity.
Qed.

Lemma quote_cons (s rest : string) :
  Json.quote s ++ rest = String Str.dq (Json.quote_chars s ++ String Str.dq rest).
Proof. unfold Json.quote, Str.DQ. simpl. now rewrite append_assoc. Qed.

Lemma parse_value_string (n : nat) (s rest : string) :
  Json.parse_value (S n) (Json.quote s ++ rest) = Some (JStr s, rest).
Proof.
  rewrite quote_cons. simpl. now rewrite parse_quote_chars.
Qed.

(** An object with one member. *)
Lemma parse_value_object1 (n : nat) (k x rest : string) (v : json) :
  Json.parse_value n x = Some (v, String "}"%char rest) ->
  Json.parse_value (S (S n)) (String "{"%char (Json.quote k ++ String ":"%char x))
  = Some (JObj [(k, v)], rest).
Proof.
  intros H. rewrite quote_cons.
  cbn [Json.parse_value Json.skip_ws Json.is_json_ws Str.code N_of_ascii Str.dq].
  cbn -[Json.parse_value Json.parse_chars].
  cbn [Json.parse_members Json.skip_ws]. 
  cbn -[Json.parse_value Json.parse_chars].
  rewrite parse_quote_chars.
  cbn -[Json.parse_value]. rewrite H. reflexivity.
Qed.

(** An array with one item, an object. *)
Lemma parse_value_array1 (n : nat) (y rest : string) (v : json) :
  Json.parse_value n (String "{"%char y) = Some (v, String "]"%char rest) ->
  Json.parse_value (S (S n)) (String "["%char (String "{"%char y))
  = Some (JArr [v], rest).
Proof.
  intros H.
  cbn -[Json.parse_value]. 
  change (Json.parse_value (S (S n)) (String "["%char (String "{"%char y)))
    with (Json.parse_elements (S n) [] (String "{"%char y)).
  cbn -[Json.parse_value]. rewrite H. reflexivity.
Qed.

(** The text of the data event, written out. *)
Definition wire (t : string) : string :=
  String "{"%char (Json.quote "choices" ++ String ":"%char
    (String "["%char (String "{"%char (Json.quote "delta" ++ String ":"%char
      (String "{"%char (Json.quote "content" ++ String ":"%char
        (Json.quote t ++ "}}]}"))))))).

Lemma stringify_delta_event (t : string) :
  Json.stringify (Sse.delta_event t) = wire t.
Proof.
  unfold wire, Sse.delta_event. rewrite !quote_cons.
  cbn -[Json.quote_chars]. unfold Json.quote, Str.DQ.
  repeat (rewrite ?append_assoc; cbn -[Json.quote_chars]).
  reflexivity.
Qed.

Lemma parse_value_wire (n : nat) (t : string) :
  Json.parse_value (9 + n) (wire t) = Some (Sse.delta_event t, EmptyString).
Proof.
  unfold wire, Sse.delta_event.
  change (9 + n) with (S (S (S (S (S (S (S (S (S n))))))))).
  apply parse_value_object1, parse_value_array1, parse_value_object1, parse_value_object1.
  apply parse_value_string.
Qed.

Lemma wire_length (t : string) : exists n, 2 * String.length (wire t) + 2 = 9 + n.
Proof.
  unfold wire. simpl String.length.
  match goal with |- exists n, 2 * S (S (S (S ?m))) + 2 = _ => exists (2 * m + 1) end.
  lia.
Qed.

Lemma parse_wire (t : string) : Json.parse (wire t) = Some (Sse.delta_event t).
Proof.
  unfold Json.parse. destruct (wire_length t) as [n ->].
  rewrite parse_value_wire. reflexivity.
Qed.

Lemma wire_no_lf (t : string) : has_lf (wire t) = false.
Proof.
  unfold wire. rewrite !quote_cons. simpl.
  rewrite has_lf_append, quote_chars_no_lf. reflexivity.
Qed.

(** The text of the data event is a brace, a body, a brace. *)
Lemma wire_shape (t : string) :
  exists x, wire t = String "{"%char (x ++ String "}"%char EmptyString).
Proof.
  exists (Json.quote "choices" ++ ":[{" ++ Json.quote "delta" ++ ":{"
          ++ Json.quote "content" ++ ":" ++ Json.quote t ++ "}}]").
  unfold wire, Json.quote, Str.DQ. simpl.
  repeat (rewrite !append_assoc; simpl). reflexivity.
Qed.

(** ** The stream reader on the stream of the function *)

Lemma strip_cr_fixed (c d : ascii) (x : string) :
  Str.cr <> d ->
  Chat.strip_cr (String c (x ++ String d EmptyString)) = String c (x ++ String d EmptyString).
Proof.
  intros H. unfold Chat.strip_cr, Str.endsWith.
  replace (Str.rev (String c (x ++ String d EmptyString)))
    with (String d (Str.rev x ++ String c EmptyString))
    by (simpl; now rewrite rev_append).
  change (Str.rev (String Str.cr EmptyString)) with (String Str.cr EmptyString).
  cbn [String.prefix].
  destruct (ascii_dec Str.cr d) as [E|_]; [contradiction | reflexivity].
Qed.

Definition data_line (t : string) : string := "data: " ++ wire t.

Lemma data_line_shape (t : string) :
  exists x, data_line t = String "d"%char (x ++ String "}"%char EmptyString).
Proof.
  destruct (wire_shape t) as [x E]. unfold data_line. rewrite E.
  exists ("ata: {" ++ x). reflexivity.
Qed.

Lemma data_line_no_lf (t : string) : has_lf (data_line t) = false.
Proof. unfold data_line. rewrite has_lf_append, wire_no_lf. reflexivity. Qed.

Lemma trim_wire (t : string) : Str.trim (wire t) = wire t.
Proof.
  destruct (wire_shape t) as [x E]. rewrite E.
  apply trim_fixed; intros y; reflexivity.
Qed.

Lemma trim_data_line (t : string) : Str.trim (data_line t) = data_line t.
Proof.
  destruct (data_line_shape t) as [x E]. rewrite E.
  apply trim_fixed; intros y; reflexivity.
Qed.

(** The data line of a non-empty answer appends that answer, and
    nothing else happens. *)
Lemma on_line_data (t : string) (st : Chat.reader) :
  t <> EmptyString ->
  Chat.on_line (data_line t) st = Chat.Continue (Chat.upsertAssistant t st).
Proof.
  intros Ht. unfold Chat.on_line.
  assert (E1 : Chat.strip_cr (data_line t) = data_line t).
  { destruct (data_line_shape t) as [x E]. rewrite E. now apply strip_cr_fixed. }
  rewrite E1, trim_data_line.
  replace (Str.startsWith (data_line t) ":") with false by reflexivity.
  replace (Str.is_empty (data_line t)) with false by reflexivity.
  replace (Str.startsWith (data_line t) "data: ") with true by reflexivity.
  replace (Str.slice_from 6 (data_line t)) with (wire t) by reflexivity.
  rewrite trim_wire.
  replace (String.eqb (wire t) "[DONE]") with false by reflexivity.
  rewrite parse_wire. cbn.
  destruct t as [|c t]; [contradiction|]. reflexivity.
Qed.

Lemma on_line_continue_buffer (line : string) (st st' : Chat.reader) :
  Chat.on_line line st = Chat.Continue st' -> Chat.textBuffer st' = Chat.textBuffer st.
Proof.
  unfold Chat.on_line.
  repeat match goal with
         | |- context [if ?b then _ else _] => destruct b
         | |- context [match ?o with Some _ => _ | None => _ end] => destruct o
         end;
    intros H; try discriminate H; injection H as <-; reflexivity.
Qed.

(** The inner loop ends: more fuel than the buffer is long is enough,
    and any such amount gives the same state. *)
Lemma drain_fuel (n m : nat) (st : Chat.reader) :
  String.length (Chat.textBuffer st) < n ->
  String.length (Chat.textBuffer st) < m ->
  Chat.drain n st = Chat.drain m st.
Proof.
  revert m st. induction n as [|n IH]; intros m st Hn Hm; [lia|].
  destruct m as [|m]; [lia|]. simpl.
  destruct (Str.cut_line (Chat.textBuffer st)) as [[line rest]|] eqn:E; [|reflexivity].
  apply cut_line_length in E.
  destruct (Chat.on_line line (Chat.set_buffer rest st)) as [st'|st'] eqn:L; [|reflexivity].
  apply on_line_continue_buffer in L. simpl in L.
  apply IH; rewrite L; lia.
Qed.

Lemma drain_total (n : nat) (st : Chat.reader) :
  String.length (Chat.textBuffer st) < n -> exists st', Chat.drain n st = Some st'.
Proof.
  revert st. induction n as [|n IH]; intros st Hn; [lia|]. simpl.
  destruct (Str.cut_line (Chat.textBuffer st)) as [[line rest]|] eqn:E; [|eauto].
  apply cut_line_length in E.
  destruct (Chat.on_line line (Chat.set_buffer rest st)) as [st'|st'] eqn:L; [|eauto].
  apply on_line_continue_buffer in L. simpl in L.
  apply IH. rewrite L. lia.
Qed.

Lemma on_chunk_total (v : string) (st : Chat.reader) :
  exists st', Chat.on_chunk v st = Some st'.
Proof. unfold Chat.on_chunk. apply drain_total. lia. Qed.

Lemma read_all_total (values : list string) (decoder : Str.decoder) (st : Chat.reader) :
  exists st', Chat.read_all decoder values st = Some st'.
Proof.
  revert decoder st.
  induction values as [|v r IH]; intros decoder st; cbn [Chat.read_all]; [eauto|].
  destruct (Str.decode decoder v) as [text decoder'].
  destruct (on_chunk_total text st) as [st' ->]. apply IH.
Qed.

(** *** The decoder *)

Definition high (c : ascii) : bool := (128 <=? Str.code c)%N.

Fixpoint all_high (s : string) : bool :=
  match s with
  | EmptyString => true
  | String c r => (high c && all_high r)%bool
  end.

Lemma take_slice (n : nat) (s : string) : Str.take n s ++ Str.slice_from n s = s.
Proof.
  revert s. induction n as [|n IH]; intros [|c s]; simpl; try reflexivity.
  now rewrite IH.
Qed.

Lemma all_high_append (a b : string) : all_high (a ++ b) = (all_high a && all_high b)%bool.
Proof.
  induction a as [|c a IH]; simpl; [reflexivity|]. now rewrite IH, andb_assoc.
Qed.

Lemma all_high_rev (s : string) : all_high (Str.rev s) = all_high s.
Proof.
  induction s as [|c s IH]; simpl; [reflexivity|].
  rewrite all_high_append, IH. simpl. rewrite andb_true_r. apply andb_comm.
Qed.

Lemma lead_is_high (c : ascii) (k : nat) : Nat.ltb k (Str.lead_needs c) = true -> high c = true.
Proof.
  unfold Str.lead_needs, high. intros H. apply Nat.ltb_lt in H.
  repeat match type of H with
         | context [if ?b then _ else _] => destruct b eqn:?
         end; try lia;
    repeat match goal with
           | E : (_ && _)%bool = true |- _ => apply andb_true_iff in E as [? ?]
           | E : (_ <=? _)%N = true |- _ => apply N.leb_le in E
           end; apply N.leb_le; lia.
Qed.

Lemma continuation_is_high (c : ascii) : Str.is_continuation c = true -> high c = true.
Proof. unfold Str.is_continuation, high. intros H. now apply andb_true_iff in H as [H _]. Qed.

Lemma cut_is_high (r : string) : all_high (Str.take (Str.cut_length r) r) = true.
Proof.
  destruct r as [|c1 r1]; [reflexivity|]. cbn [Str.cut_length].
  destruct (Nat.ltb 0 (Str.lead_needs c1)) eqn:L1.
  { simpl. now rewrite (lead_is_high _ _ L1). }
  destruct (Str.is_continuation c1) eqn:C1; [|reflexivity].
  destruct r1 as [|c2 r2]; [reflexivity|].
  destruct (Nat.ltb 1 (Str.lead_needs c2)) eqn:L2.
  { simpl. now rewrite (continuation_is_high _ C1), (lead_is_high _ _ L2). }
  destruct (Str.is_continuation c2) eqn:C2; [|reflexivity].
  destruct r2 as [|c3 r3]; [reflexivity|].
  destruct (Nat.ltb 2 (Str.lead_needs c3)) eqn:L3; [|reflexivity].
  simpl. now rewrite (continuation_is_high _ C1), (continuation_is_high _ C2),
    (lead_is_high _ _ L3).
Qed.

(** The decoder gives every byte, now or with the next chunk, and
    keeps bytes of characters outside ASCII only. *)
Lemma decode_stream_keeps (bytes text kept : string) :
  Str.decode_stream bytes = (text, kept) ->
  text ++ kept = bytes /\ all_high kept = true.
Proof.
  unfold Str.decode_stream. intros H. injection H as <- <-. split.
  - rewrite <- rev_append, take_slice. apply rev_involutive.
  - rewrite all_high_rev. apply cut_is_high.
Qed.

(** A decoder that has decoded a character goes on as
    [decode_stream] does. *)
Lemma decode_started (kept value : string) :
  Str.decode (Str.mkDecoder kept true) value
  = (fst (Str.decode_stream (kept ++ value)),
     Str.mkDecoder (snd (Str.decode_stream (kept ++ value))) true).
Proof.
  unfold Str.decode. cbn [Str.kept Str.started orb].
  now destruct (Str.decode_stream (kept ++ value)).
Qed.

(** The first byte of the byte order mark. *)
Definition mark_byte : ascii := "239"%char.

Lemma unmarked_other (c : ascii) (r : string) :
  c <> mark_byte -> Str.unmarked (String c r) = String c r.
Proof.
  intros H. unfold Str.unmarked, Str.BOM.
  change (Str.bytes [239; 187; 191]%N)
    with (String mark_byte (String "187"%char (String "191"%char EmptyString))).
  cbn [Str.strip_prefix].
  destruct (Ascii.eqb_spec mark_byte c) as [E|_]; [|reflexivity].
  exfalso. apply H. now rewrite <- E.
Qed.

(** Before the first character, the decoder acts on a stream that
    does not begin with the first byte of the mark as it does after
    it. *)
Lemma decode_unmarked (kept value : string) :
  (forall r, kept ++ value <> String mark_byte r) ->
  Str.decode (Str.mkDecoder kept false) value
  = (fst (Str.decode_stream (kept ++ value)),
     Str.mkDecoder (snd (Str.decode_stream (kept ++ value)))
       (negb (Str.is_empty (fst (Str.decode_stream (kept ++ value)))))).
Proof.
  intros H. unfold Str.decode. cbn [Str.kept Str.started orb].
  destruct (Str.decode_stream (kept ++ value)) as [text rest] eqn:D.
  apply decode_stream_keeps in D as [D _]. cbn [fst snd].
  destruct text as [|c text]; [reflexivity|]. cbn [Str.is_empty negb].
  rewrite unmarked_other; [reflexivity|].
  intros ->. apply (H (text ++ rest)). now rewrite <- D.
Qed.

Lemma all_high_no_lf (s : string) : all_high s = true -> has_lf s = false.
Proof.
  induction s as [|c s IH]; simpl; [reflexivity|].
  intros H. apply andb_true_iff in H as [Hc Hs]. rewrite (IH Hs), orb_false_r.
  destruct (Ascii.eqb_spec c Str.lf) as [->|]; [discriminate Hc | reflexivity].
Qed.

(** What follows the data line in the stream. *)
Definition after_data : string :=
  Str.LF ++ "data: [DONE]" ++ Str.LF ++ Str.LF.

Fixpoint tails (s : string) : list string :=
  s :: match s with
       | EmptyString => []
       | String _ r => tails r
       end.

Ltac enum_prefix H u tac :=
  destruct u as [|? u]; simpl in H;
  [ subst; tac
  | first [ discriminate H | (injection H as -> H; enum_prefix H u tac) ] ].

Ltac pick_tail := repeat first [ left; reflexivity | right ].

(** Past the data line nothing in the stream changes the messages:
    whatever part [u] of the rest is in the buffer, the inner loop only
    shortens the buffer. *)
Lemma drain_after_data (u r a : string) (m : list Chat.Msg) (k : nat) :
  In (u ++ r) (tails after_data) ->
  exists y, Chat.drain (S (String.length u)) (Chat.mkReader u a m k)
            = Some (Chat.mkReader y a m k)
            /\ In (y ++ r) (tails after_data).
Proof.
  intros H. vm_compute in H.
  repeat (destruct H as [H|H]; [symmetry in H|]); [..|contradiction];
    enum_prefix H u ltac:(eexists; split; [vm_compute; reflexivity | vm_compute; pick_tail]).
Qed.

Lemma body_split (t : string) :
  Sse.body t = data_line t ++ String Str.lf after_data.
Proof.
  unfold Sse.body, Sse.chunks, data_line, after_data, Str.LF.
  rewrite stringify_delta_event. simpl.
  repeat (rewrite !append_assoc; simpl). reflexivity.
Qed.

Lemma concat_cons (v : string) (r : list string) :
  String.concat EmptyString (v :: r) = v ++ String.concat EmptyString r.
Proof. destruct r; simpl; [now rewrite append_nil_r | reflexivity]. Qed.

Lemma read_all_unmarked (values : list string) :
  forall (kept : string) (st : Chat.reader),
    (forall r, kept ++ String.concat EmptyString values <> String mark_byte r) ->
    Chat.read_all (Str.mkDecoder kept false) values st
    = Chat.read_all (Str.mkDecoder kept true) values st.
Proof.
  induction values as [|v later IH]; intros kept st H; [reflexivity|].
  rewrite concat_cons in H. cbn [Chat.read_all].
  assert (Hv : forall r, kept ++ v <> String mark_byte r).
  { intros r E. destruct (kept ++ v) as [|c x] eqn:X; [discriminate E|].
    injection E as -> ->. apply (H (r ++ String.concat EmptyString later)).
    rewrite <- append_assoc, X. reflexivity. }
  rewrite decode_unmarked by exact Hv. rewrite decode_started.
  destruct (Str.decode_stream (kept ++ v)) as [text rest] eqn:D. cbn [fst snd].
  destruct (Chat.on_chunk text st) as [st'|]; [|reflexivity].
  destruct text as [|c text]; [|reflexivity]. cbn [Str.is_empty negb].
  apply IH. apply decode_stream_keeps in D as [D _]. cbn [append] in D. subst rest.
  intros r. rewrite append_assoc. apply H.
Qed.

Lemma mapi_id_before (soFar : string) (n i : nat) (l : list Chat.Msg) :
  i + List.length l <= n ->
  Js.mapi (fun m j => if Nat.eqb j n then Chat.mkMsg (Chat.role m) soFar else m) i l = l.
Proof.
  revert i. induction l as [|x l IH]; intros i H; simpl in *; [reflexivity|].
  replace (Nat.eqb i n) with false by (symmetry; apply Nat.eqb_neq; lia).
  rewrite IH by lia. reflexivity.
Qed.

(** After the user's message the first delta adds one assistant
    message. *)
Lemma upsert_after_user (soFar input : string) (hist : list Chat.Msg) :
  Chat.upsert_messages soFar (hist ++ [Chat.mkMsg Chat.user input])%list
  = (hist ++ [Chat.mkMsg Chat.user input; Chat.mkMsg Chat.assistant soFar])%list.
Proof.
  unfold Chat.upsert_messages.
  rewrite length_app. simpl List.length.
  replace (List.length hist + 1 - 1) with (List.length hist) by lia.
  rewrite nth_error_app2 by lia. rewrite Nat.sub_diag. simpl.
  now rewrite <- app_assoc.
Qed.

Section RoundTrip.

Variable t : string.
Variable prev : list Chat.Msg.
Hypothesis t_not_empty : t <> EmptyString.
Hypothesis first_delta :
  Chat.upsert_messages t prev = (prev ++ [Chat.mkMsg Chat.assistant t])%list.

(** Before the data line is complete: nothing was shown, the buffer
    holds what was read. *)
Definition before_data (st : Chat.reader) (rest : string) : Prop :=
  Chat.assistantSoFar st = EmptyString /\ Chat.messages st = prev /\
  Chat.todoRefresh st = 0 /\ has_lf (Chat.textBuffer st) = false /\
  Chat.textBuffer st ++ rest = data_line t ++ String Str.lf after_data.

(** After it: the answer is shown once, the buffer and what is still
    to come are an end of the stream. *)
Definition past_data (st : Chat.reader) (rest : string) : Prop :=
  Chat.assistantSoFar st = t /\
  Chat.messages st = (prev ++ [Chat.mkMsg Chat.assistant t])%list /\
  Chat.todoRefresh st = 0 /\ In (Chat.textBuffer st ++ rest) (tails after_data).

Lemma chunk_past_data (st : Chat.reader) (v rest : string) :
  past_data st (v ++ rest) ->
  exists st', Chat.on_chunk v st = Some st' /\ past_data st' rest.
Proof.
  destruct st as [b a m k]. unfold past_data. simpl.
  intros (-> & -> & -> & H). rewrite <- append_assoc in H.
  destruct (drain_after_data _ _ t (prev ++ [Chat.mkMsg Chat.assistant t])%list 0 H)
    as (y & D & I).
  exists (Chat.mkReader y t (prev ++ [Chat.mkMsg Chat.assistant t])%list 0). split.
  - unfold Chat.on_chunk, Chat.set_buffer. simpl. exact D.
  - simpl. auto.
Qed.


Lemma drain_unfold (n : nat) (st : Chat.reader) :
  Chat.drain (S n) st =
  match Str.cut_line (Chat.textBuffer st) with
  | None => Some st
  | Some (line, rest) =>
      match Chat.on_line line (Chat.set_buffer rest st) with
      | Chat.Continue st' => Chat.drain n st'
      | Chat.Break st' => Some st'
      end
  end.
Proof. reflexivity. Qed.

Lemma chunk_before_data (st : Chat.reader) (v rest : string) :
  before_data st (v ++ rest) ->
  exists st', Chat.on_chunk v st = Some st' /\ (before_data st' rest \/ past_data st' rest).
Proof.
  destruct st as [b a m k]. unfold before_data.
  cbn [Chat.assistantSoFar Chat.messages Chat.todoRefresh Chat.textBuffer].
  intros (-> & -> & -> & Hb & E). rewrite <- append_assoc in E.
  unfold Chat.on_chunk, Chat.set_buffer.
  cbn [Chat.assistantSoFar Chat.messages Chat.todoRefresh Chat.textBuffer].
  rewrite drain_unfold.
  cbn [Chat.assistantSoFar Chat.messages Chat.todoRefresh Chat.textBuffer].
  destruct (has_lf (b ++ v)) eqn:Hl.
  - destruct (prefix_past_first_line _ _ _ _ (data_line_no_lf t) Hl E) as (x & -> & Hx).
    rewrite cut_line_first by apply data_line_no_lf.
    rewrite on_line_data by exact t_not_empty.
    unfold Chat.upsertAssistant, Chat.set_buffer.
    cbn [Chat.assistantSoFar Chat.messages Chat.todoRefresh Chat.textBuffer append].
    rewrite first_delta.
    assert (I : In (x ++ rest) (tails after_data)) by (rewrite Hx; now left).
    destruct (drain_after_data _ _ t (prev ++ [Chat.mkMsg Chat.assistant t])%list 0 I)
      as (y & D & J).
    exists (Chat.mkReader y t (prev ++ [Chat.mkMsg Chat.assistant t])%list 0). split.
    + rewrite <- D.
      apply drain_fuel; cbn [Chat.textBuffer]; rewrite ?length_append;
        cbn [String.length]; lia.
    + right. unfold past_data.
      cbn [Chat.assistantSoFar Chat.messages Chat.todoRefresh Chat.textBuffer]. auto.
  - exists (Chat.mkReader (b ++ v) EmptyString prev 0). split.
    + now rewrite cut_line_none.
    + left. unfold before_data.
      cbn [Chat.assistantSoFar Chat.messages Chat.todoRefresh Chat.textBuffer]. auto.
Qed.

(** Past the data line the decoder keeps nothing: what is left of
    the stream is ASCII. *)
Lemma past_data_keeps_nothing (st : Chat.reader) (kept : string) :
  past_data st kept -> all_high kept = true -> kept = EmptyString.
Proof.
  destruct st as [b a m k]. unfold past_data. cbn [Chat.textBuffer].
  intros (_ & _ & _ & H) Hk. vm_compute in H.
  repeat (destruct H as [H|H]; [symmetry in H|]); [..|contradiction];
    enum_prefix H b ltac:(first [reflexivity | discriminate Hk]).
Qed.

Lemma read_all_phases (values : list string) :
  forall (kept : string) (st : Chat.reader),
    all_high kept = true ->
    before_data st (kept ++ String.concat EmptyString values)
    \/ past_data st (kept ++ String.concat EmptyString values) ->
    exists st', Chat.read_all (Str.mkDecoder kept true) values st = Some st'
                /\ past_data st' EmptyString.
Proof.
  induction values as [|v r IH]; intros kept st Hk H.
  - cbn [String.concat Chat.read_all] in *. rewrite append_nil_r in H.
    destruct H as [(_ & _ & _ & Hb & E)|H].
    + assert (L : has_lf (Chat.textBuffer st ++ kept) = false)
        by (rewrite has_lf_append, Hb, (all_high_no_lf kept Hk); reflexivity).
      rewrite E, has_lf_append in L.
      cbn [has_lf] in L. rewrite Ascii.eqb_refl, orb_true_r in L. discriminate.
    + exists st. split; [reflexivity|].
      now rewrite (past_data_keeps_nothing st kept H Hk) in H.
  - rewrite concat_cons, <- append_assoc in H. cbn [Chat.read_all].
    rewrite decode_started.
    destruct (Str.decode_stream (kept ++ v)) as [text kept'] eqn:D. cbn [fst snd].
    apply decode_stream_keeps in D as [D Hk']. rewrite <- D, append_assoc in H.
    destruct H as [H|H].
    + destruct (chunk_before_data _ _ _ H) as (st' & -> & H'). now apply IH.
    + destruct (chunk_past_data _ _ _ H) as (st' & -> & H'). apply IH; auto.
Qed.

Lemma finish_past_data (st : Chat.reader) :
  past_data st EmptyString ->
  Chat.finish st
  = Chat.mkOutcome (Chat.bump_refresh st) (Some (Chat.mkMsg Chat.assistant t))
  /\ Chat.todoRefresh (Chat.bump_refresh st) = 1.
Proof.
  destruct st as [b a m k]. unfold past_data.
  cbn [Chat.assistantSoFar Chat.messages Chat.todoRefresh Chat.textBuffer].
  intros (-> & -> & -> & H). rewrite append_nil_r in H.
  assert (F : Chat.flush (Chat.mkReader b t (prev ++ [Chat.mkMsg Chat.assistant t])%list 0)
              = Chat.mkReader b t (prev ++ [Chat.mkMsg Chat.assistant t])%list 0).
  { vm_compute in H.
    repeat (destruct H as [H|H]; [subst b; vm_compute; reflexivity|]). contradiction. }
  unfold Chat.finish. rewrite F.
  cbn [Chat.assistantSoFar Chat.bump_refresh Chat.todoRefresh Chat.messages Chat.textBuffer].
  destruct t; [contradiction|]. split; reflexivity.
Qed.

Lemma read_stream_body (values : list string) :
  String.concat EmptyString values = Sse.body t ->
  exists o, Chat.read_stream prev values = Some o
            /\ Chat.messages (Chat.final o) = (prev ++ [Chat.mkMsg Chat.assistant t])%list
            /\ Chat.assistantSoFar (Chat.final o) = t
            /\ Chat.todoRefresh (Chat.final o) = 1
            /\ Chat.saved o = Some (Chat.mkMsg Chat.assistant t).
Proof.
  intros E. unfold Chat.read_stream, Str.new_decoder.
  rewrite read_all_unmarked
    by (intros r; cbn [append]; rewrite E; unfold Sse.body, Sse.chunks; discriminate).
  destruct (read_all_phases values EmptyString
              (Chat.mkReader EmptyString EmptyString prev 0) eq_refl)
    as (st & -> & P).
  { left. unfold before_data.
    cbn [Chat.assistantSoFar Chat.messages Chat.todoRefresh Chat.textBuffer has_lf append].
    rewrite E, body_split. auto. }
  destruct (finish_past_data st P) as [F R]. rewrite F.
  destruct P as (A & M & _ & _).
  eexists. split; [reflexivity|].
  destruct st as [b a m k].
  cbn [Chat.final Chat.saved Chat.bump_refresh Chat.assistantSoFar Chat.messages
       Chat.todoRefresh Chat.textBuffer] in *.
  subst. auto.
Qed.

End RoundTrip.

Example roundtrip_buy_milk :
  let t := "Added task: " ++ Str.DQ ++ "Buy milk" ++ Str.DQ in
  Chat.read_stream [Chat.mkMsg Chat.user "add milk"] (Sse.chunks t)
  = Some (Chat.mkOutcome
            (Chat.mkReader Str.LF t
               [Chat.mkMsg Chat.user "add milk"; Chat.mkMsg Chat.assistant t] 1)
            (Some (Chat.mkMsg Chat.assistant t))).
Proof. vm_compute. reflexivity. Qed.


Lemma finalContent_not_empty (content : option string) :
  Sse.finalContent content <> EmptyString.
Proof. destruct content as [[|c s]|]; discriminate. Qed.

(** C1.  The bytes the function writes for a settled answer (one
    data event and the [DONE] line), cut into read chunks in any way,
    make the reader of the chat page add one assistant message, with
    the settled answer as its content, after the user's message, and
    nothing else: the reader ends, the text it has accumulated is the
    answer, and that one message is what it saves. *)
Theorem stream_round_trip
  (content : option string) (history : list Chat.Msg) (input : string)
  (values : list string) :
  String.concat EmptyString values = Sse.body (Sse.finalContent content) ->
  exists o,
    Chat.read_stream (history ++ [Chat.mkMsg Chat.user input])%list values = Some o
    /\ Chat.messages (Chat.final o)
       = (history ++ [Chat.mkMsg Chat.user input;
                      Chat.mkMsg Chat.assistant (Sse.finalContent content)])%list
    /\ Chat.assistantSoFar (Chat.final o) = Sse.finalContent content
    /\ Chat.saved o = Some (Chat.mkMsg Chat.assistant (Sse.finalContent content)).
Proof.
  intros E.
  assert (U : Chat.upsert_messages (Sse.finalContent content)
                (history ++ [Chat.mkMsg Chat.user input])%list
              = ((history ++ [Chat.mkMsg Chat.user input])
                 ++ [Chat.mkMsg Chat.assistant (Sse.finalContent content)])%list)
    by (rewrite upsert_after_user, <- app_assoc; reflexivity).
  destruct (read_stream_body (Sse.finalContent content)
              (history ++ [Chat.mkMsg Chat.user input])%list
              (finalContent_not_empty content) U values E)
    as (o & R & M & A & _ & S).
  exists o. rewrite <- app_assoc in M. auto.
Qed.

Definition buy_milk_added : string :=
  "Added task: " ++ Str.DQ ++ "Buy milk" ++ Str.DQ.

(** The stream of [buy_milk_added] read in two chunks, the first of
    which ends in the middle of the data line. *)
Definition two_reads : list string :=
  [ String.substring 0 30 (Sse.body buy_milk_added);
    String.substring 30 100 (Sse.body buy_milk_added) ].

Lemma stream_round_trip_witness :
  exists o,
    Chat.read_stream ([] ++ [Chat.mkMsg Chat.user "add milk"])%list two_reads = Some o
    /\ Chat.messages (Chat.final o)
       = ([] ++ [Chat.mkMsg Chat.user "add milk";
                 Chat.mkMsg Chat.assistant (Sse.finalContent (Some buy_milk_added))])%list
    /\ Chat.assistantSoFar (Chat.final o) = Sse.finalContent (Some buy_milk_added)
    /\ Chat.saved o = Some (Chat.mkMsg Chat.assistant (Sse.finalContent (Some buy_milk_added))).
Proof.
  apply (stream_round_trip (Some buy_milk_added) [] "add milk" two_reads).
  vm_compute. reflexivity.
Defined.

Example split_data_line_is_reassembled :
  map String.length two_reads = [30; 54]
  /\ option_map (fun o => Chat.messages (Chat.final o))
       (Chat.read_stream [Chat.mkMsg Chat.user "add milk"] two_reads)
     = Some [Chat.mkMsg Chat.user "add milk"; Chat.mkMsg Chat.assistant buy_milk_added].
Proof. vm_compute. split; reflexivity. Qed.

Example comments_and_blank_lines_are_skipped :
  option_map (fun o => Chat.messages (Chat.final o))
    (Chat.read_stream [Chat.mkMsg Chat.user "add milk"]
       [": keep-alive" ++ Str.LF ++ Str.LF;
        String.substring 0 30 (Sse.body buy_milk_added);
        String.substring 30 100 (Sse.body buy_milk_added) ++ ": keep-alive" ++ Str.LF])
  = Some [Chat.mkMsg Chat.user "add milk"; Chat.mkMsg Chat.assistant buy_milk_added].
Proof. vm_compute. reflexivity. Qed.

(** The check mark, three bytes in UTF-8. *)
Definition check_mark : string := String "226" (String "156" (String "147" EmptyString)).

(** A read that ends after the first byte of the check mark: the
    decoder keeps that byte for the next read, and the answer is put
    together all the same. *)
Example cut_character_is_kept_for_the_next_read :
  let body := Sse.body (check_mark ++ " done") in
  let reads := [String.substring 0 40 body; String.substring 40 100 body] in
  String.concat EmptyString reads = body
  /\ Str.decode_stream (String.substring 0 40 body)
     = (String.substring 0 39 body, String "226" EmptyString)
  /\ option_map (fun o => Chat.messages (Chat.final o))
       (Chat.read_stream [Chat.mkMsg Chat.user "toggle"] reads)
     = Some [Chat.mkMsg Chat.user "toggle";
             Chat.mkMsg Chat.assistant (check_mark ++ " done")].
Proof. vm_compute. repeat split; reflexivity. Qed.

(** ** The fuel of the JSON parser is enough *)

Lemma skip_ws_length (s : string) : String.length (Json.skip_ws s) <= String.length s.
Proof.
  induction s as [|c s IH]; simpl; [lia|].
  destruct (Json.is_json_ws c); simpl; lia.
Qed.

Lemma prepend_rest (p : string) (o : option (string * string)) (x r : string) :
  Json.prepend p o = Some (x, r) -> exists y, o = Some (y, r).
Proof. destruct o as [[y r']|]; simpl; intros H; [|discriminate]. injection H as _ <-. eauto. Qed.

Lemma parse_chars_length (s : string) :
  forall hi x r, Json.parse_chars hi s = Some (x, r) -> String.length r < String.length s.
Proof.
  induction s as [s IH] using (well_founded_induction
                                 (Wf_nat.well_founded_ltof _ String.length)).
  unfold Wf_nat.ltof in IH.
  intros hi x r. destruct s as [|c s]; simpl; [discriminate|].
  destruct (Ascii.eqb c Str.dq).
  { intros H. injection H as _ <-. lia. }
  destruct (Ascii.eqb c Str.bs).
  - destruct s as [|e r1]; [discriminate|].
    destruct (Ascii.eqb e "u"%char).
    + destruct r1 as [|h1 [|h2 [|h3 [|h4 r2]]]]; try discriminate.
      destruct (Json.hex4 h1 h2 h3 h4) as [cu|]; [|discriminate].
      assert (L : forall hi' x', Json.parse_chars hi' r2 = Some (x', r) ->
                  String.length r < String.length r2)
        by (intros hi' x'; apply IH; simpl; lia).
      destruct hi as [h|].
      * destruct (Json.is_low cu); [|destruct (Json.is_high cu)];
          intros H; apply prepend_rest in H as [y H]; apply L in H; simpl; lia.
      * destruct (Json.is_high cu); intros H;
          [|apply prepend_rest in H as [y H]]; apply L in H; simpl; lia.
    + destruct (Json.unescape e); [|discriminate].
      intros H. apply prepend_rest in H as [y H]. apply IH in H; simpl in *; lia.
  - destruct (Str.code c <? 32)%N; [discriminate|].
    intros H. apply prepend_rest in H as [y H]. apply IH in H; simpl in *; lia.
Qed.

Lemma take_digits_length (s : string) :
  String.length (snd (Json.take_digits s)) <= String.length s.
Proof.
  induction s as [|c s IH]; simpl; [lia|].
  destruct (Json.is_digit c); [|simpl; lia].
  destruct (Json.take_digits s); simpl in *. lia.
Qed.

Lemma slice_from_length (n : nat) (s : string) :
  String.length (Str.slice_from n s) <= String.length s.
Proof.
  revert s. induction n as [|n IH]; intros [|c s]; simpl; try lia.
  specialize (IH s). lia.
Qed.

Lemma take_digits_first (c : ascii) (s d r : string) :
  Json.is_digit c = true -> Json.take_digits (String c s) = (d, r) ->
  String.length r <= String.length s.
Proof.
  simpl. intros D. rewrite D.
  pose proof (take_digits_length s) as L.
  destruct (Json.take_digits s) as [d' r']. intros H. injection H as _ <-. exact L.
Qed.

Lemma parse_number_length (s l r : string) :
  Json.parse_number s = Some (l, r) -> String.length r < String.length s.
Proof.
  unfold Json.parse_number.
  set (signed := match s with
                 | String c r0 => if Ascii.eqb c "-"%char then ("-", r0) else (EmptyString, s)
                 | EmptyString => (EmptyString, s)
                 end).
  assert (S1 : String.length (snd signed) <= String.length s).
  { unfold signed. destruct s as [|c r0]; [simpl; lia|].
    destruct (Ascii.eqb c "-"%char); simpl; lia. }
  destruct signed as [sign s1]. simpl in S1.
  set (int_part := match s1 with
                   | String c r0 =>
                       if Ascii.eqb c "0"%char then Some ("0", r0)
                       else if Json.is_digit c then Some (Json.take_digits s1) else None
                   | EmptyString => None
                   end).
  assert (S2 : forall i s2, int_part = Some (i, s2) -> String.length s2 < String.length s1).
  { unfold int_part. intros i s2. destruct s1 as [|c r0]; [discriminate|].
    destruct (Ascii.eqb c "0"%char).
    - intros H. injection H as _ <-. simpl. lia.
    - destruct (Json.is_digit c) eqn:D; [|discriminate].
      destruct (Json.take_digits (String c r0)) as [d r'] eqn:T. intros H.
      injection H as _ <-. pose proof (take_digits_first c r0 d r' D T). simpl. lia. }
  destruct int_part as [[i s2]|]; [|discriminate].
  specialize (S2 i s2 eq_refl).
  set (frac := match s2 with
               | String c r0 =>
                   if Ascii.eqb c "."%char then
                     let (d, r') := Json.take_digits r0 in
                     if Str.is_empty d then None else Some ("." ++ d, r')
                   else Some (EmptyString, s2)
               | EmptyString => Some (EmptyString, s2)
               end).
  assert (S3 : forall f s3, frac = Some (f, s3) -> String.length s3 <= String.length s2).
  { unfold frac. intros f s3. destruct s2 as [|c r0].
    - intros H. injection H as _ <-. lia.
    - destruct (Ascii.eqb c "."%char).
      + pose proof (take_digits_length r0) as L.
        destruct (Json.take_digits r0) as [d r']. simpl in L.
        destruct (Str.is_empty d); [discriminate|].
        intros H. injection H as _ <-. simpl. lia.
      + intros H. injection H as _ <-. lia. }
  destruct frac as [[f s3]|]; [|discriminate].
  specialize (S3 f s3 eq_refl).
  set (exp := match s3 with
              | String c r0 =>
                  if (Ascii.eqb c "e"%char || Ascii.eqb c "E"%char)%bool then
                    let (sg, r1) :=
                      match r0 with
                      | String c' r' =>
                          if (Ascii.eqb c' "+"%char || Ascii.eqb c' "-"%char)%bool
                          then (String c' EmptyString, r') else (EmptyString, r0)
                      | EmptyString => (EmptyString, r0)
                      end in
                    let (d, r') := Json.take_digits r1 in
                    if Str.is_empty d then None
                    else Some (String c EmptyString ++ sg ++ d, r')
                  else Some (EmptyString, s3)
              | EmptyString => Some (EmptyString, s3)
              end).
  assert (S4 : forall e s4, exp = Some (e, s4) -> String.length s4 <= String.length s3).
  { unfold exp. intros e s4. destruct s3 as [|c r0].
    - intros H. injection H as _ <-. lia.
    - destruct (Ascii.eqb c "e"%char || Ascii.eqb c "E"%char)%bool.
      + set (sg := match r0 with
                   | String c' r' =>
                       if (Ascii.eqb c' "+"%char || Ascii.eqb c' "-"%char)%bool
                       then (String c' EmptyString, r') else (EmptyString, r0)
                   | EmptyString => (EmptyString, r0)
                   end).
        assert (G : String.length (snd sg) <= String.length r0).
        { unfold sg. destruct r0 as [|c' r']; [simpl; lia|].
          destruct (Ascii.eqb c' "+"%char || Ascii.eqb c' "-"%char)%bool; simpl; lia. }
        destruct sg as [g r1]. simpl in G.
        pose proof (take_digits_length r1) as L.
        destruct (Json.take_digits r1) as [d r']. simpl in L.
        destruct (Str.is_empty d); [discriminate|].
        intros H. injection H as _ <-. simpl. lia.
      + intros H. injection H as _ <-. lia. }
  destruct exp as [[e s4]|]; [|discriminate].
  specialize (S4 e s4 eq_refl).
  intros H. injection H as _ <-. lia.
Qed.

(** The parse read something, and any fuel that is at least what it
    read gives the same result. *)
Definition fuel_for {A : Type} (f : nat -> string -> option (A * string))
  (s : string) (x : A) (r : string) : Prop :=
  String.length r < String.length s
  /\ forall m, String.length s - String.length r <= m -> f m s = Some (x, r).

Lemma fuel_positive (m a b : nat) : b < a -> a - b <= m -> exists m', m = S m' /\ a - 1 - b <= m'.
Proof. intros. destruct m as [|m']; [lia|]. exists m'. split; [reflexivity | lia]. Qed.

Ltac use_equations :=
  repeat match goal with
         | E : ?x = _ |- context [?x] => rewrite E
         end.

Ltac refuel m :=
  let m' := fresh "m" in
  destruct m as [|m']; [lia|];
  cbn [Json.parse_value Json.parse_elements Json.parse_members];
  use_equations.

Lemma parse_fuel (n : nat) :
  (forall s v r, Json.parse_value n s = Some (v, r) -> fuel_for Json.parse_value s v r)
  /\ (forall acc s v r, Json.parse_elements n acc s = Some (v, r) ->
        fuel_for (fun m => Json.parse_elements m acc) s v r)
  /\ (forall acc s v r, Json.parse_members n acc s = Some (v, r) ->
        fuel_for (fun m => Json.parse_members m acc) s v r).
Proof.
  induction n as [|n (IHv & IHe & IHm)]; [repeat split; discriminate|].
  split; [|split].
  - intros s v r. cbn [Json.parse_value].
    pose proof (skip_ws_length s) as W.
    destruct (Json.skip_ws s) as [|c rest] eqn:K; [discriminate|]. simpl in W.
    destruct (Ascii.eqb c Str.dq) eqn:Q.
    { destruct (Json.parse_chars None rest) as [[str r0]|] eqn:P; [|discriminate].
      intros H. injection H as <- <-. pose proof (parse_chars_length _ _ _ _ P).
      split; [lia|]. intros m Hm. refuel m. reflexivity. }
    destruct (Ascii.eqb c "["%char) eqn:A.
    { pose proof (skip_ws_length rest) as W2.
      destruct (Json.skip_ws rest) as [|c' r0] eqn:K2; [discriminate|]. simpl in W2.
      destruct (Ascii.eqb c' "]"%char) eqn:B.
      - intros H. injection H as <- <-. split; [lia|]. intros m Hm. refuel m. reflexivity.
      - intros H. apply IHe in H as [L F]. split; [lia|].
        intros m Hm. refuel m. apply F. lia. }
    destruct (Ascii.eqb c "{"%char) eqn:O.
    { pose proof (skip_ws_length rest) as W2.
      destruct (Json.skip_ws rest) as [|c' r0] eqn:K2; [discriminate|]. simpl in W2.
      destruct (Ascii.eqb c' "}"%char) eqn:B.
      - intros H. injection H as <- <-. split; [lia|]. intros m Hm. refuel m. reflexivity.
      - intros H. apply IHm in H as [L F]. split; [lia|].
        intros m Hm. refuel m. apply F. lia. }
    destruct (Str.startsWith (String c rest) "true") eqn:T.
    { intros H. injection H as <- <-.
      match goal with
      | |- fuel_for _ _ _ ?x =>
          assert (L : String.length x <= String.length rest)
            by apply (slice_from_length 3 rest)
      end.
      split; [lia|]. intros m Hm. refuel m. reflexivity. }
    destruct (Str.startsWith (String c rest) "false") eqn:F.
    { intros H. injection H as <- <-.
      match goal with
      | |- fuel_for _ _ _ ?x =>
          assert (L : String.length x <= String.length rest)
            by apply (slice_from_length 4 rest)
      end.
      split; [lia|]. intros m Hm. refuel m. reflexivity. }
    destruct (Str.startsWith (String c rest) "null") eqn:U.
    { intros H. injection H as <- <-.
      match goal with
      | |- fuel_for _ _ _ ?x =>
          assert (L : String.length x <= String.length rest)
            by apply (slice_from_length 3 rest)
      end.
      split; [lia|]. intros m Hm. refuel m. reflexivity. }
    destruct (Json.parse_number (String c rest)) as [[l r0]|] eqn:PN; [|discriminate].
    intros H. injection H as <- <-. pose proof (parse_number_length _ _ _ PN) as L.
    simpl in L. split; [lia|]. intros m Hm. refuel m. reflexivity.
  - intros acc s v r. cbn [Json.parse_elements].
    destruct (Json.parse_value n s) as [[v1 r1]|] eqn:PV; [|discriminate].
    destruct (IHv _ _ _ PV) as [L1 F1].
    pose proof (skip_ws_length r1) as W.
    destruct (Json.skip_ws r1) as [|c r'] eqn:K; [discriminate|]. simpl in W.
    destruct (Ascii.eqb c ","%char) eqn:C.
    { intros H. apply IHe in H as [L2 F2]. split; [lia|].
      intros m Hm. destruct m as [|m]; [lia|]. cbn [Json.parse_elements].
      rewrite (F1 m) by lia. rewrite K, C. apply F2. lia. }
    destruct (Ascii.eqb c "]"%char) eqn:B; [|discriminate].
    intros H. injection H as <- <-. split; [lia|].
    intros m Hm. destruct m as [|m]; [lia|]. cbn [Json.parse_elements].
    rewrite (F1 m) by lia. rewrite K, C, B. reflexivity.
  - intros acc s v r. cbn [Json.parse_members].
    pose proof (skip_ws_length s) as W0.
    destruct (Json.skip_ws s) as [|c r0] eqn:K0; [discriminate|]. simpl in W0.
    destruct (Ascii.eqb c Str.dq) eqn:Q; [|discriminate].
    destruct (Json.parse_chars None r0) as [[k r1]|] eqn:P; [|discriminate].
    pose proof (parse_chars_length _ _ _ _ P) as L0.
    pose proof (skip_ws_length r1) as W1.
    destruct (Json.skip_ws r1) as [|c1 r2] eqn:K1; [discriminate|]. simpl in W1.
    destruct (Ascii.eqb c1 ":"%char) eqn:C1; [|discriminate].
    destruct (Json.parse_value n r2) as [[v1 r3]|] eqn:PV; [|discriminate].
    destruct (IHv _ _ _ PV) as [L1 F1].
    pose proof (skip_ws_length r3) as W3.
    destruct (Json.skip_ws r3) as [|c2 r4] eqn:K3; [discriminate|]. simpl in W3.
    destruct (Ascii.eqb c2 ","%char) eqn:C2.
    { intros H. apply IHm in H as [L2 F2]. split; [lia|].
      intros m Hm. destruct m as [|m]; [lia|]. cbn [Json.parse_members].
      rewrite K0, Q, P, K1, C1. rewrite (F1 m) by lia. rewrite K3, C2. apply F2. lia. }
    destruct (Ascii.eqb c2 "}"%char) eqn:B; [|discriminate].
    intros H. injection H as <- <-. split; [lia|].
    intros m Hm. destruct m as [|m]; [lia|]. cbn [Json.parse_members].
    rewrite K0, Q, P, K1, C1. rewrite (F1 m) by lia. rewrite K3, C2, B. reflexivity.
Qed.

(** [JSON.parse] fails for no lack of fuel: a value read with any
    amount of fuel, with only white space after it, is the value
    [parse] returns. *)
Theorem parse_fuel_is_enough (n : nat) (text : string) (v : json) (r : string) :
  Json.parse_value n text = Some (v, r) ->
  Str.is_empty (Json.skip_ws r) = true ->
  Json.parse text = Some v.
Proof.
  intros P E. destruct (proj1 (parse_fuel n) _ _ _ P) as [_ F].
  unfold Json.parse. rewrite F by lia. now rewrite E.
Qed.

(** When [parse] fails, no amount of fuel reads the text as one
    value: the failure is the SyntaxError of [JSON.parse]. *)
Corollary parse_failure_is_syntax (text : string) :
  Json.parse text = None ->
  forall n v r, Json.parse_value n text = Some (v, r) ->
                Str.is_empty (Json.skip_ws r) = false.
Proof.
  intros N n v r P. destruct (Str.is_empty (Json.skip_ws r)) eqn:E; [|reflexivity].
  rewrite (parse_fuel_is_enough n text v r P E) in N. discriminate.
Qed.

(** ** The tool executor *)

Definition empty_db : Db.db := Db.mkDb [] 0 0 [] [].

Definition plain_date (text : string) : string := text.

Definition run (name : string) (args : json) (userId : string) (d : Db.db) : Db.db :=
  snd (Tools.executeTool plain_date name args userId d).

Definition said (name : string) (args : json) (userId : string) (d : Db.db)
  : Tools.completion string :=
  fst (Tools.executeTool plain_date name args userId d).

Definition titled (s : string) : json := JObj [("title", JStr s)].

Example add_then_list :
  said "list_todos" (JObj []) "u1" (run "add_todo" (titled "Buy milk") "u1" empty_db)
  = Tools.Returned "1. [ ] Buy milk".
Proof. vm_compute. reflexivity. Qed.

Example toggle_unique_match :
  let d := run "add_todo" (titled "Buy milk") "u1" empty_db in
  said "toggle_todo" (titled "milk") "u1" d
  = Tools.Returned ("Completed: " ++ Tools.quoted "Buy milk")
  /\ map Db.completed (Db.rows (run "toggle_todo" (titled "milk") "u1" d)) = [true].
Proof. vm_compute. split; reflexivity. Qed.

Example list_none_incomplete :
  said "list_todos" (JObj [("completed", JBool false)]) "u1" empty_db
  = Tools.Returned "No tasks found.".
Proof. vm_compute. reflexivity. Qed.

Example list_newest_first :
  said "list_todos" (JObj []) "u1"
    (run "toggle_todo" (titled "eggs") "u1"
       (run "add_todo" (JObj [("title", JStr "Eggs"); ("due_at", JStr "2026-02-15T09:00:00Z")]) "u1"
          (run "add_todo" (titled "Buy milk") "u1" empty_db)))
  = Tools.Returned ("1. [✓] Eggs [due: 2026-02-15T09:00:00Z]" ++ Str.LF ++ "2. [ ] Buy milk").
Proof. vm_compute. reflexivity. Qed.

(** *** Names outside the catalog *)

Lemma catalog_names :
  map Tools.name Tools.tools
  = ["add_todo"; "list_todos"; "toggle_todo"; "delete_todo"; "update_todo"].
Proof. reflexivity. Qed.

(** C6.  For a name that is none of the five names of the catalog,
    whatever the arguments (even [null]) and the user, [executeTool]
    returns the text [Unknown tool: ] followed by the name, and the
    table is left as it was: no request reaches it, so nothing is read
    or changed. *)
Theorem unknown_tool_is_reported
  (toLocaleDateString : string -> string) (name : string) (args : json)
  (userId : string) (d : Db.db) :
  ~ In name (map Tools.name Tools.tools) ->
  Tools.executeTool toLocaleDateString name args userId d
  = (Tools.Returned ("Unknown tool: " ++ name), d).
Proof.
  intros H. rewrite catalog_names in H. simpl in H.
  unfold Tools.executeTool.
  repeat match goal with
         | |- context [String.eqb name ?s] =>
             destruct (String.eqb_spec name s) as [E|_]; [exfalso; apply H; auto 10|]
         end.
  reflexivity.
Qed.

Lemma unknown_tool_witness :
  Tools.executeTool plain_date "add_task" JNull "u1" empty_db
  = (Tools.Returned "Unknown tool: add_task", empty_db).
Proof.
  apply (unknown_tool_is_reported plain_date "add_task" JNull "u1" empty_db).
  simpl. intros [H|[H|[H|[H|[H|[]]]]]]; discriminate H.
Defined.

(** *** Running [executeTool] path by path *)

Lemma arg_not_null (args : json) (k : string) :
  args <> JNull -> Tools.arg args k = Tools.ret (Js.member args k).
Proof. destruct args; intros H; [contradiction | reflexivity ..]. Qed.

(** The members of the arguments that a tool writes into a text
    have one. *)
Definition printable_args (args : json) : bool :=
  forallb (fun k => Js.printable (Js.member args k))
    ["title"; "due_at"; "completed"; "old_title"; "new_title"].

Lemma printable_args_members (args : json) :
  printable_args args = true ->
  Js.printable (Js.member args "title") = true
  /\ Js.printable (Js.member args "due_at") = true
  /\ Js.printable (Js.member args "completed") = true
  /\ Js.printable (Js.member args "old_title") = true
  /\ Js.printable (Js.member args "new_title") = true.
Proof.
  unfold printable_args. cbn [forallb]. rewrite !andb_true_iff. tauto.
Qed.

Lemma text_printable (v : option json) :
  Js.printable v = true -> Tools.text v = Tools.ret (Js.to_string v).
Proof. unfold Tools.text. now intros ->. Qed.

Ltac tool_paths :=
  unfold Tools.executeTool, Tools.find_one, Tools.text;
  repeat match goal with
         | |- context [String.eqb ?n ?s] =>
             let e := fresh "e" in
             destruct (String.eqb_spec n s) as [e|e];
             [first [discriminate e | subst n | idtac]|]
         end;
  rewrite ?arg_not_null by assumption;
  unfold Tools.bind, Tools.await, Tools.ret, Tools.throw;
  repeat (match goal with
          | H : Js.printable ?v = true |- context [Js.printable ?v] => rewrite H
          | |- context [if Js.printable ?v then _ else _] =>
              destruct (Js.printable v) eqn:?
          | |- context [if Tools.is_undefined ?v then _ else _] =>
              destruct (Tools.is_undefined v) eqn:?
          | |- context [if Js.truthy ?v then _ else _] =>
              destruct (Js.truthy v) eqn:?
          | |- context [Db.send ?q ?d] =>
              lazymatch goal with
              | _ : Db.send q d = _ |- _ => fail
              | _ => idtac
              end;
              let r := fresh "r" in let d' := fresh "d" in
              destruct (Db.send q d) as [r d'] eqn:?
          | |- context [match Db.error ?r with _ => _ end] => destruct (Db.error r) eqn:?
          | |- context [match Db.data ?r with _ => _ end] =>
              destruct (Db.data r) as [[|? ?]|] eqn:?
          | |- context [if Tools.is_completed_sentinel ?t then _ else _] =>
              destruct (Tools.is_completed_sentinel t) eqn:?
          end; cbv beta iota).

(** Given arguments that are not [null] and whose members have a
    text, [executeTool] returns a text. *)
Lemma executeTool_returns
  (toLocaleDateString : string -> string) (name : string) (args : json)
  (userId : string) (d : Db.db) :
  args <> JNull ->
  printable_args args = true ->
  exists s d', Tools.executeTool toLocaleDateString name args userId d
               = (Tools.Returned s, d').
Proof.
  intros H P. apply printable_args_members in P as (P1 & P2 & P3 & P4 & P5).
  tool_paths; eauto.
Qed.

(** *** What one request does to the table *)

Definition owned_by (u : string) (t : Db.todo) : bool := String.eqb (Db.user_id t) u.

(** The request is about the rows of [u] only: it inserts a row of
    [u], or its clauses hold for no row of anyone else in the table. *)
Definition scoped (u : string) (d : Db.db) (q : Db.request) : Prop :=
  match q with
  | Db.Insert user _ _ => user = u
  | Db.Select fs _ _ | Db.Update _ fs | Db.Delete fs =>
      forall t, In t (Db.rows d) -> Db.user_id t <> u -> Db.matches_all fs t = false
  end.

(** The rows the reply carries are rows of [u]. *)
Definition reads_only (u : string) (x : Db.exchange) : Prop :=
  forall l, Db.data (Db.answered x) = Some l -> Forall (fun t => Db.user_id t = u) l.

Lemma send_received (q : Db.request) (d d' : Db.db) (r : Db.reply) :
  Db.send q d = (r, d') ->
  Db.received d' = (Db.received d ++ [Db.mkExchange q r])%list.
Proof.
  unfold Db.send. destruct (Db.faults d) as [|[m|] later].
  - destruct (Db.perform q d). intros H. injection H as <- <-. reflexivity.
  - intros H. injection H as <- <-. reflexivity.
  - destruct (Db.perform q d). intros H. injection H as <- <-. reflexivity.
Qed.

Lemma send_rows (q : Db.request) (d d' : Db.db) (r : Db.reply) :
  Db.send q d = (r, d') ->
  (r, Db.rows d') = Db.perform q d
  \/ (Db.rows d' = Db.rows d /\ Db.data r = None /\ exists m, Db.error r = Some m).
Proof.
  unfold Db.send. destruct (Db.faults d) as [|[m|] later].
  - destruct (Db.perform q d). intros H. injection H as <- <-. now left.
  - intros H. injection H as <- <-. right. simpl. eauto.
  - destruct (Db.perform q d). intros H. injection H as <- <-. now left.
Qed.

Lemma newest_first_in (l : list Db.todo) (t : Db.todo) :
  In t (Db.newest_first l) -> In t l.
Proof.
  unfold Db.newest_first.
  assert (I : forall r acc, In t (Db.insert_newest r acc) -> t = r \/ In t acc).
  { intros r acc. induction acc as [|x acc IH]; simpl.
    - intros [<-|[]]. now left.
    - destruct (Nat.ltb (Db.created_at x) (Db.created_at r)); simpl.
      + intros [<-|[<-|H]]; auto.
      + intros [<-|H]; [auto|]. destruct (IH H); auto. }
  induction l as [|x l IH]; simpl; [tauto|].
  intros H. destruct (I _ _ H) as [->|H']; auto.
Qed.

Lemma take_limit_in (limit : option nat) (l : list Db.todo) (t : Db.todo) :
  In t (Db.take_limit limit l) -> In t l.
Proof.
  destruct limit as [n|]; simpl; [|tauto].
  revert l. induction n as [|n IH]; intros [|x l]; simpl; try tauto.
  intros [<-|H]; auto.
Qed.

(** The rows a select returns are rows of the table for which every
    clause holds. *)
Lemma select_data (fs : list Db.clause) (o : bool) (limit : option nat)
  (d d' : Db.db) (r : Db.reply) (l : list Db.todo) :
  Db.send (Db.Select fs o limit) d = (r, d') ->
  Db.data r = Some l ->
  forall t, In t l -> In t (Db.rows d) /\ Db.matches_all fs t = true.
Proof.
  intros S D t I. apply send_rows in S as [S|(_ & N & _)]; [|congruence].
  simpl in S. destruct (existsb Db.malformed fs).
  - injection S as -> _. discriminate D.
  - injection S as -> _. simpl in D. injection D as <-.
    apply take_limit_in in I. destruct o.
    + apply newest_first_in in I. now apply filter_In in I.
    + now apply filter_In in I.
Qed.

Lemma select_rows (fs : list Db.clause) (o : bool) (limit : option nat)
  (d d' : Db.db) (r : Db.reply) :
  Db.send (Db.Select fs o limit) d = (r, d') -> Db.rows d' = Db.rows d.
Proof.
  intros S. apply send_rows in S as [S|(R & _)]; [|exact R].
  simpl in S. destruct (existsb Db.malformed fs); now injection S as _ ->.
Qed.

(** Only a select replies with rows. *)
Lemma send_data (q : Db.request) (d d' : Db.db) (r : Db.reply) (l : list Db.todo) :
  Db.send q d = (r, d') -> Db.data r = Some l ->
  exists fs o limit, q = Db.Select fs o limit.
Proof.
  intros S D. apply send_rows in S as [S|(_ & N & _)]; [|congruence].
  destruct q as [u t du|fs o limit|c fs|fs]; simpl in S.
  - destruct t as [[]|]; injection S as -> _; discriminate D.
  - eauto.
  - destruct (existsb Db.malformed fs); [injection S as -> _; discriminate D|].
    destruct c as [b|[[]|]]; injection S as -> _; discriminate D.
  - destruct (existsb Db.malformed fs); injection S as -> _; discriminate D.
Qed.

Lemma patch_keeps_owner (now : nat) (c : Db.patch) (t : Db.todo) :
  Db.user_id (Db.apply_patch now c t) = Db.user_id t.
Proof. destruct c as [b|[v|]]; reflexivity. Qed.

Lemma patch_keeps_id (now : nat) (c : Db.patch) (t : Db.todo) :
  Db.id (Db.apply_patch now c t) = Db.id t.
Proof. destruct c as [b|[v|]]; reflexivity. Qed.

Lemma filter_map_spared (u : string) (f : Db.todo -> Db.todo) (l : list Db.todo) :
  (forall t, In t l -> Db.user_id (f t) = Db.user_id t) ->
  (forall t, In t l -> owned_by u t = true -> f t = t) ->
  filter (owned_by u) (map f l) = filter (owned_by u) l.
Proof.
  induction l as [|x l IH]; intros Ho Hs; simpl; [reflexivity|].
  assert (E : owned_by u (f x) = owned_by u x).
  { unfold owned_by. rewrite Ho; [reflexivity | now left]. }
  rewrite E. rewrite IH.
  - destruct (owned_by u x) eqn:O; [|reflexivity].
    rewrite Hs; simpl; auto.
  - intros t I. apply Ho. now right.
  - intros t I. apply Hs. now right.
Qed.

Lemma filter_filter_spared (u : string) (keep : Db.todo -> bool) (l : list Db.todo) :
  (forall t, In t l -> owned_by u t = true -> keep t = true) ->
  filter (owned_by u) (filter keep l) = filter (owned_by u) l.
Proof.
  induction l as [|x l IH]; intros H; simpl; [reflexivity|].
  rewrite <- IH by (intros; apply H; simpl; auto).
  destruct (keep x) eqn:K; simpl; [reflexivity|].
  destruct (owned_by u x) eqn:O; [|reflexivity].
  rewrite H in K; simpl; auto. discriminate.
Qed.

Lemma owned_by_other (u v : string) (t : Db.todo) :
  v <> u -> owned_by v t = true -> Db.user_id t <> u.
Proof. unfold owned_by. intros N E. apply String.eqb_eq in E. congruence. Qed.

(** A request about the rows of [u] leaves the rows of everyone else
    as they are. *)
Lemma send_spares_others (u v : string) (q : Db.request) (d d' : Db.db) (r : Db.reply) :
  v <> u -> scoped u d q -> Db.send q d = (r, d') ->
  filter (owned_by v) (Db.rows d') = filter (owned_by v) (Db.rows d).
Proof.
  intros N Sc S. apply send_rows in S as [S|(R & _)]; [|now rewrite R].
  destruct q as [w t du|fs o limit|c fs|fs]; simpl in S, Sc.
  - subst w. destruct t as [[]|]; injection S as _ ->; try reflexivity;
      rewrite filter_app; simpl; unfold owned_by at 2; simpl;
      (destruct (String.eqb_spec u v); [congruence|]); now rewrite app_nil_r.
  - destruct (existsb Db.malformed fs); now injection S as _ ->.
  - destruct (existsb Db.malformed fs); [now injection S as _ ->|].
    assert (M : filter (owned_by v)
                  (map (fun t => if Db.matches_all fs t
                                 then Db.apply_patch (Db.clock d) c t else t) (Db.rows d))
                = filter (owned_by v) (Db.rows d)).
    { apply filter_map_spared.
      - intros t _. destruct (Db.matches_all fs t); [apply patch_keeps_owner | reflexivity].
      - intros t I O. rewrite (Sc t I (owned_by_other _ _ _ N O)). reflexivity. }
    destruct c as [b|[[]|]]; injection S as _ ->; try reflexivity; exact M.
  - destruct (existsb Db.malformed fs); injection S as _ ->; [reflexivity|].
    apply filter_filter_spared.
    intros t I O. rewrite (Sc t I (owned_by_other _ _ _ N O)). reflexivity.
Qed.

Lemma matches_all_in (f : Db.clause) (fs : list Db.clause) (t : Db.todo) :
  In f fs -> Db.matches_all fs t = true -> Db.matches f t = true.
Proof.
  unfold Db.matches_all. intros I H.
  rewrite forallb_forall in H. now apply H.
Qed.

Lemma scoped_clauses_by_user (u : string) (fs : list Db.clause) (t : Db.todo) :
  In (Db.EqUserId u) fs -> Db.user_id t <> u -> Db.matches_all fs t = false.
Proof.
  intros I N. destruct (Db.matches_all fs t) eqn:M; [|reflexivity].
  apply (matches_all_in _ _ _ I) in M. simpl in M.
  apply String.eqb_eq in M. contradiction.
Qed.

Lemma same_id_same_row (l : list Db.todo) (a b : Db.todo) :
  NoDup (map Db.id l) -> In a l -> In b l -> Db.id a = Db.id b -> a = b.
Proof.
  induction l as [|x l IH]; simpl; intros N Ia Ib E; [contradiction|].
  inversion N as [|? ? Nx Nl]; subst.
  destruct Ia as [->|Ia], Ib as [->|Ib]; auto.
  - exfalso. apply Nx. rewrite E. now apply in_map.
  - exfalso. apply Nx. rewrite <- E. now apply in_map.
Qed.

(** With [id] a key of the table, a clause on the [id] of a row of
    [u] holds for no row of anyone else. *)
Lemma scoped_clauses_by_id (u : string) (l : list Db.todo) (found t : Db.todo) :
  NoDup (map Db.id l) -> In found l -> Db.user_id found = u ->
  In t l -> Db.user_id t <> u -> Db.matches_all [Db.EqId (Db.id found)] t = false.
Proof.
  intros N If Uf It Ut. simpl. rewrite andb_true_r.
  apply Nat.eqb_neq. intros E.
  apply Ut. rewrite (same_id_same_row l t found N It If E). exact Uf.
Qed.

(** What a lookup found is a row of the table that belongs to the
    user. *)
Lemma lookup_found (u : string) (title : option json) (d d' : Db.db) (r : Db.reply)
  (found : Db.todo) (more : list Db.todo) :
  Db.send (Tools.lookup u title) d = (r, d') ->
  Db.data r = Some (found :: more) ->
  In found (Db.rows d) /\ Db.user_id found = u.
Proof.
  intros S D.
  destruct (select_data _ _ _ _ _ _ _ S D found (or_introl eq_refl)) as [I M].
  split; [exact I|].
  apply (matches_all_in (Db.EqUserId u)) in M; [|now left].
  simpl in M. now apply String.eqb_eq.
Qed.

Lemma reads_only_select (u : string) (fs : list Db.clause) (o : bool) (limit : option nat)
  (d d' : Db.db) (r : Db.reply) :
  In (Db.EqUserId u) fs ->
  Db.send (Db.Select fs o limit) d = (r, d') ->
  reads_only u (Db.mkExchange (Db.Select fs o limit) r).
Proof.
  intros I S l D. simpl in D. apply Forall_forall. intros t It.
  destruct (select_data _ _ _ _ _ _ _ S D t It) as [_ M].
  apply (matches_all_in _ _ _ I) in M. simpl in M. now apply String.eqb_eq.
Qed.

Lemma reads_only_other (u : string) (q : Db.request) (d d' : Db.db) (r : Db.reply) :
  (forall fs o limit, q <> Db.Select fs o limit) ->
  Db.send q d = (r, d') ->
  reads_only u (Db.mkExchange q r).
Proof.
  intros N S l D. simpl in D.
  destruct (send_data _ _ _ _ _ S D) as (fs & o & limit & E).
  exfalso. exact (N _ _ _ E).
Qed.

Lemma null_args_touch_nothing
  (toLocaleDateString : string -> string) (name userId : string) (d : Db.db) :
  snd (Tools.executeTool toLocaleDateString name JNull userId d) = d.
Proof.
  unfold Tools.executeTool.
  repeat match goal with
         | |- context [String.eqb name ?s] => destruct (String.eqb name s)
         end; reflexivity.
Qed.

(** *** C4: one user's calls and another user's rows *)

Lemma json_null_or_not (v : json) : v = JNull \/ v <> JNull.
Proof. destruct v; [now left | right; discriminate ..]. Qed.

Definition kept_apart (u : string) (d d' : Db.db) : Prop :=
  (forall v, v <> u ->
     filter (owned_by v) (Db.rows d') = filter (owned_by v) (Db.rows d))
  /\ exists new, Db.received d' = (Db.received d ++ new)%list
                 /\ Forall (fun x => scoped u d (Db.asked x) /\ reads_only u x) new.

Lemma kept_apart_refl (u : string) (d : Db.db) : kept_apart u d d.
Proof. split; [reflexivity|]. exists []. now rewrite app_nil_r. Qed.

Lemma kept_apart_one (u : string) (q : Db.request) (d d' : Db.db) (r : Db.reply) :
  Db.send q d = (r, d') -> scoped u d q -> reads_only u (Db.mkExchange q r) ->
  kept_apart u d d'.
Proof.
  intros S Sc R. split.
  - intros v N. exact (send_spares_others u v q d d' r N Sc S).
  - exists [Db.mkExchange q r]. split; [exact (send_received _ _ _ _ S)|].
    constructor; [now split | constructor].
Qed.

Lemma scoped_same_rows (u : string) (q : Db.request) (d d' : Db.db) :
  Db.rows d' = Db.rows d -> scoped u d q -> scoped u d' q.
Proof. intros E. destruct q; simpl; rewrite ?E; auto. Qed.

Lemma reads_only_lookup (u : string) (title : option json) (d d' : Db.db) (r : Db.reply) :
  Db.send (Tools.lookup u title) d = (r, d') ->
  reads_only u (Db.mkExchange (Tools.lookup u title) r).
Proof.
  unfold Tools.lookup. intros S.
  apply (reads_only_select u _ _ _ d d' r); [now left | exact S].
Qed.

(** A lookup, then a request on the [id] of the row found. *)
Lemma kept_apart_found (u : string) (title : option json) (q : Db.request)
  (d d1 d2 : Db.db) (r1 r2 : Db.reply) (found : Db.todo) (more : list Db.todo) :
  NoDup (map Db.id (Db.rows d)) ->
  Db.send (Tools.lookup u title) d = (r1, d1) ->
  Db.data r1 = Some (found :: more) ->
  (exists c, q = Db.Update c [Db.EqId (Db.id found)]) \/ q = Db.Delete [Db.EqId (Db.id found)] ->
  Db.send q d1 = (r2, d2) ->
  kept_apart u d d2.
Proof.
  intros K S1 D Q S2.
  destruct (lookup_found _ _ _ _ _ _ _ S1 D) as [I U].
  pose proof (select_rows _ _ _ _ _ _ S1) as E.
  assert (Sc1 : scoped u d (Tools.lookup u title)).
  { intros t _ N. apply (scoped_clauses_by_user u); [now left | exact N]. }
  assert (Sc2 : scoped u d q).
  { destruct Q as [[c ->]| ->]; intros t It N;
      exact (scoped_clauses_by_id u (Db.rows d) found t K I U It N). }
  assert (R2 : reads_only u (Db.mkExchange q r2)).
  { apply (reads_only_other u q d1 d2 r2); [|exact S2].
    destruct Q as [[c ->]| ->]; discriminate. }
  split.
  - intros v N.
    rewrite (send_spares_others u v q d1 d2 r2 N (scoped_same_rows _ _ _ _ E Sc2) S2).
    now rewrite E.
  - exists [Db.mkExchange (Tools.lookup u title) r1; Db.mkExchange q r2]. split.
    + rewrite (send_received _ _ _ _ S2), (send_received _ _ _ _ S1), <- app_assoc.
      reflexivity.
    + repeat constructor; auto.
      exact (reads_only_lookup u _ _ _ _ S1).
Qed.

Lemma kept_apart_lookup (u : string) (title : option json) (d d' : Db.db) (r : Db.reply) :
  Db.send (Tools.lookup u title) d = (r, d') -> kept_apart u d d'.
Proof.
  intros S. apply (kept_apart_one u _ _ _ _ S).
  - intros t _ N. apply (scoped_clauses_by_user u); [now left | exact N].
  - exact (reads_only_lookup u _ _ _ _ S).
Qed.

Ltac kept_apart_path K :=
  match goal with
  | S1 : Db.send (Tools.lookup ?u ?t) ?d = (?r1, ?d1),
    D : Db.data ?r1 = Some (?found :: ?more),
    S2 : Db.send ?q ?d1 = (?r2, ?d2) |- kept_apart ?u ?d ?d2 =>
      apply (kept_apart_found u t q d d1 d2 r1 r2 found more K S1 D); [|exact S2];
      first [ right; reflexivity | left; eexists; reflexivity ]
  | S : Db.send (Tools.lookup ?u ?t) ?d = (?r, ?d1) |- kept_apart ?u ?d ?d1 =>
      exact (kept_apart_lookup u t d d1 r S)
  | S : Db.send ?q ?d = (?r, ?d1) |- kept_apart ?u ?d ?d1 =>
      apply (kept_apart_one u q d d1 r S);
      [ first [ reflexivity
              | intros ? _ ?; apply (scoped_clauses_by_user u); [now left | assumption] ]
      | first [ apply (reads_only_select u _ _ _ d d1 r); [now left | exact S]
              | apply (reads_only_other u q d d1 r); [discriminate | exact S] ] ]
  | |- kept_apart ?u ?d ?d => apply kept_apart_refl
  end.

Lemma executeTool_kept_apart
  (toLocaleDateString : string -> string) (name : string) (args : json)
  (u : string) (d : Db.db) :
  NoDup (map Db.id (Db.rows d)) ->
  kept_apart u d (snd (Tools.executeTool toLocaleDateString name args u d)).
Proof.
  intros K. destruct (json_null_or_not args) as [->|N].
  { rewrite null_args_touch_nothing. apply kept_apart_refl. }
  tool_paths; cbn [snd]; fold (Tools.lookup u (Js.member args "title")) in *;
    fold (Tools.lookup u (Js.member args "old_title")) in *;
    kept_apart_path K.
Qed.

Lemma completed_clauses (u : string) (t : Db.todo) :
  Db.matches_all [Db.EqUserId u; Db.EqCompleted "true"] t
  = (owned_by u t && Db.completed t)%bool.
Proof.
  unfold Db.matches_all, owned_by. simpl.
  destruct (String.eqb (Db.user_id t) u), (Db.completed t); reflexivity.
Qed.

(** The one request of the bulk delete removes the completed rows of
    the user and no other row. *)
Lemma bulk_delete_rows (u : string) (d d' : Db.db) (r : Db.reply) :
  Db.send (Db.Delete [Db.EqUserId u; Db.EqCompleted "true"]) d = (r, d') ->
  Db.error r = None ->
  Db.rows d' = filter (fun t => negb (owned_by u t && Db.completed t)) (Db.rows d).
Proof.
  intros S E. apply send_rows in S as [S|(_ & _ & m & M)]; [|congruence].
  simpl in S. injection S as _ ->.
  apply filter_ext. intros t. rewrite <- completed_clauses. reflexivity.
Qed.

(** The request names the user: it inserts a row of [u], or one of
    its filters is [user_id = u]. *)
Definition names_user (u : string) (q : Db.request) : Prop :=
  match q with
  | Db.Insert user _ _ => user = u
  | Db.Select fs _ _ | Db.Update _ fs | Db.Delete fs => In (Db.EqUserId u) fs
  end.

(** The request updates or deletes the rows with the [id] of [found],
    and has no other filter. *)
Definition by_id_of (found : Db.todo) (q : Db.request) : Prop :=
  (exists c, q = Db.Update c [Db.EqId (Db.id found)])
  \/ q = Db.Delete [Db.EqId (Db.id found)].

(** What a call for [u] sends: nothing; or one request that names
    [u]; or a lookup that names [u] and found a row, which is a row of
    [u], followed by an update or a delete by the [id] of that row. *)
Inductive sent_for (u : string) : list Db.exchange -> Prop :=
| sent_nothing : sent_for u []
| sent_one (x : Db.exchange) : names_user u (Db.asked x) -> sent_for u [x]
| sent_by_id (x y : Db.exchange) (found : Db.todo) (more : list Db.todo) :
    names_user u (Db.asked x) ->
    Db.data (Db.answered x) = Some (found :: more) ->
    Db.user_id found = u ->
    by_id_of found (Db.asked y) ->
    sent_for u [x; y].

Ltac sent_path :=
  match goal with
  | S1 : Db.send (Tools.lookup ?u ?t) ?d = (?r1, ?d1),
    D : Db.data ?r1 = Some (?found :: ?more),
    S2 : Db.send ?q ?d1 = (?r2, ?d2)
    |- exists new, Db.received ?d2 = (Db.received ?d ++ new)%list /\ _ =>
      exists [Db.mkExchange (Tools.lookup u t) r1; Db.mkExchange q r2]; split;
      [ rewrite (send_received _ _ _ _ S2), (send_received _ _ _ _ S1), <- app_assoc;
        reflexivity
      | apply (sent_by_id u _ _ found more);
        [ now left | exact D | exact (proj2 (lookup_found _ _ _ _ _ _ _ S1 D))
        | first [ right; reflexivity | left; eexists; reflexivity ] ] ]
  | S : Db.send ?q ?d = (?r, ?d1)
    |- exists new, Db.received ?d1 = (Db.received ?d ++ new)%list /\ _ =>
      exists [Db.mkExchange q r]; split;
      [ exact (send_received _ _ _ _ S)
      | apply sent_one; first [ reflexivity | now left ] ]
  | |- exists new, Db.received ?d = (Db.received ?d ++ new)%list /\ _ =>
      exists []; split; [now rewrite app_nil_r | constructor]
  end.

Lemma executeTool_sent
  (toLocaleDateString : string -> string) (name : string) (args : json)
  (u : string) (d : Db.db) :
  exists new,
    Db.received (snd (Tools.executeTool toLocaleDateString name args u d))
    = (Db.received d ++ new)%list
    /\ sent_for u new.
Proof.
  destruct (json_null_or_not args) as [->|N].
  { rewrite null_args_touch_nothing. exists []. split; [now rewrite app_nil_r | constructor]. }
  tool_paths; cbn [snd]; fold (Tools.lookup u (Js.member args "title")) in *;
    fold (Tools.lookup u (Js.member args "old_title")) in *;
    sent_path.
Qed.

(** The table does not fail the next request. *)
Definition answers_next (d : Db.db) : Prop :=
  forall message later, Db.faults d <> Some message :: later.

(** C4, as the code has it.  A call made for user [u1] on a table
    whose [id]s are distinct (the primary key): the rows of every other
    user are after the call what they were before; every reply carries
    rows of [u1] only, so no row of another user is read; every insert,
    select and bulk delete names [u1], while the update or the delete
    that follows a lookup names the [id] of the row the lookup found, a
    row of [u1], and nothing else; and the bulk delete, on a table that
    does not fail it, removes the completed rows of [u1] and nothing
    else. *)
Theorem cross_user_isolation
  (toLocaleDateString : string -> string) (name : string) (args : json)
  (u1 : string) (d : Db.db) :
  NoDup (map Db.id (Db.rows d)) ->
  let res := fst (Tools.executeTool toLocaleDateString name args u1 d) in
  let d' := snd (Tools.executeTool toLocaleDateString name args u1 d) in
  (forall u2, u2 <> u1 ->
     filter (owned_by u2) (Db.rows d') = filter (owned_by u2) (Db.rows d))
  /\ (exists new, Db.received d' = (Db.received d ++ new)%list
                  /\ sent_for u1 new /\ Forall (reads_only u1) new)
  /\ (name = "delete_todo" -> Js.member args "title" = Some (JStr "__completed__") ->
      answers_next d ->
      res = Tools.Returned "Deleted all completed tasks."
      /\ Db.rows d' = filter (fun t => negb (owned_by u1 t && Db.completed t)) (Db.rows d)).
Proof.
  intros K res d'. subst res d'.
  destruct (executeTool_kept_apart toLocaleDateString name args u1 d K)
    as [A (new' & R' & F')].
  split; [exact A|]. split.
  { destruct (executeTool_sent toLocaleDateString name args u1 d) as (new & R & Sf).
    exists new. split; [exact R|]. split; [exact Sf|].
    rewrite R in R'. apply app_inv_head in R'. subst new'.
    eapply Forall_impl; [|exact F']. intros x [_ H]. exact H. }
  clear A new' R' F'.
  intros -> Ht Q. assert (N : args <> JNull) by (intros ->; discriminate Ht).
  unfold Tools.executeTool. cbn [String.eqb Ascii.eqb Bool.eqb].
  rewrite arg_not_null by exact N. unfold Tools.bind, Tools.await, Tools.ret.
  rewrite Ht. cbn [Tools.is_completed_sentinel String.eqb Ascii.eqb Bool.eqb].
  destruct (Db.send (Db.Delete [Db.EqUserId u1; Db.EqCompleted "true"]) d)
    as [r d1] eqn:S.
  assert (E : Db.error r = None).
  { unfold Db.send in S. destruct (Db.faults d) as [|[m|] later] eqn:F.
    - injection S as <- _. reflexivity.
    - exfalso. exact (Q m later F).
    - injection S as <- _. reflexivity. }
  rewrite E. cbn [fst snd]. split; [reflexivity|].
  exact (bulk_delete_rows u1 d d1 r S E).
Qed.

(** The tasks of two users. *)
Definition two_users : Db.db :=
  run "toggle_todo" (titled "rent") "u2"
    (run "add_todo" (titled "Pay rent") "u2"
       (run "toggle_todo" (titled "milk") "u1"
          (run "add_todo" (titled "Walk") "u1"
             (run "add_todo" (titled "Buy milk") "u1" empty_db)))).

Example bulk_delete_of_one_user :
  map (fun t => (Db.user_id t, Db.title t, Db.completed t))
      (Db.rows (run "delete_todo" (titled "__completed__") "u1" two_users))
  = [("u1", "Walk", false); ("u2", "Pay rent", true)].
Proof. vm_compute. reflexivity. Qed.

Lemma cross_user_isolation_witness :
  let res := fst (Tools.executeTool plain_date "delete_todo" (titled "__completed__")
                    "u1" two_users) in
  let d' := snd (Tools.executeTool plain_date "delete_todo" (titled "__completed__")
                   "u1" two_users) in
  filter (owned_by "u2") (Db.rows d') = filter (owned_by "u2") (Db.rows two_users)
  /\ (exists new, Db.received d' = (Db.received two_users ++ new)%list
                  /\ sent_for "u1" new /\ Forall (reads_only "u1") new)
  /\ res = Tools.Returned "Deleted all completed tasks."
  /\ Db.rows d'
     = filter (fun t => negb (owned_by "u1" t && Db.completed t)) (Db.rows two_users).
Proof.
  destruct (cross_user_isolation plain_date "delete_todo" (titled "__completed__")
              "u1" two_users) as (A & B & C).
  - vm_compute. repeat constructor; simpl; intuition discriminate.
  - split; [apply A; discriminate|]. split; [exact B|].
    apply C; [reflexivity | reflexivity | intros m later; discriminate].
Defined.

(** C4, as stated, fails on the scope of the mutations: the update
    that [toggle_todo] sends after its lookup is filtered by the [id]
    of the row found and by nothing else; it names no user. *)
Lemma mutation_by_id_names_no_user :
  map Db.asked (Db.received (run "toggle_todo" (titled "walk") "u1" two_users))
  = (map Db.asked (Db.received two_users)
     ++ [Tools.lookup "u1" (Some (JStr "walk"));
         Db.Update (Db.SetCompleted true) [Db.EqId 1]])%list
  /\ forall u, ~ names_user u (Db.Update (Db.SetCompleted true) [Db.EqId 1]).
Proof.
  split; [vm_compute; reflexivity|].
  intros u [H|[]]. discriminate H.
Qed.

(** *** C5: what [executeTool] makes of a failure *)

Lemma append_cancel_l (c a b : string) : c ++ a = c ++ b -> a = b.
Proof. induction c as [|x c IH]; simpl; intros H; [exact H|]. injection H as H. auto. Qed.

Lemma rev_inj (a b : string) : Str.rev a = Str.rev b -> a = b.
Proof. intros H. rewrite <- (rev_involutive a), <- (rev_involutive b). now rewrite H. Qed.

Lemma append_cancel_r (c a b : string) : a ++ c = b ++ c -> a = b.
Proof.
  intros H. apply rev_inj. apply (append_cancel_l (Str.rev c)).
  rewrite <- !rev_append. now rewrite H.
Qed.

Lemma lookup_inj (u : string) (a b : option json) :
  Tools.lookup u a = Tools.lookup u b -> Js.to_string a = Js.to_string b.
Proof.
  unfold Tools.lookup. intros H. injection H as H.
  now apply append_cancel_r in H.
Qed.

Lemma last_of_one {A : Type} (pre : list A) (x a : A) :
  [a] = (pre ++ [x])%list -> x = a.
Proof. intros H. apply (app_inj_tail [] pre) in H. now destruct H. Qed.

Lemma last_of_two {A : Type} (pre : list A) (x a b : A) :
  [a; b] = (pre ++ [x])%list -> x = b.
Proof. intros H. apply (app_inj_tail [a] pre) in H. now destruct H. Qed.

Definition no_match (title : option json) : string :=
  "No task found matching " ++ Tools.quoted (Js.to_string title).

(** What the text returned has to do with the last request of the
    call: [new] are the exchanges of the call. *)
Definition reports (u : string) (s : string) (new : list Db.exchange) : Prop :=
  (forall pre q r message,
     new = (pre ++ [Db.mkExchange q r])%list ->
     (forall title, q <> Tools.lookup u title) ->
     Db.error r = Some message -> s = "Error: " ++ message)
  /\ (forall pre title r,
        new = (pre ++ [Db.mkExchange (Tools.lookup u title) r])%list ->
        Db.data r = Some [] -> s = no_match title).

Lemma last_of_none {A : Type} (pre : list A) (x : A) : [] <> (pre ++ [x])%list.
Proof. destruct pre; discriminate. Qed.

Ltac last_exchange H :=
  first [ exfalso; exact (last_of_none _ _ H)
        | apply last_of_one in H | apply last_of_two in H ];
  first [ exfalso; unfold Tools.lookup in H; discriminate H
        | injection H; intros; subst ].

Ltac reports_path :=
  split;
  [ let H := fresh "H" in let NL := fresh "NL" in let E := fresh "E" in
    intros ? ? ? ? H NL E; last_exchange H;
    first [ congruence
          | exfalso; eapply NL; reflexivity ]
  | let H := fresh "H" in let D := fresh "D" in
    intros ? ? ? H D; last_exchange H;
    first [ congruence
          | match goal with
            | L : (_ ++ "%")%string = (_ ++ "%")%string |- _ =>
                apply append_cancel_r in L; unfold no_match; congruence
            end ] ].

Ltac exchanges_of_path :=
  match goal with
  | H2 : Db.received ?d2 = (Db.received ?d1 ++ [?x2])%list,
    H1 : Db.received ?d1 = (Db.received ?d ++ [?x1])%list
    |- context [Db.received ?d2 = (Db.received ?d ++ _)%list] =>
      eexists; exists [x1; x2];
      split; [reflexivity | split; [rewrite H2, H1, <- app_assoc; reflexivity|]]
  | H1 : Db.received ?d1 = (Db.received ?d ++ [?x1])%list
    |- context [Db.received ?d1 = (Db.received ?d ++ _)%list] =>
      eexists; exists [x1]; split; [reflexivity | split; [exact H1|]]
  | |- _ =>
      eexists; exists []; split; [reflexivity | split; [now rewrite app_nil_r|]]
  end.

(** C5, as the code has it.  Given arguments that are not [null] and
    whose [title], [due_at], [completed], [old_title] and [new_title]
    have a text (none is an object with a member [toString], or an
    array that holds one), [executeTool] returns a text and raises
    nothing.  When the last request of the call is not the lookup by
    title and the table reports a failure on it (the insert of
    [add_todo], the query of [list_todos], the update of [toggle_todo]
    and [update_todo], the delete of [delete_todo]), the text is
    [Error: ] and the message of the table.  When the last request is
    the lookup and it succeeds with no row, the text is
    [No task found matching ] and the quoted title. *)
Theorem soft_failure_contract
  (toLocaleDateString : string -> string) (name : string) (args : json)
  (userId : string) (d : Db.db) :
  args <> JNull ->
  printable_args args = true ->
  exists s new,
    fst (Tools.executeTool toLocaleDateString name args userId d) = Tools.Returned s
    /\ Db.received (snd (Tools.executeTool toLocaleDateString name args userId d))
       = (Db.received d ++ new)%list
    /\ reports userId s new.
Proof.
  intros N P. apply printable_args_members in P as (P1 & P2 & P3 & P4 & P5).
  tool_paths; cbn [fst snd];
    fold (Tools.lookup userId (Js.member args "title")) in *;
    fold (Tools.lookup userId (Js.member args "old_title")) in *;
    repeat match goal with
           | S : Db.send _ _ = _ |- _ => apply send_received in S
           end.
  all: exchanges_of_path; reports_path.
Qed.

Lemma soft_failure_witness :
  exists s new,
    fst (Tools.executeTool plain_date "add_todo" (JObj []) "u1" empty_db) = Tools.Returned s
    /\ Db.received (snd (Tools.executeTool plain_date "add_todo" (JObj []) "u1" empty_db))
       = (Db.received empty_db ++ new)%list
    /\ reports "u1" s new.
Proof.
  apply (soft_failure_contract plain_date "add_todo" (JObj []) "u1" empty_db).
  - discriminate.
  - reflexivity.
Defined.

(** A table that fails the next request. *)
Definition failing_db (message : string) (d : Db.db) : Db.db :=
  Db.mkDb (Db.rows d) (Db.next_id d) (Db.clock d) [Some message] (Db.received d).

Example insert_failure_is_an_error_text :
  said "add_todo" (titled "Buy milk") "u1" (failing_db "connection lost" empty_db)
  = Tools.Returned "Error: connection lost".
Proof. vm_compute. reflexivity. Qed.

Example missing_title_is_an_error_text :
  said "add_todo" (JObj []) "u1" empty_db
  = Tools.Returned ("Error: " ++ Db.not_null_title).
Proof. vm_compute. reflexivity. Qed.

(** The lookup of [toggle_todo], [delete_todo] and [update_todo]
    reads [data] only: when the table fails it, the text says that no
    task matches, although one does. *)
Example lookup_failure_reads_as_no_match :
  let d := failing_db "connection lost" (run "add_todo" (titled "Buy milk") "u1" empty_db) in
  said "toggle_todo" (titled "milk") "u1" d
  = Tools.Returned ("No task found matching " ++ Tools.quoted "milk")
  /\ map Db.error (map Db.answered (Db.received (run "toggle_todo" (titled "milk") "u1" d)))
     = [None; Some "connection lost"].
Proof. vm_compute. split; reflexivity. Qed.

(** *** The lookup by title is a substring match *)

(** No character of the text is a wildcard or the escape. *)
Definition plain (p : string) : bool :=
  forallb (fun c => negb (Ascii.eqb c "%"%char || Ascii.eqb c "*"%char
                          || Ascii.eqb c "_"%char || Ascii.eqb c Str.bs))
          (list_ascii_of_string p).

(** [p] is in [s], letters in either case. *)
Definition contains_ci (p s : string) : Prop :=
  exists a m b, s = a ++ m ++ b /\ Db.lower_string m = Db.lower_string p.

Fixpoint starts_ci (p s : string) : bool :=
  match p, s with
  | EmptyString, _ => true
  | String c p', String d s' => (Db.same_letter c d && starts_ci p' s')%bool
  | String _ _, EmptyString => false
  end.

Lemma ilike_rest (s : string) : Db.ilike "%" s = true.
Proof.
  induction s as [|c s IH]; [reflexivity|].
  simpl in *. exact IH.
Qed.

Lemma ilike_plain_prefix (p s : string) :
  plain p = true -> Db.ilike (p ++ "%") s = starts_ci p s.
Proof.
  revert s. induction p as [|c p IH]; intros s H.
  - rewrite ilike_rest. destruct s; reflexivity.
  - unfold plain in H. simpl in H. apply andb_true_iff in H as [Hc Hp].
    apply negb_true_iff in Hc.
    apply orb_false_iff in Hc as [Hc B]. apply orb_false_iff in Hc as [Hc U].
    apply orb_false_iff in Hc as [P S].
    cbn [append Db.ilike]. rewrite P, S, U, B. cbn [orb].
    destruct s as [|d s]; [reflexivity|]. simpl. now rewrite (IH s Hp).
Qed.

Lemma ilike_any (q s : string) :
  Db.ilike (String "%"%char q) s = true <-> exists a b, s = a ++ b /\ Db.ilike q b = true.
Proof.
  cbn [Db.ilike]. change (Ascii.eqb "%"%char "%"%char || Ascii.eqb "%"%char "*"%char)%bool
    with true. cbn iota.
  induction s as [|c s IH].
  - split.
    + intros H. exists EmptyString, EmptyString. split; [reflexivity|].
      now rewrite orb_false_r in H.
    + intros (a & b & E & H). destruct a; [|discriminate]. simpl in E. subst b.
      now rewrite H.
  - split.
    + intros H. apply orb_true_iff in H as [H|H].
      * exists EmptyString, (String c s). now split.
      * apply IH in H as (a & b & -> & H). exists (String c a), b. now split.
    + intros (a & b & E & H). apply orb_true_iff. destruct a as [|x a]; simpl in E.
      * left. now subst b.
      * right. injection E as _ ->. apply IH. eauto.
Qed.

Lemma lower_string_append (a b : string) :
  Db.lower_string (a ++ b) = Db.lower_string a ++ Db.lower_string b.
Proof. induction a as [|c a IH]; simpl; [reflexivity | now rewrite IH]. Qed.

Lemma starts_ci_split (p s : string) :
  starts_ci p s = true <-> exists m b, s = m ++ b /\ Db.lower_string m = Db.lower_string p.
Proof.
  revert s. induction p as [|c p IH]; intros s.
  - split; [|reflexivity]. intros _. exists EmptyString, s. now split.
  - split.
    + destruct s as [|d s]; simpl; [discriminate|].
      intros H. apply andb_true_iff in H as [L H].
      apply IH in H as (m & b & -> & E).
      exists (String d m), b. split; [reflexivity|]. simpl.
      unfold Db.same_letter in L. apply Ascii.eqb_eq in L. now rewrite E, L.
    + intros (m & b & -> & E). destruct m as [|d m]; simpl in E; [discriminate|].
      injection E as L E. simpl. apply andb_true_iff. split.
      * unfold Db.same_letter. rewrite L. apply Ascii.eqb_refl.
      * apply IH. eauto.
Qed.

(** For a title with no wildcard in it, the clause of the lookup
    holds for the tasks whose title contains it, letters in either
    case. *)
Theorem lookup_matches_substring (p s : string) :
  plain p = true ->
  Db.ilike ("%" ++ p ++ "%") s = true <-> contains_ci p s.
Proof.
  intros H. change ("%" ++ p ++ "%") with (String "%"%char (p ++ "%")).
  rewrite ilike_any. unfold contains_ci. split.
  - intros (a & b & -> & M). rewrite (ilike_plain_prefix _ _ H) in M.
    apply starts_ci_split in M as (m & b' & -> & E). eauto.
  - intros (a & m & b & -> & E). exists a, (m ++ b). split; [reflexivity|].
    rewrite (ilike_plain_prefix _ _ H). apply starts_ci_split. eauto.
Qed.

Example wildcard_in_title :
  Db.ilike ("%" ++ "b_y" ++ "%") "Buy milk" = true.
Proof. reflexivity. Qed.

(** *** C2: which of several matching tasks is acted on *)

(** The rows for which the filters of the lookup hold, in table
    order. *)
Definition matching (u : string) (title : option json) (d : Db.db) : list Db.todo :=
  filter (Db.matches_all [Db.EqUserId u;
                           Db.ILikeTitle ("%" ++ Js.to_string title ++ "%")])
         (Db.rows d).

(** The tasks of the user whose title matches, in table order: those
    the lookup can find.  There is none for a title that has no text,
    for which the lookup is not sent. *)
Definition candidates (u : string) (title : option json) (d : Db.db) : list Db.todo :=
  if Js.printable title then matching u title d else [].

Lemma candidates_found (u : string) (title : option json) (d : Db.db)
  (c : Db.todo) (more : list Db.todo) :
  candidates u title d = c :: more ->
  Js.printable title = true /\ matching u title d = c :: more.
Proof.
  unfold candidates. destruct (Js.printable title); [auto | discriminate].
Qed.

(** The most recent of them by creation time. *)
Definition most_recent (l : list Db.todo) : option Db.todo :=
  hd_error (Db.newest_first l).

(** A lookup the table answers returns the first candidate. *)
Lemma lookup_reply (u : string) (title : option json) (d : Db.db) :
  hd None (Db.faults d) = None ->
  fst (Db.send (Tools.lookup u title) d)
  = Db.mkReply (Some (firstn 1 (matching u title d))) None.
Proof.
  intros H. unfold Db.send.
  destruct (Db.faults d) as [|[m|] later]; [|discriminate H|]; reflexivity.
Qed.

Lemma send_pair (q : Db.request) (d : Db.db) :
  Db.send q d = (fst (Db.send q d), snd (Db.send q d)).
Proof. destruct (Db.send q d); reflexivity. Qed.

Section FirstCandidate.

Variable toLocaleDateString : string -> string.
Variable u : string.
Variable d : Db.db.
Variable c : Db.todo.
Variable more : list Db.todo.

Hypothesis lookup_answered : hd None (Db.faults d) = None.

(** The exchanges of a call: the lookup, answered with [c] alone,
    then the request [q] and its reply. *)
Definition acts_with (title : option json) (q : Db.request) (d' : Db.db) : Prop :=
  exists r,
    Db.received d'
    = (Db.received d ++ [Db.mkExchange (Tools.lookup u title) (Db.mkReply (Some [c]) None);
                         Db.mkExchange q r])%list.

Lemma found_first (title : option json) :
  candidates u title d = c :: more ->
  Js.printable title = true
  /\ exists d1, Db.send (Tools.lookup u title) d = (Db.mkReply (Some [c]) None, d1).
Proof.
  intros C. apply candidates_found in C as [P C]. split; [exact P|].
  exists (snd (Db.send (Tools.lookup u title) d)).
  rewrite (send_pair (Tools.lookup u title) d) at 1.
  rewrite lookup_reply by exact lookup_answered. now rewrite C.
Qed.

Lemma toggle_acts_on_first (args : json) :
  args <> JNull ->
  candidates u (Js.member args "title") d = c :: more ->
  acts_with (Js.member args "title")
            (Db.Update (Db.SetCompleted (negb (Db.completed c))) [Db.EqId (Db.id c)])
            (snd (Tools.executeTool toLocaleDateString "toggle_todo" args u d)).
Proof.
  intros N C. destruct (found_first _ C) as [P [d1 S]].
  unfold Tools.executeTool, Tools.find_one. cbn [String.eqb Ascii.eqb Bool.eqb].
  rewrite !arg_not_null by exact N.
  unfold Tools.bind, Tools.await, Tools.ret, Tools.text, Tools.throw.
  rewrite P. unfold Tools.ret. cbv beta iota. rewrite S. cbn [Db.data].
  destruct (Db.send _ d1) as [r2 d2] eqn:S2.
  exists r2. apply send_received in S, S2.
  destruct (Db.error r2); cbn [snd]; rewrite S2, S, <- app_assoc; reflexivity.
Qed.

Lemma delete_acts_on_first (args : json) :
  args <> JNull ->
  Tools.is_completed_sentinel (Js.member args "title") = false ->
  candidates u (Js.member args "title") d = c :: more ->
  acts_with (Js.member args "title")
            (Db.Delete [Db.EqId (Db.id c)])
            (snd (Tools.executeTool toLocaleDateString "delete_todo" args u d)).
Proof.
  intros N B C. destruct (found_first _ C) as [P [d1 S]].
  unfold Tools.executeTool, Tools.find_one. cbn [String.eqb Ascii.eqb Bool.eqb].
  rewrite !arg_not_null by exact N.
  unfold Tools.bind, Tools.await, Tools.ret, Tools.text, Tools.throw.
  rewrite B, P. unfold Tools.ret. cbv beta iota. rewrite S. cbn [Db.data].
  destruct (Db.send _ d1) as [r2 d2] eqn:S2.
  exists r2. apply send_received in S, S2.
  destruct (Db.error r2); cbn [snd]; rewrite S2, S, <- app_assoc; reflexivity.
Qed.

Lemma update_acts_on_first (args : json) :
  args <> JNull ->
  candidates u (Js.member args "old_title") d = c :: more ->
  acts_with (Js.member args "old_title")
            (Db.Update (Db.SetTitle (Js.member args "new_title")) [Db.EqId (Db.id c)])
            (snd (Tools.executeTool toLocaleDateString "update_todo" args u d)).
Proof.
  intros N C. destruct (found_first _ C) as [P [d1 S]].
  unfold Tools.executeTool, Tools.find_one. cbn [String.eqb Ascii.eqb Bool.eqb].
  rewrite !arg_not_null by exact N.
  unfold Tools.bind, Tools.await, Tools.ret, Tools.text, Tools.throw.
  rewrite P. unfold Tools.ret. cbv beta iota. rewrite S. cbn [Db.data].
  destruct (Db.send _ d1) as [r2 d2] eqn:S2.
  exists r2. apply send_received in S, S2.
  destruct (Db.error r2); [|destruct (Js.printable (Js.member args "new_title"))];
    cbn [snd]; rewrite S2, S, <- app_assoc; reflexivity.
Qed.

(** C2, as the code has it.  When the table answers the lookup and
    one task or more of the user match the title, [c] being the first
    of them in the order the table returns rows and [more] the others,
    the call acts on [c] and on no other: the lookup is answered with
    [c] alone, and the one request that follows (the update of
    [completed], the delete, the update of [title]) names the [id] of
    [c].  Nothing orders the candidates by creation time. *)
Theorem first_candidate_is_acted_on (args : json) :
  args <> JNull ->
  (candidates u (Js.member args "title") d = c :: more ->
   acts_with (Js.member args "title")
     (Db.Update (Db.SetCompleted (negb (Db.completed c))) [Db.EqId (Db.id c)])
     (snd (Tools.executeTool toLocaleDateString "toggle_todo" args u d)))
  /\ (Tools.is_completed_sentinel (Js.member args "title") = false ->
      candidates u (Js.member args "title") d = c :: more ->
      acts_with (Js.member args "title")
        (Db.Delete [Db.EqId (Db.id c)])
        (snd (Tools.executeTool toLocaleDateString "delete_todo" args u d)))
  /\ (candidates u (Js.member args "old_title") d = c :: more ->
      acts_with (Js.member args "old_title")
        (Db.Update (Db.SetTitle (Js.member args "new_title")) [Db.EqId (Db.id c)])
        (snd (Tools.executeTool toLocaleDateString "update_todo" args u d))).
Proof.
  intros N. split; [|split].
  - now apply toggle_acts_on_first.
  - now apply delete_acts_on_first.
  - now apply update_acts_on_first.
Qed.

End FirstCandidate.

(** Two tasks that match [milk], the older one first in the table. *)
Definition two_milks : Db.db :=
  run "add_todo" (titled "Buy oat milk") "u1"
    (run "add_todo" (titled "Buy milk") "u1" empty_db).

(** C2, as the spec states it, fails: of two tasks that match, the
    one created last is [Buy oat milk], and [toggle_todo] completes
    [Buy milk], the one created first. *)
Lemma tie_break_is_not_most_recent :
  map (fun t => (Db.title t, Db.created_at t))
      (candidates "u1" (Some (JStr "milk")) two_milks)
  = [("Buy milk", 0); ("Buy oat milk", 1)]
  /\ option_map Db.title (most_recent (candidates "u1" (Some (JStr "milk")) two_milks))
     = Some "Buy oat milk"
  /\ said "toggle_todo" (titled "milk") "u1" two_milks
     = Tools.Returned ("Completed: " ++ Tools.quoted "Buy milk")
  /\ map (fun t => (Db.title t, Db.completed t))
         (Db.rows (run "toggle_todo" (titled "milk") "u1" two_milks))
     = [("Buy milk", true); ("Buy oat milk", false)].
Proof. vm_compute. repeat split. Qed.

Lemma first_candidate_witness :
  exists r,
    Db.received (run "toggle_todo" (titled "milk") "u1" two_milks)
    = (Db.received two_milks
       ++ [Db.mkExchange (Tools.lookup "u1" (Some (JStr "milk")))
             (Db.mkReply (Some [Db.mkTodo 0 "u1" "Buy milk" false None 0 0]) None);
           Db.mkExchange (Db.Update (Db.SetCompleted true) [Db.EqId 0]) r])%list.
Proof.
  refine (proj1 (first_candidate_is_acted_on plain_date "u1" two_milks
                   (Db.mkTodo 0 "u1" "Buy milk" false None 0 0)
                   [Db.mkTodo 1 "u1" "Buy oat milk" false None 1 1]
                   eq_refl (titled "milk") _) eq_refl).
  discriminate.
Defined.

(** ** The request handler *)

(** A tool call the handler can run: its arguments are JSON text for
    a value other than [null], whose members that a tool writes into a
    text have one. *)
Definition well_formed (c : Edge.tool_call) : Prop :=
  exists v, Json.parse (Edge.fn_arguments c) = Some v /\ v <> JNull
            /\ printable_args v = true.

(** The history the handler builds from the [messages] of the body. *)
Definition history_of (items : list json) : list Edge.message :=
  map (fun m => Edge.FromClient (Js.member m "role") (Js.member m "content")) items.

(** A request the handler takes up: not the preflight, a body that is
    JSON and not [null], a truthy [userId], an array of [messages] none
    of which is [null]. *)
Definition accepted (req : Edge.request) (userId : option json) (items : list json) : Prop :=
  Edge.method req <> "OPTIONS"
  /\ exists parsed,
       Json.parse (Edge.text req) = Some parsed /\ parsed <> JNull
       /\ Js.member parsed "userId" = userId /\ Js.truthy userId = true
       /\ Js.member parsed "messages" = Some (JArr items) /\ ~ In JNull items.

(** The table after the calls were run one after the other. *)
Fixpoint replay (toLocaleDateString : string -> string) (userId : string)
  (calls : list Edge.tool_call) (d : Db.db) : Db.db :=
  match calls with
  | [] => d
  | c :: later =>
      match Json.parse (Edge.fn_arguments c) with
      | Some v =>
          replay toLocaleDateString userId later
            (snd (Tools.executeTool toLocaleDateString (Edge.fn_name c) v userId d))
      | None => d
      end
  end.

Definition is_fetch (e : Edge.event) : bool :=
  match e with Edge.Fetch _ _ => true | _ => false end.

Definition is_error (e : Edge.event) : bool :=
  match e with Edge.ConsoleError _ _ => true | _ => false end.

Definition is_log (e : Edge.event) : bool :=
  match e with Edge.ConsoleLog _ _ => true | _ => false end.

Lemma client_messages_history (items : list json) (w : Edge.world) :
  ~ In JNull items ->
  Edge.client_messages items w = (Tools.Returned (history_of items), w).
Proof.
  induction items as [|m items IH]; intros H; [reflexivity|].
  assert (Hm : m <> JNull) by (intros ->; apply H; now left).
  assert (Hi : ~ In JNull items) by (intros I; apply H; now right).
  destruct m; try contradiction;
    cbn [Edge.client_messages]; unfold Edge.then_; rewrite (IH Hi); reflexivity.
Qed.

Section Run.

Variable toLocaleDateString : string -> string.
Variable now : string.
Variable gateway : nat -> list Edge.message -> Edge.upstream.

(** The calls of one assistant message run to their end: each one
    is logged and executed, nothing else is written to the console,
    and the table is the one [replay] gives. *)
Lemma call_tool_printable (userId : option json) (name : string) (args : json) :
  Js.printable userId = true ->
  Edge.call_tool toLocaleDateString userId name args
  = Edge.on_db (Tools.executeTool toLocaleDateString name args (Js.to_string userId)).
Proof.
  intros P. unfold Edge.call_tool. now rewrite P, andb_false_r.
Qed.

Lemma run_calls_well_formed (userId : option json) (calls : list Edge.tool_call) :
  Js.printable userId = true ->
  Forall well_formed calls ->
  forall (conv : list Edge.message) (w : Edge.world),
  exists conv' logs,
    Edge.run_calls toLocaleDateString userId calls conv w
    = (Tools.Returned conv',
       Edge.mkWorld (replay toLocaleDateString (Js.to_string userId) calls (Edge.db w))
                    (Edge.trace w ++ logs)%list)
    /\ forallb is_log logs = true.
Proof.
  intros U.
  induction 1 as [|c later (v & P & N & Q) _ IH]; intros conv w.
  - exists conv, []. destruct w. simpl. now rewrite app_nil_r.
  - cbn [Edge.run_calls replay]. rewrite P.
    unfold Edge.then_ at 1. unfold Edge.emit at 1.
    rewrite call_tool_printable by exact U.
    unfold Edge.then_ at 1. unfold Edge.on_db at 1. cbn [Edge.db Edge.trace].
    destruct (executeTool_returns toLocaleDateString (Edge.fn_name c) v
                (Js.to_string userId) (Edge.db w) N Q)
      as (s & d' & E).
    rewrite E. cbn [snd].
    destruct (IH (conv ++ [Edge.ToolResult (Edge.call_id c) s])%list
                 (Edge.mkWorld d' (Edge.trace w ++ [Edge.ConsoleLog (Edge.fn_name c) v])%list))
      as (conv' & logs & R & L).
    exists conv', (Edge.ConsoleLog (Edge.fn_name c) v :: logs).
    rewrite R. cbn [Edge.db Edge.trace]. rewrite <- app_assoc. split; [reflexivity|].
    simpl. exact L.
Qed.

(** What one turn of the loop does when the calls of the message are
    well formed and the cap is not reached. *)
Lemma loop_round (fuel : nat) (userId : option json) (st : Edge.loop_state)
  (calls : list Edge.tool_call) (w : Edge.world) :
  Js.printable userId = true ->
  Edge.tool_calls (Edge.assistantMessage st) = Some calls ->
  Forall well_formed calls ->
  Edge.iterations st < Edge.MAX_ITERATIONS ->
  exists conv logs,
    forallb is_log logs = true
    /\ let w1 := Edge.mkWorld
                   (replay toLocaleDateString (Js.to_string userId) calls (Edge.db w))
                   (Edge.trace w ++ logs ++ [Edge.Fetch conv Tools.tools])%list in
       let response := gateway (S (Edge.iterations st)) conv in
       Edge.tool_loop toLocaleDateString gateway (S fuel) userId st w
       = match Edge.rejection response with
         | Some e => (Tools.Thrown e, w1)
         | None =>
             if negb (Edge.ok response) then
               (Tools.Returned (Some (Edge.mkLoop (Edge.assistantMessage st) conv
                                                  (S (Edge.iterations st)))),
                Edge.mkWorld (Edge.db w1)
                  (Edge.trace w1
                   ++ [Edge.ConsoleError "AI gateway error on tool follow-up:"
                         (Edge.Upstream (Edge.up_status response)
                            (Edge.up_body response))])%list)
             else
               match Edge.up_body response with
               | Edge.Completion m =>
                   Edge.tool_loop toLocaleDateString gateway fuel userId
                     (Edge.mkLoop m conv (S (Edge.iterations st))) w1
               | Edge.Other _ => (Tools.Thrown (Tools.TypeError "choices"), w1)
               end
         end.
Proof.
  intros U C W I.
  destruct (run_calls_well_formed userId calls U W
              (Edge.conversationMessages st ++ [Edge.Assistant (Edge.assistantMessage st)])%list
              w) as (conv & logs & R & L).
  exists conv, logs. split; [exact L|].
  cbn zeta. cbn [Edge.tool_loop]. rewrite C.
  apply Nat.ltb_lt in I. rewrite I.
  unfold Edge.then_ at 1. rewrite R.
  unfold Edge.then_ at 1. unfold Edge.emit at 1. cbn [Edge.db Edge.trace].
  rewrite <- app_assoc.
  destruct (Edge.rejection (gateway (S (Edge.iterations st)) conv)); [reflexivity|].
  destruct (negb (Edge.ok (gateway (S (Edge.iterations st)) conv))).
  - reflexivity.
  - destruct (Edge.up_body (gateway (S (Edge.iterations st)) conv)); reflexivity.
Qed.

(** A response with a status of failure, and one that carries a
    completion, are no rejection. *)
Lemma failure_is_answered (response : Edge.upstream) :
  Edge.ok response = false -> Edge.rejection response = None.
Proof. destruct response; [reflexivity | discriminate]. Qed.

Lemma completion_is_answered (response : Edge.upstream) (m : Edge.assistant_message) :
  Edge.up_body response = Edge.Completion m -> Edge.rejection response = None.
Proof. destruct response; [reflexivity | discriminate]. Qed.

Lemma status_is_answered (response : Edge.upstream) :
  Edge.up_status response <> 0 -> Edge.rejection response = None.
Proof. destruct response; [reflexivity | intros H; now contradiction H]. Qed.

(** The handler on a request it takes up, from the first completion
    request on. *)
Lemma attempt_accepted (req : Edge.request) (userId : option json) (items : list json)
  (w : Edge.world) :
  accepted req userId items ->
  let all := Edge.System (Edge.systemPrompt now) :: history_of items in
  let w0 := Edge.mkWorld (Edge.db w) (Edge.trace w ++ [Edge.Fetch all Tools.tools])%list in
  let response := gateway 0 all in
  Edge.attempt toLocaleDateString now gateway req w
  = match Edge.rejection response with
    | Some e => (Tools.Thrown e, w0)
    | None =>
        if negb (Edge.ok response) then
          if Nat.eqb (Edge.up_status response) 429 then
            (Tools.Returned (Some (Edge.json_error 429 (Edge.Literal "Rate limited"))), w0)
          else if Nat.eqb (Edge.up_status response) 402 then
            (Tools.Returned (Some (Edge.json_error 402 (Edge.Literal "Payment required"))),
             w0)
          else
            (Tools.Returned (Some (Edge.json_error 500 (Edge.Literal "AI gateway error"))),
             Edge.mkWorld (Edge.db w0)
               (Edge.trace w0
                ++ [Edge.ConsoleError "AI gateway error:"
                      (Edge.Upstream (Edge.up_status response)
                         (Edge.up_body response))])%list)
        else
          match Edge.up_body response with
          | Edge.Other _ => (Tools.Thrown (Tools.TypeError "choices"), w0)
          | Edge.Completion m =>
              match Edge.tool_loop toLocaleDateString gateway (S Edge.MAX_ITERATIONS)
                      userId (Edge.mkLoop m all 0) w0 with
              | (Tools.Returned (Some st), w') =>
                  (Tools.Returned (Some (Edge.stream_response st)), w')
              | (Tools.Returned None, w') => (Tools.Returned None, w')
              | (Tools.Thrown e, w') => (Tools.Thrown e, w')
              end
          end
    end.
Proof.
  intros (_ & parsed & P & N & U & T & M & I). cbn zeta.
  unfold Edge.attempt. rewrite P.
  assert (E : forall (A : Type) (a b : A),
            match parsed with JNull => a | _ => b end = b)
    by (intros A a b; destruct parsed; [contradiction | reflexivity ..]).
  rewrite E. rewrite U, T, M. cbn [negb].
  unfold Edge.then_ at 1. rewrite (client_messages_history items w I).
  unfold Edge.then_ at 1. unfold Edge.emit at 1.
  set (all := Edge.System (Edge.systemPrompt now) :: history_of items).
  unfold Edge.raise.
  destruct (Edge.rejection (gateway 0 all)); [reflexivity|].
  destruct (negb (Edge.ok (gateway 0 all))).
  - destruct (Nat.eqb (Edge.up_status (gateway 0 all)) 429); [reflexivity|].
    destruct (Nat.eqb (Edge.up_status (gateway 0 all)) 402); reflexivity.
  - destruct (Edge.up_body (gateway 0 all)) as [m|t]; [|reflexivity].
    unfold Edge.then_.
    destruct (Edge.tool_loop _ _ _ _ _ _) as [[[st|]|e] w']; reflexivity.
Qed.

Lemma handler_not_preflight (req : Edge.request) (w : Edge.world) :
  Edge.method req <> "OPTIONS" ->
  Edge.handler toLocaleDateString now gateway req w
  = match Edge.attempt toLocaleDateString now gateway req w with
    | (Tools.Returned r, w') => (r, w')
    | (Tools.Thrown e, w') =>
        (Some (Edge.json_error 500 (Edge.MessageOf e)),
         Edge.mkWorld (Edge.db w')
           (Edge.trace w' ++ [Edge.ConsoleError "todo-chat error:" (Edge.Exception e)])%list)
    end.
Proof.
  intros H. unfold Edge.handler.
  destruct (String.eqb_spec (Edge.method req) "OPTIONS"); [contradiction | reflexivity].
Qed.

End Run.

(** *** C9: a body without a user *)

Definition quiet (n : nat) (conv : list Edge.message) : Edge.upstream :=
  Edge.mkUpstream 200 (Edge.Completion (Edge.mkAssistant (Some "ok") None)).

Definition fresh_world : Edge.world := Edge.mkWorld empty_db [].

(** C9, as the code has it.  A request that is not the [OPTIONS]
    preflight, whose body is JSON other than [null] and has no truthy
    [userId], is answered with status 400 and the error
    [userId is required]; the world is left as it was: no completion
    request, no tool, no request to the table. *)
Theorem missing_user_is_rejected
  (toLocaleDateString : string -> string) (now : string)
  (gateway : nat -> list Edge.message -> Edge.upstream)
  (req : Edge.request) (parsed : json) (w : Edge.world) :
  Edge.method req <> "OPTIONS" ->
  Json.parse (Edge.text req) = Some parsed ->
  parsed <> JNull ->
  Js.truthy (Js.member parsed "userId") = false ->
  Edge.handler toLocaleDateString now gateway req w
  = (Some (Edge.mkResponse 400 (Some "application/json")
             (Edge.ErrorJson (Edge.Literal "userId is required"))), w).
Proof.
  intros M P N T. rewrite handler_not_preflight by exact M.
  unfold Edge.attempt. rewrite P.
  destruct parsed; try contradiction; rewrite T; reflexivity.
Qed.

Lemma missing_user_witness :
  Edge.handler plain_date "2026-02-10T12:00:00.000Z" quiet
    (Edge.mkRequest "POST" (Json.stringify (JObj [("messages", JArr [])]))) fresh_world
  = (Some (Edge.mkResponse 400 (Some "application/json")
             (Edge.ErrorJson (Edge.Literal "userId is required"))), fresh_world).
Proof.
  apply (missing_user_is_rejected plain_date "2026-02-10T12:00:00.000Z" quiet
           (Edge.mkRequest "POST" (Json.stringify (JObj [("messages", JArr [])])))
           (JObj [("messages", JArr [])]) fresh_world).
  - discriminate.
  - vm_compute. reflexivity.
  - discriminate.
  - reflexivity.
Defined.

(** C9, as stated, fails: the preflight is answered with status 200
    and no body whatever its body says, and a body that is [null] is
    answered with status 500. *)
Lemma missing_user_not_always_400 :
  Edge.handler plain_date "2026-02-10T12:00:00.000Z" quiet
    (Edge.mkRequest "OPTIONS" (Json.stringify (JObj []))) fresh_world
  = (Some (Edge.mkResponse 200 None Edge.Empty), fresh_world)
  /\ fst (Edge.handler plain_date "2026-02-10T12:00:00.000Z" quiet
            (Edge.mkRequest "POST" "null") fresh_world)
     = Some (Edge.mkResponse 500 (Some "application/json")
               (Edge.ErrorJson (Edge.MessageOf (Tools.TypeError "messages")))).
Proof. vm_compute. split; reflexivity. Qed.

(** *** C8: a completion request that fails *)

(** C8, as the code has it, for the first completion request of a
    request the handler takes up.  The request is posted once and not
    again, the table is not touched, and: status 429 from the gateway
    gives status 429 and the error [Rate limited]; status 402 gives
    status 402 and [Payment required]; any other status that is not a
    success is logged with the body and gives status 500 and
    [AI gateway error]. *)
Theorem first_call_failure_is_surfaced
  (toLocaleDateString : string -> string) (now : string)
  (gateway : nat -> list Edge.message -> Edge.upstream)
  (req : Edge.request) (userId : option json) (items : list json) (w : Edge.world) :
  accepted req userId items ->
  let all := Edge.System (Edge.systemPrompt now) :: history_of items in
  let response := gateway 0 all in
  Edge.ok response = false ->
  exists r logged,
    Edge.handler toLocaleDateString now gateway req w
    = (Some r, Edge.mkWorld (Edge.db w)
                 (Edge.trace w ++ Edge.Fetch all Tools.tools :: logged)%list)
    /\ (Edge.up_status response = 429 ->
        r = Edge.json_error 429 (Edge.Literal "Rate limited") /\ logged = [])
    /\ (Edge.up_status response = 402 ->
        r = Edge.json_error 402 (Edge.Literal "Payment required") /\ logged = [])
    /\ (Edge.up_status response <> 429 -> Edge.up_status response <> 402 ->
        r = Edge.json_error 500 (Edge.Literal "AI gateway error")
        /\ logged = [Edge.ConsoleError "AI gateway error:"
                       (Edge.Upstream (Edge.up_status response) (Edge.up_body response))]).
Proof.
  intros A all response F.
  rewrite handler_not_preflight by apply A.
  rewrite (attempt_accepted toLocaleDateString now gateway req userId items w A).
  fold all. fold response. rewrite (failure_is_answered response F), F. cbn [negb].
  destruct (Nat.eqb_spec (Edge.up_status response) 429) as [E|E].
  - exists (Edge.json_error 429 (Edge.Literal "Rate limited")), [].
    split; [reflexivity|]. split; [now split|]. split; intros; congruence.
  - destruct (Nat.eqb_spec (Edge.up_status response) 402) as [E'|E'].
    + exists (Edge.json_error 402 (Edge.Literal "Payment required")), [].
      split; [reflexivity|]. split; [intros; congruence|]. split; [now split|].
      intros; congruence.
    + eexists. eexists. split.
      * cbn [Edge.db Edge.trace]. rewrite <- app_assoc. reflexivity.
      * split; [intros; congruence|]. split; [intros; congruence|]. now split.
Qed.

(** *** The stream of a settled answer, written out *)

(** The text the function settles on: the content of the message
    when it is a text that is not empty, [Done!] otherwise. *)
Definition settled_text (content : option string) : string :=
  match content with
  | Some (String c s) => String c s
  | _ => "Done!"
  end.

(** The two chunks of the stream of [text]: one data event and the
    line [DONE], each followed by an empty line. *)
Definition stream_of (text : string) : list string :=
  [ "data: "
    ++ Json.stringify
         (JObj [("choices", JArr [JObj [("delta", JObj [("content", JStr text)])]])])
    ++ Str.LF ++ Str.LF;
    "data: [DONE]" ++ Str.LF ++ Str.LF ].

Lemma stream_response_written_out (st : Edge.loop_state) :
  Edge.stream_response st
  = Edge.mkResponse 200 (Some "text/event-stream")
      (Edge.EventStream (stream_of (settled_text (Edge.content (Edge.assistantMessage st))))).
Proof.
  unfold Edge.stream_response.
  destruct (Edge.content (Edge.assistantMessage st)) as [[|c t]|]; reflexivity.
Qed.

(** *** C3: a model that always asks for tools *)

(** The message asks for tools the handler can run. *)
Definition asks_for_tools (m : Edge.assistant_message) : Prop :=
  exists calls, Edge.tool_calls m = Some calls /\ Forall well_formed calls.

(** Every answer of the gateway is a success and asks for tools. *)
Definition always_asks (gateway : nat -> list Edge.message -> Edge.upstream) : Prop :=
  forall n conv,
    Edge.ok (gateway n conv) = true
    /\ exists m, Edge.up_body (gateway n conv) = Edge.Completion m /\ asks_for_tools m.

Definition fetches (l : list Edge.event) : nat := List.length (filter is_fetch l).

Lemma logs_are_not_fetches (logs : list Edge.event) :
  forallb is_log logs = true -> fetches logs = 0 /\ existsb is_error logs = false.
Proof.
  unfold fetches. induction logs as [|e logs IH]; simpl; [auto|].
  intros H. apply andb_true_iff in H as [He Hl].
  destruct e; try discriminate He. simpl. auto.
Qed.

Lemma fetches_app (a b : list Edge.event) : fetches (a ++ b) = fetches a + fetches b.
Proof. unfold fetches. now rewrite filter_app, length_app. Qed.

Section Cap.

Variable toLocaleDateString : string -> string.
Variable now : string.
Variable gateway : nat -> list Edge.message -> Edge.upstream.
Hypothesis asks : always_asks gateway.

(** From iteration [5 - k] on, the loop runs [k] more rounds and
    stops at the cap. *)
Lemma loop_reaches_cap (userId : option json) (k : nat) :
  Js.printable userId = true ->
  forall (fuel : nat) (st : Edge.loop_state) (w : Edge.world),
    Edge.iterations st + k = Edge.MAX_ITERATIONS -> k <= fuel ->
    asks_for_tools (Edge.assistantMessage st) ->
    exists st' w' new,
      Edge.tool_loop toLocaleDateString gateway fuel userId st w
      = (Tools.Returned (Some st'), w')
      /\ Edge.trace w' = (Edge.trace w ++ new)%list
      /\ Edge.iterations st' = Edge.MAX_ITERATIONS
      /\ fetches new = k
      /\ existsb is_error new = false
      /\ (0 < k ->
          Edge.up_body (gateway Edge.MAX_ITERATIONS (Edge.conversationMessages st'))
          = Edge.Completion (Edge.assistantMessage st')
          /\ exists before,
               new = (before ++ [Edge.Fetch (Edge.conversationMessages st') Tools.tools])%list).
Proof.
  intros U.
  induction k as [|k IH]; intros fuel st w I F (calls & C & W).
  - exists st, w, []. rewrite Nat.add_0_r in I.
    assert (E : Edge.tool_loop toLocaleDateString gateway fuel userId st w
                = (Tools.Returned (Some st), w)).
    { destruct fuel; cbn [Edge.tool_loop]; rewrite C, I; reflexivity. }
    rewrite E, app_nil_r. repeat split; auto. lia. lia.
  - destruct fuel as [|fuel]; [lia|].
    assert (L : Edge.iterations st < Edge.MAX_ITERATIONS) by lia.
    destruct (loop_round toLocaleDateString gateway fuel userId st calls w U C W L)
      as (conv & logs & Hl & R).
    cbn zeta in R. rewrite R. clear R.
    destruct (asks (S (Edge.iterations st)) conv) as (O & m & B & A).
    rewrite (completion_is_answered _ _ B), O, B. cbn [negb].
    destruct (IH fuel (Edge.mkLoop m conv (S (Edge.iterations st)))
                (Edge.mkWorld
                   (replay toLocaleDateString (Js.to_string userId) calls (Edge.db w))
                   (Edge.trace w ++ logs ++ [Edge.Fetch conv Tools.tools])%list))
      as (st' & w' & new & E & T & It & Fn & Er & Last);
      [cbn [Edge.iterations]; lia | lia | exact A |].
    exists st', w', (logs ++ [Edge.Fetch conv Tools.tools] ++ new)%list.
    destruct (logs_are_not_fetches logs Hl) as [F0 E0].
    split; [exact E|]. split.
    { rewrite T. cbn [Edge.trace]. now rewrite <- !app_assoc. }
    split; [exact It|]. split.
    { rewrite !fetches_app, F0, Fn. reflexivity. }
    split.
    { rewrite !existsb_app, E0, Er. reflexivity. }
    intros _. destruct k as [|k].
    + assert (E' : Edge.tool_loop toLocaleDateString gateway fuel userId
                     (Edge.mkLoop m conv (S (Edge.iterations st)))
                     (Edge.mkWorld
                        (replay toLocaleDateString (Js.to_string userId) calls (Edge.db w))
                        (Edge.trace w ++ logs ++ [Edge.Fetch conv Tools.tools])%list)
                   = (Tools.Returned (Some (Edge.mkLoop m conv (S (Edge.iterations st)))),
                      Edge.mkWorld
                        (replay toLocaleDateString (Js.to_string userId) calls (Edge.db w))
                        (Edge.trace w ++ logs ++ [Edge.Fetch conv Tools.tools])%list)).
      { destruct A as (calls' & C' & _).
        destruct fuel; cbn [Edge.tool_loop Edge.assistantMessage Edge.iterations];
          rewrite C'; replace (S (Edge.iterations st)) with Edge.MAX_ITERATIONS by lia;
          reflexivity. }
      rewrite E' in E. injection E as <- <-.
      cbn [Edge.conversationMessages Edge.assistantMessage Edge.trace] in *.
      replace Edge.MAX_ITERATIONS with (S (Edge.iterations st)) at 1 by lia.
      split; [exact B|].
      assert (Z : new = []).
      { apply (app_inv_head (Edge.trace w ++ logs ++ [Edge.Fetch conv Tools.tools])%list).
        rewrite app_nil_r. now symmetry. }
      subst new. exists logs. now rewrite app_nil_r.
    + destruct Last as [G [before ->]]; [lia|]. split; [exact G|].
      exists (logs ++ [Edge.Fetch conv Tools.tools] ++ before)%list.
      now rewrite <- !app_assoc.
Qed.

(** C3, as the code has it.  When every answer of the gateway is a
    success that asks for tools, each with arguments that are JSON
    text for a value other than [null] whose members have a text, a
    request the handler takes up, with a [userId] that has a text, ends
    after the first completion request and exactly five rounds of
    tools, each closed by one more completion request: six requests in
    all and no more.  Nothing is logged as an error, and the answer is
    status 200 with the stream of two chunks, the data event of the
    content of the last assistant message (the sixth answer), or of
    [Done!] when that content is [null] or empty, and the line
    [DONE]. *)
Theorem tool_loop_is_capped
  (req : Edge.request) (userId : option json) (items : list json) (w : Edge.world) :
  accepted req userId items ->
  Js.printable userId = true ->
  exists conv m w' new,
    Edge.handler toLocaleDateString now gateway req w
    = (Some (Edge.mkResponse 200 (Some "text/event-stream")
               (Edge.EventStream (stream_of (settled_text (Edge.content m))))), w')
    /\ Edge.trace w' = (Edge.trace w ++ new)%list
    /\ fetches new = 6
    /\ existsb is_error new = false
    /\ (exists before, new = (before ++ [Edge.Fetch conv Tools.tools])%list)
    /\ Edge.up_body (gateway 5 conv) = Edge.Completion m.
Proof.
  intros A U. change 6 with (1 + Edge.MAX_ITERATIONS). change 5 with Edge.MAX_ITERATIONS.
  rewrite handler_not_preflight by apply A.
  rewrite (attempt_accepted toLocaleDateString now gateway req userId items w A).
  cbn zeta.
  set (all := Edge.System (Edge.systemPrompt now) :: history_of items).
  destruct (asks 0 all) as (O & m0 & B & A0).
  rewrite (completion_is_answered _ _ B), O, B. cbn [negb].
  destruct (loop_reaches_cap userId Edge.MAX_ITERATIONS U
              (S Edge.MAX_ITERATIONS) (Edge.mkLoop m0 all 0)
              (Edge.mkWorld (Edge.db w) (Edge.trace w ++ [Edge.Fetch all Tools.tools])%list))
    as (st & w' & new & E & T & _ & F & Er & Last);
    [reflexivity | auto | exact A0 |].
  rewrite E, stream_response_written_out.
  destruct Last as [G [before ->]]; [unfold Edge.MAX_ITERATIONS; lia|].
  exists (Edge.conversationMessages st), (Edge.assistantMessage st), w',
    (Edge.Fetch all Tools.tools
     :: before ++ [Edge.Fetch (Edge.conversationMessages st) Tools.tools])%list.
  split; [reflexivity|]. split.
  { rewrite T. cbn [Edge.trace]. now rewrite <- app_assoc. }
  split.
  { change (fetches (Edge.Fetch all Tools.tools :: ?l)) with (S (fetches l)).
    unfold fetches in *. simpl. now rewrite F. }
  split; [exact Er|]. split; [|exact G].
  exists (Edge.Fetch all Tools.tools :: before)%list. reflexivity.
Qed.

End Cap.

(** A request of the chat page. *)
Definition chat_request (userId content : string) : Edge.request :=
  Edge.mkRequest "POST"
    (Json.stringify
       (JObj [("messages", JArr [JObj [("role", JStr "user"); ("content", JStr content)]]);
              ("userId", JStr userId);
              ("conversationId", JStr "c1")])).

Lemma chat_request_accepted (userId content : string) :
  userId <> EmptyString ->
  Json.parse (Edge.text (chat_request userId content))
  = Some (JObj [("messages", JArr [JObj [("role", JStr "user"); ("content", JStr content)]]);
                ("userId", JStr userId);
                ("conversationId", JStr "c1")]) ->
  accepted (chat_request userId content) (Some (JStr userId))
    [JObj [("role", JStr "user"); ("content", JStr content)]].
Proof.
  intros U P. split; [discriminate|].
  eexists. split; [exact P|]. split; [discriminate|]. split; [reflexivity|].
  split; [destruct userId; [contradiction | reflexivity]|].
  split; [reflexivity|]. intros [H|[]]. discriminate H.
Qed.

Definition call (name arguments : string) : Edge.assistant_message :=
  Edge.mkAssistant None (Some [Edge.mkCall "call_1" name arguments]).

(** A model that asks for the list of tasks, whatever it is told. *)
Definition always_lists (n : nat) (conv : list Edge.message) : Edge.upstream :=
  Edge.mkUpstream 200 (Edge.Completion (call "list_todos" "{}")).

Lemma always_lists_asks : always_asks always_lists.
Proof.
  intros n conv. split; [reflexivity|]. eexists. split; [reflexivity|].
  eexists. split; [reflexivity|]. constructor; [|constructor].
  exists (JObj []). split; [vm_compute; reflexivity|]. split; [discriminate | reflexivity].
Qed.

Lemma tool_loop_is_capped_witness :
  exists conv m w' new,
    Edge.handler plain_date "2026-02-10T12:00:00.000Z" always_lists
      (chat_request "u1" "what is on my list?") fresh_world
    = (Some (Edge.mkResponse 200 (Some "text/event-stream")
               (Edge.EventStream (stream_of (settled_text (Edge.content m))))), w')
    /\ Edge.trace w' = (Edge.trace fresh_world ++ new)%list
    /\ fetches new = 6
    /\ existsb is_error new = false
    /\ (exists before, new = (before ++ [Edge.Fetch conv Tools.tools])%list)
    /\ Edge.up_body (always_lists 5 conv) = Edge.Completion m.
Proof.
  apply (tool_loop_is_capped plain_date "2026-02-10T12:00:00.000Z" always_lists
           always_lists_asks (chat_request "u1" "what is on my list?")
           (Some (JStr "u1"))
           [JObj [("role", JStr "user"); ("content", JStr "what is on my list?")]]
           fresh_world).
  - apply chat_request_accepted; [discriminate | vm_compute; reflexivity].
  - reflexivity.
Defined.

(** A model whose tool call has arguments that are not JSON. *)
Definition asks_badly (n : nat) (conv : list Edge.message) : Edge.upstream :=
  Edge.mkUpstream 200 (Edge.Completion (call "list_todos" "{")).

(** A title that has no text: an object with a member [toString]. *)
Definition no_text : json := JObj [("toString", JNum "1")].

(** A model whose tool call has a title that has no text. *)
Definition asks_with_object (n : nat) (conv : list Edge.message) : Edge.upstream :=
  Edge.mkUpstream 200
    (Edge.Completion (call "toggle_todo" (Json.stringify (JObj [("title", no_text)])))).

(** C3, as stated, fails: the model answers every request with one
    tool call, and the run ends in the first round with status 500,
    after one completion request, when the arguments of the call are
    not JSON, and when its title has no text. *)
Lemma tool_call_can_end_the_run :
  let out := Edge.handler plain_date "2026-02-10T12:00:00.000Z" asks_badly
               (chat_request "u1" "what is on my list?") fresh_world in
  let out' := Edge.handler plain_date "2026-02-10T12:00:00.000Z" asks_with_object
                (chat_request "u1" "done with it") fresh_world in
  fst out = Some (Edge.mkResponse 500 (Some "application/json")
                    (Edge.ErrorJson (Edge.MessageOf (Tools.SyntaxError "{"))))
  /\ fetches (Edge.trace (snd out)) = 1
  /\ fst out' = Some (Edge.mkResponse 500 (Some "application/json")
                        (Edge.ErrorJson (Edge.MessageOf Tools.NoPrimitive)))
  /\ fetches (Edge.trace (snd out')) = 1.
Proof. vm_compute. repeat split; reflexivity. Qed.

(** *** C10: a follow-up request that fails *)

Definition calls_of (m : Edge.assistant_message) : list Edge.tool_call :=
  match Edge.tool_calls m with
  | Some calls => calls
  | None => []
  end.

Lemma replay_app (toLocaleDateString : string -> string) (userId : string)
  (a b : list Edge.tool_call) (d : Db.db) :
  Forall well_formed a ->
  replay toLocaleDateString userId (a ++ b) d
  = replay toLocaleDateString userId b (replay toLocaleDateString userId a d).
Proof.
  intros W. revert d. induction W as [|c a (v & P & _) _ IH]; intros d; [reflexivity|].
  simpl. rewrite P. apply IH.
Qed.

(** A request that gives the loop no completion to go on with: it
    got a status of failure or a body that is no completion, or it was
    rejected. *)
Definition failed (response : Edge.upstream) : Prop :=
  Edge.ok response = false \/ forall m, Edge.up_body response <> Edge.Completion m.

Section FollowUpFailure.

Variable toLocaleDateString : string -> string.
Variable now : string.
Variable gateway : nat -> list Edge.message -> Edge.upstream.

(** The request that fails is the one after [k] answers; [ms] are
    the messages of those answers. *)
Variable k : nat.
Variable ms : nat -> Edge.assistant_message.

Hypothesis answers :
  forall j conv, j < k ->
    Edge.ok (gateway j conv) = true /\ Edge.up_body (gateway j conv) = Edge.Completion (ms j).
Hypothesis asks : forall j, j < k -> asks_for_tools (ms j).
Hypothesis fails : forall conv, failed (gateway k conv).

(** The answer of the handler after the follow-up request got
    [response]: the stream of the content of [last] when a response
    came with a status of failure and its body was read; status 500
    otherwise, with the message of what is thrown: the error of the
    [fetch] that was rejected or of the body that could not be read, or
    the TypeError of a success whose body is no completion. *)
Definition answer_after (response : Edge.upstream) (last : Edge.assistant_message)
  : Edge.response :=
  match response with
  | Edge.Rejected message =>
      Edge.json_error 500 (Edge.MessageOf (Tools.FetchFailed message))
  | Edge.mkUpstream status _ =>
      if (Nat.leb 200 status && Nat.leb status 299)%bool
      then Edge.json_error 500 (Edge.MessageOf (Tools.TypeError "choices"))
      else Edge.mkResponse 200 (Some "text/event-stream")
             (Edge.EventStream (stream_of (settled_text (Edge.content last))))
  end.

Lemma loop_settles_on_failure (userId : option json) (n : nat) :
  Js.printable userId = true ->
  forall (fuel : nat) (st : Edge.loop_state) (w : Edge.world),
    Edge.iterations st + n + 1 = k -> k <= Edge.MAX_ITERATIONS -> n < fuel ->
    Edge.assistantMessage st = ms (Edge.iterations st) ->
    exists conv w',
      match Edge.tool_loop toLocaleDateString gateway fuel userId st w with
      | (Tools.Returned (Some st'), w1) =>
          w1 = w' /\ Edge.stream_response st' = answer_after (gateway k conv) (ms (k - 1))
      | (Tools.Returned None, _) => False
      | (Tools.Thrown e, w1) =>
          w1 = w'
          /\ Edge.json_error 500 (Edge.MessageOf e) = answer_after (gateway k conv) (ms (k - 1))
      end
      /\ Edge.db w'
         = replay toLocaleDateString (Js.to_string userId)
             (flat_map calls_of (map ms (seq (Edge.iterations st) (S n)))) (Edge.db w).
Proof.
  intros U.
  assert (Last : forall conv (last : Edge.loop_state) (w1 : Edge.world),
            Edge.assistantMessage last = ms (k - 1) ->
            match
              match Edge.rejection (gateway k conv) with
              | Some e => (Tools.Thrown e, w1)
              | None =>
                  if negb (Edge.ok (gateway k conv)) then
                    (Tools.Returned (Some last),
                     Edge.mkWorld (Edge.db w1)
                       (Edge.trace w1
                        ++ [Edge.ConsoleError "AI gateway error on tool follow-up:"
                              (Edge.Upstream (Edge.up_status (gateway k conv))
                                 (Edge.up_body (gateway k conv)))])%list)
                  else
                    match Edge.up_body (gateway k conv) with
                    | Edge.Completion m =>
                        Edge.tool_loop toLocaleDateString gateway 0 userId
                          (Edge.mkLoop m conv k) w1
                    | Edge.Other _ => (Tools.Thrown (Tools.TypeError "choices"), w1)
                    end
              end
            with
            | (Tools.Returned (Some st'), w2) =>
                Edge.db w2 = Edge.db w1
                /\ Edge.stream_response st' = answer_after (gateway k conv) (ms (k - 1))
            | (Tools.Returned None, _) => False
            | (Tools.Thrown e, w2) =>
                Edge.db w2 = Edge.db w1
                /\ Edge.json_error 500 (Edge.MessageOf e)
                   = answer_after (gateway k conv) (ms (k - 1))
            end).
  { intros conv last w1 M. pose proof (fails conv) as F. unfold failed in F.
    destruct (gateway k conv) as [status body|message];
      cbn [Edge.rejection Edge.ok Edge.up_status Edge.up_body answer_after] in *.
    - destruct (Nat.leb 200 status && Nat.leb status 299)%bool eqn:E; cbn [negb].
      + destruct F as [F|F]; [congruence|].
        destruct body as [m|t]; [now contradiction (F m) | now split].
      + split; [reflexivity|]. rewrite stream_response_written_out, M. reflexivity.
    - now split. }
  induction n as [|n IH]; intros fuel st w I K F M.
  - destruct fuel as [|fuel]; [lia|].
    destruct (asks (Edge.iterations st)) as (calls & C & W); [lia|].
    rewrite <- M in C.
    destruct (loop_round toLocaleDateString gateway fuel userId st calls w U C W)
      as (conv & logs & _ & R); [lia|].
    cbn zeta in R. rewrite R. clear R.
    replace (S (Edge.iterations st)) with k by lia.
    set (w1 := Edge.mkWorld
                 (replay toLocaleDateString (Js.to_string userId) calls (Edge.db w))
                 (Edge.trace w ++ logs ++ [Edge.Fetch conv Tools.tools])%list).
    assert (D : Edge.db w1
                = replay toLocaleDateString (Js.to_string userId)
                    (flat_map calls_of (map ms (seq (Edge.iterations st) 1))) (Edge.db w)).
    { cbn [seq map flat_map]. rewrite app_nil_r.
      unfold calls_of. rewrite <- M, C. reflexivity. }
    assert (M' : Edge.assistantMessage
                   (Edge.mkLoop (Edge.assistantMessage st) conv k) = ms (k - 1))
      by (cbn [Edge.assistantMessage]; rewrite M; f_equal; lia).
    pose proof (Last conv _ w1 M') as L.
    destruct (Edge.rejection (gateway k conv)) as [e|].
    { exists conv, w1. split; [|exact D]. destruct L as [_ L]. now split. }
    destruct (negb (Edge.ok (gateway k conv))) eqn:O.
    { eexists conv, _. split.
      - destruct L as [_ L]. split; [reflexivity | exact L].
      - exact D. }
    destruct (Edge.up_body (gateway k conv)) as [m|t] eqn:B.
    { exfalso. destruct (fails conv) as [X|X].
      - rewrite X in O. discriminate O.
      - exact (X m B). }
    exists conv, w1. split; [|exact D]. destruct L as [_ L]. now split.
  - destruct fuel as [|fuel]; [lia|].
    destruct (asks (Edge.iterations st)) as (calls & C & W); [lia|].
    rewrite <- M in C.
    destruct (loop_round toLocaleDateString gateway fuel userId st calls w U C W)
      as (conv & logs & _ & R); [lia|].
    cbn zeta in R. rewrite R. clear R.
    destruct (answers (S (Edge.iterations st)) conv) as [O B]; [lia|].
    rewrite (completion_is_answered _ _ B), O, B. cbn [negb].
    destruct (IH fuel (Edge.mkLoop (ms (S (Edge.iterations st))) conv (S (Edge.iterations st)))
                (Edge.mkWorld
                   (replay toLocaleDateString (Js.to_string userId) calls (Edge.db w))
                   (Edge.trace w ++ logs ++ [Edge.Fetch conv Tools.tools])%list))
      as (conv' & w' & E & D);
      [cbn [Edge.iterations]; lia | exact K | lia | reflexivity |].
    exists conv', w'. split; [exact E|].
    rewrite D. cbn [Edge.db Edge.iterations].
    change (seq (Edge.iterations st) (S (S n)))
      with (Edge.iterations st :: seq (S (Edge.iterations st)) (S n)).
    cbn [map flat_map].
    assert (CO : calls_of (ms (Edge.iterations st)) = calls)
      by (unfold calls_of; rewrite <- M, C; reflexivity).
    rewrite CO, replay_app by exact W. reflexivity.
Qed.

(** C10, as the code has it.  A request the handler takes up, with a
    [userId] that has a text, gets [k] answers that ask for tools ([k]
    from 1 to 5) and then a completion request that fails.  The table
    is in every case the one left by the tools of the [k] rounds, run
    in order: nothing is undone.  The answer is status 200 with the
    stream of the content of the last assistant message received, or
    of [Done!] when it is [null] or empty, when the request that fails
    got a response with a status of failure whose body was read; it is
    status 500 when the request was rejected or the body of its
    response could not be read, and when its response was a success
    whose body is no completion. *)
Theorem follow_up_failure_keeps_mutations
  (req : Edge.request) (userId : option json) (items : list json) (w : Edge.world) :
  accepted req userId items ->
  Js.printable userId = true ->
  1 <= k -> k <= Edge.MAX_ITERATIONS ->
  exists conv w',
    Edge.handler toLocaleDateString now gateway req w
    = (Some (answer_after (gateway k conv) (ms (k - 1))), w')
    /\ Edge.db w'
       = replay toLocaleDateString (Js.to_string userId)
           (flat_map calls_of (map ms (seq 0 k))) (Edge.db w).
Proof.
  intros A U K1 K5. rewrite handler_not_preflight by apply A.
  rewrite (attempt_accepted toLocaleDateString now gateway req userId items w A).
  cbn zeta.
  set (all := Edge.System (Edge.systemPrompt now) :: history_of items).
  destruct (answers 0 all) as [O B]; [lia|].
  rewrite (completion_is_answered _ _ B), O, B. cbn [negb].
  destruct (loop_settles_on_failure userId (k - 1) U
              (S Edge.MAX_ITERATIONS) (Edge.mkLoop (ms 0) all 0)
              (Edge.mkWorld (Edge.db w) (Edge.trace w ++ [Edge.Fetch all Tools.tools])%list))
    as (conv & w' & E & D);
    [cbn [Edge.iterations]; lia | exact K5 | lia | reflexivity |].
  cbn [Edge.db Edge.iterations] in D. replace (S (k - 1)) with k in D by lia.
  destruct (Edge.tool_loop _ _ _ _ _ _) as [[[st|]|e] w1].
  - destruct E as [-> E]. exists conv, w'. rewrite E. now split.
  - contradiction.
  - destruct E as [-> E]. eexists conv, _. rewrite E. split; [reflexivity|]. exact D.
Qed.

End FollowUpFailure.

(** A gateway that asks for a task to be added and fails from then
    on with the status given. *)
Definition adds_then_fails (status : nat) (n : nat) (conv : list Edge.message)
  : Edge.upstream :=
  match n with
  | O => Edge.mkUpstream 200
           (Edge.Completion (call "add_todo" (Json.stringify (titled "Buy milk"))))
  | S _ => Edge.mkUpstream status (Edge.Other "unavailable")
  end.

Lemma follow_up_failure_witness :
  exists conv w',
    Edge.handler plain_date "2026-02-10T12:00:00.000Z" (adds_then_fails 503)
      (chat_request "u1" "add milk") fresh_world
    = (Some (answer_after (adds_then_fails 503 1 conv)
               (call "add_todo" (Json.stringify (titled "Buy milk")))), w')
    /\ Edge.db w'
       = replay plain_date "u1"
           [Edge.mkCall "call_1" "add_todo" (Json.stringify (titled "Buy milk"))] empty_db.
Proof.
  refine (follow_up_failure_keeps_mutations plain_date "2026-02-10T12:00:00.000Z"
            (adds_then_fails 503) 1
            (fun _ => call "add_todo" (Json.stringify (titled "Buy milk")))
            _ _ _ (chat_request "u1" "add milk") (Some (JStr "u1"))
            [JObj [("role", JStr "user"); ("content", JStr "add milk")]]
            fresh_world _ _ _ _).
  - intros j conv H. assert (j = 0) as -> by lia. split; reflexivity.
  - intros j _. eexists. split; [reflexivity|]. constructor; [|constructor].
    exists (titled "Buy milk"). split; [vm_compute; reflexivity|].
    split; [discriminate | reflexivity].
  - intros conv. left. reflexivity.
  - apply chat_request_accepted; [discriminate | vm_compute; reflexivity].
  - reflexivity.
  - lia.
  - unfold Edge.MAX_ITERATIONS. lia.
Defined.

(** A gateway that asks for a task to be added and is not reached
    again. *)
Definition adds_then_is_lost (n : nat) (conv : list Edge.message) : Edge.upstream :=
  match n with
  | O => Edge.mkUpstream 200
           (Edge.Completion (call "add_todo" (Json.stringify (titled "Buy milk"))))
  | S _ => Edge.Rejected "connection refused"
  end.

(** C10, as stated, fails: when the follow-up request is rejected,
    the task that was added stays, as the claim has it, and the request
    ends with status 500, not with status 200 and the stream. *)
Lemma rejected_follow_up_ends_with_500 :
  let out := Edge.handler plain_date "2026-02-10T12:00:00.000Z" adds_then_is_lost
               (chat_request "u1" "add milk") fresh_world in
  fst out = Some (Edge.mkResponse 500 (Some "application/json")
                    (Edge.ErrorJson
                       (Edge.MessageOf (Tools.FetchFailed "connection refused"))))
  /\ map Db.title (Db.rows (Edge.db (snd out))) = ["Buy milk"].
Proof. vm_compute. split; reflexivity. Qed.

Example task_added_before_failure_stays :
  let out := Edge.handler plain_date "2026-02-10T12:00:00.000Z" (adds_then_fails 503)
               (chat_request "u1" "add milk") fresh_world in
  option_map Edge.status (fst out) = Some 200
  /\ map Db.title (Db.rows (Edge.db (snd out))) = ["Buy milk"].
Proof. vm_compute. split; reflexivity. Qed.

(** C8, as stated, fails for a follow-up request: status 429 from the
    gateway after a round of tools is logged, and the answer is status
    200 with the event stream. *)
Lemma follow_up_429_is_not_surfaced :
  let out := Edge.handler plain_date "2026-02-10T12:00:00.000Z" (adds_then_fails 429)
               (chat_request "u1" "add milk") fresh_world in
  fst out = Some (Edge.mkResponse 200 (Some "text/event-stream")
                    (Edge.EventStream (Sse.chunks "Done!")))
  /\ last (Edge.trace (snd out)) (Edge.ConsoleLog EmptyString JNull)
     = Edge.ConsoleError "AI gateway error on tool follow-up:"
         (Edge.Upstream 429 (Edge.Other "unavailable")).
Proof. vm_compute. split; reflexivity. Qed.

Definition always_fails (status : nat) (n : nat) (conv : list Edge.message)
  : Edge.upstream :=
  Edge.mkUpstream status (Edge.Other "unavailable").

Lemma first_call_failure_witness :
  exists r logged,
    Edge.handler plain_date "2026-02-10T12:00:00.000Z" (always_fails 429)
      (chat_request "u1" "add milk") fresh_world
    = (Some r,
       Edge.mkWorld empty_db
         ([] ++ Edge.Fetch
                  (Edge.System (Edge.systemPrompt "2026-02-10T12:00:00.000Z")
                   :: history_of [JObj [("role", JStr "user"); ("content", JStr "add milk")]])
                  Tools.tools :: logged)%list)
    /\ (429 = 429 -> r = Edge.json_error 429 (Edge.Literal "Rate limited") /\ logged = [])
    /\ (429 = 402 -> r = Edge.json_error 402 (Edge.Literal "Payment required") /\ logged = [])
    /\ (429 <> 429 -> 429 <> 402 ->
        r = Edge.json_error 500 (Edge.Literal "AI gateway error")
        /\ logged = [Edge.ConsoleError "AI gateway error:"
                       (Edge.Upstream 429 (Edge.Other "unavailable"))]).
Proof.
  apply (first_call_failure_is_surfaced plain_date "2026-02-10T12:00:00.000Z"
           (always_fails 429) (chat_request "u1" "add milk") (Some (JStr "u1"))
           [JObj [("role", JStr "user"); ("content", JStr "add milk")]] fresh_world).
  - apply chat_request_accepted; [discriminate | vm_compute; reflexivity].
  - reflexivity.
Defined.

Example other_failure_is_logged :
  Edge.handler plain_date "now" (always_fails 503) (chat_request "u1" "add milk") fresh_world
  = (Some (Edge.json_error 500 (Edge.Literal "AI gateway error")),
     Edge.mkWorld empty_db
       [Edge.Fetch (Edge.System (Edge.systemPrompt "now")
                    :: history_of [JObj [("role", JStr "user"); ("content", JStr "add milk")]])
                   Tools.tools;
        Edge.ConsoleError "AI gateway error:" (Edge.Upstream 503 (Edge.Other "unavailable"))]).
Proof. vm_compute. reflexivity. Qed.

(** A model whose tool call has [null] for arguments. *)
Definition asks_with_null (n : nat) (conv : list Edge.message) : Edge.upstream :=
  Edge.mkUpstream 200 (Edge.Completion (call "list_todos" "null")).

(** C5, as stated, fails: on arguments that are [null], and on a
    title that has no text, [executeTool] raises, and the request that
    made the call ends with status 500. *)
Lemma null_arguments_raise :
  said "list_todos" JNull "u1" empty_db = Tools.Thrown (Tools.TypeError "completed")
  /\ fst (Edge.handler plain_date "2026-02-10T12:00:00.000Z" asks_with_null
            (chat_request "u1" "what is on my list?") fresh_world)
     = Some (Edge.mkResponse 500 (Some "application/json")
               (Edge.ErrorJson (Edge.MessageOf (Tools.TypeError "completed"))))
  /\ said "toggle_todo" (JObj [("title", no_text)]) "u1" empty_db
     = Tools.Thrown Tools.NoPrimitive
  /\ fst (Edge.handler plain_date "2026-02-10T12:00:00.000Z" asks_with_object
            (chat_request "u1" "done with it") fresh_world)
     = Some (Edge.mkResponse 500 (Some "application/json")
               (Edge.ErrorJson (Edge.MessageOf Tools.NoPrimitive))).
Proof. vm_compute. repeat split; reflexivity. Qed.

(** *** C7: the catalog *)

Definition carries_catalog (e : Edge.event) : Prop :=
  match e with
  | Edge.Fetch _ catalog => catalog = Tools.tools
  | _ => True
  end.

(** The trace gets longer, and each completion request added to it
    carries the catalog. *)
Definition grows (w w' : Edge.world) : Prop :=
  exists new, Edge.trace w' = (Edge.trace w ++ new)%list /\ Forall carries_catalog new.

Lemma grows_refl (w : Edge.world) : grows w w.
Proof. exists []. split; [now rewrite app_nil_r | constructor]. Qed.

Lemma grows_trans (a b c : Edge.world) : grows a b -> grows b c -> grows a c.
Proof.
  intros (x & X & Px) (y & Y & Py). exists (x ++ y)%list. split.
  - now rewrite Y, X, app_assoc.
  - apply Forall_app. now split.
Qed.

Lemma grows_same_trace (w w' : Edge.world) : Edge.trace w' = Edge.trace w -> grows w w'.
Proof. intros E. exists []. split; [now rewrite app_nil_r | constructor]. Qed.

Lemma grows_one (w : Edge.world) (d : Db.db) (e : Edge.event) :
  carries_catalog e -> grows w (Edge.mkWorld d (Edge.trace w ++ [e])%list).
Proof. intros H. exists [e]. split; [reflexivity | now constructor]. Qed.

Section Catalog.

Variable toLocaleDateString : string -> string.
Variable now : string.
Variable gateway : nat -> list Edge.message -> Edge.upstream.

Lemma run_calls_grows (userId : option json) (calls : list Edge.tool_call) :
  forall conv w, grows w (snd (Edge.run_calls toLocaleDateString userId calls conv w)).
Proof.
  induction calls as [|c later IH]; intros conv w; cbn [Edge.run_calls].
  - apply grows_refl.
  - destruct (Json.parse (Edge.fn_arguments c)) as [v|]; [|apply grows_refl].
    unfold Edge.then_ at 1. unfold Edge.emit at 1.
    unfold Edge.then_ at 1. unfold Edge.call_tool.
    destruct (Edge.writes_user_first (Edge.fn_name c) v && negb (Js.printable userId))%bool.
    { now apply grows_one. }
    unfold Edge.on_db at 1. cbn [Edge.db Edge.trace].
    destruct (Tools.executeTool toLocaleDateString (Edge.fn_name c) v
                (Js.to_string userId) (Edge.db w))
      as [[s|e] d'].
    + eapply grows_trans; [|apply IH]. now apply grows_one.
    + now apply grows_one.
Qed.

Lemma tool_loop_grows (userId : option json) (fuel : nat) :
  forall st w, grows w (snd (Edge.tool_loop toLocaleDateString gateway fuel userId st w)).
Proof.
  induction fuel as [|fuel IH]; intros st w; cbn [Edge.tool_loop];
    destruct (Edge.tool_calls (Edge.assistantMessage st)) as [calls|];
    try apply grows_refl;
    destruct (Nat.ltb (Edge.iterations st) Edge.MAX_ITERATIONS);
    try apply grows_refl.
  unfold Edge.then_ at 1.
  pose proof (run_calls_grows userId calls
                (Edge.conversationMessages st ++ [Edge.Assistant (Edge.assistantMessage st)])%list
                w) as G.
  destruct (Edge.run_calls _ _ _ _ _) as [[conv|e] w1]; cbn [snd] in G; [|exact G].
  unfold Edge.then_ at 1. unfold Edge.emit at 1.
  set (w2 := Edge.mkWorld (Edge.db w1) (Edge.trace w1 ++ [Edge.Fetch conv Tools.tools])%list).
  assert (G2 : grows w w2).
  { eapply grows_trans; [exact G|]. now apply grows_one. }
  destruct (Edge.rejection (gateway (S (Edge.iterations st)) conv)); [exact G2|].
  destruct (negb (Edge.ok (gateway (S (Edge.iterations st)) conv))).
  - unfold Edge.then_, Edge.emit. cbn [snd].
    eapply grows_trans; [exact G2|]. now apply grows_one.
  - destruct (Edge.up_body (gateway (S (Edge.iterations st)) conv)) as [m|t].
    + eapply grows_trans; [exact G2|]. apply IH.
    + exact G2.
Qed.

Lemma client_messages_world (items : list json) (w : Edge.world) :
  snd (Edge.client_messages items w) = w.
Proof.
  induction items as [|m items IH]; [reflexivity|].
  destruct m; cbn [Edge.client_messages]; try reflexivity;
    unfold Edge.then_; destruct (Edge.client_messages items w) as [[h|e] w'];
    simpl in *; now subst.
Qed.

Lemma attempt_grows (req : Edge.request) (w : Edge.world) :
  grows w (snd (Edge.attempt toLocaleDateString now gateway req w)).
Proof.
  unfold Edge.attempt.
  destruct (Json.parse (Edge.text req)) as [parsed|]; [|apply grows_refl].
  destruct parsed as [|b|l|s|arr|members]; [apply grows_refl | ..].
  all: cbn zeta;
    match goal with
    | |- context [negb (Js.truthy ?u)] => destruct (negb (Js.truthy u))
    end; [apply grows_refl|];
    match goal with
    | |- context [match ?m with Some _ => _ | None => _ end] =>
        destruct m as [[| | | |items|]|]
    end; try apply grows_refl.
  all: unfold Edge.then_ at 1;
    pose proof (client_messages_world items w) as C;
    destruct (Edge.client_messages items w) as [[history|e] w0]; cbn [snd] in C; subst w0;
    [|apply grows_refl];
    unfold Edge.then_ at 1; unfold Edge.emit at 1;
    set (all := Edge.System (Edge.systemPrompt now) :: history);
    set (w1 := Edge.mkWorld (Edge.db w) (Edge.trace w ++ [Edge.Fetch all Tools.tools])%list);
    assert (G1 : grows w w1) by (now apply grows_one);
    (destruct (Edge.rejection (gateway 0 all)); [exact G1|]);
    destruct (negb (Edge.ok (gateway 0 all)));
    [ destruct (Nat.eqb (Edge.up_status (gateway 0 all)) 429); [exact G1|];
      destruct (Nat.eqb (Edge.up_status (gateway 0 all)) 402); [exact G1|];
      unfold Edge.then_, Edge.emit; cbn [snd];
      eapply grows_trans; [exact G1|]; now apply grows_one
    | destruct (Edge.up_body (gateway 0 all)) as [m|t]; [|exact G1];
      unfold Edge.then_;
      match goal with
      | |- context [Edge.tool_loop ?f ?g ?n ?u ?st ?w2] =>
          pose proof (tool_loop_grows u n st w2) as L;
          destruct (Edge.tool_loop f g n u st w2) as [[[st'|]|e] w3]
      end; cbn [snd] in *; eapply grows_trans; eassumption ].
Qed.

Lemma handler_grows (req : Edge.request) (w : Edge.world) :
  grows w (snd (Edge.handler toLocaleDateString now gateway req w)).
Proof.
  unfold Edge.handler.
  destruct (String.eqb (Edge.method req) "OPTIONS"); [apply grows_refl|].
  pose proof (attempt_grows req w) as G.
  destruct (Edge.attempt _ _ _ _ _) as [[r|e] w']; cbn [snd] in *; [exact G|].
  eapply grows_trans; [exact G|]. now apply grows_one.
Qed.

End Catalog.

(** C7, as the code has it.  The catalog is a constant of five
    tools, [add_todo (title, due_at)], [list_todos (completed)],
    [toggle_todo (title)], [delete_todo (title)] and
    [update_todo (old_title, new_title)], of which [title] is required
    by the first, third and fourth, both titles by the last and nothing
    by [list_todos]; and whatever the request and the gateway, every
    completion request the handler posts carries that catalog. *)
Theorem catalog_is_fixed_and_attached :
  map (fun t => (Tools.name t, map Tools.prop_name (Tools.properties t), Tools.required t))
      Tools.tools
  = [ ("add_todo", ["title"; "due_at"], ["title"]);
      ("list_todos", ["completed"], []);
      ("toggle_todo", ["title"], ["title"]);
      ("delete_todo", ["title"], ["title"]);
      ("update_todo", ["old_title"; "new_title"], ["old_title"; "new_title"]) ]
  /\ forall (toLocaleDateString : string -> string) (now : string)
            (gateway : nat -> list Edge.message -> Edge.upstream)
            (req : Edge.request) (w : Edge.world),
       exists new,
         Edge.trace (snd (Edge.handler toLocaleDateString now gateway req w))
         = (Edge.trace w ++ new)%list
         /\ forall conv catalog, In (Edge.Fetch conv catalog) new -> catalog = Tools.tools.
Proof.
  split; [reflexivity|]. intros f now gateway req w.
  destruct (handler_grows f now gateway req w) as (new & T & F).
  exists new. split; [exact T|]. intros conv catalog I.
  rewrite Forall_forall in F. exact (F _ I).
Qed.

(** C7, as stated, fails on the names: none of [add_task],
    [list_tasks], [toggle_task], [delete_task], [update_task] is a name
    of the catalog, and [executeTool] knows none of them. *)
Lemma catalog_has_no_task_names :
  map (fun n => existsb (String.eqb n) (map Tools.name Tools.tools))
      ["add_task"; "list_tasks"; "toggle_task"; "delete_task"; "update_task"]
  = [false; false; false; false; false]
  /\ said "add_task" (titled "Buy milk") "u1" empty_db
     = Tools.Returned "Unknown tool: add_task".
Proof. vm_compute. split; reflexivity. Qed.

(** *** The key of the table *)

(** The [id]s of the rows are distinct and below the next one to be
    given: what the primary key and its default ensure. *)
Definition keyed (d : Db.db) : Prop :=
  NoDup (map Db.id (Db.rows d)) /\ Forall (fun t => Db.id t < Db.next_id d) (Db.rows d).

Lemma empty_db_keyed : keyed empty_db.
Proof. split; constructor. Qed.

Lemma nodup_ids_filter (keep : Db.todo -> bool) (l : list Db.todo) :
  NoDup (map Db.id l) -> NoDup (map Db.id (filter keep l)).
Proof.
  induction l as [|x l IH]; simpl; intros N; [constructor|].
  inversion N as [|? ? Nx Nl]; subst.
  destruct (keep x); simpl; [|auto].
  constructor; [|auto].
  intros I. apply Nx. apply in_map_iff in I as (t & E & It).
  apply filter_In in It as [It _]. rewrite <- E. now apply in_map.
Qed.

Lemma ids_after_patch (now : nat) (c : Db.patch) (fs : list Db.clause) (l : list Db.todo) :
  map Db.id (map (fun t => if Db.matches_all fs t then Db.apply_patch now c t else t) l)
  = map Db.id l.
Proof.
  rewrite map_map. apply map_ext. intros t.
  destruct (Db.matches_all fs t); [apply patch_keeps_id | reflexivity].
Qed.

Lemma perform_keyed (q : Db.request) (d : Db.db) :
  keyed d ->
  let r := fst (Db.perform q d) in
  let rows' := snd (Db.perform q d) in
  let next' := if match Db.error r with None => Db.is_insert q | Some _ => false end
               then S (Db.next_id d) else Db.next_id d in
  NoDup (map Db.id rows') /\ Forall (fun t => Db.id t < next') rows'.
Proof.
  intros [N B]. cbn zeta.
  assert (Same : forall n, Db.next_id d <= n ->
                 NoDup (map Db.id (Db.rows d)) /\ Forall (fun t => Db.id t < n) (Db.rows d)).
  { intros n L. split; [exact N|]. eapply Forall_impl; [|exact B]. simpl. intros; lia. }
  destruct q as [u t du|fs o limit|c fs|fs]; cbn [Db.perform].
  - destruct t as [v|]; [|cbn; apply Same; lia].
    destruct v; try (cbn; apply Same; lia);
      (cbn; split;
       [ rewrite map_app; cbn; apply NoDup_app;
         [ exact N
         | repeat constructor; intros []
         | intros x Ix [<-|[]]; apply in_map_iff in Ix as (t0 & E & It);
           rewrite Forall_forall in B; specialize (B _ It); lia ]
       | apply Forall_app; split;
         [ eapply Forall_impl; [|exact B]; cbn; intros; lia
         | repeat constructor; cbn; lia ] ]).
  - destruct (existsb Db.malformed fs); cbn; apply Same; lia.
  - destruct (existsb Db.malformed fs); [cbn; apply Same; lia|].
    assert (P : NoDup (map Db.id
                  (map (fun t => if Db.matches_all fs t
                                 then Db.apply_patch (Db.clock d) c t else t) (Db.rows d)))
                /\ Forall (fun t => Db.id t < Db.next_id d)
                     (map (fun t => if Db.matches_all fs t
                                    then Db.apply_patch (Db.clock d) c t else t) (Db.rows d))).
    { split; [now rewrite ids_after_patch|].
      apply Forall_map. eapply Forall_impl; [|exact B]. cbn. intros t Lt.
      destruct (Db.matches_all fs t); [now rewrite patch_keeps_id | exact Lt]. }
    destruct c as [b|[[]|]]; cbn [fst snd Db.error Db.failed Db.is_insert]; try exact P.
    apply Same; lia.
  - destruct (existsb Db.malformed fs); cbn [fst snd Db.error Db.failed Db.is_insert];
      [apply Same; lia|].
    split; [now apply nodup_ids_filter|].
    apply Forall_forall. intros t It. apply filter_In in It as [It _].
    rewrite Forall_forall in B. now apply B.
Qed.

Lemma send_keyed (q : Db.request) (d : Db.db) : keyed d -> keyed (snd (Db.send q d)).
Proof.
  intros K. pose proof (perform_keyed q d K) as P. cbn zeta in P.
  unfold Db.send. destruct (Db.faults d) as [|[m|] later].
  - destruct (Db.perform q d) as [r rows']. exact P.
  - exact K.
  - destruct (Db.perform q d) as [r rows']. exact P.
Qed.

(** A call keeps the key. *)
Lemma executeTool_keyed
  (toLocaleDateString : string -> string) (name : string) (args : json)
  (u : string) (d : Db.db) :
  keyed d -> keyed (snd (Tools.executeTool toLocaleDateString name args u d)).
Proof.
  intros K. destruct (json_null_or_not args) as [->|N].
  { now rewrite null_args_touch_nothing. }
  tool_paths; cbn [snd];
    repeat match goal with
           | S : Db.send ?q ?d0 = (?r, ?d1) |- _ =>
               let H := fresh "K" in
               assert (H : keyed d1)
                 by (replace d1 with (snd (Db.send q d0)) by (rewrite S; reflexivity);
                     apply send_keyed; assumption);
               clear S
           end;
    assumption.
Qed.

Lemma replay_keyed (toLocaleDateString : string -> string) (u : string)
  (calls : list Edge.tool_call) (d : Db.db) :
  keyed d -> keyed (replay toLocaleDateString u calls d).
Proof.
  revert d. induction calls as [|c later IH]; intros d K; simpl; [exact K|].
  destruct (Json.parse (Edge.fn_arguments c)); [|exact K].
  apply IH. now apply executeTool_keyed.
Qed.

(** ** Nothing runs out of fuel *)

Lemma read_stream_total (prev : list Chat.Msg) (values : list string) :
  exists o, Chat.read_stream prev values = Some o.
Proof.
  unfold Chat.read_stream.
  destruct (read_all_total values Str.new_decoder
              (Chat.mkReader EmptyString EmptyString prev 0)) as [st ->].
  eauto.
Qed.

Section Answers.

Variable toLocaleDateString : string -> string.
Variable now : string.
Variable gateway : nat -> list Edge.message -> Edge.upstream.

Lemma tool_loop_ends (userId : option json) (fuel : nat) :
  forall st w,
    Edge.MAX_ITERATIONS - Edge.iterations st <= fuel ->
    fst (Edge.tool_loop toLocaleDateString gateway fuel userId st w) <> Tools.Returned None.
Proof.
  induction fuel as [|fuel IH]; intros st w F; cbn [Edge.tool_loop];
    destruct (Edge.tool_calls (Edge.assistantMessage st)) as [calls|];
    try discriminate;
    destruct (Nat.ltb_spec (Edge.iterations st) Edge.MAX_ITERATIONS) as [L|L];
    try discriminate; try lia.
  unfold Edge.then_ at 1.
  destruct (Edge.run_calls _ _ _ _ _) as [[conv|e] w1]; [|discriminate].
  unfold Edge.then_ at 1. unfold Edge.emit at 1.
  destruct (Edge.rejection (gateway (S (Edge.iterations st)) conv)); [discriminate|].
  destruct (negb (Edge.ok (gateway (S (Edge.iterations st)) conv))); [discriminate|].
  destruct (Edge.up_body (gateway (S (Edge.iterations st)) conv)); [|discriminate].
  apply IH. cbn [Edge.iterations]. lia.
Qed.

(** The handler answers every request. *)
Lemma handler_answers (req : Edge.request) (w : Edge.world) :
  exists r, fst (Edge.handler toLocaleDateString now gateway req w) = Some r.
Proof.
  unfold Edge.handler.
  destruct (String.eqb (Edge.method req) "OPTIONS"); [now eexists|].
  destruct (Edge.attempt toLocaleDateString now gateway req w) as [[[r|]|e] w'] eqn:E;
    cbn [fst]; [now eexists | | now eexists].
  exfalso. revert E. unfold Edge.attempt.
  destruct (Json.parse (Edge.text req)) as [parsed|]; [|discriminate].
  destruct parsed as [|b|l|s|arr|members]; [discriminate | ..].
  all: cbn zeta;
    match goal with
    | |- context [negb (Js.truthy ?u)] => destruct (negb (Js.truthy u))
    end; [discriminate|];
    match goal with
    | |- context [match ?m with Some _ => _ | None => _ end] =>
        destruct m as [[| | | |items|]|]
    end; try discriminate.
  all: unfold Edge.then_ at 1;
    destruct (Edge.client_messages items w) as [[history|e] w0]; [|discriminate];
    unfold Edge.then_ at 1; unfold Edge.emit at 1;
    match goal with
    | |- context [Edge.rejection ?r] => destruct (Edge.rejection r)
    end; [discriminate|];
    match goal with
    | |- context [negb (Edge.ok ?r)] => destruct (negb (Edge.ok r))
    end;
    [ repeat match goal with
             | |- context [Nat.eqb ?a ?b] => destruct (Nat.eqb a b)
             end; discriminate
    | match goal with
      | |- context [Edge.up_body ?r] => destruct (Edge.up_body r) as [m|t]
      end; [|discriminate];
      unfold Edge.then_;
      match goal with
      | |- context [Edge.tool_loop ?f ?g ?n ?u ?st ?w2] =>
          pose proof (tool_loop_ends u n st w2) as L;
          destruct (Edge.tool_loop f g n u st w2) as [[[st'|]|e] w3]
      end; try discriminate;
      exfalso; apply L; [cbn [Edge.iterations]; lia | reflexivity] ].
Qed.

End Answers.

(** ** The stream reader on any stream *)

(** *** White space and the carriage return *)

Definition CR : string := String Str.cr EmptyString.

Fixpoint has_cr (s : string) : bool :=
  match s with
  | EmptyString => false
  | String c r => (Ascii.eqb c Str.cr || has_cr r)%bool
  end.

Lemma strip_prefix_spec (p s r : string) :
  Str.strip_prefix p s = Some r -> s = p ++ r.
Proof.
  revert s. induction p as [|a p IH]; intros s H.
  - now injection H as ->.
  - destruct s as [|c s]; [discriminate|]. simpl in H.
    destruct (Ascii.eqb_spec a c) as [->|]; [|discriminate].
    simpl. now rewrite (IH s H).
Qed.

Lemma strip_one_spec (pats : list string) (s r : string) :
  Str.strip_one pats s = Some r -> exists p, In p pats /\ s = p ++ r.
Proof.
  induction pats as [|p pats IH]; intros H; [discriminate|]. simpl in H.
  destruct (Str.strip_prefix p s) as [r'|] eqn:P.
  - injection H as ->. exists p. split; [now left | now apply strip_prefix_spec].
  - destruct (IH H) as (q & Hq & E). exists q. split; [now right | exact E].
Qed.

Section Stripping.

Variable pats : list string.

(** No pattern is empty, and a carriage return is in a pattern only
    as its first byte. *)
Hypothesis cr_first : forallb (fun p => match p with
                                        | EmptyString => false
                                        | String _ r => negb (has_cr r)
                                        end) pats = true.

Lemma pattern_not_empty (p : string) : In p pats -> p <> EmptyString.
Proof.
  intros H E. subst p. rewrite forallb_forall in cr_first.
  now specialize (cr_first _ H).
Qed.

Lemma strip_one_shorter (s r : string) :
  Str.strip_one pats s = Some r -> String.length r < String.length s.
Proof.
  intros H. destruct (strip_one_spec _ _ _ H) as (p & Hp & ->).
  apply pattern_not_empty in Hp. rewrite length_append.
  destruct p; [contradiction | simpl; lia].
Qed.

Lemma strip_one_nil : Str.strip_one pats EmptyString = None.
Proof.
  destruct (Str.strip_one pats EmptyString) as [r|] eqn:E; [|reflexivity].
  apply strip_one_shorter in E. simpl in E. lia.
Qed.

Lemma strip_many_fuel (n m : nat) (s : string) :
  String.length s <= n -> String.length s <= m ->
  Str.strip_many n pats s = Str.strip_many m pats s.
Proof.
  revert m s. induction n as [|n IH]; intros m s Hn Hm.
  - destruct s; [|simpl in Hn; lia].
    destruct m; simpl; [reflexivity | now rewrite strip_one_nil].
  - destruct m as [|m].
    + destruct s; [|simpl in Hm; lia]. simpl. now rewrite strip_one_nil.
    + simpl. destruct (Str.strip_one pats s) as [r|] eqn:E; [|reflexivity].
      apply strip_one_shorter in E. apply IH; lia.
Qed.

(** With fuel for every byte the stripping stops on a text no pattern
    begins. *)
Lemma strip_many_stops (n : nat) (s : string) :
  String.length s <= n -> Str.strip_one pats (Str.strip_many n pats s) = None.
Proof.
  revert s. induction n as [|n IH]; intros s Hn.
  - destruct s; [|simpl in Hn; lia]. apply strip_one_nil.
  - simpl. destruct (Str.strip_one pats s) as [r|] eqn:E; [|exact E].
    apply strip_one_shorter in E. apply IH. lia.
Qed.

Lemma strip_prefix_cr (p z : string) :
  has_cr p = false ->
  Str.strip_prefix p (z ++ CR) = option_map (fun r => r ++ CR) (Str.strip_prefix p z).
Proof.
  revert z. induction p as [|a p IH]; intros z H; [reflexivity|].
  simpl in H. apply orb_false_iff in H as [Ha Hp].
  destruct z as [|c z]; simpl.
  - rewrite Ha. reflexivity.
  - destruct (Ascii.eqb a c); [now apply IH | reflexivity].
Qed.

Lemma strip_one_cr (c : ascii) (z : string) :
  Str.strip_one pats (String c z ++ CR)
  = option_map (fun r => r ++ CR) (Str.strip_one pats (String c z)).
Proof.
  clear -cr_first. induction pats as [|p ps IH]; [reflexivity|].
  simpl in cr_first. apply andb_true_iff in cr_first as [Hp Hs].
  destruct p as [|a p]; [discriminate|]. apply negb_true_iff in Hp.
  cbn [Str.strip_one Str.strip_prefix append].
  destruct (Ascii.eqb a c).
  - rewrite (strip_prefix_cr p z Hp).
    destruct (Str.strip_prefix p z); [reflexivity|]. now apply IH.
  - now apply IH.
Qed.

Hypothesis cr_is_stripped : forall r, Str.strip_one pats (String Str.cr r) = Some r.

Lemma strip_many_cr (n : nat) (z : string) :
  String.length z <= n ->
  Str.strip_many (S n) pats (z ++ CR)
  = if Str.is_empty (Str.strip_many n pats z) then EmptyString
    else Str.strip_many n pats z ++ CR.
Proof.
  revert z. induction n as [|n IH]; intros z Hn.
  - destruct z; [|simpl in Hn; lia].
    cbn [append CR Str.strip_many]. unfold CR. now rewrite cr_is_stripped.
  - destruct z as [|c z].
    + cbn [append Str.strip_many]. unfold CR.
      now rewrite cr_is_stripped, strip_one_nil.
    + change (Str.strip_many (S (S n)) pats (String c z ++ CR))
        with (match Str.strip_one pats (String c z ++ CR) with
              | Some r => Str.strip_many (S n) pats r
              | None => String c z ++ CR
              end).
      change (Str.strip_many (S n) pats (String c z))
        with (match Str.strip_one pats (String c z) with
              | Some r => Str.strip_many n pats r
              | None => String c z
              end).
      rewrite strip_one_cr.
      destruct (Str.strip_one pats (String c z)) as [r|] eqn:E; [|reflexivity].
      cbn [option_map]. apply IH. apply strip_one_shorter in E. simpl in *. lia.
Qed.

End Stripping.

Lemma white_space_cr_first :
  forallb (fun p => match p with
                    | EmptyString => false
                    | String _ r => negb (has_cr r)
                    end) Str.white_space = true.
Proof. reflexivity. Qed.

Lemma white_space_rev_cr_first :
  forallb (fun p => match p with
                    | EmptyString => false
                    | String _ r => negb (has_cr r)
                    end) (map Str.rev Str.white_space) = true.
Proof. reflexivity. Qed.

Lemma trimEnd_cr (z : string) : Str.trimEnd (z ++ CR) = Str.trimEnd z.
Proof.
  unfold Str.trimEnd. rewrite rev_append, length_append.
  replace (String.length z + String.length CR) with (S (String.length z))
    by (simpl; lia).
  change (Str.rev CR ++ Str.rev z) with (String Str.cr (Str.rev z)).
  change (Str.strip_many (S (String.length z)) (map Str.rev Str.white_space)
            (String Str.cr (Str.rev z)))
    with (Str.strip_many (String.length z) (map Str.rev Str.white_space) (Str.rev z)).
  reflexivity.
Qed.

Lemma trimStart_cr (z : string) :
  Str.trimStart (z ++ CR)
  = if Str.is_empty (Str.trimStart z) then EmptyString else Str.trimStart z ++ CR.
Proof.
  unfold Str.trimStart. rewrite length_append.
  replace (String.length z + String.length CR) with (S (String.length z))
    by (simpl; lia).
  apply strip_many_cr; [exact white_space_cr_first | reflexivity | lia].
Qed.

Lemma trim_cr (z : string) : Str.trim (z ++ CR) = Str.trim z.
Proof.
  unfold Str.trim. rewrite trimStart_cr.
  destruct (Str.trimStart z) as [|a s]; [reflexivity|].
  cbn [Str.is_empty]. apply trimEnd_cr.
Qed.

Lemma strip_cr_cases (l : string) :
  Chat.strip_cr l = l \/ exists y, l = y ++ CR /\ Chat.strip_cr l = y.
Proof.
  unfold Chat.strip_cr, Str.endsWith, Str.drop_last.
  change (Str.rev (String Str.cr EmptyString)) with CR.
  destruct (Str.rev l) as [|c r] eqn:E; [now left|].
  unfold CR. cbn [String.prefix].
  destruct (ascii_dec Str.cr c) as [<-|_]; [|now left].
  right. exists (Str.rev r). split; [|now destruct r].
  rewrite <- (rev_involutive l), E. reflexivity.
Qed.

Lemma strip_cr_no_lf (l : string) : has_lf l = false -> has_lf (Chat.strip_cr l) = false.
Proof.
  intros H. destruct (strip_cr_cases l) as [->|(y & E & ->)]; [exact H|].
  rewrite E, has_lf_append in H. now apply orb_false_iff in H as [H _].
Qed.

Lemma prefix_cr (p y : string) :
  has_cr p = false -> String.prefix p (y ++ CR) = String.prefix p y.
Proof.
  revert y. induction p as [|a p IH]; intros y H; [now destruct y|].
  simpl in H. apply orb_false_iff in H as [Ha Hp].
  destruct y as [|c y]; simpl.
  - destruct (ascii_dec a Str.cr) as [->|_]; [discriminate Ha | reflexivity].
  - destruct (ascii_dec a c); [now apply IH | reflexivity].
Qed.

Lemma slice_past_prefix (p y x : string) :
  String.prefix p y = true ->
  Str.slice_from (String.length p) (y ++ x) = Str.slice_from (String.length p) y ++ x.
Proof.
  revert y. induction p as [|a p IH]; intros y H; [reflexivity|].
  destruct y as [|c y]; [discriminate|]. simpl in H.
  destruct (ascii_dec a c); [|discriminate]. simpl. now apply IH.
Qed.

(** *** What a line gives *)

(** The content a line gives, when it gives one: the same in the
    loop and in the flush.  A content that has no text gives nothing:
    the loop puts the line back and the flush passes it over. *)
Definition stripped_content (line : string) : option json :=
  if (Str.startsWith line ":" || Str.is_empty (Str.trim line))%bool then None
  else if negb (Str.startsWith line "data: ") then None
  else
    let jsonStr := Str.trim (Str.slice_from 6 line) in
    if String.eqb jsonStr "[DONE]" then None
    else
      match Json.parse jsonStr with
      | None => None
      | Some parsed =>
          match Chat.delta_of parsed with
          | None => None
          | Some delta =>
              let content := Js.opt_member delta "content" in
              if (Js.truthy content && Js.printable content)%bool then content else None
          end
      end.

Definition line_content (raw : string) : option json :=
  stripped_content (Chat.strip_cr raw).

Definition add_content (c : option json) (st : Chat.reader) : Chat.reader :=
  match c with
  | Some v => Chat.upsertAssistant (Js.to_string (Some v)) st
  | None => st
  end.

(** What [send] shows of a reader: the text so far and the messages. *)
Definition vis (st : Chat.reader) : string * list Chat.Msg :=
  (Chat.assistantSoFar st, Chat.messages st).

Lemma stripped_content_cr (y : string) : stripped_content (y ++ CR) = stripped_content y.
Proof.
  unfold stripped_content, Str.startsWith.
  rewrite !prefix_cr, trim_cr by reflexivity.
  destruct (String.prefix ":" y || Str.is_empty (Str.trim y))%bool; [reflexivity|].
  destruct (String.prefix "data: " y) eqn:P; [|reflexivity].
  cbn [negb].
  change 6 with (String.length "data: ").
  now rewrite (slice_past_prefix _ _ _ P), trim_cr.
Qed.

Lemma line_content_strip_cr (raw : string) :
  line_content (Chat.strip_cr raw) = line_content raw.
Proof.
  unfold line_content.
  destruct (strip_cr_cases raw) as [E|(y & -> & E)]; [now rewrite !E|].
  rewrite E.
  destruct (strip_cr_cases y) as [E'|(z & -> & E')]; rewrite E'; [reflexivity|].
  symmetry. apply stripped_content_cr.
Qed.

Lemma truthy_is_some (content : option json) :
  Js.truthy content = true -> exists v, content = Some v.
Proof. destruct content; [eauto | discriminate]. Qed.

Lemma flush_line_content (st : Chat.reader) (raw : string) :
  Chat.flush_line st raw = add_content (line_content raw) st.
Proof.
  unfold Chat.flush_line, line_content, stripped_content.
  destruct raw as [|c raw]; [reflexivity|]. cbn [Str.is_empty].
  set (line := Chat.strip_cr (String c raw)).
  destruct (Str.startsWith line ":" || Str.is_empty (Str.trim line))%bool; [reflexivity|].
  destruct (negb (Str.startsWith line "data: ")); [reflexivity|].
  cbv zeta.
  destruct (String.eqb (Str.trim (Str.slice_from 6 line)) "[DONE]"); [reflexivity|].
  destruct (Json.parse (Str.trim (Str.slice_from 6 line))) as [parsed|]; [|reflexivity].
  destruct (Chat.delta_of parsed) as [delta|]; [|reflexivity].
  destruct (Js.truthy (Js.opt_member delta "content")) eqn:T; [|reflexivity].
  destruct (truthy_is_some _ T) as [v ->]. cbn [andb].
  destruct (Js.printable (Some v)); reflexivity.
Qed.

Lemma vis_bump (st : Chat.reader) : vis (Chat.bump_refresh st) = vis st.
Proof. reflexivity. Qed.

Lemma vis_set_buffer (b : string) (st : Chat.reader) : vis (Chat.set_buffer b st) = vis st.
Proof. reflexivity. Qed.

Lemma vis_add_content (c : option json) (st st' : Chat.reader) :
  vis st = vis st' -> vis (add_content c st) = vis (add_content c st').
Proof.
  unfold vis. intros H. injection H as Ha Hm.
  destruct c as [v|]; simpl; now rewrite Ha, Hm.
Qed.

(** One turn of the inner loop: the line is handled, or it is left
    for later and gives nothing now. *)
Lemma on_line_content (line : string) (st : Chat.reader) :
  match Chat.on_line line st with
  | Chat.Continue st' =>
      Chat.textBuffer st' = Chat.textBuffer st
      /\ vis st' = vis (add_content (line_content line) st)
  | Chat.Break st' =>
      line_content line = None /\ vis st' = vis st
      /\ (Chat.textBuffer st' = Chat.textBuffer st
          \/ Chat.textBuffer st' = Chat.strip_cr line ++ Str.LF ++ Chat.textBuffer st)
  end.
Proof.
  unfold Chat.on_line, line_content, stripped_content.
  set (l := Chat.strip_cr line).
  destruct (Str.startsWith l ":" || Str.is_empty (Str.trim l))%bool; [now split|].
  destruct (negb (Str.startsWith l "data: ")); [now split|].
  cbv zeta.
  destruct (String.eqb (Str.trim (Str.slice_from 6 l)) "[DONE]"); [now auto|].
  destruct (Json.parse (Str.trim (Str.slice_from 6 l))) as [parsed|]; [|now auto].
  destruct (Chat.delta_of parsed) as [delta|]; [|now auto].
  destruct (Js.truthy (Js.opt_member delta "content")) eqn:T.
  - destruct (truthy_is_some _ T) as [v ->]. cbn [andb].
    destruct (Js.printable (Some v)); cbn [negb]; [|now auto].
    destruct (Js.truthy (Js.opt_member delta "tool_calls")); now split.
  - cbn [andb].
    destruct (Js.truthy (Js.opt_member delta "tool_calls")); now split.
Qed.

(** *** The lines of a text *)

Definition contents (s : string) : list (option json) :=
  map line_content (Str.split_lines s).

Definition add_all (cs : list (option json)) (st : Chat.reader) : Chat.reader :=
  fold_left (fun st c => add_content c st) cs st.

Lemma vis_add_all (cs : list (option json)) (st st' : Chat.reader) :
  vis st = vis st' -> vis (add_all cs st) = vis (add_all cs st').
Proof.
  revert st st'. induction cs as [|c cs IH]; intros st st' H; [exact H|].
  apply IH. now apply vis_add_content.
Qed.

Lemma split_lines_first (l r : string) :
  has_lf l = false -> Str.split_lines (l ++ String Str.lf r) = l :: Str.split_lines r.
Proof.
  induction l as [|c l IH]; intros H.
  - reflexivity.
  - simpl in H. apply orb_false_iff in H as [Hc Hl].
    cbn [append Str.split_lines]. rewrite Hc, (IH Hl). reflexivity.
Qed.

Lemma cut_line_spec (s l r : string) :
  Str.cut_line s = Some (l, r) -> s = l ++ String Str.lf r /\ has_lf l = false.
Proof.
  revert l. induction s as [|c s IH]; intros l H; [discriminate|]. simpl in H.
  destruct (Ascii.eqb_spec c Str.lf) as [->|N].
  - injection H as <- <-. now split.
  - destruct (Str.cut_line s) as [[l' r']|]; [|discriminate].
    injection H as <- <-. destruct (IH l' eq_refl) as [-> Hl]. split; [reflexivity|].
    simpl. rewrite Hl, orb_false_r. now apply Ascii.eqb_neq.
Qed.

Lemma contents_first (l r : string) :
  has_lf l = false -> contents (l ++ String Str.lf r) = line_content l :: contents r.
Proof. intros H. unfold contents. now rewrite split_lines_first. Qed.

(** The inner loop leaves to be given what the lines of the buffer,
    and of any text to come, give. *)
Lemma drain_contents (n : nat) (st st' : Chat.reader) (rest : string) :
  Chat.drain n st = Some st' ->
  vis (add_all (contents (Chat.textBuffer st' ++ rest)) st')
  = vis (add_all (contents (Chat.textBuffer st ++ rest)) st).
Proof.
  revert st. induction n as [|n IH]; intros st H; [discriminate|].
  cbn [Chat.drain] in H.
  destruct (Str.cut_line (Chat.textBuffer st)) as [[line b]|] eqn:E.
  2:{ now injection H as <-. }
  apply cut_line_spec in E as [E Hl]. rewrite E, append_assoc.
  cbn [append]. rewrite (contents_first _ _ Hl).
  pose proof (on_line_content line (Chat.set_buffer b st)) as L.
  destruct (Chat.on_line line (Chat.set_buffer b st)) as [st1|st1].
  - destruct L as [Lb Lv]. rewrite (IH _ H), Lb.
    cbn [Chat.set_buffer Chat.textBuffer add_all fold_left].
    apply vis_add_all. rewrite Lv. now apply vis_add_content.
  - injection H as <-. destruct L as (Lc & Lv & [Lb|Lb]); rewrite Lb, Lc.
    + cbn [Chat.set_buffer Chat.textBuffer add_all fold_left add_content].
      now apply vis_add_all.
    + cbn [Chat.set_buffer Chat.textBuffer]. unfold Str.LF.
      rewrite !append_assoc. cbn [append].
      rewrite (contents_first _ _ (strip_cr_no_lf _ Hl)), line_content_strip_cr, Lc.
      cbn [add_all fold_left add_content]. now apply vis_add_all.
Qed.

Lemma on_chunk_contents (text rest : string) (st st' : Chat.reader) :
  Chat.on_chunk text st = Some st' ->
  vis (add_all (contents (Chat.textBuffer st' ++ rest)) st')
  = vis (add_all (contents (Chat.textBuffer st ++ text ++ rest)) st).
Proof.
  unfold Chat.on_chunk. intros H.
  rewrite (drain_contents _ _ _ rest H).
  cbn [Chat.set_buffer Chat.textBuffer]. rewrite append_assoc.
  now apply vis_add_all.
Qed.

(** The text the decoder has given when the stream ends. *)
Fixpoint decoded (decoder : Str.decoder) (values : list string) : string :=
  match values with
  | [] => EmptyString
  | value :: later =>
      let (text, decoder') := Str.decode decoder value in
      text ++ decoded decoder' later
  end.

(** The same of a decoder that leaves every character in: one that
    has decoded a character already. *)
Fixpoint passed (kept : string) (values : list string) : string :=
  match values with
  | [] => EmptyString
  | value :: later =>
      let (text, kept') := Str.decode_stream (kept ++ value) in
      text ++ passed kept' later
  end.

Lemma read_all_contents (values : list string) :
  forall (decoder : Str.decoder) (st st' : Chat.reader),
    Chat.read_all decoder values st = Some st' ->
    vis (add_all (contents (Chat.textBuffer st')) st')
    = vis (add_all (contents (Chat.textBuffer st ++ decoded decoder values)) st).
Proof.
  induction values as [|v later IH]; intros decoder st st' H.
  - injection H as <-. cbn [decoded]. now rewrite append_nil_r.
  - cbn [Chat.read_all decoded] in *.
    destruct (Str.decode decoder v) as [text decoder'].
    destruct (Chat.on_chunk text st) as [st1|] eqn:C; [|discriminate].
    rewrite (IH _ _ _ H). now apply on_chunk_contents.
Qed.

(** *** A buffer of white space *)

(** A text made of white space only. *)
Inductive blank : string -> Prop :=
| blank_nil : blank EmptyString
| blank_cons (p s : string) : In p Str.white_space -> blank s -> blank (p ++ s).

Ltac each_white_space H :=
  vm_compute in H;
  repeat (destruct H as [H|H]; [symmetry in H; subst|]); [..|contradiction].

Lemma strip_one_white (p s : string) :
  In p Str.white_space -> Str.strip_one Str.white_space (p ++ s) = Some s.
Proof. intros H. each_white_space H; reflexivity. Qed.

Lemma white_space_lf (p : string) :
  In p Str.white_space -> p = Str.LF \/ has_lf p = false.
Proof. intros H. each_white_space H; auto. Qed.

Lemma white_space_ends_cr (p y : string) :
  In p Str.white_space -> p = y ++ CR -> y = EmptyString.
Proof.
  intros H E. apply (f_equal Str.rev) in E. rewrite rev_append in E.
  each_white_space H; try discriminate E.
  injection E as E. rewrite <- (rev_involutive y), <- E. reflexivity.
Qed.

Lemma blank_app (a b : string) : blank a -> blank b -> blank (a ++ b).
Proof.
  induction 1 as [|p s Hp Hs IH]; intros Hb; [exact Hb|].
  rewrite append_assoc. apply blank_cons; auto.
Qed.

Lemma blank_one (p : string) : In p Str.white_space -> blank p.
Proof. intros H. rewrite <- (append_nil_r p). apply blank_cons; [exact H | constructor]. Qed.

Lemma stripped_to_nothing (n : nat) (s : string) :
  Str.strip_many n Str.white_space s = EmptyString -> blank s.
Proof.
  revert s. induction n as [|n IH]; intros s H; cbn [Str.strip_many] in H.
  - subst s. constructor.
  - destruct (Str.strip_one Str.white_space s) as [r|] eqn:E.
    + destruct (strip_one_spec _ _ _ E) as (p & Hp & ->). apply blank_cons; auto.
    + subst s. constructor.
Qed.

Lemma stripped_to_nothing_rev (n : nat) (s : string) :
  Str.strip_many n (map Str.rev Str.white_space) s = EmptyString -> blank (Str.rev s).
Proof.
  revert s. induction n as [|n IH]; intros s H; cbn [Str.strip_many] in H.
  - subst s. constructor.
  - destruct (Str.strip_one (map Str.rev Str.white_space) s) as [r|] eqn:E.
    + destruct (strip_one_spec _ _ _ E) as (q & Hq & ->).
      apply in_map_iff in Hq as (p & <- & Hp).
      rewrite rev_append, rev_involutive.
      apply blank_app; [now apply IH | now apply blank_one].
    + subst s. constructor.
Qed.

Lemma rev_nil (s : string) : Str.rev s = EmptyString -> s = EmptyString.
Proof. intros H. now rewrite <- (rev_involutive s), H. Qed.

Lemma trim_nothing_blank (s : string) : Str.trim s = EmptyString -> blank s.
Proof.
  unfold Str.trim, Str.trimEnd. intros H. apply rev_nil in H.
  apply stripped_to_nothing_rev in H. rewrite rev_involutive in H.
  assert (S : Str.strip_one Str.white_space (Str.trimStart s) = None)
    by (apply strip_many_stops; [exact white_space_cr_first | lia]).
  remember (Str.trimStart s) as x eqn:X.
  destruct H as [|p t Hp _].
  - symmetry in X. now apply (stripped_to_nothing (String.length s)).
  - rewrite (strip_one_white _ _ Hp) in S. discriminate.
Qed.

Lemma blank_trim (s : string) : blank s -> Str.trim s = EmptyString.
Proof.
  intros H.
  assert (E : forall n, String.length s <= n ->
                        Str.strip_many n Str.white_space s = EmptyString).
  { induction H as [|p s Hp Hs IH]; intros n Hn.
    - destruct n; reflexivity.
    - pose proof (pattern_not_empty _ white_space_cr_first _ Hp) as Np.
      rewrite length_append in Hn.
      destruct n as [|n]; [destruct p; [contradiction | simpl in Hn; lia]|].
      cbn [Str.strip_many]. rewrite (strip_one_white _ _ Hp). apply IH.
      destruct p; [contradiction | simpl in Hn; lia]. }
  unfold Str.trim, Str.trimStart. now rewrite E.
Qed.

Lemma split_lines_cons (s : string) : exists l ls, Str.split_lines s = l :: ls.
Proof.
  induction s as [|c s (l & ls & E)]; simpl; [eauto|].
  destruct (Ascii.eqb c Str.lf); [eauto|]. rewrite E. eauto.
Qed.

Lemma split_lines_prepend (p s l : string) (ls : list string) :
  has_lf p = false -> Str.split_lines s = l :: ls ->
  Str.split_lines (p ++ s) = (p ++ l) :: ls.
Proof.
  induction p as [|c p IH]; intros Hp E; [exact E|].
  simpl in Hp. apply orb_false_iff in Hp as [Hc Hp].
  cbn [append Str.split_lines]. now rewrite Hc, (IH Hp E).
Qed.

Lemma blank_lines (s : string) : blank s -> Forall blank (Str.split_lines s).
Proof.
  induction 1 as [|p s Hp Hs IH].
  - repeat constructor.
  - destruct (white_space_lf _ Hp) as [->|Hl].
    + cbn. constructor; [constructor | exact IH].
    + destruct (split_lines_cons s) as (l & ls & E).
      rewrite (split_lines_prepend _ _ _ _ Hl E). rewrite E in IH.
      inversion IH; subst. constructor; [now apply blank_cons | assumption].
Qed.

Lemma ends_with_cr (p s y : string) :
  s <> EmptyString -> p ++ s = y ++ CR -> exists z, s = z ++ CR /\ y = p ++ z.
Proof.
  intros Hs E. apply (f_equal Str.rev) in E. rewrite !rev_append in E.
  destruct (Str.rev s) as [|c t] eqn:R.
  - apply rev_nil in R. contradiction.
  - simpl in E. injection E as -> E. exists (Str.rev t). split.
    + rewrite <- (rev_involutive s), R. reflexivity.
    + rewrite <- (rev_involutive y), <- E, rev_append, rev_involutive. reflexivity.
Qed.

Lemma blank_before_cr (s : string) : blank s -> forall y, s = y ++ CR -> blank y.
Proof.
  induction 1 as [|p s Hp Hs IH]; intros y E.
  - destruct y; discriminate.
  - destruct s as [|c s].
    + rewrite append_nil_r in E. rewrite (white_space_ends_cr _ _ Hp E). constructor.
    + destruct (ends_with_cr p (String c s) y) as (z & Ez & ->); [discriminate | exact E |].
      apply blank_cons; [exact Hp | now apply IH].
Qed.

Lemma blank_line_content (l : string) : blank l -> line_content l = None.
Proof.
  intros H. unfold line_content, stripped_content.
  assert (B : blank (Chat.strip_cr l)).
  { destruct (strip_cr_cases l) as [->|(y & E & ->)]; [exact H|].
    now apply (blank_before_cr l). }
  rewrite (blank_trim _ B). cbn [Str.is_empty]. now rewrite orb_true_r.
Qed.

Lemma add_all_nothing (cs : list (option json)) (st : Chat.reader) :
  Forall (fun c => c = None) cs -> add_all cs st = st.
Proof. induction 1 as [|c cs -> _ IH]; [reflexivity | exact IH]. Qed.

Lemma fold_flush_line (ls : list string) (st : Chat.reader) :
  fold_left Chat.flush_line ls st = add_all (map line_content ls) st.
Proof.
  revert st. induction ls as [|l ls IH]; intros st; [reflexivity|].
  cbn [fold_left map add_all]. now rewrite flush_line_content, IH.
Qed.

(** The flush gives what the lines left in the buffer give. *)
Lemma flush_contents (st : Chat.reader) :
  Chat.flush st = add_all (contents (Chat.textBuffer st)) st.
Proof.
  unfold Chat.flush, contents.
  destruct (Str.trim (Chat.textBuffer st)) as [|c t] eqn:T; cbn [Str.is_empty].
  - symmetry. apply add_all_nothing, Forall_map.
    apply trim_nothing_blank, blank_lines in T.
    eapply Forall_impl; [|exact T]. apply blank_line_content.
  - apply fold_flush_line.
Qed.

(** The reader gives what the lines of the decoded text give, each
    handled once and in order, however the stream was cut. *)
Lemma read_stream_contents (prev : list Chat.Msg) (values : list string) :
  exists o,
    Chat.read_stream prev values = Some o
    /\ vis (Chat.final o)
       = vis (add_all (contents (decoded Str.new_decoder values))
                (Chat.mkReader EmptyString EmptyString prev 0))
    /\ Chat.saved o
       = if Str.is_empty (Chat.assistantSoFar (Chat.final o)) then None
         else Some (Chat.mkMsg Chat.assistant (Chat.assistantSoFar (Chat.final o))).
Proof.
  unfold Chat.read_stream.
  destruct (read_all_total values Str.new_decoder
              (Chat.mkReader EmptyString EmptyString prev 0)) as [st R].
  rewrite R. eexists. split; [reflexivity|].
  apply read_all_contents in R. cbn [Chat.textBuffer append] in R.
  unfold Chat.finish. rewrite <- R, <- flush_contents.
  destruct (Str.is_empty (Chat.assistantSoFar (Chat.flush st))) eqn:E;
    cbn [Chat.final Chat.saved]; rewrite ?vis_bump; cbn [Chat.bump_refresh Chat.assistantSoFar];
    rewrite ?E; auto.
Qed.

(** *** The decoder, whatever the cut *)

Lemma lead_not_continuation (c : ascii) :
  Str.lead_needs c <> 0 -> Str.is_continuation c = false.
Proof. each_ascii c; intros H; first [reflexivity | exfalso; apply H; reflexivity]. Qed.

Ltac classify a :=
  let H := fresh in
  let E1 := fresh "L" in
  let E2 := fresh "K" in
  pose proof (lead_not_continuation a) as H;
  destruct (Str.lead_needs a) as [|[|[|?]]] eqn:E1;
  destruct (Str.is_continuation a) eqn:E2;
  try (exfalso; try rewrite E1 in H; try rewrite E2 in H;
       specialize (H ltac:(discriminate)); discriminate H);
  clear H.

Lemma cut_length_le (r : string) : Str.cut_length r <= String.length r.
Proof.
  destruct r as [|a1 [|a2 [|a3 r]]]; cbn [Str.cut_length String.length];
    repeat match goal with
           | |- context [if ?b then _ else _] => destruct b
           end; lia.
Qed.

(** What the decoder keeps depends on the last bytes only, and these
    are among the bytes it kept before and the new ones. *)
Lemma cut_length_kept (rb ra : string) :
  Str.cut_length (rb ++ Str.take (Str.cut_length ra) ra) = Str.cut_length (rb ++ ra).
Proof.
  destruct rb as [|b1 [|b2 [|b3 rb]]]; [| | |reflexivity];
    destruct ra as [|a1 [|a2 [|a3 ra]]]; try reflexivity;
    cbn [append]; unfold Str.cut_length;
    repeat (cbn [Str.take append Nat.ltb Nat.leb];
            match goal with
            | E : Str.lead_needs ?a = _ |- context [Str.lead_needs ?a] => rewrite E
            | E : Str.is_continuation ?a = _ |- context [Str.is_continuation ?a] =>
                rewrite E
            | |- context [Str.lead_needs ?a] => is_var a; classify a
            end);
    reflexivity.
Qed.

Lemma take_within (n : nat) (x y : string) :
  n <= String.length x -> Str.take n (x ++ y) = Str.take n x.
Proof.
  revert x. induction n as [|n IH]; intros x H; [reflexivity|].
  destruct x as [|c x]; [simpl in H; lia|]. simpl. rewrite IH; [reflexivity|].
  simpl in H. lia.
Qed.

Lemma decode_kept_again (a b : string) :
  snd (Str.decode_stream (snd (Str.decode_stream a) ++ b))
  = snd (Str.decode_stream (a ++ b)).
Proof.
  unfold Str.decode_stream. cbn [snd].
  rewrite !rev_append, rev_involutive, cut_length_kept.
  f_equal.
  set (n := Str.cut_length (Str.rev a)).
  replace (Str.rev b ++ Str.rev a)
    with ((Str.rev b ++ Str.take n (Str.rev a)) ++ Str.slice_from n (Str.rev a)) at 3
    by (now rewrite append_assoc, take_slice).
  symmetry. apply take_within.
  unfold n. rewrite <- cut_length_kept. apply cut_length_le.
Qed.

Lemma decode_stream_pair (bytes : string) :
  fst (Str.decode_stream bytes) ++ snd (Str.decode_stream bytes) = bytes.
Proof.
  destruct (Str.decode_stream bytes) as [t k] eqn:E.
  now apply decode_stream_keeps in E as [E _].
Qed.

Lemma passed_after (values : list string) (seen : string) :
  fst (Str.decode_stream seen) ++ passed (snd (Str.decode_stream seen)) values
  = fst (Str.decode_stream (seen ++ String.concat EmptyString values)).
Proof.
  revert seen. induction values as [|v later IH]; intros seen.
  - cbn [passed String.concat]. now rewrite !append_nil_r.
  - rewrite concat_cons, <- append_assoc, <- IH, <- decode_kept_again.
    cbn [passed].
    destruct (Str.decode_stream (snd (Str.decode_stream seen) ++ v)) as [text kept'] eqn:D.
    cbn [snd]. rewrite <- append_assoc. f_equal.
    apply (append_cancel_r kept').
    assert (K : kept' = snd (Str.decode_stream (seen ++ v)))
      by (now rewrite <- decode_kept_again, D).
    rewrite K at 2. rewrite decode_stream_pair, append_assoc.
    apply decode_stream_keeps in D as [-> _].
    now rewrite <- append_assoc, decode_stream_pair.
Qed.

Lemma passed_whole (values : list string) :
  passed EmptyString values
  = fst (Str.decode_stream (String.concat EmptyString values)).
Proof. exact (passed_after values EmptyString). Qed.

Lemma decoded_started (values : list string) (kept : string) :
  decoded (Str.mkDecoder kept true) values = passed kept values.
Proof.
  revert kept. induction values as [|v later IH]; intros kept; [reflexivity|].
  cbn [decoded passed]. rewrite decode_started.
  destruct (Str.decode_stream (kept ++ v)) as [text kept']. cbn [fst snd].
  now rewrite IH.
Qed.

(** The bytes the decoder keeps begin a character. *)
Lemma kept_begins_a_character (bytes : string) (c : ascii) (k : string) :
  snd (Str.decode_stream bytes) = String c k -> Str.is_continuation c = false.
Proof.
  unfold Str.decode_stream. cbn [snd].
  destruct (Str.rev bytes) as [|a1 [|a2 [|a3 r]]]; unfold Str.cut_length;
    repeat (cbn [Str.take Str.rev append Nat.ltb Nat.leb];
            match goal with
            | E : Str.lead_needs ?a = _ |- context [Str.lead_needs ?a] => rewrite E
            | E : Str.is_continuation ?a = _ |- context [Str.is_continuation ?a] =>
                rewrite E
            | |- context [Str.lead_needs ?a] => is_var a; classify a
            end);
    cbn [Str.take Str.rev append]; intros H; try discriminate H;
    injection H as <- _; assumption.
Qed.

(** What was decoded begins with what the decoder kept, when it
    kept something. *)
Lemma passed_begins (values : list string) :
  forall (kept : string) (c : ascii) (x : string),
    passed kept values = String c x ->
    exists r, kept ++ String.concat EmptyString values = String c r.
Proof.
  induction values as [|v later IH]; intros kept c x H; [discriminate|].
  cbn [passed] in H. rewrite concat_cons, <- append_assoc.
  destruct (Str.decode_stream (kept ++ v)) as [text kept'] eqn:D.
  apply decode_stream_keeps in D as [<- _].
  destruct text as [|a text].
  - cbn [append] in *. exact (IH _ _ _ H).
  - injection H as -> _. cbn [append]. eauto.
Qed.

Definition second_mark_byte : ascii := "187"%char.
Definition third_mark_byte : ascii := "191"%char.

Lemma BOM_bytes :
  Str.BOM = String mark_byte (String second_mark_byte (String third_mark_byte EmptyString)).
Proof. reflexivity. Qed.

Lemma mark_bytes_continue :
  Str.is_continuation second_mark_byte = true
  /\ Str.is_continuation third_mark_byte = true.
Proof. split; reflexivity. Qed.

(** A text of one or two bytes of the mark is never decoded alone. *)
Lemma mark_is_not_cut (bytes kept : string) (c : ascii) (x : string) :
  Str.decode_stream bytes
  = (String mark_byte EmptyString, kept)
  \/ Str.decode_stream bytes
     = (String mark_byte (String second_mark_byte EmptyString), kept) ->
  forall later, passed kept later = String c x -> Str.is_continuation c = false.
Proof.
  intros D later X. destruct kept as [|c0 k0].
  - exfalso. destruct D as [D|D];
      destruct (decode_stream_keeps _ _ _ D) as [<- _]; vm_compute in D; discriminate D.
  - destruct (passed_begins later _ _ _ X) as [r R]. injection R as <- _.
    apply (kept_begins_a_character bytes c0 k0). now destruct D as [-> | ->].
Qed.

(** The first text the decoder gives is no part of a mark cut short:
    the mark is taken off it, or the stream has no mark. *)
Lemma unmarked_first_text (bytes text kept : string) (later : list string) :
  Str.decode_stream bytes = (text, kept) -> text <> EmptyString ->
  Str.unmarked (text ++ passed kept later) = Str.unmarked text ++ passed kept later.
Proof.
  intros D N. destruct mark_bytes_continue as [M2 M3].
  destruct text as [|c1 [|c2 [|c3 text]]]; [contradiction| | |].
  - destruct (Ascii.eqb_spec mark_byte c1) as [<-|M].
    2:{ cbn [append]. rewrite !unmarked_other by congruence. reflexivity. }
    destruct (passed kept later) as [|c x] eqn:X; [reflexivity|].
    pose proof (mark_is_not_cut _ _ _ _ (or_introl D) later X) as C.
    unfold Str.unmarked. rewrite BOM_bytes. cbn [append Str.strip_prefix].
    rewrite Ascii.eqb_refl.
    destruct (Ascii.eqb_spec second_mark_byte c) as [<-|_]; [congruence | reflexivity].
  - destruct (Ascii.eqb_spec mark_byte c1) as [<-|M].
    2:{ cbn [append]. rewrite !unmarked_other by congruence. reflexivity. }
    unfold Str.unmarked. rewrite BOM_bytes. cbn [append Str.strip_prefix].
    rewrite Ascii.eqb_refl.
    destruct (Ascii.eqb_spec second_mark_byte c2) as [<-|_]; [|reflexivity].
    destruct (passed kept later) as [|c x] eqn:X; [reflexivity|].
    pose proof (mark_is_not_cut _ _ _ _ (or_intror D) later X) as C.
    cbn [append Str.strip_prefix].
    destruct (Ascii.eqb_spec third_mark_byte c) as [<-|_]; [congruence | reflexivity].
  - unfold Str.unmarked. rewrite BOM_bytes. cbn [append Str.strip_prefix].
    destruct (Ascii.eqb mark_byte c1); [|reflexivity].
    destruct (Ascii.eqb second_mark_byte c2); [|reflexivity].
    destruct (Ascii.eqb third_mark_byte c3); reflexivity.
Qed.

Lemma decoded_unmarked (values : list string) (kept : string) :
  decoded (Str.mkDecoder kept false) values = Str.unmarked (passed kept values).
Proof.
  revert kept. induction values as [|v later IH]; intros kept; [reflexivity|].
  cbn [decoded passed]. unfold Str.decode. cbn [Str.kept Str.started orb].
  destruct (Str.decode_stream (kept ++ v)) as [text kept'] eqn:D.
  destruct text as [|c text].
  - cbn [Str.is_empty append]. apply IH.
  - cbn [Str.is_empty]. rewrite decoded_started.
    symmetry. apply (unmarked_first_text _ _ _ later D). discriminate.
Qed.

(** The text decoded by the end of the stream is that of the bytes
    received, in however many reads they came, without the byte order
    mark the stream begins with. *)
Lemma decoded_whole (values : list string) :
  decoded Str.new_decoder values
  = Str.unmarked (fst (Str.decode_stream (String.concat EmptyString values))).
Proof. unfold Str.new_decoder. now rewrite decoded_unmarked, passed_whole. Qed.

(** The text the page has of the bytes of a stream. *)
Definition received_text (bytes : string) : string :=
  Str.unmarked (fst (Str.decode_stream bytes)).

(** *** What the reader shows *)

Lemma read_stream_whole (prev : list Chat.Msg) (values : list string) :
  exists o,
    Chat.read_stream prev values = Some o
    /\ vis (Chat.final o)
       = vis (add_all (contents (received_text (String.concat EmptyString values)))
                (Chat.mkReader EmptyString EmptyString prev 0))
    /\ Chat.saved o
       = if Str.is_empty (Chat.assistantSoFar (Chat.final o)) then None
         else Some (Chat.mkMsg Chat.assistant (Chat.assistantSoFar (Chat.final o))).
Proof. unfold received_text. rewrite <- decoded_whole. apply read_stream_contents. Qed.

Lemma vis_fields (st st' : Chat.reader) :
  vis st = vis st' ->
  Chat.assistantSoFar st = Chat.assistantSoFar st' /\ Chat.messages st = Chat.messages st'.
Proof. unfold vis. intros H. now injection H. Qed.

(** Two streams that end with the same content for every line end
    the same way. *)
Lemma same_contents_same_end (prev : list Chat.Msg) (values values' : list string) :
  add_all (contents (received_text (String.concat EmptyString values)))
    (Chat.mkReader EmptyString EmptyString prev 0)
  = add_all (contents (received_text (String.concat EmptyString values')))
      (Chat.mkReader EmptyString EmptyString prev 0) ->
  exists o o',
    Chat.read_stream prev values = Some o
    /\ Chat.read_stream prev values' = Some o'
    /\ Chat.assistantSoFar (Chat.final o) = Chat.assistantSoFar (Chat.final o')
    /\ Chat.messages (Chat.final o) = Chat.messages (Chat.final o')
    /\ Chat.saved o = Chat.saved o'.
Proof.
  intros E.
  destruct (read_stream_whole prev values) as (o & R & V & S).
  destruct (read_stream_whole prev values') as (o' & R' & V' & S').
  exists o, o'. rewrite E, <- V' in V. apply vis_fields in V as [Va Vm].
  rewrite S, S', Va. auto.
Qed.

(** X1.  What [send] reads off a response does not depend on how the
    network cuts it: two sequences of reads that carry the same bytes
    leave the same accumulated text, the same messages on the screen and
    the same row to save. *)
Theorem reading_ignores_the_cut
  (prev : list Chat.Msg) (values values' : list string) :
  String.concat EmptyString values = String.concat EmptyString values' ->
  exists o o',
    Chat.read_stream prev values = Some o
    /\ Chat.read_stream prev values' = Some o'
    /\ Chat.assistantSoFar (Chat.final o) = Chat.assistantSoFar (Chat.final o')
    /\ Chat.messages (Chat.final o) = Chat.messages (Chat.final o')
    /\ Chat.saved o = Chat.saved o'.
Proof. intros E. apply same_contents_same_end. now rewrite E. Qed.

(** A stream of two events and a comment, with a line that is not
    JSON, a character of three bytes and no line feed at its end. *)
Definition mixed_stream : string :=
  "data: " ++ Json.stringify (Sse.delta_event "Bought ") ++ Str.LF
  ++ ": ping" ++ String Str.cr Str.LF
  ++ "data: {oops" ++ Str.LF
  ++ "data: [DONE]" ++ Str.LF
  ++ "data: " ++ Json.stringify (Sse.delta_event (String "226" (String "156" (String "147" " milk")))).

Lemma reading_ignores_the_cut_witness :
  exists o o',
    Chat.read_stream [Chat.mkMsg Chat.user "buy milk"]
      [String.substring 0 20 mixed_stream; String.substring 20 105 mixed_stream;
       String.substring 125 200 mixed_stream] = Some o
    /\ Chat.read_stream [Chat.mkMsg Chat.user "buy milk"] [mixed_stream] = Some o'
    /\ Chat.assistantSoFar (Chat.final o) = Chat.assistantSoFar (Chat.final o')
    /\ Chat.messages (Chat.final o) = Chat.messages (Chat.final o')
    /\ Chat.saved o = Chat.saved o'.
Proof.
  apply (reading_ignores_the_cut [Chat.mkMsg Chat.user "buy milk"]
           [String.substring 0 20 mixed_stream; String.substring 20 105 mixed_stream;
            String.substring 125 200 mixed_stream] [mixed_stream]).
  vm_compute. reflexivity.
Defined.

Example mixed_stream_is_read :
  String.length mixed_stream = 137
  /\ option_map (fun o => Chat.assistantSoFar (Chat.final o))
       (Chat.read_stream [Chat.mkMsg Chat.user "buy milk"]
          [String.substring 0 20 mixed_stream; String.substring 20 105 mixed_stream;
           String.substring 125 200 mixed_stream])
     = Some ("Bought " ++ String "226" (String "156" (String "147" " milk"))).
Proof. vm_compute. split; reflexivity. Qed.

Lemma split_lines_app (b t : string) :
  Str.split_lines (b ++ String Str.lf t) = (Str.split_lines b ++ Str.split_lines t)%list.
Proof.
  induction b as [|c b IH]; [reflexivity|].
  cbn [append Str.split_lines]. rewrite IH.
  destruct (Ascii.eqb c Str.lf); [reflexivity|].
  destruct (split_lines_cons b) as (l & ls & ->). reflexivity.
Qed.

Lemma slice_within (n : nat) (x y : string) :
  n <= String.length x -> Str.slice_from n (x ++ y) = Str.slice_from n x ++ y.
Proof.
  revert x. induction n as [|n IH]; intros x H; [reflexivity|].
  destruct x as [|c x]; [simpl in H; lia|]. simpl. apply IH. simpl in H. lia.
Qed.

Lemma cut_length_lf (rr t : string) :
  Str.cut_length (rr ++ String Str.lf t) = Str.cut_length rr.
Proof.
  destruct rr as [|a1 [|a2 [|a3 rr]]]; try reflexivity;
    cbn [append]; unfold Str.cut_length;
    change (Str.lead_needs Str.lf) with 0;
    change (Str.is_continuation Str.lf) with false;
    repeat (cbn [Nat.ltb Nat.leb];
            match goal with
            | |- context [Str.lead_needs ?a] => is_var a; classify a
            end);
    reflexivity.
Qed.

(** A line feed is a character of its own: what comes before it is
    decoded whatever follows. *)
Lemma decode_after_lf (p rest : string) :
  fst (Str.decode_stream (p ++ String Str.lf rest))
  = p ++ String Str.lf (fst (Str.decode_stream rest)).
Proof.
  unfold Str.decode_stream. cbn [fst].
  rewrite rev_append. cbn [Str.rev]. rewrite append_assoc. cbn [append].
  rewrite cut_length_lf, slice_within by apply cut_length_le.
  rewrite rev_append. cbn [Str.rev]. rewrite rev_involutive, append_assoc. reflexivity.
Qed.

Lemma add_all_app (xs ys : list (option json)) (st : Chat.reader) :
  add_all (xs ++ ys) st = add_all ys (add_all xs st).
Proof. apply fold_left_app. Qed.

Lemma append_cons (c : ascii) (a b : string) : String c a ++ b = String c (a ++ b).
Proof. reflexivity. Qed.

Lemma done_contents (t : string) :
  contents ("data: [DONE]" ++ String Str.lf t) = None :: contents t.
Proof. unfold contents. now rewrite split_lines_first by reflexivity. Qed.

Lemma unmarked_before_lf (b x : string) :
  Str.unmarked (b ++ String Str.lf x) = Str.unmarked b ++ String Str.lf x.
Proof.
  unfold Str.unmarked. rewrite BOM_bytes.
  destruct b as [|c1 [|c2 [|c3 b]]]; cbn [append Str.strip_prefix];
    repeat match goal with
           | |- context [Ascii.eqb ?a ?c] =>
               destruct (Ascii.eqb_spec a c) as [E|_];
               [try discriminate E; subst|try reflexivity]
           end; reflexivity.
Qed.

(** A text that begins a stream with no mark has no mark. *)
Lemma unmarked_beginning (text rest : string) :
  (forall r, text ++ rest <> Str.BOM ++ r) -> Str.unmarked text = text.
Proof.
  intros H. unfold Str.unmarked.
  destruct (Str.strip_prefix Str.BOM text) as [r|] eqn:E; [|reflexivity].
  exfalso. apply (H (r ++ rest)).
  now rewrite (strip_prefix_spec _ _ _ E), append_assoc.
Qed.

(** X2.  A [DONE] line does not end the reading and is not needed
    for it: a stream with such a line, at its start or after a line
    feed, is read as the stream without the line is, the events that
    follow the line included.  When the line opens the stream, what
    follows it is taken not to begin with a byte order mark, which the
    decoder drops only at the start of a stream. *)
Theorem done_line_is_skipped
  (prev : list Chat.Msg) (before after : string) (values values' : list string) :
  before = EmptyString \/ (exists b, before = b ++ Str.LF) ->
  (before = EmptyString -> forall r, after <> Str.BOM ++ r) ->
  String.concat EmptyString values = before ++ "data: [DONE]" ++ Str.LF ++ after ->
  String.concat EmptyString values' = before ++ after ->
  exists o o',
    Chat.read_stream prev values = Some o
    /\ Chat.read_stream prev values' = Some o'
    /\ Chat.assistantSoFar (Chat.final o) = Chat.assistantSoFar (Chat.final o')
    /\ Chat.messages (Chat.final o) = Chat.messages (Chat.final o')
    /\ Chat.saved o = Chat.saved o'.
Proof.
  intros B M E E'. apply same_contents_same_end. rewrite E, E'. clear E E'.
  unfold received_text. destruct B as [->|[b ->]]; unfold Str.LF.
  - specialize (M eq_refl).
    change (EmptyString ++ "data: [DONE]" ++ String Str.lf EmptyString ++ after)
      with ("data: [DONE]" ++ String Str.lf after).
    change (EmptyString ++ after) with after.
    rewrite decode_after_lf.
    rewrite (unmarked_beginning (fst (Str.decode_stream after))
               (snd (Str.decode_stream after)))
      by (now rewrite decode_stream_pair).
    change ("data: [DONE]" ++ String Str.lf (fst (Str.decode_stream after)))
      with (String "d" ("ata: [DONE]" ++ String Str.lf (fst (Str.decode_stream after)))).
    rewrite unmarked_other by discriminate.
    change (String "d" ("ata: [DONE]" ++ String Str.lf (fst (Str.decode_stream after))))
      with ("data: [DONE]" ++ String Str.lf (fst (Str.decode_stream after))).
    rewrite done_contents. reflexivity.
  - replace ((b ++ String Str.lf EmptyString)
             ++ "data: [DONE]" ++ String Str.lf EmptyString ++ after)
      with ((b ++ String Str.lf "data: [DONE]") ++ String Str.lf after)
      by (now rewrite !append_assoc).
    replace ((b ++ String Str.lf EmptyString) ++ after) with (b ++ String Str.lf after)
      by (now rewrite append_assoc).
    rewrite !decode_after_lf, append_assoc, append_cons, !unmarked_before_lf.
    unfold contents.
    rewrite !split_lines_app, !map_app, !add_all_app. reflexivity.
Qed.

Definition after_done : string :=
  "data: " ++ Json.stringify (Sse.delta_event "Bought ") ++ Str.LF.

Definition more_after_done : string :=
  "data: " ++ Json.stringify (Sse.delta_event "milk") ++ Str.LF.

Lemma done_line_is_skipped_witness :
  exists o o',
    Chat.read_stream [Chat.mkMsg Chat.user "buy milk"]
      [after_done ++ "data: [DONE]" ++ Str.LF; more_after_done] = Some o
    /\ Chat.read_stream [Chat.mkMsg Chat.user "buy milk"]
         [after_done ++ more_after_done] = Some o'
    /\ Chat.assistantSoFar (Chat.final o) = Chat.assistantSoFar (Chat.final o')
    /\ Chat.messages (Chat.final o) = Chat.messages (Chat.final o')
    /\ Chat.saved o = Chat.saved o'.
Proof.
  apply (done_line_is_skipped [Chat.mkMsg Chat.user "buy milk"]
           after_done more_after_done
           [after_done ++ "data: [DONE]" ++ Str.LF; more_after_done]
           [after_done ++ more_after_done]).
  - right. exists ("data: " ++ Json.stringify (Sse.delta_event "Bought ")). reflexivity.
  - intros E. vm_compute in E. discriminate E.
  - vm_compute. reflexivity.
  - vm_compute. reflexivity.
Defined.

(** A mark after a [DONE] line that opens the stream is a character
    of the line it begins, which is then no data line; without the
    [DONE] line the mark is dropped and the line is read. *)
Example mark_after_done_hides_the_line :
  option_map (fun o => Chat.assistantSoFar (Chat.final o))
    (Chat.read_stream [] ["data: [DONE]" ++ Str.LF ++ Str.BOM ++ more_after_done])
  = Some EmptyString
  /\ option_map (fun o => Chat.assistantSoFar (Chat.final o))
       (Chat.read_stream [] [Str.BOM ++ more_after_done])
     = Some "milk".
Proof. vm_compute. split; reflexivity. Qed.

Example text_after_done_is_shown :
  option_map (fun o => Chat.messages (Chat.final o))
    (Chat.read_stream [Chat.mkMsg Chat.user "buy milk"]
       [after_done ++ "data: [DONE]" ++ Str.LF; more_after_done])
  = Some [Chat.mkMsg Chat.user "buy milk"; Chat.mkMsg Chat.assistant "Bought milk"].
Proof. vm_compute. reflexivity. Qed.

(** The text a line gives: that of its content, or nothing. *)
Definition text_of_content (c : option json) : string :=
  match c with
  | Some v => Js.to_string (Some v)
  | None => EmptyString
  end.

Definition line_text (raw : string) : string := text_of_content (line_content raw).

Lemma add_all_text (cs : list (option json)) (st : Chat.reader) :
  Chat.assistantSoFar (add_all cs st)
  = Chat.assistantSoFar st ++ String.concat EmptyString (map text_of_content cs).
Proof.
  revert st. induction cs as [|c cs IH]; intros st.
  - cbn. now rewrite append_nil_r.
  - cbn [add_all fold_left map]. fold (add_all cs (add_content c st)).
    rewrite IH, concat_cons.
    destruct c as [v|]; [|reflexivity].
    cbn [add_content Chat.upsertAssistant Chat.assistantSoFar text_of_content].
    apply append_assoc.
Qed.

(** X3.  For a stream of well-formed UTF-8, the text [send]
    accumulates is, line by line of the text decoded (the bytes
    received, without a character cut by the end of the stream and
    without the byte order mark the stream begins with), the text of
    the content of each data line that is JSON with a truthy
    [choices[0].delta.content] that has a text, in order; comments,
    blank lines, lines that are no data line, [DONE] lines, lines that
    are not JSON and contents that have no text give nothing, and a
    last line with no line feed counts like the others. *)
Theorem answer_is_the_text_of_its_lines (prev : list Chat.Msg) (values : list string) :
  Str.well_formed (String.concat EmptyString values) = true ->
  exists o,
    Chat.read_stream prev values = Some o
    /\ Chat.assistantSoFar (Chat.final o)
       = String.concat EmptyString
           (map line_text
              (Str.split_lines
                 (Str.unmarked
                    (fst (Str.decode_stream (String.concat EmptyString values)))))).
Proof.
  intros _.
  destruct (read_stream_whole prev values) as (o & R & V & _).
  exists o. split; [exact R|].
  apply vis_fields in V as [-> _]. rewrite add_all_text. unfold contents, received_text.
  now rewrite map_map.
Qed.

(** A stream that begins with a byte order mark, cut inside the mark
    and inside a character; its lines give a text, a number, nothing
    for a content that has no text, and a text again. *)
Definition marked_stream : string :=
  Str.BOM
  ++ "data: " ++ Json.stringify (Sse.delta_event "Bought ") ++ Str.LF
  ++ "data: {" ++ Tools.quoted "choices" ++ ":[{" ++ Tools.quoted "delta" ++ ":{"
       ++ Tools.quoted "content" ++ ":1.0}}]}" ++ Str.LF
  ++ "data: {" ++ Tools.quoted "choices" ++ ":[{" ++ Tools.quoted "delta" ++ ":{"
       ++ Tools.quoted "content" ++ ":{" ++ Tools.quoted "toString" ++ ":1}}}]}" ++ Str.LF
  ++ "data: " ++ Json.stringify (Sse.delta_event (String "226" (String "156" (String "147" " milk")))).

Lemma answer_is_the_text_of_its_lines_witness :
  Str.well_formed
    (String.concat EmptyString
       [String.substring 0 2 marked_stream; String.substring 2 196 marked_stream;
        String.substring 198 100 marked_stream]) = true
  /\ exists o,
       Chat.read_stream [Chat.mkMsg Chat.user "buy milk"]
         [String.substring 0 2 marked_stream; String.substring 2 196 marked_stream;
          String.substring 198 100 marked_stream] = Some o
       /\ Chat.assistantSoFar (Chat.final o)
          = "Bought 1" ++ String "226" (String "156" (String "147" " milk")).
Proof.
  split; [vm_compute; reflexivity|].
  destruct (answer_is_the_text_of_its_lines [Chat.mkMsg Chat.user "buy milk"]
              [String.substring 0 2 marked_stream; String.substring 2 196 marked_stream;
               String.substring 198 100 marked_stream]) as (o & R & A);
    [vm_compute; reflexivity|].
  exists o. split; [exact R|]. rewrite A. vm_compute. reflexivity.
Defined.

Lemma mapi_app {A B : Type} (f : A -> nat -> B) (i : nat) (l l' : list A) :
  Js.mapi f i (l ++ l') = (Js.mapi f i l ++ Js.mapi f (i + List.length l) l')%list.
Proof.
  revert i. induction l as [|x l IH]; intros i; simpl.
  - now rewrite Nat.add_0_r.
  - rewrite IH. now replace (S i + List.length l) with (i + S (List.length l)) by lia.
Qed.

(** A further delta rewrites the assistant message the first one
    added. *)
Lemma upsert_over_assistant (soFar t : string) (l : list Chat.Msg) :
  Chat.upsert_messages soFar (l ++ [Chat.mkMsg Chat.assistant t])%list
  = (l ++ [Chat.mkMsg Chat.assistant soFar])%list.
Proof.
  unfold Chat.upsert_messages.
  rewrite length_app. simpl List.length.
  replace (List.length l + 1 - 1) with (List.length l) by lia.
  rewrite nth_error_app2 by lia. rewrite Nat.sub_diag. cbn [nth_error Chat.is_assistant Chat.role].
  rewrite mapi_app, mapi_id_before by lia.
  cbn [Js.mapi Nat.add]. now rewrite Nat.eqb_refl.
Qed.

(** The messages after a stream was read: those before it, and one
    assistant message with the text accumulated once a line has given
    a content. *)
Lemma read_stream_messages
  (history : list Chat.Msg) (input : string) (values : list string) :
  exists o,
    Chat.read_stream (history ++ [Chat.mkMsg Chat.user input])%list values = Some o
    /\ ((Chat.assistantSoFar (Chat.final o) = EmptyString
         /\ Chat.messages (Chat.final o) = (history ++ [Chat.mkMsg Chat.user input])%list)
        \/ Chat.messages (Chat.final o)
           = (history ++ [Chat.mkMsg Chat.user input;
                          Chat.mkMsg Chat.assistant (Chat.assistantSoFar (Chat.final o))])%list)
    /\ Chat.saved o
       = if Str.is_empty (Chat.assistantSoFar (Chat.final o)) then None
         else Some (Chat.mkMsg Chat.assistant (Chat.assistantSoFar (Chat.final o))).
Proof.
  destruct (read_stream_whole (history ++ [Chat.mkMsg Chat.user input])%list values)
    as (o & R & V & S).
  exists o. split; [exact R|]. split; [|exact S]. apply vis_fields in V as [-> ->].
  generalize (contents (received_text (String.concat EmptyString values))).
  intros cs.
  assert (G : forall st,
             ((Chat.assistantSoFar st = EmptyString
               /\ Chat.messages st = (history ++ [Chat.mkMsg Chat.user input])%list)
              \/ Chat.messages st
                 = (history ++ [Chat.mkMsg Chat.user input;
                                Chat.mkMsg Chat.assistant (Chat.assistantSoFar st)])%list) ->
             (Chat.assistantSoFar (add_all cs st) = EmptyString
              /\ Chat.messages (add_all cs st) = (history ++ [Chat.mkMsg Chat.user input])%list)
             \/ Chat.messages (add_all cs st)
                = (history ++ [Chat.mkMsg Chat.user input;
                               Chat.mkMsg Chat.assistant
                                 (Chat.assistantSoFar (add_all cs st))])%list).
  { induction cs as [|c cs IH]; intros st H; [exact H|].
    apply IH. destruct c as [v|]; [|exact H]. right.
    cbn [add_content Chat.upsertAssistant Chat.messages Chat.assistantSoFar].
    destruct H as [[_ ->]| ->].
    - apply upsert_after_user.
    - change (history ++ [Chat.mkMsg Chat.user input;
                          Chat.mkMsg Chat.assistant (Chat.assistantSoFar st)])%list
        with (history ++ [Chat.mkMsg Chat.user input]
                      ++ [Chat.mkMsg Chat.assistant (Chat.assistantSoFar st)])%list.
      rewrite app_assoc, upsert_over_assistant, <- app_assoc. reflexivity. }
  apply G. left. now split.
Qed.

(** X4.  Whatever the stream holds, reading it adds at most one
    message to the screen: the messages end as they were after the
    user's message, no text having been accumulated, or with one
    assistant message more, whose content is the text accumulated. *)
Theorem at_most_one_message_is_added
  (history : list Chat.Msg) (input : string) (values : list string) :
  exists o,
    Chat.read_stream (history ++ [Chat.mkMsg Chat.user input])%list values = Some o
    /\ ((Chat.assistantSoFar (Chat.final o) = EmptyString
         /\ Chat.messages (Chat.final o) = (history ++ [Chat.mkMsg Chat.user input])%list)
        \/ Chat.messages (Chat.final o)
           = (history ++ [Chat.mkMsg Chat.user input;
                          Chat.mkMsg Chat.assistant (Chat.assistantSoFar (Chat.final o))])%list).
Proof.
  destruct (read_stream_messages history input values) as (o & R & M & _).
  exists o. now split.
Qed.

(** ** JSON: any text [stringify] writes, [parse] reads back *)

(** A value with no number in it: [null], booleans, strings, arrays
    and objects, which is all the page and the function write. *)
Fixpoint numberless (v : json) : bool :=
  match v with
  | JNum _ => false
  | JArr items => forallb numberless items
  | JObj members => forallb (fun kv => numberless (snd kv)) members
  | _ => true
  end.

Definition member_text (kv : string * json) : string :=
  Json.quote (fst kv) ++ ":" ++ Json.stringify (snd kv).

Lemma prefix_append (p s : string) : String.prefix p (p ++ s) = true.
Proof.
  induction p as [|a p IH]; [now destruct s|]. simpl.
  destruct (ascii_dec a a); [exact IH | contradiction].
Qed.

Lemma slice_append (p s : string) : Str.slice_from (String.length p) (p ++ s) = s.
Proof. induction p as [|a p IH]; [reflexivity | exact IH]. Qed.

Lemma parse_value_null (m : nat) (rest : string) :
  Json.parse_value (S m) ("null" ++ rest) = Some (JNull, rest).
Proof.
  cbn -[Str.startsWith Str.slice_from]. unfold Str.startsWith.
  change (String "n" (String "u" (String "l" (String "l" rest)))) with ("null" ++ rest).
  rewrite (prefix_append "null"). reflexivity.
Qed.

Lemma parse_value_true (m : nat) (rest : string) :
  Json.parse_value (S m) ("true" ++ rest) = Some (JBool true, rest).
Proof.
  cbn -[Str.startsWith Str.slice_from]. unfold Str.startsWith.
  change (String "t" (String "r" (String "u" (String "e" rest)))) with ("true" ++ rest).
  rewrite (prefix_append "true"). reflexivity.
Qed.

Lemma parse_value_false (m : nat) (rest : string) :
  Json.parse_value (S m) ("false" ++ rest) = Some (JBool false, rest).
Proof.
  cbn -[Str.startsWith Str.slice_from]. unfold Str.startsWith.
  change (String "f" (String "a" (String "l" (String "s" (String "e" rest)))))
    with ("false" ++ rest).
  rewrite (prefix_append "false"). reflexivity.
Qed.

(** The first character of the text of a value. *)
Definition opens (c : ascii) : Prop :=
  Json.is_json_ws c = false /\ Ascii.eqb c "]" = false /\ Ascii.eqb c "}" = false.

Lemma stringify_opens (v : json) :
  numberless v = true -> exists c t, Json.stringify v = String c t /\ opens c.
Proof.
  destruct v as [|[|]|l|s|items|members]; intros H; try discriminate H;
    cbn [Json.stringify]; unfold Json.quote, Str.DQ; cbn [append];
    eexists; eexists; (split; [reflexivity | repeat split]).
Qed.

Lemma parse_value_array (m : nat) (c : ascii) (t : string) :
  opens c ->
  Json.parse_value (S m) (String "[" (String c t)) = Json.parse_elements m [] (String c t).
Proof.
  intros (W & B & _). cbn [Json.parse_value Json.skip_ws]. cbn -[Json.parse_elements].
  now rewrite W, B.
Qed.

Lemma parse_value_object (m : nat) (c : ascii) (t : string) :
  opens c ->
  Json.parse_value (S m) (String "{" (String c t)) = Json.parse_members m [] (String c t).
Proof.
  intros (W & _ & B). cbn [Json.parse_value Json.skip_ws]. cbn -[Json.parse_members].
  now rewrite W, B.
Qed.

Lemma parse_elements_more (m : nat) (acc : list json) (s r : string) (x : json) :
  Json.parse_value m s = Some (x, String "," r) ->
  Json.parse_elements (S m) acc s = Json.parse_elements m (x :: acc) r.
Proof. intros H. cbn [Json.parse_elements]. rewrite H. reflexivity. Qed.

Lemma parse_elements_last (m : nat) (acc : list json) (s r : string) (x : json) :
  Json.parse_value m s = Some (x, String "]" r) ->
  Json.parse_elements (S m) acc s = Some (JArr (List.rev (x :: acc)), r).
Proof. intros H. cbn [Json.parse_elements]. rewrite H. reflexivity. Qed.

Lemma parse_members_more (m : nat) (acc : list (string * json)) (k s r : string) (v : json) :
  Json.parse_value m s = Some (v, String "," r) ->
  Json.parse_members (S m) acc (Json.quote k ++ String ":" s)
  = Json.parse_members m ((k, v) :: acc) r.
Proof.
  intros H. rewrite quote_cons. cbn [Json.parse_members Json.skip_ws].
  cbn -[Json.parse_members Json.parse_value Json.parse_chars].
  rewrite parse_quote_chars. cbn -[Json.parse_members Json.parse_value].
  rewrite H. reflexivity.
Qed.

Lemma parse_members_last (m : nat) (acc : list (string * json)) (k s r : string) (v : json) :
  Json.parse_value m s = Some (v, String "}" r) ->
  Json.parse_members (S m) acc (Json.quote k ++ String ":" s)
  = Some (JObj (List.rev ((k, v) :: acc)), r).
Proof.
  intros H. rewrite quote_cons. cbn [Json.parse_members Json.skip_ws].
  cbn -[Json.parse_members Json.parse_value Json.parse_chars].
  rewrite parse_quote_chars. cbn -[Json.parse_members Json.parse_value].
  rewrite H. reflexivity.
Qed.

Lemma join_comma_cons (x y : string) (l : list string) :
  Json.join_comma (x :: y :: l) = x ++ "," ++ Json.join_comma (y :: l).
Proof. reflexivity. Qed.

Lemma stringify_length (v : json) : numberless v = true -> 0 < String.length (Json.stringify v).
Proof.
  intros H. destruct (stringify_opens v H) as (c & t & -> & _). simpl. lia.
Qed.

Lemma quote_length (k : string) : 2 <= String.length (Json.quote k).
Proof. unfold Json.quote, Str.DQ. rewrite !length_append. simpl. lia. Qed.

(** With fuel for every character of the text, a value, the items
    of an array and the members of an object are read back, and what
    follows them is left. *)
Lemma parse_stringify (m : nat) :
  (forall v rest,
      numberless v = true -> String.length (Json.stringify v) <= m ->
      Json.parse_value m (Json.stringify v ++ rest) = Some (v, rest))
  /\ (forall x items acc rest,
        forallb numberless (x :: items) = true ->
        String.length (Json.join_comma (map Json.stringify (x :: items))) < m ->
        Json.parse_elements m acc
          (Json.join_comma (map Json.stringify (x :: items)) ++ String "]" rest)
        = Some (JArr (List.rev acc ++ x :: items), rest))
  /\ (forall x members acc rest,
        forallb (fun kv => numberless (snd kv)) (x :: members) = true ->
        String.length (Json.join_comma (map member_text (x :: members))) < m ->
        Json.parse_members m acc
          (Json.join_comma (map member_text (x :: members)) ++ String "}" rest)
        = Some (JObj (List.rev acc ++ x :: members), rest)).
Proof.
  induction m as [|m (IHv & IHe & IHm)].
  { split; [|split; intros; lia].
    intros v rest H L. apply stringify_length in H. lia. }
  split; [|split].
  - intros v rest H L.
    destruct v as [|[|]|l|s|items|members]; try discriminate H.
    + apply parse_value_null.
    + apply parse_value_true.
    + apply parse_value_false.
    + apply parse_value_string.
    + cbn [Json.stringify] in *. destruct items as [|x items]; [reflexivity|].
      cbn [numberless] in H.
      assert (Hx : numberless x = true) by (cbn in H; now apply andb_true_iff in H as [H _]).
      set (j := Json.join_comma (map Json.stringify (x :: items))) in *.
      assert (O : exists c t, j = String c t /\ opens c).
      { destruct (stringify_opens x Hx) as (c & t & E & O). unfold j. cbn [map].
        destruct items; cbn [Json.join_comma map]; rewrite E; cbn [append]; eauto. }
      destruct O as (c & t & E & O).
      rewrite !append_assoc. cbn [append].
      pose proof (IHe x items [] rest H) as G. fold j in G.
      rewrite !length_append in L. cbn [String.length] in L.
      rewrite E in *. cbn [append]. rewrite (parse_value_array m c _ O).
      apply G. lia.
    + cbn [Json.stringify] in *. destruct members as [|x members]; [reflexivity|].
      cbn [numberless] in H.
      fold member_text in *.
      set (j := Json.join_comma (map member_text (x :: members))) in *.
      assert (O : exists t, j = String Str.dq t).
      { unfold j. cbn [map]. unfold member_text at 1. unfold Json.quote, Str.DQ.
        destruct members; cbn [Json.join_comma map append]; eauto. }
      destruct O as (t & E).
      rewrite !append_assoc. cbn [append].
      pose proof (IHm x members [] rest H) as G. fold j in G.
      rewrite !length_append in L. cbn [String.length] in L.
      rewrite E in *. cbn [append].
      rewrite (parse_value_object m Str.dq _); [|repeat split].
      apply G. lia.
  - intros x items acc rest H L. cbn [forallb] in H. apply andb_true_iff in H as [Hx Hi].
    destruct items as [|y items].
    + cbn [map Json.join_comma] in *.
      rewrite (parse_elements_last m acc _ rest x).
      * reflexivity.
      * apply IHv; [exact Hx | lia].
    + set (jr := Json.join_comma (map Json.stringify (y :: items))) in *.
      assert (E : Json.join_comma (map Json.stringify (x :: y :: items))
                  = Json.stringify x ++ "," ++ jr) by reflexivity.
      rewrite E in *. clear E. rewrite !append_assoc. cbn [append].
      rewrite !length_append in L. cbn [String.length] in L.
      rewrite (parse_elements_more m acc _ (jr ++ String "]" rest) x).
      * unfold jr. rewrite IHe; [|exact Hi | fold jr; lia].
        cbn [List.rev]. now rewrite <- app_assoc.
      * apply IHv; [exact Hx | lia].
  - intros x members acc rest H L. cbn [forallb] in H. apply andb_true_iff in H as [Hx Hi].
    destruct x as [k v]. cbn [snd] in Hx.
    pose proof (quote_length k) as Q.
    destruct members as [|y members].
    + cbn [map Json.join_comma] in *. unfold member_text in *. cbn [fst snd] in *.
      rewrite !length_append in L. cbn [String.length] in L.
      rewrite !append_assoc. cbn [append].
      rewrite (parse_members_last m acc k _ rest v).
      * reflexivity.
      * apply IHv; [exact Hx | lia].
    + set (jr := Json.join_comma (map member_text (y :: members))) in *.
      assert (E : Json.join_comma (map member_text ((k, v) :: y :: members))
                  = (Json.quote k ++ ":" ++ Json.stringify v) ++ "," ++ jr) by reflexivity.
      rewrite E in *. clear E.
      rewrite !length_append in L. cbn [String.length] in L.
      rewrite !append_assoc. cbn [append].
      rewrite (parse_members_more m acc k _ (jr ++ String "}" rest) v).
      * unfold jr. rewrite IHm; [|exact Hi | fold jr; lia].
        cbn [List.rev]. now rewrite <- app_assoc.
      * apply IHv; [exact Hx | lia].
Qed.

(** [JSON.parse(JSON.stringify(v))] is [v]. *)
Lemma parse_stringify_value (v : json) :
  numberless v = true -> Json.parse (Json.stringify v) = Some v.
Proof.
  intros H. unfold Json.parse.
  pose proof (proj1 (parse_stringify (2 * String.length (Json.stringify v) + 2))
                v EmptyString H) as P.
  rewrite append_nil_r in P. rewrite P by lia. reflexivity.
Qed.

(** A number of JSON is a double: it prints as [Number::toString]
    prints the double nearest to its text, and it is falsy when that
    double is zero. *)
Example numbers_print_as_doubles :
  map (fun l => Js.to_string (Some (JNum l)))
      ["1.0"; "100"; "1e21"; "1e-7"; "0.000001"; "-0"; "9007199254740993";
       "0.30000000000000004"; "1e400"; "1e-400"; "5e-324"]
  = ["1"; "100"; "1e+21"; "1e-7"; "0.000001"; "0"; "9007199254740992";
     "0.30000000000000004"; "Infinity"; "0"; "5e-324"].
Proof. vm_compute. reflexivity. Qed.

Example number_that_underflows_is_falsy :
  Js.truthy (Some (JNum "1e-400")) = false
  /\ Js.truthy (Some (JNum "-0.0")) = false
  /\ Js.truthy (Some (JNum "5e-324")) = true.
Proof. vm_compute. repeat split; reflexivity. Qed.

(** An object with a member [toString] has no text; an array has one
    when each of its items has. *)
Example object_with_toString_has_no_text :
  Js.printable (Some (JObj [("toString", JNum "1")])) = false
  /\ Js.printable (Some (JArr [JStr "a"; JObj [("toString", JNull)]])) = false
  /\ Js.printable (Some (JObj [("valueOf", JNum "1")])) = true
  /\ Js.to_string (Some (JArr [JNum "1.50"; JNull; JStr "a"])) = "1.5,,a".
Proof. vm_compute. repeat split; reflexivity. Qed.

(** ** The completion requests of one run *)

(** The conversations of the completion requests, in the order they
    were posted. *)
Definition conversations (l : list Edge.event) : list (list Edge.message) :=
  flat_map (fun e => match e with Edge.Fetch conv _ => [conv] | _ => [] end) l.

Definition result_id (m : Edge.message) : option string :=
  match m with
  | Edge.ToolResult id _ => Some id
  | _ => None
  end.

(** [next] is [conv] with an assistant message that asks for tools
    and, for each of its calls in order, one tool message with the id
    of the call. *)
Definition follows (conv next : list Edge.message) : Prop :=
  exists m calls results,
    Edge.tool_calls m = Some calls
    /\ next = (conv ++ Edge.Assistant m :: results)%list
    /\ map result_id results = map (fun c => Some (Edge.call_id c)) calls.

Inductive chained : list (list Edge.message) -> Prop :=
| chained_one (conv : list Edge.message) : chained [conv]
| chained_more (conv next : list Edge.message) (later : list (list Edge.message)) :
    follows conv next -> chained (next :: later) -> chained (conv :: next :: later).

Lemma conversations_app (a b : list Edge.event) :
  conversations (a ++ b) = (conversations a ++ conversations b)%list.
Proof. apply flat_map_app. Qed.

Lemma fetches_conversations (l : list Edge.event) :
  fetches l = List.length (conversations l).
Proof.
  unfold fetches. induction l as [|e l IH]; [reflexivity|].
  destruct e; simpl; now rewrite ?IH.
Qed.

Section Requests.

Variable toLocaleDateString : string -> string.
Variable now : string.
Variable gateway : nat -> list Edge.message -> Edge.upstream.

(** A tool call leaves the log as it is. *)
Lemma call_tool_trace (userId : option json) (name : string) (args : json) (w : Edge.world) :
  Edge.trace (snd (Edge.call_tool toLocaleDateString userId name args w)) = Edge.trace w.
Proof.
  unfold Edge.call_tool.
  destruct (Edge.writes_user_first name args && negb (Js.printable userId))%bool;
    [reflexivity|].
  unfold Edge.on_db.
  now destruct (Tools.executeTool toLocaleDateString name args (Js.to_string userId)
                  (Edge.db w)).
Qed.

Lemma run_calls_cons (userId : option json) (c : Edge.tool_call)
  (later : list Edge.tool_call) (conv : list Edge.message) (w : Edge.world) :
  Edge.run_calls toLocaleDateString userId (c :: later) conv w
  = match Json.parse (Edge.fn_arguments c) with
    | None => (Tools.Thrown (Tools.SyntaxError (Edge.fn_arguments c)), w)
    | Some v =>
        let logged := (Edge.trace w ++ [Edge.ConsoleLog (Edge.fn_name c) v])%list in
        match Edge.call_tool toLocaleDateString userId (Edge.fn_name c) v
                (Edge.mkWorld (Edge.db w) logged) with
        | (Tools.Returned s, w1) =>
            Edge.run_calls toLocaleDateString userId later
              (conv ++ [Edge.ToolResult (Edge.call_id c) s])%list w1
        | (Tools.Thrown e, w1) => (Tools.Thrown e, w1)
        end
    end.
Proof.
  cbn [Edge.run_calls]. destruct (Json.parse (Edge.fn_arguments c)) as [v|]; [|reflexivity].
  unfold Edge.then_ at 1. unfold Edge.emit at 1.
  unfold Edge.then_ at 1. reflexivity.
Qed.

(** Running the calls of a message posts nothing, and adds to the
    conversation one tool message for each call that was run, in
    order. *)
Lemma run_calls_results (userId : option json) (calls : list Edge.tool_call) :
  forall conv w res w',
    Edge.run_calls toLocaleDateString userId calls conv w = (res, w') ->
    exists new,
      Edge.trace w' = (Edge.trace w ++ new)%list
      /\ conversations new = []
      /\ forall conv',
           res = Tools.Returned conv' ->
           exists results,
             conv' = (conv ++ results)%list
             /\ map result_id results = map (fun c => Some (Edge.call_id c)) calls.
Proof.
  induction calls as [|c later IH]; intros conv w res w' H.
  - injection H as <- <-. exists []. rewrite app_nil_r. repeat split.
    intros conv' H. injection H as <-. exists []. now rewrite app_nil_r.
  - rewrite run_calls_cons in H.
    destruct (Json.parse (Edge.fn_arguments c)) as [v|].
    2:{ injection H as <- <-. exists []. rewrite app_nil_r. repeat split. discriminate. }
    cbv zeta in H.
    pose proof (call_tool_trace userId (Edge.fn_name c) v
                  (Edge.mkWorld (Edge.db w)
                     (Edge.trace w ++ [Edge.ConsoleLog (Edge.fn_name c) v])%list)) as L.
    destruct (Edge.call_tool toLocaleDateString userId (Edge.fn_name c) v
                (Edge.mkWorld (Edge.db w)
                   (Edge.trace w ++ [Edge.ConsoleLog (Edge.fn_name c) v])%list))
      as [[s|e] w1]; cbn [snd Edge.trace] in L.
    + destruct (IH _ _ _ _ H) as (new & T & C & R). rewrite L in T.
      exists (Edge.ConsoleLog (Edge.fn_name c) v :: new).
      rewrite T. cbn [Edge.trace]. rewrite <- app_assoc. split; [reflexivity|].
      split; [exact C|]. intros conv' E. destruct (R conv' E) as (results & -> & M).
      exists (Edge.ToolResult (Edge.call_id c) s :: results).
      rewrite <- app_assoc. split; [reflexivity|]. cbn [map result_id]. now rewrite M.
    + injection H as <- <-. exists [Edge.ConsoleLog (Edge.fn_name c) v].
      repeat split; [exact L | discriminate].
Qed.

(** From a state whose conversation was the last one posted, the
    loop posts at most as many requests as the cap leaves, each one
    following the one before. *)
Lemma tool_loop_requests (userId : option json) (fuel : nat) :
  forall st w,
    exists new,
      Edge.trace (snd (Edge.tool_loop toLocaleDateString gateway fuel userId st w))
      = (Edge.trace w ++ new)%list
      /\ List.length (conversations new) <= Edge.MAX_ITERATIONS - Edge.iterations st
      /\ chained (Edge.conversationMessages st :: conversations new).
Proof.
  assert (Z : forall st w,
             exists new, Edge.trace w = (Edge.trace w ++ new)%list
                         /\ List.length (conversations new)
                            <= Edge.MAX_ITERATIONS - Edge.iterations st
                         /\ chained (Edge.conversationMessages st :: conversations new)).
  { intros st w. exists []. rewrite app_nil_r. repeat split; [simpl; lia | constructor]. }
  induction fuel as [|fuel IH]; intros st w; cbn [Edge.tool_loop];
    destruct (Edge.tool_calls (Edge.assistantMessage st)) as [calls|] eqn:C;
    try apply Z;
    destruct (Nat.ltb_spec (Edge.iterations st) Edge.MAX_ITERATIONS) as [L|L];
    try apply Z.
  unfold Edge.then_ at 1.
  destruct (Edge.run_calls toLocaleDateString userId calls
              (Edge.conversationMessages st ++ [Edge.Assistant (Edge.assistantMessage st)])%list
              w) as [res w1] eqn:RC.
  destruct (run_calls_results _ _ _ _ _ _ RC) as (logs & T & N & R).
  destruct res as [conv|e]; cbn [fst snd] in *.
  2:{ exists logs. rewrite N. repeat split; [exact T | simpl; lia | constructor]. }
  destruct (R conv eq_refl) as (results & -> & M). clear R.
  set (conv := ((Edge.conversationMessages st ++ [Edge.Assistant (Edge.assistantMessage st)])
                ++ results)%list).
  assert (F : follows (Edge.conversationMessages st) conv).
  { exists (Edge.assistantMessage st), calls, results. split; [exact C|].
    split; [|exact M]. unfold conv. now rewrite <- app_assoc. }
  unfold Edge.then_ at 1. unfold Edge.emit at 1.
  set (w2 := Edge.mkWorld (Edge.db w1) (Edge.trace w1 ++ [Edge.Fetch conv Tools.tools])%list).
  assert (T2 : Edge.trace w2 = (Edge.trace w ++ logs ++ [Edge.Fetch conv Tools.tools])%list)
    by (unfold w2; cbn [Edge.trace]; now rewrite T, <- app_assoc).
  assert (C2 : conversations (logs ++ [Edge.Fetch conv Tools.tools]) = [conv])
    by (now rewrite conversations_app, N).
  destruct (Edge.rejection (gateway (S (Edge.iterations st)) conv)).
  { unfold Edge.raise. cbn [snd]. exists (logs ++ [Edge.Fetch conv Tools.tools])%list.
    rewrite T2, C2. repeat split; [cbn [List.length]; lia | repeat constructor; exact F]. }
  destruct (negb (Edge.ok (gateway (S (Edge.iterations st)) conv))).
  - unfold Edge.then_, Edge.emit. cbn [snd].
    exists (logs ++ [Edge.Fetch conv Tools.tools;
                     Edge.ConsoleError "AI gateway error on tool follow-up:"
                       (Edge.Upstream (Edge.up_status (gateway (S (Edge.iterations st)) conv))
                                      (Edge.up_body (gateway (S (Edge.iterations st)) conv)))])%list.
    split; [unfold w2; cbn [Edge.trace]; rewrite T, <- !app_assoc; reflexivity|].
    rewrite conversations_app, N. cbn [conversations flat_map app List.length].
    split; [lia | repeat constructor; exact F].
  - destruct (Edge.up_body (gateway (S (Edge.iterations st)) conv)) as [m|t].
    + destruct (IH (Edge.mkLoop m conv (S (Edge.iterations st))) w2) as (new & T3 & B & H).
      cbn [Edge.iterations Edge.conversationMessages] in *.
      exists ((logs ++ [Edge.Fetch conv Tools.tools]) ++ new)%list.
      rewrite T3, T2, <- !app_assoc. split; [reflexivity|].
      rewrite app_assoc, conversations_app, C2. cbn [app List.length].
      split; [lia | now constructor].
    + unfold Edge.raise. cbn [snd]. exists (logs ++ [Edge.Fetch conv Tools.tools])%list.
      rewrite T2, C2. repeat split; [cbn [List.length]; lia | repeat constructor; exact F].
Qed.

(** What a run has posted: nothing, or a first conversation that
    begins with the system prompt and five more at most, each following
    the one before. *)
Definition posted (new : list Edge.event) : Prop :=
  conversations new = []
  \/ exists history later,
       conversations new = (Edge.System (Edge.systemPrompt now) :: history) :: later
       /\ List.length later <= Edge.MAX_ITERATIONS
       /\ chained (conversations new).

Lemma posted_nothing (new : list Edge.event) : conversations new = [] -> posted new.
Proof. now left. Qed.

Lemma posted_more (new : list Edge.event) (e : Edge.event) :
  conversations [e] = [] -> posted new -> posted (new ++ [e]).
Proof.
  intros E P. unfold posted in *. rewrite conversations_app, E, app_nil_r. exact P.
Qed.

Lemma attempt_requests (req : Edge.request) (w : Edge.world) :
  exists new,
    Edge.trace (snd (Edge.attempt toLocaleDateString now gateway req w))
    = (Edge.trace w ++ new)%list
    /\ posted new.
Proof.
  assert (Z : exists new, Edge.trace w = (Edge.trace w ++ new)%list /\ posted new)
    by (exists []; rewrite app_nil_r; split; [reflexivity | now left]).
  unfold Edge.attempt.
  destruct (Json.parse (Edge.text req)) as [parsed|]; [|exact Z].
  destruct parsed as [|b|l|s|arr|members]; [exact Z | ..].
  all: cbn zeta;
    match goal with
    | |- context [negb (Js.truthy ?u)] => destruct (negb (Js.truthy u))
    end; [exact Z|];
    match goal with
    | |- context [match ?m with Some _ => _ | None => _ end] =>
        destruct m as [[| | | |items|]|]
    end; try exact Z.
  all: unfold Edge.then_ at 1;
    pose proof (client_messages_world items w) as C;
    destruct (Edge.client_messages items w) as [[history|e] w0]; cbn [snd] in C; subst w0;
    [|exact Z];
    unfold Edge.then_ at 1; unfold Edge.emit at 1;
    set (all := Edge.System (Edge.systemPrompt now) :: history);
    set (w1 := Edge.mkWorld (Edge.db w) (Edge.trace w ++ [Edge.Fetch all Tools.tools])%list);
    assert (P1 : posted [Edge.Fetch all Tools.tools])
      by (right; exists history, []; repeat split; [simpl; lia | exact (chained_one all)]);
    destruct (Edge.rejection (gateway 0 all));
    [exists [Edge.Fetch all Tools.tools]; now split|];
    destruct (negb (Edge.ok (gateway 0 all)));
    [ destruct (Nat.eqb (Edge.up_status (gateway 0 all)) 429);
      [exists [Edge.Fetch all Tools.tools]; now split|];
      destruct (Nat.eqb (Edge.up_status (gateway 0 all)) 402);
      [exists [Edge.Fetch all Tools.tools]; now split|];
      unfold Edge.then_, Edge.emit; cbn [snd]; unfold w1; cbn [Edge.trace Edge.db];
      eexists; (split; [rewrite <- app_assoc; reflexivity|]);
      now apply (posted_more [Edge.Fetch all Tools.tools])
    | destruct (Edge.up_body (gateway 0 all)) as [m|t];
      [|exists [Edge.Fetch all Tools.tools]; now split];
      unfold Edge.then_;
      match goal with
      | |- context [Edge.tool_loop ?f ?g ?n ?u ?st ?w2] =>
          destruct (tool_loop_requests u n st w2) as (new & T & B & H);
          destruct (Edge.tool_loop f g n u st w2) as [[[st'|]|e] w3]
      end; unfold Edge.unit_;
      cbn [snd Edge.trace Edge.iterations Edge.conversationMessages] in *;
      exists (Edge.Fetch all Tools.tools :: new);
      (split; [rewrite T; unfold w1; cbn [Edge.trace]; now rewrite <- app_assoc|]);
      right; exists history, (conversations new);
      (repeat split; [lia | exact H]) ].
Qed.

(** X5.  Whatever the request and whatever the gateway answers, the
    handler answers, and it posts six completion requests at most: a
    first one whose conversation begins with the system prompt, and then
    requests that each repeat the conversation of the one before and add
    the assistant message that asked for tools and, for each of its
    calls in order, one tool message with the id of the call. *)
Theorem requests_are_few_and_chained (req : Edge.request) (w : Edge.world) :
  exists r new,
    fst (Edge.handler toLocaleDateString now gateway req w) = Some r
    /\ Edge.trace (snd (Edge.handler toLocaleDateString now gateway req w))
       = (Edge.trace w ++ new)%list
    /\ List.length (conversations new) <= 6
    /\ (conversations new = []
        \/ exists history later,
             conversations new = (Edge.System (Edge.systemPrompt now) :: history) :: later
             /\ chained (conversations new)).
Proof.
  destruct (handler_answers toLocaleDateString now gateway req w) as [r R].
  exists r.
  assert (G : exists new,
             Edge.trace (snd (Edge.handler toLocaleDateString now gateway req w))
             = (Edge.trace w ++ new)%list /\ posted new).
  { unfold Edge.handler.
    destruct (String.eqb (Edge.method req) "OPTIONS").
    - exists []. rewrite app_nil_r. split; [reflexivity | now left].
    - destruct (attempt_requests req w) as (new & T & P).
      destruct (Edge.attempt _ _ _ _ _) as [[r'|e] w']; cbn [snd] in *; [eauto|].
      exists (new ++ [Edge.ConsoleError "todo-chat error:" (Edge.Exception e)])%list.
      cbn [Edge.trace]. rewrite T, <- app_assoc. split; [reflexivity|].
      now apply posted_more. }
  destruct G as (new & T & P). exists new. split; [exact R|]. split; [exact T|].
  destruct P as [E|(history & later & E & B & H)].
  - rewrite E. split; [simpl; lia | now left].
  - split; [rewrite E; unfold Edge.MAX_ITERATIONS in B; simpl; lia|].
    right. exists history, later. now split.
Qed.

End Requests.

(** ** A turn of the chat: the page, the network and the function *)

(** A message of the page as the function forwards it. *)
Definition forwarded (m : Chat.Msg) : Edge.message :=
  Edge.FromClient (Some (JStr (Client.role_text (Chat.role m))))
                  (Some (JStr (Chat.content m))).

Lemma numberless_messages (msgs : list Chat.Msg) :
  forallb numberless (map Client.msg_json msgs) = true.
Proof. induction msgs as [|m msgs IH]; [reflexivity | exact IH]. Qed.

Lemma history_of_messages (msgs : list Chat.Msg) :
  history_of (map Client.msg_json msgs) = map forwarded msgs.
Proof. unfold history_of. rewrite map_map. reflexivity. Qed.

(** The body [send] posts is a request the handler takes up. *)
Lemma body_accepted (msgs : list Chat.Msg) (userId conversationId : string) :
  userId <> EmptyString ->
  accepted (Edge.mkRequest "POST" (Client.request_body msgs userId conversationId))
           (Some (JStr userId)) (map Client.msg_json msgs).
Proof.
  intros U. split; [discriminate|].
  exists (JObj [("messages", JArr (map Client.msg_json msgs));
                ("userId", JStr userId);
                ("conversationId", JStr conversationId)]).
  split.
  { apply parse_stringify_value. cbn [numberless forallb snd].
    now rewrite numberless_messages. }
  split; [discriminate|]. split; [reflexivity|].
  split; [destruct userId; [contradiction | reflexivity]|].
  split; [reflexivity|].
  intros I. apply in_map_iff in I as (m & E & _). discriminate E.
Qed.

(** X20.  [send] always settles.  Signed out, it does nothing.
    Signed in, whatever the network answers (a rejection, or any
    status with no body or with any body, read to its end in any
    chunks), it ends with the loading flag
    cleared, the user's message on the screen and asked to be saved,
    once; at most one toast; and at most one assistant message, which is
    on the screen with the text that is asked to be saved, and is saved
    only when that text is not empty. *)
Theorem send_always_settles
  (user : option string) (conversationId : string) (fetch : string -> Client.fetched)
  (input : string) (p : Client.page) :
  match user with
  | None => Client.send user conversationId fetch input p = Some p
  | Some userId =>
      exists p',
        Client.send user conversationId fetch input p = Some p'
        /\ Client.isLoading p' = false
        /\ (Client.toasts p' = Client.toasts p
            \/ exists t, Client.toasts p' = (Client.toasts p ++ [t])%list)
        /\ ((Client.messages p' = (Client.messages p ++ [Chat.mkMsg Chat.user input])%list
             /\ Client.rows p'
                = (Client.rows p ++ [Client.mkRow userId conversationId Chat.user input])%list)
            \/ (exists text,
                   Client.messages p'
                   = (Client.messages p ++ [Chat.mkMsg Chat.user input;
                                            Chat.mkMsg Chat.assistant text])%list
                   /\ Client.rows p'
                      = (Client.rows p
                         ++ Client.mkRow userId conversationId Chat.user input
                            :: (if Str.is_empty text then []
                                else [Client.mkRow userId conversationId
                                        Chat.assistant text]))%list))
  end.
Proof.
  destruct user as [userId|]; [|reflexivity].
  unfold Client.send.
  destruct (fetch _) as [message|status body].
  { eexists. split; [reflexivity|]. cbn. split; [reflexivity|]. split; [eauto | left; auto]. }
  destruct (Nat.eqb status 429).
  { eexists. split; [reflexivity|]. cbn. split; [reflexivity|]. split; [eauto | left; auto]. }
  destruct (Nat.eqb status 402).
  { eexists. split; [reflexivity|]. cbn. split; [reflexivity|]. split; [eauto | left; auto]. }
  destruct (if Client.ok status then body else None) as [values|].
  2:{ eexists. split; [reflexivity|]. cbn. split; [reflexivity|]. split; [eauto | left; auto]. }
  cbn [Client.messages].
  destruct (read_stream_messages (Client.messages p) input values) as (o & -> & M & S).
  eexists. split; [reflexivity|]. unfold Client.settle.
  cbn [Client.isLoading Client.toasts Client.messages Client.rows].
  split; [reflexivity|]. split; [now left|]. rewrite S.
  destruct M as [[A M]|M]; rewrite M.
  - left. rewrite A. cbn [Str.is_empty]. auto.
  - right. exists (Chat.assistantSoFar (Chat.final o)). split; [reflexivity|].
    destruct (Str.is_empty (Chat.assistantSoFar (Chat.final o)));
      cbn [Chat.role Chat.content]; [reflexivity | now rewrite <- app_assoc].
Qed.

Section Turn.

Variable toLocaleDateString : string -> string.
Variable now : string.
Variable gateway : nat -> list Edge.message -> Edge.upstream.

(** [e.message], which depends on the engine. *)
Variable message_of : Tools.exn -> string.

(** How the network cuts the bytes of a body into reads. *)
Variable cut : list string -> list string.

Hypothesis cut_keeps_bytes :
  forall chunks, String.concat EmptyString (cut chunks) = String.concat EmptyString chunks.

(** [JSON.stringify({ error })]. *)
Definition error_body (e : Edge.error_text) : string :=
  Json.stringify
    (JObj [("error", JStr match e with
                          | Edge.Literal text => text
                          | Edge.MessageOf x => message_of x
                          end)]).

(** A response of the function as [fetch] gives it to the page. *)
Definition over_network (r : Edge.response) : Client.fetched :=
  Client.Responded (Edge.status r)
    match Edge.payload r with
    | Edge.Empty => None
    | Edge.ErrorJson e => Some (cut [error_body e])
    | Edge.EventStream chunks => Some (cut chunks)
    end.

(** [fetch(CHAT_URL, { method: "POST", body })] when the function is
    in the world [w]. *)
Definition serve (w : Edge.world) (body : string) : Client.fetched :=
  match fst (Edge.handler toLocaleDateString now gateway (Edge.mkRequest "POST" body) w) with
  | Some r => over_network r
  | None => Client.Rejected EmptyString
  end.

Definition user_row (userId conversationId input : string) : Client.chat_row :=
  Client.mkRow userId conversationId Chat.user input.

Definition assistant_row (userId conversationId text : string) : Client.chat_row :=
  Client.mkRow userId conversationId Chat.assistant text.

(** The page after a turn that showed the answer [text]. *)
Definition answered (userId conversationId input text : string) (p : Client.page)
  : Client.page :=
  Client.mkPage
    (Client.messages p ++ [Chat.mkMsg Chat.user input; Chat.mkMsg Chat.assistant text])%list
    false (S (Client.todoRefresh p)) (Client.toasts p)
    (Client.rows p ++ [user_row userId conversationId input;
                       assistant_row userId conversationId text])%list
    (Client.spoken p ++ [text])%list
    (Client.logged p).

(** The page after a turn that ended with the toast [t]. *)
Definition refused (userId conversationId input : string) (t : Client.toast)
  (errors : list string) (p : Client.page) : Client.page :=
  Client.mkPage
    (Client.messages p ++ [Chat.mkMsg Chat.user input])%list
    false (Client.todoRefresh p) (Client.toasts p ++ [t])%list
    (Client.rows p ++ [user_row userId conversationId input])%list
    (Client.spoken p)
    (Client.logged p ++ errors)%list.

Definition rate_limited : Client.toast :=
  Client.mkToast "Rate limited" "Please try again in a moment.".

Definition usage_limit : Client.toast :=
  Client.mkToast "Usage limit" "AI credits exhausted. Please add more.".

Definition failed_to_start : Client.toast :=
  Client.mkToast "Error" "Failed to start stream".

(** [send] on a response with the stream of a settled answer. *)
Lemma send_stream (userId conversationId input : string) (p : Client.page)
  (fetch : string -> Client.fetched) (content : option string) :
  fetch (Client.request_body (Client.messages p ++ [Chat.mkMsg Chat.user input])%list
           userId conversationId)
  = over_network
      (Edge.mkResponse 200 (Some "text/event-stream")
         (Edge.EventStream (Sse.chunks (Sse.finalContent content)))) ->
  Client.send (Some userId) conversationId fetch input p
  = Some (answered userId conversationId input (Sse.finalContent content) p).
Proof.
  intros F. unfold Client.send. rewrite F. unfold over_network.
  cbn [Edge.status Edge.payload Nat.eqb Client.ok Nat.leb andb Client.messages].
  assert (U : Chat.upsert_messages (Sse.finalContent content)
                (Client.messages p ++ [Chat.mkMsg Chat.user input])%list
              = ((Client.messages p ++ [Chat.mkMsg Chat.user input])
                 ++ [Chat.mkMsg Chat.assistant (Sse.finalContent content)])%list)
    by (rewrite upsert_after_user, <- app_assoc; reflexivity).
  destruct (read_stream_body (Sse.finalContent content)
              (Client.messages p ++ [Chat.mkMsg Chat.user input])%list
              (finalContent_not_empty content) U
              (cut (Sse.chunks (Sse.finalContent content)))
              (cut_keeps_bytes _))
    as (o & -> & M & A & R & S).
  unfold Client.settle, answered.
  cbn [Client.messages Client.todoRefresh Client.toasts Client.rows Client.spoken
       Client.logged].
  rewrite S, M, R. cbn [Chat.role Chat.content].
  rewrite <- !app_assoc, Nat.add_1_r. reflexivity.
Qed.

(** [send] on a response with an error status and a body. *)
Lemma send_error (userId conversationId input : string) (p : Client.page)
  (fetch : string -> Client.fetched) (code : nat) (e : Edge.error_text) :
  fetch (Client.request_body (Client.messages p ++ [Chat.mkMsg Chat.user input])%list
           userId conversationId)
  = over_network (Edge.json_error code e) ->
  Client.ok code = false ->
  Client.send (Some userId) conversationId fetch input p
  = Some (if Nat.eqb code 429 then refused userId conversationId input rate_limited [] p
          else if Nat.eqb code 402 then refused userId conversationId input usage_limit [] p
          else refused userId conversationId input failed_to_start
                 ["Failed to start stream"] p).
Proof.
  intros F K. unfold Client.send. rewrite F. unfold over_network.
  cbn [Edge.status Edge.payload Edge.json_error]. rewrite K.
  unfold refused, Client.notify, Client.failure.
  cbn [Client.messages Client.todoRefresh Client.toasts Client.rows Client.spoken
       Client.logged Str.is_empty].
  rewrite !app_nil_r.
  destruct (Nat.eqb code 429); [reflexivity|].
  destruct (Nat.eqb code 402); reflexivity.
Qed.

(** The function on the body of the page: its first completion
    request and what follows. *)
Lemma handler_on_body (msgs : list Chat.Msg) (userId conversationId : string)
  (w : Edge.world) :
  userId <> EmptyString ->
  let all := Edge.System (Edge.systemPrompt now) :: map forwarded msgs in
  let w0 := Edge.mkWorld (Edge.db w) (Edge.trace w ++ [Edge.Fetch all Tools.tools])%list in
  let response := gateway 0 all in
  Edge.handler toLocaleDateString now gateway
    (Edge.mkRequest "POST" (Client.request_body msgs userId conversationId)) w
  = match
      match Edge.rejection response with
      | Some e => (Tools.Thrown e, w0)
      | None =>
          if negb (Edge.ok response) then
            if Nat.eqb (Edge.up_status response) 429 then
              (Tools.Returned (Some (Edge.json_error 429 (Edge.Literal "Rate limited"))), w0)
            else if Nat.eqb (Edge.up_status response) 402 then
              (Tools.Returned (Some (Edge.json_error 402 (Edge.Literal "Payment required"))),
               w0)
            else
              (Tools.Returned (Some (Edge.json_error 500 (Edge.Literal "AI gateway error"))),
               Edge.mkWorld (Edge.db w0)
                 (Edge.trace w0
                  ++ [Edge.ConsoleError "AI gateway error:"
                        (Edge.Upstream (Edge.up_status response)
                           (Edge.up_body response))])%list)
          else
            match Edge.up_body response with
            | Edge.Other _ => (Tools.Thrown (Tools.TypeError "choices"), w0)
            | Edge.Completion m =>
                match Edge.tool_loop toLocaleDateString gateway (S Edge.MAX_ITERATIONS)
                        (Some (JStr userId)) (Edge.mkLoop m all 0) w0 with
                | (Tools.Returned (Some st), w') =>
                    (Tools.Returned (Some (Edge.stream_response st)), w')
                | (Tools.Returned None, w') => (Tools.Returned None, w')
                | (Tools.Thrown e, w') => (Tools.Thrown e, w')
                end
            end
      end
    with
    | (Tools.Returned r, w') => (r, w')
    | (Tools.Thrown e, w') =>
        (Some (Edge.json_error 500 (Edge.MessageOf e)),
         Edge.mkWorld (Edge.db w')
           (Edge.trace w' ++ [Edge.ConsoleError "todo-chat error:" (Edge.Exception e)])%list)
    end.
Proof.
  intros U. cbv zeta.
  rewrite handler_not_preflight by discriminate.
  rewrite (attempt_accepted toLocaleDateString now gateway _ _ _ w
             (body_accepted msgs userId conversationId U)).
  rewrite history_of_messages. reflexivity.
Qed.

(** X6.  What the page sends is what the function forwards: for any
    messages and any user id that is not empty, the first completion
    request of the function on the body [send] writes carries the
    system prompt and then every message of the page, in order, with its
    role and its content as they were. *)
Theorem page_messages_reach_the_model
  (msgs : list Chat.Msg) (userId conversationId : string) (w : Edge.world) :
  userId <> EmptyString ->
  exists more,
    Edge.trace
      (snd (Edge.handler toLocaleDateString now gateway
              (Edge.mkRequest "POST" (Client.request_body msgs userId conversationId)) w))
    = (Edge.trace w
       ++ Edge.Fetch (Edge.System (Edge.systemPrompt now) :: map forwarded msgs) Tools.tools
          :: more)%list.
Proof.
  intros U. rewrite (handler_on_body msgs userId conversationId w U).
  set (all := Edge.System (Edge.systemPrompt now) :: map forwarded msgs).
  set (w0 := Edge.mkWorld (Edge.db w) (Edge.trace w ++ [Edge.Fetch all Tools.tools])%list).
  assert (G : forall w', grows w0 w' ->
                exists more, Edge.trace w' = (Edge.trace w ++ Edge.Fetch all Tools.tools :: more)%list).
  { intros w' (new & T & _). exists new. rewrite T. unfold w0. cbn [Edge.trace].
    now rewrite <- app_assoc. }
  destruct (Edge.rejection (gateway 0 all));
    [cbn [snd]; apply G; now apply grows_one|].
  destruct (negb (Edge.ok (gateway 0 all))).
  - destruct (Nat.eqb (Edge.up_status (gateway 0 all)) 429);
      [cbn [snd]; apply G, grows_refl|].
    destruct (Nat.eqb (Edge.up_status (gateway 0 all)) 402);
      [cbn [snd]; apply G, grows_refl|].
    cbn [snd]. apply G. now apply grows_one.
  - destruct (Edge.up_body (gateway 0 all)) as [m|t].
    + pose proof (tool_loop_grows toLocaleDateString gateway (Some (JStr userId))
                    (S Edge.MAX_ITERATIONS) (Edge.mkLoop m all 0) w0) as L.
      destruct (Edge.tool_loop _ _ _ _ _ _) as [[[st|]|e] w']; cbn [snd] in *;
        try (apply G; exact L).
      apply G. eapply grows_trans; [exact L|]. now apply grows_one.
    + cbn [snd]. apply G. now apply grows_one.
Qed.


(** X8.  A plain answer, end to end: when the gateway answers the
    first completion request with a message that asks for no tool, the
    function posts that one request, leaves the table alone and streams
    the content of the message, or [Done!] for an empty one; the page,
    however the stream is cut, shows it after the user's message, saves
    both messages and clears the loading flag. *)
Theorem plain_answer_is_shown
  (userId conversationId input : string) (p : Client.page) (w : Edge.world)
  (content : option string) :
  userId <> EmptyString ->
  let all := Edge.System (Edge.systemPrompt now)
             :: map forwarded (Client.messages p ++ [Chat.mkMsg Chat.user input])%list in
  Edge.ok (gateway 0 all) = true ->
  Edge.up_body (gateway 0 all) = Edge.Completion (Edge.mkAssistant content None) ->
  Edge.handler toLocaleDateString now gateway
    (Edge.mkRequest "POST"
       (Client.request_body (Client.messages p ++ [Chat.mkMsg Chat.user input])%list
          userId conversationId)) w
  = (Some (Edge.mkResponse 200 (Some "text/event-stream")
             (Edge.EventStream (Sse.chunks (Sse.finalContent content)))),
     Edge.mkWorld (Edge.db w) (Edge.trace w ++ [Edge.Fetch all Tools.tools])%list)
  /\ Client.send (Some userId) conversationId (serve w) input p
     = Some (answered userId conversationId input (Sse.finalContent content) p).
Proof.
  intros U all K B.
  assert (H : Edge.handler toLocaleDateString now gateway
                (Edge.mkRequest "POST"
                   (Client.request_body (Client.messages p ++ [Chat.mkMsg Chat.user input])%list
                      userId conversationId)) w
              = (Some (Edge.mkResponse 200 (Some "text/event-stream")
                         (Edge.EventStream (Sse.chunks (Sse.finalContent content)))),
                 Edge.mkWorld (Edge.db w) (Edge.trace w ++ [Edge.Fetch all Tools.tools])%list)).
  { rewrite (handler_on_body _ userId conversationId w U). fold all.
    rewrite (completion_is_answered _ _ B), K, B. reflexivity. }
  split; [exact H|]. apply send_stream. unfold serve. now rewrite H.
Qed.

(** X9.  The limits of the gateway reach the user: when the gateway
    answers the first completion request with status 429 or 402, the
    function answers with the same status, having posted that one
    request and left the table alone, and the page shows the toast
    [Rate limited] or [Usage limit] and no assistant message. *)
Theorem limits_reach_the_user
  (userId conversationId input : string) (p : Client.page) (w : Edge.world) (code : nat) :
  userId <> EmptyString ->
  let all := Edge.System (Edge.systemPrompt now)
             :: map forwarded (Client.messages p ++ [Chat.mkMsg Chat.user input])%list in
  code = 429 \/ code = 402 ->
  Edge.up_status (gateway 0 all) = code ->
  Edge.handler toLocaleDateString now gateway
    (Edge.mkRequest "POST"
       (Client.request_body (Client.messages p ++ [Chat.mkMsg Chat.user input])%list
          userId conversationId)) w
  = (Some (Edge.json_error code
             (Edge.Literal (if Nat.eqb code 429 then "Rate limited" else "Payment required"))),
     Edge.mkWorld (Edge.db w) (Edge.trace w ++ [Edge.Fetch all Tools.tools])%list)
  /\ Client.send (Some userId) conversationId (serve w) input p
     = Some (refused userId conversationId input
               (if Nat.eqb code 429 then rate_limited else usage_limit) [] p).
Proof.
  intros U all C S.
  assert (A : Edge.rejection (gateway 0 all) = None)
    by (apply status_is_answered; rewrite S; destruct C as [-> | ->]; discriminate).
  assert (K : Edge.ok (gateway 0 all) = false).
  { destruct (gateway 0 all) as [status body|message]; [|discriminate A].
    cbn [Edge.up_status] in S. unfold Edge.ok. rewrite S.
    destruct C as [-> | ->]; reflexivity. }
  assert (H : Edge.handler toLocaleDateString now gateway
                (Edge.mkRequest "POST"
                   (Client.request_body (Client.messages p ++ [Chat.mkMsg Chat.user input])%list
                      userId conversationId)) w
              = (Some (Edge.json_error code
                         (Edge.Literal (if Nat.eqb code 429 then "Rate limited"
                                        else "Payment required"))),
                 Edge.mkWorld (Edge.db w) (Edge.trace w ++ [Edge.Fetch all Tools.tools])%list)).
  { rewrite (handler_on_body _ userId conversationId w U). fold all.
    rewrite A, K, S. destruct C as [-> | ->]; reflexivity. }
  split; [exact H|].
  replace (if Nat.eqb code 429 then rate_limited else usage_limit)
    with (if Nat.eqb code 429 then rate_limited
          else if Nat.eqb code 402 then usage_limit else failed_to_start)
    by (destruct C as [-> | ->]; reflexivity).
  replace (Some (refused userId conversationId input
                   (if Nat.eqb code 429 then rate_limited
                    else if Nat.eqb code 402 then usage_limit else failed_to_start) [] p))
    with (Some (if Nat.eqb code 429
                then refused userId conversationId input rate_limited [] p
                else if Nat.eqb code 402
                     then refused userId conversationId input usage_limit [] p
                     else refused userId conversationId input failed_to_start
                            ["Failed to start stream"] p))
    by (destruct C as [-> | ->]; reflexivity).
  eapply send_error.
  - unfold serve. rewrite H. reflexivity.
  - destruct C as [-> | ->]; reflexivity.
Qed.

End Turn.

(** A page with nothing on it, and a network that gives a body in
    one read. *)
Definition blank_page : Client.page := Client.mkPage [] false 0 [] [] [] [].

Definition one_read (chunks : list string) : list string :=
  [String.concat EmptyString chunks].

Definition the_message (e : Tools.exn) : string := "error".

Lemma page_messages_reach_the_model_witness :
  exists more,
    Edge.trace
      (snd (Edge.handler plain_date "2026-02-10T12:00:00.000Z" quiet
              (Edge.mkRequest "POST"
                 (Client.request_body
                    [Chat.mkMsg Chat.user "add milk"; Chat.mkMsg Chat.assistant "Done!";
                     Chat.mkMsg Chat.user ("and " ++ Str.DQ ++ "eggs" ++ Str.DQ)]
                    "u1" "c1"))
              fresh_world))
    = (Edge.trace fresh_world
       ++ Edge.Fetch (Edge.System (Edge.systemPrompt "2026-02-10T12:00:00.000Z")
                      :: map forwarded
                           [Chat.mkMsg Chat.user "add milk"; Chat.mkMsg Chat.assistant "Done!";
                            Chat.mkMsg Chat.user ("and " ++ Str.DQ ++ "eggs" ++ Str.DQ)])
                     Tools.tools
          :: more)%list.
Proof.
  apply (page_messages_reach_the_model plain_date "2026-02-10T12:00:00.000Z" quiet
           [Chat.mkMsg Chat.user "add milk"; Chat.mkMsg Chat.assistant "Done!";
            Chat.mkMsg Chat.user ("and " ++ Str.DQ ++ "eggs" ++ Str.DQ)]
           "u1" "c1" fresh_world).
  discriminate.
Defined.


Example turn_with_a_tool_call :
  Client.send (Some "u1") "c1"
    (serve plain_date "2026-02-10T12:00:00.000Z" (adds_then_fails 503) the_message
       one_read fresh_world)
    "add milk" blank_page
  = Some (Client.mkPage
            [Chat.mkMsg Chat.user "add milk"; Chat.mkMsg Chat.assistant "Done!"]
            false 1 []
            [Client.mkRow "u1" "c1" Chat.user "add milk";
             Client.mkRow "u1" "c1" Chat.assistant "Done!"]
            ["Done!"] []).
Proof. vm_compute. reflexivity. Qed.

Lemma plain_answer_is_shown_witness :
  Edge.handler plain_date "2026-02-10T12:00:00.000Z" quiet
    (Edge.mkRequest "POST"
       (Client.request_body (Client.messages blank_page ++ [Chat.mkMsg Chat.user "hello"])%list
          "u1" "c1")) fresh_world
  = (Some (Edge.mkResponse 200 (Some "text/event-stream")
             (Edge.EventStream (Sse.chunks (Sse.finalContent (Some "ok"))))),
     Edge.mkWorld (Edge.db fresh_world)
       (Edge.trace fresh_world
        ++ [Edge.Fetch (Edge.System (Edge.systemPrompt "2026-02-10T12:00:00.000Z")
                        :: map forwarded
                             (Client.messages blank_page ++ [Chat.mkMsg Chat.user "hello"])%list)
                       Tools.tools])%list)
  /\ Client.send (Some "u1") "c1"
       (serve plain_date "2026-02-10T12:00:00.000Z" quiet the_message one_read fresh_world)
       "hello" blank_page
     = Some (answered "u1" "c1" "hello" (Sse.finalContent (Some "ok")) blank_page).
Proof.
  apply (plain_answer_is_shown plain_date "2026-02-10T12:00:00.000Z" quiet the_message
           one_read (fun chunks => eq_refl) "u1" "c1" "hello" blank_page fresh_world
           (Some "ok")).
  - discriminate.
  - reflexivity.
  - reflexivity.
Defined.

Lemma limits_reach_the_user_witness :
  Edge.handler plain_date "2026-02-10T12:00:00.000Z" (always_fails 429)
    (Edge.mkRequest "POST"
       (Client.request_body (Client.messages blank_page ++ [Chat.mkMsg Chat.user "hello"])%list
          "u1" "c1")) fresh_world
  = (Some (Edge.json_error 429
             (Edge.Literal (if Nat.eqb 429 429 then "Rate limited" else "Payment required"))),
     Edge.mkWorld (Edge.db fresh_world)
       (Edge.trace fresh_world
        ++ [Edge.Fetch (Edge.System (Edge.systemPrompt "2026-02-10T12:00:00.000Z")
                        :: map forwarded
                             (Client.messages blank_page ++ [Chat.mkMsg Chat.user "hello"])%list)
                       Tools.tools])%list)
  /\ Client.send (Some "u1") "c1"
       (serve plain_date "2026-02-10T12:00:00.000Z" (always_fails 429) the_message one_read
          fresh_world)
       "hello" blank_page
     = Some (refused "u1" "c1" "hello"
               (if Nat.eqb 429 429 then rate_limited else usage_limit) [] blank_page).
Proof.
  apply (limits_reach_the_user plain_date "2026-02-10T12:00:00.000Z" (always_fails 429)
           the_message one_read "u1" "c1" "hello" blank_page fresh_world 429).
  - discriminate.
  - now left.
  - reflexivity.
Defined.

Example error_text_is_not_shown :
  let served := serve plain_date "2026-02-10T12:00:00.000Z" asks_badly the_message one_read
                  fresh_world in
  option_map Client.toasts (Client.send (Some "u1") "c1" served "hello" blank_page)
  = Some [Client.mkToast "Error" "Failed to start stream"]
  /\ option_map Edge.status
       (fst (Edge.handler plain_date "2026-02-10T12:00:00.000Z" asks_badly
               (Edge.mkRequest "POST" (Client.request_body [Chat.mkMsg Chat.user "hello"]
                                         "u1" "c1")) fresh_world))
     = Some 500.
Proof. vm_compute. split; reflexivity. Qed.

(** ** The input box *)

Lemma strip_many_rest (n : nat) (pats : list string) (s : string) :
  exists q, s = q ++ Str.strip_many n pats s.
Proof.
  revert s. induction n as [|n IH]; intros s; [now exists EmptyString|].
  cbn [Str.strip_many].
  destruct (Str.strip_one pats s) as [r|] eqn:E; [|now exists EmptyString].
  destruct (strip_one_spec _ _ _ E) as (p & _ & ->).
  destruct (IH r) as [q Hq]. exists (p ++ q). rewrite append_assoc. now f_equal.
Qed.

Lemma length_rev (s : string) : String.length (Str.rev s) = String.length s.
Proof.
  induction s as [|c s IH]; [reflexivity|].
  simpl. rewrite length_append, IH. simpl. lia.
Qed.

(** No white space begins a trimmed text, and none ends it. *)
Lemma trim_stops (s : string) :
  Str.strip_one Str.white_space (Str.trim s) = None
  /\ Str.strip_one (map Str.rev Str.white_space) (Str.rev (Str.trim s)) = None.
Proof.
  unfold Str.trim. set (x := Str.trimStart s).
  assert (X : Str.strip_one Str.white_space x = None)
    by (apply strip_many_stops; [exact white_space_cr_first | lia]).
  unfold Str.trimEnd. rewrite rev_involutive.
  set (y := Str.strip_many (String.length x) (map Str.rev Str.white_space) (Str.rev x)).
  assert (Y : Str.strip_one (map Str.rev Str.white_space) y = None)
    by (apply strip_many_stops; [exact white_space_rev_cr_first | rewrite length_rev; lia]).
  split; [|exact Y].
  destruct (Str.strip_one Str.white_space (Str.rev y)) as [r|] eqn:E; [|reflexivity].
  destruct (strip_one_spec _ _ _ E) as (p & Hp & Ep).
  destruct (strip_many_rest (String.length x) (map Str.rev Str.white_space) (Str.rev x))
    as [q Hq].
  fold y in Hq. apply (f_equal Str.rev) in Hq.
  rewrite rev_involutive, rev_append, Ep, append_assoc in Hq.
  rewrite Hq, (strip_one_white _ _ Hp) in X. discriminate.
Qed.

Lemma trim_trim (s : string) : Str.trim (Str.trim s) = Str.trim s.
Proof.
  destruct (trim_stops s) as [A B].
  set (y := Str.trim s) in *. unfold Str.trim, Str.trimStart.
  rewrite strip_many_stuck by exact A.
  unfold Str.trimEnd. rewrite strip_many_stuck by exact B.
  apply rev_involutive.
Qed.

(** X10.  The input box gives [send] trimmed text only: a submit
    either changes nothing, when the box is disabled or holds nothing
    but white space, or empties the box and sends one message, which is
    not empty and has no white space at its start or its end. *)
Theorem only_trimmed_text_is_sent (disabled : bool) (b : Client.box) :
  (Client.handleSubmit disabled b = b
   /\ (disabled = true \/ Str.trim (Client.input b) = EmptyString))
  \/ (exists m,
        Client.handleSubmit disabled b = Client.mkBox EmptyString (Client.sent b ++ [m])%list
        /\ disabled = false
        /\ m <> EmptyString
        /\ Str.trim m = m
        /\ Str.strip_one Str.white_space m = None
        /\ Str.strip_one (map Str.rev Str.white_space) (Str.rev m) = None).
Proof.
  unfold Client.handleSubmit.
  destruct (Str.trim (Client.input b)) as [|c t] eqn:T; cbn [Str.is_empty orb].
  - left. auto.
  - destruct disabled; [left; auto|]. right.
    exists (String c t). rewrite <- T.
    destruct (trim_stops (Client.input b)) as [A B].
    repeat split; try assumption; [rewrite T; discriminate | apply trim_trim].
Qed.

(** ** The due date of a task in the panel *)

Lemma ceil_div_unique (a b k : Z) :
  (0 < b)%Z -> ((k - 1) * b < a <= k * b)%Z -> Panel.ceil_div a b = k.
Proof.
  intros B H. unfold Panel.ceil_div.
  rewrite <- (Z.div_unique (- a) b (- k) (k * b - a)); lia.
Qed.

Lemma day_positive : (0 < Panel.day)%Z.
Proof. reflexivity. Qed.

Section Due.

Variable time_of : string -> option Z.
Variable toLocaleDateString : Z -> string.

Local Open Scope Z_scope.

Lemma formatDue_days (now t k : Z) (due_at : string) :
  time_of due_at = Some t ->
  (k - 1) * Panel.day < t - now <= k * Panel.day ->
  Panel.formatDue time_of toLocaleDateString now due_at
  = if k =? 0 then "Today"%string
    else if k =? 1 then "Tomorrow"%string
    else if k =? -1 then "Yesterday"%string
    else if k <? -1 then (Panel.of_Z (Z.abs k) ++ "d overdue")%string
    else if k <=? 7 then ("In " ++ Panel.of_Z k ++ "d")%string
    else toLocaleDateString t.
Proof.
  intros T H. unfold Panel.formatDue. rewrite T. cbv zeta.
  now rewrite (ceil_div_unique _ _ k day_positive H).
Qed.

(** X11.  The label of a due date counts days upwards from the
    clock: a time in the last 24 hours, the present instant included,
    is [Today]; a time in the next 24 hours, one millisecond ahead
    included, is [Tomorrow]; the 24 hours before the last are
    [Yesterday]; [n] days or more back, and less than [n + 1], is
    [nd overdue] (for [n] below [2 ^ 26], where the arithmetic of the
    code is exact); more than [n - 1] days ahead and [n] at most, up
    to seven, is [In nd]; later times are written as a date. *)
Theorem due_label_by_range (now t : Z) (due_at : string) :
  time_of due_at = Some t ->
  let label := Panel.formatDue time_of toLocaleDateString now due_at in
  (now - Panel.day < t <= now -> label = "Today"%string)
  /\ (now < t <= now + Panel.day -> label = "Tomorrow"%string)
  /\ (now - 2 * Panel.day < t <= now - Panel.day -> label = "Yesterday"%string)
  /\ (forall n, 2 <= n < 2 ^ 26 ->
                now - (n + 1) * Panel.day < t <= now - n * Panel.day ->
                label = (Panel.of_Z n ++ "d overdue")%string)
  /\ (forall n, 2 <= n <= 7 -> now + (n - 1) * Panel.day < t <= now + n * Panel.day ->
                label = ("In " ++ Panel.of_Z n ++ "d")%string)
  /\ (now + 7 * Panel.day < t -> label = toLocaleDateString t).
Proof.
  intros T label. unfold label. repeat split.
  - intros H. rewrite (formatDue_days now t 0 due_at T); [reflexivity | lia].
  - intros H. rewrite (formatDue_days now t 1 due_at T); [reflexivity | lia].
  - intros H. rewrite (formatDue_days now t (-1) due_at T); [reflexivity | lia].
  - intros n N H. rewrite (formatDue_days now t (- n) due_at T) by lia.
    destruct (Z.eqb_spec (- n) 0); [lia|].
    destruct (Z.eqb_spec (- n) 1); [lia|].
    destruct (Z.eqb_spec (- n) (-1)); [lia|].
    destruct (Z.ltb_spec (- n) (-1)); [|lia].
    now rewrite Z.abs_opp, Z.abs_eq by lia.
  - intros n N H. rewrite (formatDue_days now t n due_at T) by lia.
    destruct (Z.eqb_spec n 0); [lia|].
    destruct (Z.eqb_spec n 1); [lia|].
    destruct (Z.eqb_spec n (-1)); [lia|].
    destruct (Z.ltb_spec n (-1)); [lia|].
    destruct (Z.leb_spec n 7); [reflexivity | lia].
  - intros H.
    set (k := Panel.ceil_div (t - now) Panel.day).
    assert (K : (k - 1) * Panel.day < t - now <= k * Panel.day).
    { unfold k, Panel.ceil_div. pose proof day_positive as D.
      pose proof (Z.div_mod (- (t - now)) Panel.day ltac:(lia)) as E.
      pose proof (Z.mod_pos_bound (- (t - now)) Panel.day D) as M. lia. }
    rewrite (formatDue_days now t k due_at T K).
    assert (7 < k) by nia.
    destruct (Z.eqb_spec k 0); [lia|].
    destruct (Z.eqb_spec k 1); [lia|].
    destruct (Z.eqb_spec k (-1)); [lia|].
    destruct (Z.ltb_spec k (-1)); [lia|].
    destruct (Z.leb_spec k 7); [lia | reflexivity].
Qed.

(** X12.  A task the panel marks as overdue is labelled as past:
    its due date reads [Today], [Yesterday] or [nd overdue], never
    [Tomorrow], [In nd] or a date. *)
Theorem overdue_is_labelled_as_past (now : Z) (todo : Db.todo) :
  Panel.overdue time_of now todo = true ->
  exists label,
    Panel.due_label time_of toLocaleDateString now todo = Some label
    /\ (label = "Today"%string \/ label = "Yesterday"%string
        \/ exists n, 2 <= n /\ label = (Panel.of_Z n ++ "d overdue")%string).
Proof.
  unfold Panel.overdue, Panel.due_label, Panel.isOverdue.
  intros H. apply andb_true_iff in H as [_ H].
  destruct (Db.due_at todo) as [text|]; [|discriminate].
  destruct (Str.is_empty text); [discriminate|].
  destruct (time_of text) as [t|] eqn:T; [|discriminate].
  apply Z.ltb_lt in H. eexists. split; [reflexivity|].
  set (k := Panel.ceil_div (t - now) Panel.day).
  assert (K : (k - 1) * Panel.day < t - now <= k * Panel.day).
  { unfold k, Panel.ceil_div. pose proof day_positive as D.
    pose proof (Z.div_mod (- (t - now)) Panel.day ltac:(lia)) as E.
    pose proof (Z.mod_pos_bound (- (t - now)) Panel.day D) as M. lia. }
  rewrite (formatDue_days now t k text T K).
  assert (k <= 0) by (pose proof day_positive; nia).
  destruct (Z.eqb_spec k 0); [now left|].
  destruct (Z.eqb_spec k 1); [lia|].
  destruct (Z.eqb_spec k (-1)); [now right; left|].
  destruct (Z.ltb_spec k (-1)); [|lia].
  right; right. exists (Z.abs k). split; [lia | reflexivity].
Qed.

End Due.

(** A clock at noon and a parser that reads every text as one
    millisecond past noon. *)
Definition noon : Z := 1770724800000.

Definition just_after_noon (text : string) : option Z := Some (noon + 1)%Z.

Definition short_date (t : Z) : string := "Feb 10".

Lemma due_label_by_range_witness :
  let label := Panel.formatDue just_after_noon short_date noon "2026-02-10T12:00:00.001Z" in
  ((noon - Panel.day < noon + 1 <= noon)%Z -> label = "Today")
  /\ ((noon < noon + 1 <= noon + Panel.day)%Z -> label = "Tomorrow")
  /\ ((noon - 2 * Panel.day < noon + 1 <= noon - Panel.day)%Z -> label = "Yesterday")
  /\ (forall n, (2 <= n < 2 ^ 26)%Z ->
                (noon - (n + 1) * Panel.day < noon + 1 <= noon - n * Panel.day)%Z ->
                label = Panel.of_Z n ++ "d overdue")
  /\ (forall n, (2 <= n <= 7)%Z ->
                (noon + (n - 1) * Panel.day < noon + 1 <= noon + n * Panel.day)%Z ->
                label = "In " ++ Panel.of_Z n ++ "d")
  /\ ((noon + 7 * Panel.day < noon + 1)%Z -> label = short_date (noon + 1)).
Proof.
  apply (due_label_by_range just_after_noon short_date noon (noon + 1)
           "2026-02-10T12:00:00.001Z").
  reflexivity.
Defined.

Example one_millisecond_ahead_is_tomorrow :
  Panel.formatDue just_after_noon short_date noon "2026-02-10T12:00:00.001Z" = "Tomorrow"
  /\ Panel.formatDue just_after_noon short_date (noon + 1) "2026-02-10T12:00:00.001Z" = "Today"
  /\ Panel.formatDue just_after_noon short_date (noon + 2) "2026-02-10T12:00:00.001Z" = "Today"
  /\ Panel.isOverdue just_after_noon (noon + 2) (Some "2026-02-10T12:00:00.001Z") = true
  /\ Panel.formatDue just_after_noon short_date (noon + 1 + 3 * Panel.day)
       "2026-02-10T12:00:00.001Z" = "3d overdue"
  /\ Panel.formatDue just_after_noon short_date (noon - 2 * Panel.day)
       "2026-02-10T12:00:00.001Z" = "In 3d".
Proof. vm_compute. repeat split. Qed.

Lemma overdue_is_labelled_as_past_witness :
  exists label,
    Panel.due_label just_after_noon short_date (noon + 2)
      (Db.mkTodo 0 "u1" "Buy milk" false (Some "2026-02-10T12:00:00.001Z") 0 0)
    = Some label
    /\ (label = "Today" \/ label = "Yesterday"
        \/ exists n, (2 <= n)%Z /\ label = Panel.of_Z n ++ "d overdue").
Proof.
  apply (overdue_is_labelled_as_past just_after_noon short_date (noon + 2)
           (Db.mkTodo 0 "u1" "Buy milk" false (Some "2026-02-10T12:00:00.001Z") 0 0)).
  reflexivity.
Defined.

(** ** The two lists of the panel *)

(** X23.  The panel shows every task it has fetched once: the
    pending tasks followed by the completed ones are the tasks fetched,
    in another order; no completed task is among the pending ones and
    no pending task among the completed ones. *)
Theorem every_task_is_shown_once (todos : list Db.todo) :
  Permutation (Panel.pending todos ++ Panel.completed todos) todos
  /\ Forall (fun t => Db.completed t = false) (Panel.pending todos)
  /\ Forall (fun t => Db.completed t = true) (Panel.completed todos).
Proof.
  unfold Panel.pending, Panel.completed. split; [|split].
  - induction todos as [|t l IH]; [constructor|].
    cbn [filter]. destruct (Db.completed t); cbn [negb app].
    + apply Permutation_sym, Permutation_cons_app, Permutation_sym, IH.
    + now constructor.
  - apply Forall_forall. intros t I. apply filter_In in I as [_ I].
    now destruct (Db.completed t).
  - apply Forall_forall. intros t I. now apply filter_In in I as [_ I].
Qed.

(** ** The tools one after the other *)

(** A table with no failure to report answers a request by
    performing it. *)
Lemma send_performs (q : Db.request) (d : Db.db) :
  Db.faults d = [] ->
  Db.send q d
  = (fst (Db.perform q d),
     Db.mkDb (snd (Db.perform q d))
       (if match Db.error (fst (Db.perform q d)) with
           | None => Db.is_insert q
           | Some _ => false
           end
        then S (Db.next_id d) else Db.next_id d)
       (S (Db.clock d)) []
       (Db.received d ++ [Db.mkExchange q (fst (Db.perform q d))])%list).
Proof.
  intros F. unfold Db.send. rewrite F. destruct (Db.perform q d). reflexivity.
Qed.

(** Every task was created before the present instant of the table,
    so that a task created now is newer than each of them. *)
Definition created_earlier (d : Db.db) : Prop :=
  Forall (fun t => Db.created_at t < Db.clock d) (Db.rows d).

Lemma empty_db_created_earlier : created_earlier empty_db.
Proof. constructor. Qed.

Lemma patch_keeps_created (now : nat) (c : Db.patch) (t : Db.todo) :
  Db.created_at (Db.apply_patch now c t) = Db.created_at t.
Proof. destruct c as [b|[v|]]; reflexivity. Qed.

(** Every request keeps it so: the instant moves on with each
    request, and a row is created at the instant of its request. *)
Lemma send_created_earlier (q : Db.request) (d : Db.db) :
  created_earlier d -> created_earlier (snd (Db.send q d)).
Proof.
  unfold created_earlier. intros T.
  assert (W : forall l, Forall (fun t => Db.created_at t < Db.clock d) l ->
                        Forall (fun t => Db.created_at t < S (Db.clock d)) l).
  { intros l. apply Forall_impl. intros t H. cbv beta in H |- *. lia. }
  assert (P : Forall (fun t => Db.created_at t < S (Db.clock d)) (snd (Db.perform q d))).
  { destruct q as [u t du|fs o limit|c fs|fs]; cbn [Db.perform].
    - destruct t as [[]|]; cbn [snd]; try (apply W; exact T).
      all: apply Forall_app; split; [apply W; exact T|];
        constructor; [cbn; lia | constructor].
    - destruct (existsb Db.malformed fs); apply W; exact T.
    - destruct (existsb Db.malformed fs); [apply W; exact T|].
      assert (M : Forall (fun t => Db.created_at t < S (Db.clock d))
                    (map (fun r => if Db.matches_all fs r
                                   then Db.apply_patch (Db.clock d) c r else r) (Db.rows d))).
      { apply Forall_map. eapply Forall_impl; [|exact T]. intros t H. cbv beta in H |- *.
        destruct (Db.matches_all fs t); [rewrite patch_keeps_created|]; lia. }
      destruct c as [b|[[]|]]; cbn [snd]; first [exact M | apply W; exact T].
    - destruct (existsb Db.malformed fs); cbn [snd]; [apply W; exact T|].
      apply W. rewrite Forall_forall in *. intros t I. apply filter_In in I as [I _]. auto. }
  unfold Db.send. destruct (Db.faults d) as [|[m|] later].
  - destruct (Db.perform q d); exact P.
  - cbn [snd Db.rows Db.clock]. apply W. exact T.
  - destruct (Db.perform q d); exact P.
Qed.

(** A row newer than every other comes first, whatever the order
    among rows of one instant. *)
Lemma newest_first_last (l : list Db.todo) (r : Db.todo) :
  Forall (fun t => Db.created_at t < Db.created_at r) l ->
  Db.newest_first (l ++ [r]) = r :: Db.newest_first l.
Proof.
  intros H. unfold Db.newest_first. rewrite fold_right_app.
  cbn [fold_right Db.insert_newest].
  assert (G : forall acc, fold_right Db.insert_newest (r :: acc) l
                          = r :: fold_right Db.insert_newest acc l).
  { intros acc. induction H as [|x l Hx _ IH]; [reflexivity|].
    cbn [fold_right]. rewrite IH. cbn [Db.insert_newest].
    replace (Nat.ltb (Db.created_at r) (Db.created_at x)) with false
      by (symmetry; apply Nat.ltb_ge; lia).
    reflexivity. }
  apply G.
Qed.

Lemma join_first (sep x : string) (l : list string) :
  exists rest, Js.join_with sep (x :: l) = x ++ rest
               /\ (rest = EmptyString \/ exists more, rest = sep ++ more).
Proof.
  destruct l as [|y l].
  - exists EmptyString. split; [symmetry; apply append_nil_r | now left].
  - exists (sep ++ Js.join_with sep (y :: l)). split; [reflexivity | right; eauto].
Qed.

Section Tasks.

Variable toLocaleDateString : string -> string.

(** X13.  A task that was added is the first one listed: on a table
    that answers and in which every task was created before the present
    instant, so that the new task is strictly the newest, [add_todo]
    with a title and no due date confirms, and [list_todos] right after
    it begins with the line of the new task, not completed, whatever
    else the user has and in whatever order tasks of one instant are
    listed. *)
Theorem added_task_is_listed_first (u title : string) (args : json) (d : Db.db) :
  Db.faults d = [] ->
  created_earlier d ->
  Js.member args "title" = Some (JStr title) ->
  Js.truthy (Js.member args "due_at") = false ->
  exists d1 d2 rest,
    Tools.executeTool toLocaleDateString "add_todo" args u d
    = (Tools.Returned ("Added task: " ++ Tools.quoted title), d1)
    /\ Db.rows d1
       = (Db.rows d ++ [Db.mkTodo (Db.next_id d) u title false None
                                  (Db.clock d) (Db.clock d)])%list
    /\ Tools.executeTool toLocaleDateString "list_todos" (JObj []) u d1
       = (Tools.Returned ("1. [ ] " ++ title ++ rest), d2)
    /\ (rest = EmptyString \/ exists more, rest = Str.LF ++ more)
    /\ Db.rows d2 = Db.rows d1.
Proof.
  intros F T M D.
  assert (N : args <> JNull) by (intros ->; discriminate M).
  set (new := Db.mkTodo (Db.next_id d) u title false None (Db.clock d) (Db.clock d)).
  assert (A : Tools.executeTool toLocaleDateString "add_todo" args u d
              = (Tools.Returned ("Added task: " ++ Tools.quoted title),
                 Db.mkDb (Db.rows d ++ [new]) (S (Db.next_id d)) (S (Db.clock d)) []
                   (Db.received d
                    ++ [Db.mkExchange (Db.Insert u (Some (JStr title)) None)
                          (Db.mkReply None None)])%list)).
  { unfold Tools.executeTool. cbn [String.eqb Ascii.eqb Bool.eqb].
    rewrite !arg_not_null by exact N.
    unfold Tools.text, Tools.bind, Tools.await, Tools.ret.
    rewrite M, D. rewrite send_performs by exact F.
    cbn [Db.perform fst snd Db.error Db.is_insert Db.column_text Js.printable Js.prints
         Js.to_string Js.text_of].
    now rewrite append_nil_r. }
  eexists. eexists.
  set (d1 := Db.mkDb (Db.rows d ++ [new]) (S (Db.next_id d)) (S (Db.clock d)) []
               (Db.received d
                ++ [Db.mkExchange (Db.Insert u (Some (JStr title)) None)
                      (Db.mkReply None None)])%list) in *.
  assert (L : Db.newest_first (filter (Db.matches_all [Db.EqUserId u]) (Db.rows d1))
              = new :: Db.newest_first (filter (Db.matches_all [Db.EqUserId u]) (Db.rows d))).
  { unfold d1. cbn [Db.rows]. rewrite filter_app. cbn [filter].
    replace (Db.matches_all [Db.EqUserId u] new) with true
      by (cbn; now rewrite String.eqb_refl).
    apply newest_first_last. apply Forall_forall. intros t I.
    apply filter_In in I as [I _]. unfold created_earlier in T.
    rewrite Forall_forall in T. exact (T t I). }
  destruct (join_first Str.LF (Tools.list_line toLocaleDateString new 0)
              (Js.mapi (Tools.list_line toLocaleDateString) 1
                 (Db.newest_first (filter (Db.matches_all [Db.EqUserId u]) (Db.rows d)))))
    as (rest & J & R).
  exists rest. split; [exact A|]. split; [reflexivity|].
  split; [|split; [exact R|]].
  - unfold Tools.executeTool. cbn [String.eqb Ascii.eqb Bool.eqb].
    unfold Tools.arg, Tools.bind, Tools.await, Tools.ret.
    cbn [Js.member Json.lookup Tools.is_undefined].
    rewrite send_performs by reflexivity.
    cbn [Db.perform existsb Db.malformed orb fst snd Db.error Db.data Db.take_limit].
    unfold d1 in L. cbn [Db.rows] in L |- *.
    rewrite L. cbn [Js.mapi]. rewrite J.
    unfold Tools.list_line, new. cbn [Db.due_at Db.completed Db.title Nat.add].
    change (Str.of_nat 1) with "1". rewrite !append_nil_r, !append_assoc. reflexivity.
  - reflexivity.
Qed.

(** X14.  [add_todo] with no title adds nothing: when the arguments
    have no [title], or a [title] that is [null], no row is added and
    the text returned is an error, whatever the table does. *)
Theorem add_without_title_adds_nothing (u : string) (args : json) (d : Db.db) :
  args <> JNull ->
  Js.member args "title" = None \/ Js.member args "title" = Some JNull ->
  exists message d1,
    Tools.executeTool toLocaleDateString "add_todo" args u d
    = (Tools.Returned ("Error: " ++ message), d1)
    /\ Db.rows d1 = Db.rows d.
Proof.
  intros N M. unfold Tools.executeTool. cbn [String.eqb Ascii.eqb Bool.eqb].
  rewrite !arg_not_null by exact N. unfold Tools.bind, Tools.await, Tools.ret.
  set (due := if Js.truthy (Js.member args "due_at") then Js.member args "due_at" else None).
  assert (P : Db.perform (Db.Insert u (Js.member args "title") due) d
              = (Db.failed Db.not_null_title, Db.rows d))
    by (destruct M as [-> | ->]; reflexivity).
  unfold Db.send. destruct (Db.faults d) as [|[m|] later]; rewrite ?P;
    cbn [Db.failed Db.error]; eexists; eexists; split; reflexivity.
Qed.

(** The lookup on a table that answers. *)
Lemma lookup_performs (u : string) (title : option json) (d : Db.db) :
  Db.faults d = [] ->
  exists d1,
    Db.send (Tools.lookup u title) d
    = (Db.mkReply (Some (firstn 1 (matching u title d))) None, d1)
    /\ Db.rows d1 = Db.rows d /\ Db.faults d1 = [] /\ Db.clock d1 = S (Db.clock d).
Proof.
  intros F. rewrite send_performs by exact F. eexists. split; [reflexivity|].
  repeat split.
Qed.

(** A row with its [completed] set. *)
Definition with_completed (b : bool) (now : nat) (t : Db.todo) : Db.todo :=
  Db.mkTodo (Db.id t) (Db.user_id t) (Db.title t) b (Db.due_at t) (Db.created_at t) now.

(** A row with its [title] set. *)
Definition with_title (s : string) (now : nat) (t : Db.todo) : Db.todo :=
  Db.mkTodo (Db.id t) (Db.user_id t) s (Db.completed t) (Db.due_at t) (Db.created_at t) now.

Definition on_id (i : nat) (f : Db.todo -> Db.todo) (t : Db.todo) : Db.todo :=
  if Nat.eqb (Db.id t) i then f t else t.

Lemma matches_id (i : nat) (t : Db.todo) :
  Db.matches_all [Db.EqId i] t = Nat.eqb (Db.id t) i.
Proof. cbn. apply andb_true_r. Qed.

(** [toggle_todo] on a table that answers, when a task matches. *)
Lemma toggle_runs (u : string) (args : json) (d : Db.db) (c : Db.todo) (more : list Db.todo) :
  Db.faults d = [] ->
  args <> JNull ->
  candidates u (Js.member args "title") d = c :: more ->
  exists d2,
    Tools.executeTool toLocaleDateString "toggle_todo" args u d
    = (Tools.Returned ((if Db.completed c then "Uncompleted" else "Completed")
                       ++ ": " ++ Tools.quoted (Db.title c)), d2)
    /\ Db.rows d2
       = map (on_id (Db.id c) (with_completed (negb (Db.completed c)) (S (Db.clock d))))
             (Db.rows d)
    /\ Db.faults d2 = [].
Proof.
  intros F N C. apply candidates_found in C as [P C].
  destruct (lookup_performs u (Js.member args "title") d F) as (d1 & S1 & R1 & F1 & K1).
  unfold Tools.executeTool, Tools.find_one. cbn [String.eqb Ascii.eqb Bool.eqb].
  rewrite !arg_not_null by exact N.
  unfold Tools.text, Tools.bind, Tools.await, Tools.ret.
  rewrite P, S1, C. cbn [firstn Db.data].
  rewrite send_performs by exact F1.
  cbn [Db.perform existsb Db.malformed orb fst snd Db.error Db.is_insert].
  eexists. split; [reflexivity|]. cbn [Db.rows Db.faults]. split; [|reflexivity].
  rewrite R1, K1. apply map_ext. intros t. unfold on_id. rewrite matches_id.
  reflexivity.
Qed.

(** [delete_todo] on a table that answers, when a task matches. *)
Lemma delete_runs (u : string) (args : json) (d : Db.db) (c : Db.todo) (more : list Db.todo) :
  Db.faults d = [] ->
  args <> JNull ->
  Tools.is_completed_sentinel (Js.member args "title") = false ->
  candidates u (Js.member args "title") d = c :: more ->
  exists d2,
    Tools.executeTool toLocaleDateString "delete_todo" args u d
    = (Tools.Returned ("Deleted: " ++ Tools.quoted (Db.title c)), d2)
    /\ Db.rows d2 = filter (fun t => negb (Nat.eqb (Db.id t) (Db.id c))) (Db.rows d)
    /\ Db.faults d2 = [].
Proof.
  intros F N B C. apply candidates_found in C as [P C].
  destruct (lookup_performs u (Js.member args "title") d F) as (d1 & S1 & R1 & F1 & K1).
  unfold Tools.executeTool, Tools.find_one. cbn [String.eqb Ascii.eqb Bool.eqb].
  rewrite !arg_not_null by exact N.
  unfold Tools.text, Tools.bind, Tools.await, Tools.ret.
  rewrite B, P, S1, C. cbn [firstn Db.data].
  rewrite send_performs by exact F1.
  cbn [Db.perform existsb Db.malformed orb fst snd Db.error Db.is_insert].
  eexists. split; [reflexivity|]. cbn [Db.rows Db.faults]. split; [|reflexivity].
  rewrite R1. apply filter_ext. intros t. now rewrite matches_id.
Qed.

(** A call that looks a task up and finds none. *)
Lemma nothing_found (name : string) (u : string) (args : json) (d : Db.db) :
  name = "toggle_todo"
  \/ (name = "delete_todo" /\ Tools.is_completed_sentinel (Js.member args "title") = false) ->
  Db.faults d = [] ->
  args <> JNull ->
  Js.printable (Js.member args "title") = true ->
  matching u (Js.member args "title") d = [] ->
  exists d1,
    Tools.executeTool toLocaleDateString name args u d
    = (Tools.Returned ("No task found matching "
                       ++ Tools.quoted (Js.to_string (Js.member args "title"))), d1)
    /\ Db.rows d1 = Db.rows d.
Proof.
  intros W F N P C.
  destruct (lookup_performs u (Js.member args "title") d F) as (d1 & S1 & R1 & F1 & K1).
  exists d1. split; [|exact R1].
  destruct W as [-> | [-> B]];
    unfold Tools.executeTool, Tools.find_one; cbn [String.eqb Ascii.eqb Bool.eqb];
    rewrite !arg_not_null by exact N;
    unfold Tools.text, Tools.bind, Tools.await, Tools.ret;
    rewrite ?B, P, S1, C; reflexivity.
Qed.

Lemma filter_map_same {A : Type} (p : A -> bool) (f : A -> A) (l : list A) :
  (forall x, p (f x) = p x) -> filter p (map f l) = map f (filter p l).
Proof.
  intros H. induction l as [|x l IH]; [reflexivity|].
  cbn [map filter]. rewrite H, IH. now destruct (p x).
Qed.

Lemma filter_swap {A : Type} (p q : A -> bool) (l : list A) :
  filter p (filter q l) = filter q (filter p l).
Proof.
  induction l as [|x l IH]; [reflexivity|].
  cbn [filter]. destruct (p x) eqn:P, (q x) eqn:Q; cbn [filter]; rewrite ?P, ?Q, IH;
    reflexivity.
Qed.

Definition forget_updated (t : Db.todo) : Db.todo :=
  Db.mkTodo (Db.id t) (Db.user_id t) (Db.title t) (Db.completed t) (Db.due_at t)
            (Db.created_at t) 0.

(** X15.  Toggling twice restores: on a table that answers and in
    which ids are distinct, when exactly one task of the user matches
    the title, [toggle_todo] completes it (or uncompletes it), a second
    [toggle_todo] with the same arguments finds the same task and says
    the opposite, and the rows are then what they were, but for the
    time of the last update. *)
Theorem toggling_twice_restores (u : string) (args : json) (d : Db.db) (c : Db.todo) :
  Db.faults d = [] ->
  NoDup (map Db.id (Db.rows d)) ->
  args <> JNull ->
  candidates u (Js.member args "title") d = [c] ->
  exists d1 d2 c1,
    Tools.executeTool toLocaleDateString "toggle_todo" args u d
    = (Tools.Returned ((if Db.completed c then "Uncompleted" else "Completed")
                       ++ ": " ++ Tools.quoted (Db.title c)), d1)
    /\ candidates u (Js.member args "title") d1 = [c1]
    /\ Db.id c1 = Db.id c /\ Db.completed c1 = negb (Db.completed c)
    /\ Tools.executeTool toLocaleDateString "toggle_todo" args u d1
       = (Tools.Returned ((if Db.completed c then "Completed" else "Uncompleted")
                          ++ ": " ++ Tools.quoted (Db.title c)), d2)
    /\ map forget_updated (Db.rows d2) = map forget_updated (Db.rows d).
Proof.
  intros F K N C.
  destruct (toggle_runs u args d c [] F N C) as (d1 & E1 & R1 & F1).
  set (f1 := on_id (Db.id c) (with_completed (negb (Db.completed c)) (S (Db.clock d)))) in *.
  assert (C1 : candidates u (Js.member args "title") d1 = [f1 c]).
  { destruct (candidates_found _ _ _ _ _ C) as [P C0].
    unfold candidates, matching in *. rewrite P, R1, filter_map_same, C0; [reflexivity|].
    intros t. unfold f1, on_id. now destruct (Nat.eqb (Db.id t) (Db.id c)). }
  assert (Ec : f1 c = with_completed (negb (Db.completed c)) (S (Db.clock d)) c)
    by (unfold f1, on_id; now rewrite Nat.eqb_refl).
  destruct (toggle_runs u args d1 (f1 c) [] F1 N C1) as (d2 & E2 & R2 & F2).
  exists d1, d2, (f1 c). split; [exact E1|]. split; [exact C1|].
  rewrite Ec in *. cbn [with_completed Db.id Db.completed Db.title] in *.
  split; [reflexivity|]. split; [reflexivity|].
  split; [rewrite E2; now destruct (Db.completed c)|].
  rewrite R2, R1, !map_map. apply map_ext_in. intros t I.
  assert (Ic : In c (Db.rows d)).
  { destruct (candidates_found _ _ _ _ _ C) as [_ C0].
    assert (H : In c (matching u (Js.member args "title") d)) by (rewrite C0; now left).
    unfold matching in H. now apply filter_In in H as [H _]. }
  unfold f1, on_id. destruct (Nat.eqb_spec (Db.id t) (Db.id c)) as [E|E].
  - cbn [with_completed Db.id]. rewrite E, Nat.eqb_refl.
    rewrite (same_id_same_row _ t c K I Ic E).
    unfold forget_updated, with_completed. cbn. now rewrite negb_involutive.
  - apply Nat.eqb_neq in E. now rewrite E.
Qed.

(** X16.  A task that was deleted is not found again: on a table
    that answers, when exactly one task of the user matches the title,
    which is not the word for all completed tasks, [delete_todo]
    removes the rows with the id of that task and no other, and a
    second [delete_todo] or a [toggle_todo] with the same arguments
    finds no task and leaves the rows as they are. *)
Theorem deleted_task_is_not_found (u : string) (args : json) (d : Db.db) (c : Db.todo) :
  Db.faults d = [] ->
  args <> JNull ->
  Tools.is_completed_sentinel (Js.member args "title") = false ->
  candidates u (Js.member args "title") d = [c] ->
  exists d1,
    Tools.executeTool toLocaleDateString "delete_todo" args u d
    = (Tools.Returned ("Deleted: " ++ Tools.quoted (Db.title c)), d1)
    /\ Db.rows d1 = filter (fun t => negb (Nat.eqb (Db.id t) (Db.id c))) (Db.rows d)
    /\ forall name, name = "delete_todo" \/ name = "toggle_todo" ->
         exists d2,
           Tools.executeTool toLocaleDateString name args u d1
           = (Tools.Returned ("No task found matching "
                              ++ Tools.quoted (Js.to_string (Js.member args "title"))), d2)
           /\ Db.rows d2 = Db.rows d1.
Proof.
  intros F N B C.
  destruct (delete_runs u args d c [] F N B C) as (d1 & E1 & R1 & F1).
  exists d1. split; [exact E1|]. split; [exact R1|]. intros name W.
  destruct (candidates_found _ _ _ _ _ C) as [P C0].
  apply nothing_found; [destruct W as [-> | ->]; auto | exact F1 | exact N | exact P |].
  unfold matching in *. rewrite R1, filter_swap, C0. cbn [filter].
  now rewrite Nat.eqb_refl.
Qed.

(** X17.  A task that was renamed answers to its new title: on a
    table that answers, when a task of the user matches the old title
    and the new title is a text with no wildcard in it, [update_todo]
    sets the title of the rows with the id of the first match, keeps
    what else they hold, and the lookup by the new title matches the
    renamed task. *)
Theorem renamed_task_answers_to_its_new_title
  (u new_title : string) (args : json) (d : Db.db) (c : Db.todo) (more : list Db.todo) :
  Db.faults d = [] ->
  args <> JNull ->
  candidates u (Js.member args "old_title") d = c :: more ->
  Js.member args "new_title" = Some (JStr new_title) ->
  plain new_title = true ->
  exists d1,
    Tools.executeTool toLocaleDateString "update_todo" args u d
    = (Tools.Returned ("Updated " ++ Tools.quoted (Db.title c) ++ " → "
                       ++ Tools.quoted new_title), d1)
    /\ Db.rows d1 = map (on_id (Db.id c) (with_title new_title (S (Db.clock d)))) (Db.rows d)
    /\ In (with_title new_title (S (Db.clock d)) c)
          (candidates u (Some (JStr new_title)) d1).
Proof.
  intros F N C M P. apply candidates_found in C as [Q C].
  destruct (lookup_performs u (Js.member args "old_title") d F) as (d1 & S1 & R1 & F1 & K1).
  assert (Ic : In c (Db.rows d) /\ Db.user_id c = u).
  { assert (H : In c (matching u (Js.member args "old_title") d)) by (rewrite C; now left).
    unfold matching in H. apply filter_In in H as [H H'].
    split; [exact H|]. cbn in H'. apply andb_true_iff in H' as [H' _].
    now apply String.eqb_eq. }
  destruct Ic as [Ic Uc].
  eexists. split; [|split].
  - unfold Tools.executeTool, Tools.find_one. cbn [String.eqb Ascii.eqb Bool.eqb].
    rewrite !arg_not_null by exact N.
    unfold Tools.text, Tools.bind, Tools.await, Tools.ret.
    rewrite Q, S1, C. cbn [firstn Db.data].
    rewrite send_performs by exact F1. rewrite M.
    cbn [Db.perform existsb Db.malformed orb fst snd Db.error Db.is_insert Js.to_string
         Js.text_of Js.printable Js.prints].
    reflexivity.
  - cbn [Db.rows]. rewrite R1, K1. apply map_ext. intros t. unfold on_id.
    rewrite matches_id. reflexivity.
  - unfold candidates, matching. cbn [Db.rows Js.printable Js.prints].
    apply filter_In. split.
    + rewrite R1, K1. apply in_map_iff. exists c. split; [|exact Ic].
      rewrite matches_id, Nat.eqb_refl. reflexivity.
    + cbn [Db.matches_all forallb Db.matches with_title Db.user_id Db.title Js.to_string
           Js.text_of].
      rewrite Uc, String.eqb_refl, andb_true_r. cbn [andb].
      apply (lookup_matches_substring new_title new_title P).
      exists EmptyString, new_title, EmptyString. now rewrite append_nil_r.
Qed.

Lemma ilike_everything (s : string) : Db.ilike ("%" ++ EmptyString ++ "%") s = true.
Proof.
  change ("%" ++ EmptyString ++ "%") with (String "%"%char "%").
  apply ilike_any. exists EmptyString, s. split; [reflexivity | apply ilike_rest].
Qed.

(** X18.  An empty title is not refused: it matches every task of
    the user, so that on a table that answers [toggle_todo] and
    [delete_todo] with the title [""] act on the first task the user
    has in the table. *)
Theorem empty_title_matches_every_task (u : string) (d : Db.db) :
  candidates u (Some (JStr EmptyString)) d = filter (owned_by u) (Db.rows d)
  /\ forall c more,
       Db.faults d = [] ->
       filter (owned_by u) (Db.rows d) = c :: more ->
       exists d1 d2,
         Tools.executeTool toLocaleDateString "toggle_todo"
           (JObj [("title", JStr EmptyString)]) u d
         = (Tools.Returned ((if Db.completed c then "Uncompleted" else "Completed")
                            ++ ": " ++ Tools.quoted (Db.title c)), d1)
         /\ Tools.executeTool toLocaleDateString "delete_todo"
              (JObj [("title", JStr EmptyString)]) u d
            = (Tools.Returned ("Deleted: " ++ Tools.quoted (Db.title c)), d2)
         /\ Db.rows d2 = filter (fun t => negb (Nat.eqb (Db.id t) (Db.id c))) (Db.rows d).
Proof.
  assert (E : candidates u (Some (JStr EmptyString)) d = filter (owned_by u) (Db.rows d)).
  { unfold candidates, matching. cbn [Js.printable Js.prints]. apply filter_ext. intros t.
    cbn [Db.matches_all forallb Db.matches Js.to_string Js.text_of].
    rewrite ilike_everything. unfold owned_by. now rewrite !andb_true_r. }
  split; [exact E|]. intros c more F C. rewrite <- E in C.
  destruct (toggle_runs u (JObj [("title", JStr EmptyString)]) d c more F
              ltac:(discriminate) C) as (d1 & E1 & _).
  destruct (delete_runs u (JObj [("title", JStr EmptyString)]) d c more F
              ltac:(discriminate) eq_refl C) as (d2 & E2 & R2 & _).
  exists d1, d2. auto.
Qed.

(** X22.  The sweep of completed tasks: on a table that answers,
    [delete_todo] with the title [__completed__] removes the completed
    tasks of the user and no other row, and a [list_todos] of the
    completed tasks right after it finds none. *)
Theorem sweep_leaves_no_completed_task (u : string) (args : json) (d : Db.db) :
  Db.faults d = [] ->
  Js.member args "title" = Some (JStr "__completed__") ->
  exists d1 d2,
    Tools.executeTool toLocaleDateString "delete_todo" args u d
    = (Tools.Returned "Deleted all completed tasks.", d1)
    /\ Db.rows d1 = filter (fun t => negb (owned_by u t && Db.completed t)) (Db.rows d)
    /\ Tools.executeTool toLocaleDateString "list_todos" (JObj [("completed", JBool true)])
         u d1
       = (Tools.Returned "No tasks found.", d2)
    /\ Db.rows d2 = Db.rows d1.
Proof.
  intros F M.
  assert (N : args <> JNull) by (intros ->; discriminate M).
  assert (K : forall t, Db.matches_all [Db.EqUserId u; Db.EqCompleted "true"] t
                        = (owned_by u t && Db.completed t)%bool).
  { intros t. unfold owned_by. cbn. destruct (String.eqb (Db.user_id t) u); [|reflexivity].
    destruct (Db.completed t); reflexivity. }
  eexists. eexists. split; [|split; [|split]].
  - unfold Tools.executeTool. cbn [String.eqb Ascii.eqb Bool.eqb].
    rewrite !arg_not_null by exact N. unfold Tools.bind, Tools.await, Tools.ret.
    rewrite M. cbn [Tools.is_completed_sentinel String.eqb Ascii.eqb Bool.eqb].
    rewrite send_performs by exact F.
    cbn [Db.perform existsb Db.malformed]. change (Db.pg_bool "true") with (Some true).
    cbn [orb fst snd Db.error Db.is_insert]. reflexivity.
  - cbn [Db.rows]. apply filter_ext. intros t. now rewrite K.
  - unfold Tools.executeTool. cbn [String.eqb Ascii.eqb Bool.eqb].
    unfold Tools.arg, Tools.text, Tools.bind, Tools.await, Tools.ret.
    cbn [Js.member Json.lookup String.eqb Ascii.eqb Bool.eqb Tools.is_undefined
         Js.to_string Js.text_of Js.printable Js.prints].
    rewrite send_performs by reflexivity.
    cbn [Db.perform existsb Db.malformed]. change (Db.pg_bool "true") with (Some true).
    cbn [orb fst snd Db.error Db.data Db.take_limit Db.rows].
    replace (filter (Db.matches_all [Db.EqUserId u; Db.EqCompleted "true"])
               (filter (fun r => negb (Db.matches_all [Db.EqUserId u; Db.EqCompleted "true"] r))
                  (Db.rows d)))
      with (@nil Db.todo); [reflexivity|].
    symmetry. induction (Db.rows d) as [|t l IH]; [reflexivity|].
    cbn [filter].
    destruct (Db.matches_all [Db.EqUserId u; Db.EqCompleted "true"] t) eqn:E;
      cbn [negb]; [exact IH|]. cbn [filter]. rewrite E. exact IH.
  - reflexivity.
Qed.

End Tasks.

Definition walk : Db.todo := Db.mkTodo 1 "u1" "Walk" false None 1 1.

Lemma added_task_is_listed_first_witness :
  exists d1 d2 rest,
    Tools.executeTool plain_date "add_todo" (titled "Call mum") "u1" two_users
    = (Tools.Returned ("Added task: " ++ Tools.quoted "Call mum"), d1)
    /\ Db.rows d1
       = (Db.rows two_users
          ++ [Db.mkTodo (Db.next_id two_users) "u1" "Call mum" false None
                        (Db.clock two_users) (Db.clock two_users)])%list
    /\ Tools.executeTool plain_date "list_todos" (JObj []) "u1" d1
       = (Tools.Returned ("1. [ ] " ++ "Call mum" ++ rest), d2)
    /\ (rest = EmptyString \/ exists more, rest = Str.LF ++ more)
    /\ Db.rows d2 = Db.rows d1.
Proof.
  apply (added_task_is_listed_first plain_date "u1" "Call mum" (titled "Call mum") two_users).
  - reflexivity.
  - unfold created_earlier. vm_compute. repeat constructor.
  - reflexivity.
  - reflexivity.
Defined.

Lemma add_without_title_adds_nothing_witness :
  exists message d1,
    Tools.executeTool plain_date "add_todo" (JObj [("due_at", JStr "2026-02-15")]) "u1"
      two_users
    = (Tools.Returned ("Error: " ++ message), d1)
    /\ Db.rows d1 = Db.rows two_users.
Proof.
  apply (add_without_title_adds_nothing plain_date "u1"
           (JObj [("due_at", JStr "2026-02-15")]) two_users).
  - discriminate.
  - now left.
Defined.

Lemma toggling_twice_restores_witness :
  exists d1 d2 c1,
    Tools.executeTool plain_date "toggle_todo" (titled "walk") "u1" two_users
    = (Tools.Returned ((if Db.completed walk then "Uncompleted" else "Completed")
                       ++ ": " ++ Tools.quoted (Db.title walk)), d1)
    /\ candidates "u1" (Js.member (titled "walk") "title") d1 = [c1]
    /\ Db.id c1 = Db.id walk /\ Db.completed c1 = negb (Db.completed walk)
    /\ Tools.executeTool plain_date "toggle_todo" (titled "walk") "u1" d1
       = (Tools.Returned ((if Db.completed walk then "Completed" else "Uncompleted")
                          ++ ": " ++ Tools.quoted (Db.title walk)), d2)
    /\ map forget_updated (Db.rows d2) = map forget_updated (Db.rows two_users).
Proof.
  apply (toggling_twice_restores plain_date "u1" (titled "walk") two_users walk).
  - reflexivity.
  - vm_compute. repeat constructor; simpl; intuition discriminate.
  - discriminate.
  - reflexivity.
Defined.

Lemma deleted_task_is_not_found_witness :
  exists d1,
    Tools.executeTool plain_date "delete_todo" (titled "walk") "u1" two_users
    = (Tools.Returned ("Deleted: " ++ Tools.quoted (Db.title walk)), d1)
    /\ Db.rows d1
       = filter (fun t => negb (Nat.eqb (Db.id t) (Db.id walk))) (Db.rows two_users)
    /\ forall name, name = "delete_todo" \/ name = "toggle_todo" ->
         exists d2,
           Tools.executeTool plain_date name (titled "walk") "u1" d1
           = (Tools.Returned ("No task found matching "
                              ++ Tools.quoted
                                   (Js.to_string (Js.member (titled "walk") "title"))), d2)
           /\ Db.rows d2 = Db.rows d1.
Proof.
  apply (deleted_task_is_not_found plain_date "u1" (titled "walk") two_users walk).
  - reflexivity.
  - discriminate.
  - reflexivity.
  - reflexivity.
Defined.

Definition rename_walk : json :=
  JObj [("old_title", JStr "walk"); ("new_title", JStr "Run 5 km")].

Lemma renamed_task_answers_to_its_new_title_witness :
  exists d1,
    Tools.executeTool plain_date "update_todo" rename_walk "u1" two_users
    = (Tools.Returned ("Updated " ++ Tools.quoted (Db.title walk) ++ " → "
                       ++ Tools.quoted "Run 5 km"), d1)
    /\ Db.rows d1
       = map (on_id (Db.id walk) (with_title "Run 5 km" (S (Db.clock two_users))))
             (Db.rows two_users)
    /\ In (with_title "Run 5 km" (S (Db.clock two_users)) walk)
          (candidates "u1" (Some (JStr "Run 5 km")) d1).
Proof.
  apply (renamed_task_answers_to_its_new_title plain_date "u1" "Run 5 km" rename_walk
           two_users walk []).
  - reflexivity.
  - discriminate.
  - reflexivity.
  - reflexivity.
  - reflexivity.
Defined.

(** The first task of [u1] in [two_users]. *)
Definition first_of_u1 : Db.todo :=
  hd walk (filter (owned_by "u1") (Db.rows two_users)).

Lemma empty_title_matches_every_task_witness :
  exists d1 d2,
    Tools.executeTool plain_date "toggle_todo" (JObj [("title", JStr EmptyString)]) "u1"
      two_users
    = (Tools.Returned ((if Db.completed first_of_u1 then "Uncompleted" else "Completed")
                       ++ ": " ++ Tools.quoted (Db.title first_of_u1)), d1)
    /\ Tools.executeTool plain_date "delete_todo" (JObj [("title", JStr EmptyString)]) "u1"
         two_users
       = (Tools.Returned ("Deleted: " ++ Tools.quoted (Db.title first_of_u1)), d2)
    /\ Db.rows d2
       = filter (fun t => negb (Nat.eqb (Db.id t) (Db.id first_of_u1))) (Db.rows two_users).
Proof.
  apply (proj2 (empty_title_matches_every_task plain_date "u1" two_users)
           first_of_u1 [walk]).
  - reflexivity.
  - vm_compute. reflexivity.
Defined.

Example empty_title_deletes_the_first_task :
  map Db.title (Db.rows (run "delete_todo" (titled EmptyString) "u1" two_users))
  = ["Walk"; "Pay rent"]
  /\ said "delete_todo" (titled EmptyString) "u2" two_users
     = Tools.Returned ("Deleted: " ++ Tools.quoted "Pay rent").
Proof. vm_compute. split; reflexivity. Qed.

Lemma sweep_leaves_no_completed_task_witness :
  exists d1 d2,
    Tools.executeTool plain_date "delete_todo" (titled "__completed__") "u1" two_users
    = (Tools.Returned "Deleted all completed tasks.", d1)
    /\ Db.rows d1
       = filter (fun t => negb (owned_by "u1" t && Db.completed t)) (Db.rows two_users)
    /\ Tools.executeTool plain_date "list_todos" (JObj [("completed", JBool true)]) "u1" d1
       = (Tools.Returned "No tasks found.", d2)
    /\ Db.rows d2 = Db.rows d1.
Proof.
  apply (sweep_leaves_no_completed_task plain_date "u1" (titled "__completed__") two_users).
  - reflexivity.
  - reflexivity.
Defined.

(** ** A tool call whose arguments are not JSON *)

Section Abort.

Variable toLocaleDateString : string -> string.
Variable now : string.
Variable gateway : nat -> list Edge.message -> Edge.upstream.

(** The calls before a given one run to their end, and the loop goes
    on with the rest. *)
Lemma run_calls_app (userId : option json) (before rest : list Edge.tool_call) :
  Js.printable userId = true ->
  Forall well_formed before ->
  forall (conv : list Edge.message) (w : Edge.world),
  exists conv' logs,
    Edge.run_calls toLocaleDateString userId (before ++ rest) conv w
    = Edge.run_calls toLocaleDateString userId rest conv'
        (Edge.mkWorld (replay toLocaleDateString (Js.to_string userId) before (Edge.db w))
                      (Edge.trace w ++ logs)%list)
    /\ forallb is_log logs = true.
Proof.
  intros U.
  induction 1 as [|c later (v & P & N & Q) _ IH]; intros conv w.
  - exists conv, []. destruct w. cbn [app replay Edge.db Edge.trace].
    now rewrite app_nil_r.
  - cbn [app Edge.run_calls replay]. rewrite P.
    unfold Edge.then_ at 1. unfold Edge.emit at 1.
    rewrite (call_tool_printable toLocaleDateString) by exact U.
    unfold Edge.then_ at 1. unfold Edge.on_db at 1. cbn [Edge.db Edge.trace].
    destruct (executeTool_returns toLocaleDateString (Edge.fn_name c) v
                (Js.to_string userId) (Edge.db w) N Q)
      as (s & d' & E).
    rewrite E. cbn [snd].
    destruct (IH (conv ++ [Edge.ToolResult (Edge.call_id c) s])%list
                 (Edge.mkWorld d' (Edge.trace w ++ [Edge.ConsoleLog (Edge.fn_name c) v])%list))
      as (conv' & logs & R & L).
    exists conv', (Edge.ConsoleLog (Edge.fn_name c) v :: logs).
    rewrite R. cbn [Edge.db Edge.trace]. rewrite <- app_assoc. split; [reflexivity|].
    simpl. exact L.
Qed.

(** X21.  The first answer of the model asks for tool calls, one of
    which has arguments that are not JSON, the ones before it being
    well formed: their arguments are JSON for a value other than [null]
    whose [title], [due_at], [completed], [old_title] and [new_title]
    each have a text, so that none of them throws; the [userId] of the
    request has a text as well.  The handler then answers with status
    500 and the message of the syntax error; the calls before the bad
    one have been executed and their changes to the table stay; the
    calls after it are not executed; and no further completion is
    requested. *)
Theorem bad_arguments_abort_the_run
  (req : Edge.request) (userId : option json) (items : list json) (w : Edge.world)
  (m : Edge.assistant_message) (before after : list Edge.tool_call) (bad : Edge.tool_call) :
  accepted req userId items ->
  Js.printable userId = true ->
  Edge.ok (gateway 0 (Edge.System (Edge.systemPrompt now) :: history_of items)) = true ->
  Edge.up_body (gateway 0 (Edge.System (Edge.systemPrompt now) :: history_of items))
  = Edge.Completion m ->
  Edge.tool_calls m = Some (before ++ bad :: after)%list ->
  Forall well_formed before ->
  Json.parse (Edge.fn_arguments bad) = None ->
  exists w' new,
    Edge.handler toLocaleDateString now gateway req w
    = (Some (Edge.json_error 500
               (Edge.MessageOf (Tools.SyntaxError (Edge.fn_arguments bad)))), w')
    /\ Edge.db w'
       = replay toLocaleDateString (Js.to_string userId) before (Edge.db w)
    /\ Edge.trace w' = (Edge.trace w ++ new)%list
    /\ fetches new = 1.
Proof.
  intros A U O B C W P.
  rewrite (handler_not_preflight toLocaleDateString now gateway req w (proj1 A)).
  rewrite (attempt_accepted toLocaleDateString now gateway req userId items w A).
  cbn zeta. rewrite (completion_is_answered _ _ B), O, B. cbn [negb].
  cbn [Edge.tool_loop Edge.assistantMessage Edge.iterations Edge.conversationMessages].
  rewrite C.
  change (Nat.ltb 0 Edge.MAX_ITERATIONS) with true. cbn iota.
  unfold Edge.then_ at 1.
  destruct (run_calls_app userId before (bad :: after) U W
              (Edge.System (Edge.systemPrompt now) :: history_of items
               ++ [Edge.Assistant m])%list
              (Edge.mkWorld (Edge.db w)
                 (Edge.trace w
                  ++ [Edge.Fetch (Edge.System (Edge.systemPrompt now) :: history_of items)
                        Tools.tools])%list))
    as (conv' & logs & R & L).
  change ((Edge.System (Edge.systemPrompt now) :: history_of items) ++ [Edge.Assistant m])%list
    with (Edge.System (Edge.systemPrompt now) :: history_of items ++ [Edge.Assistant m])%list.
  rewrite R. cbn [Edge.run_calls]. rewrite P. unfold Edge.raise. cbn [Edge.db Edge.trace].
  eexists. eexists. split; [reflexivity|]. cbn [Edge.db Edge.trace].
  split; [reflexivity|]. split.
  - rewrite <- !app_assoc. reflexivity.
  - destruct (logs_are_not_fetches logs L) as [F _].
    rewrite !fetches_app, F. reflexivity.
Qed.

End Abort.

(** A model that asks for a task to be added and then for one to be
    deleted, the arguments of the second call being cut short. *)
Definition adds_then_asks_badly (n : nat) (conv : list Edge.message) : Edge.upstream :=
  Edge.mkUpstream 200
    (Edge.Completion
       (Edge.mkAssistant None
          (Some [Edge.mkCall "call_1" "add_todo" (Json.stringify (titled "Buy milk"));
                 Edge.mkCall "call_2" "delete_todo" "{";
                 Edge.mkCall "call_3" "add_todo" (Json.stringify (titled "Walk"))]))).

Lemma bad_arguments_abort_the_run_witness :
  exists w' new,
    Edge.handler plain_date "2026-02-10T12:00:00.000Z" adds_then_asks_badly
      (chat_request "u1" "add milk") fresh_world
    = (Some (Edge.json_error 500 (Edge.MessageOf (Tools.SyntaxError "{"))), w')
    /\ Edge.db w'
       = replay plain_date "u1"
           [Edge.mkCall "call_1" "add_todo" (Json.stringify (titled "Buy milk"))]
           (Edge.db fresh_world)
    /\ Edge.trace w' = (Edge.trace fresh_world ++ new)%list
    /\ fetches new = 1.
Proof.
  refine (bad_arguments_abort_the_run plain_date "2026-02-10T12:00:00.000Z"
            adds_then_asks_badly (chat_request "u1" "add milk") (Some (JStr "u1"))
            [JObj [("role", JStr "user"); ("content", JStr "add milk")]] fresh_world
            _ [Edge.mkCall "call_1" "add_todo" (Json.stringify (titled "Buy milk"))]
            [Edge.mkCall "call_3" "add_todo" (Json.stringify (titled "Walk"))]
            (Edge.mkCall "call_2" "delete_todo" "{") _ _ _ _ _ _ _).
  - apply chat_request_accepted; [discriminate | vm_compute; reflexivity].
  - reflexivity.
  - reflexivity.
  - reflexivity.
  - reflexivity.
  - constructor; [|constructor].
    exists (titled "Buy milk").
    split; [vm_compute; reflexivity | split; [discriminate | reflexivity]].
  - vm_compute. reflexivity.
Defined.

(** An earlier call whose title has no text throws: the handler
    answers with the message of that error, and the call after it is
    not executed. *)
Definition asks_without_text (n : nat) (conv : list Edge.message) : Edge.upstream :=
  Edge.mkUpstream 200
    (Edge.Completion
       (Edge.mkAssistant None
          (Some [Edge.mkCall "call_1" "toggle_todo"
                   (Json.stringify (JObj [("title", no_text)]));
                 Edge.mkCall "call_2" "add_todo" (Json.stringify (titled "Walk"));
                 Edge.mkCall "call_3" "delete_todo" "{"]))).

Example call_without_text_ends_the_run :
  let out := Edge.handler plain_date "2026-02-10T12:00:00.000Z" asks_without_text
               (chat_request "u1" "toggle it") fresh_world in
  fst out = Some (Edge.json_error 500 (Edge.MessageOf Tools.NoPrimitive))
  /\ Db.rows (Edge.db (snd out)) = [].
Proof. vm_compute. split; reflexivity. Qed.

Example task_added_before_bad_call_stays :
  let out := Edge.handler plain_date "2026-02-10T12:00:00.000Z" adds_then_asks_badly
               (chat_request "u1" "add milk") fresh_world in
  option_map Edge.status (fst out) = Some 500
  /\ map Db.title (Db.rows (Edge.db (snd out))) = ["Buy milk"].
Proof. vm_compute. split; reflexivity. Qed.
